(* ===== verification/_CoqProject ===== *)
-Q . S2P
Prelude.v
CString.v
Effects.v
Aidl.v
Platform.v
Uevent.v
I2cPath.v
Sim.v
DataSession.v
DataSessionFacts.v
DataSessionProps.v
PortQuery.v
UsbHal.v
SimUsb.v
UsbFacts.v
Locks.v
UsbLocks.v
PortFacts.v
PortProps.v
UsbProps.v
Gadget.v
GadgetProps.v
Health.v
HealthProps.v
FpTest.v
Pkvm.v
PowerStats.v
PowerStatsProps.v
