(* ===== verification/Prelude.v ===== *)
(** * Verification of the gs101 vendor daemons (device/google/gs101)

    The tree configures a phone; most of it is data for other programs.  What
    it has of programs of its own are a few daemons and tools in C++ and C,
    and this development models all of them that have logic of their own:

    - the USB HAL, usb/usb/Usb.cpp: a binder service that reports the state of
      the type-C ports, switches their roles, turns data on and off, and limits
      power; with a worker thread that listens for uevents, and the USB data
      session monitor, usb/usb/UsbDataSessionMonitor.cpp, a thread that
      accounts for data sessions and derives compliance warnings;
    - the USB gadget service, usb/gadget/UsbGadget.cpp;
    - the health service, health/Health.cpp;
    - the power statistics providers, powerstats/Gs101CommonDataProviders.cpp;
    - the fingerprint test tool and the pKVM enabler.

    ** How programs are modelled

    A function is a computation of the monad of [Effects.v], in the order of
    its statements.  It runs in a [world], the state [self] it owns and the
    outside [kernel]; every interaction with the outside (a file, a descriptor,
    a clock, a mutex, a library outside the tree, a callback) is a request,
    answered by an [Oracle] and recorded with its answer in a trace.  It ends
    in [Done], or in [Crash] with the fault: an index out of bounds, a union
    read through the wrong tag, an exception nobody catches, an undefined
    conversion, abort.  Members of a class are the fields of a record, with a
    setter each; in and out parameters are passed in and handed back; logging
    is left out.  The theorems hold for every oracle, so whatever the kernel
    and the libraries answer; where one relies on documented behaviour of a
    library, that is a named hypothesis ([Platform.v], [SaneSysfs] in
    [PortFacts.v]), and a witness gives a device on which it holds ([Sim.v],
    [SimUsb.v]).  Theorems are stated with [wp]: what is true of the result,
    the state and the trace if the run ends, and of the fault and the trace if
    it crashes; they exclude crashes or say which there are.

    ** The files

    - [Prelude]: machine integers with their wrap-around, float32, tactics,
      lists.  [CString]: the string functions the sources use, with
      specifications.  [Effects]: the monad, [wp], frames, what a program emits,
      and the tactics [wp_run] and [walk].  [Aidl]: the generated data types as
      far as the sources name them.  [Platform]: the requests, their answers,
      and what can be read off a trace (writes, callbacks, locks, uploads).
    - [Uevent]: the pointer loop over a netlink message, [uevent_event] in
      Usb.cpp and [handleUevent] in UsbDataSessionMonitor.cpp.  [I2cPath]:
      [getI2cBusNumber] and [getI2cClientPath], in Usb.cpp and UsbGadget.cpp.
    - [DataSession]: class UsbDataSessionMonitor, its constructor, handlers and
      [monitorThread]; [DataSessionFacts], [DataSessionProps]: its invariant
      and the specification of its parts, against any callback that leaves the
      monitor alone ([quiet_callback]).
    - [PortQuery]: struct Usb and the globals of Usb.cpp, and everything below
      [queryVersionHelper]; [UsbHal]: the methods of Usb, the worker thread,
      [setCallback], the constructor.  [UsbFacts]: what the queries leave alone,
      and that [updatePortStatus] is a quiet callback.  [PortFacts],
      [PortProps], [UsbProps]: their properties.
    - [Locks]: lock scripts, interleavings as a step relation, and when they
      get stuck; [UsbLocks]: the lock discipline of the HAL's operations.
    - [Gadget], [GadgetProps]: UsbGadget.cpp.  [Health], [HealthProps]:
      Health.cpp.  [PowerStats], [PowerStatsProps]: the providers.  [FpTest]:
      fp_test.cpp.  [Pkvm]: pkvm_enabler.c.

    ** What is shown

    - The monitor: the warnings it computes and whom it tells (C1), the
      invariant of its state from the constructor on (C2) and inside the
      service (C12), every branch of its handlers (C11, C14, C26), descriptors
      (C38).  It leaks one for each replug (C39), and keeps warnings that a
      comment says a soft pulldown clears (C36).
    - Port queries: the vector that is returned and notified, port by port from
      what was read (C4), the scan of the ports (C22), role names (C23), and
      the crash when there is no port (C20).
    - Operations: data signaling (C5, and the state it can get stuck in, C15),
      roles (C7, C9), power (C13), the overheat report (C27), one worker per
      registered callback (C21), the controller's path (C37).
    - Termination: the loops over lists, messages and texts are structural or
      shown to end (C19, C25).  The wait for a partner is bounded by the fuel
      of [wait_again] alone; C10 shows that fuel counts the waits exactly, that
      more of it never changes a run that ended, and that the loop goes on only
      while every wait is woken up with neither a time-out nor a partner.  The
      code has no bound of its own there.
    - Locking: every operation takes and gives back the mutexes in one order
      (C24); any interleaving of any operations gets stuck only where an
      unregistration waits, with [mLock], for the worker (C3), and it can (C16).
    - The gadget service: the switch of functions (C6), the ids (C8), the
      interrupt's path (C19), the current limit (C28).
    - Health: caching of the storage information (C17, C30), the disk
      statistics (C18), the wireless level (C29).  Power statistics: the
      registered tables agree with each other (C31, C32, C33).  Tools: all
      their runs (C34, C35).

    ** Threads

    A run of an operation is one sequential computation.  What other threads do
    meanwhile shows in two places.  [CondTimedwait] answers whether the uevent
    thread set [mPartnerUp] while the mutex was released; that member is
    guarded by [mPartnerLock] everywhere.  And [Locks.v] interleaves the lock
    scripts that complete runs leave, each run in any state and with any
    answers, so that whatever the other threads change between two requests is
    covered as far as locking goes.  Data races are not modelled.

    ** Bounds, fuel and representation

    - Integers are [Z], wrapped where the code's type matters; lengths passed
      to [substr] and the casts of sizes to [int] are written out.  [float] is
      IEEE 754 binary32 in the standard library's executable form; a product
      that does not fit the [int] it is converted to is a fault.
    - The worker and the monitor run for the wakeups they are given: a list of
      what the kernel reports, of any length, is an argument of [work] and of
      [monitorThread].
    - [unique_fd] is documented RAII of a library outside the tree: assigning
      to it closes the descriptor it held, leaving a scope closes it, [release]
      does not.  [move_fd], [addEpollFile] and [removeEpollFile] write these
      closes out.
    - stdio: [Fputs] answers whether the text went into the buffer, [Fclose]
      whether it reached the file.  The code looks at the first only; so the
      success recorded with a write through stdio is that of [fputs].
    - Uninitialised variables ([mDataRole], the version number of the health
      service) are arguments named [garbage].

    ** What is not modelled

    Prints and logs; the libraries outside the tree beyond what they are asked
    and answer; the configuration of the overheat sampler; pixelstats/service.cpp,
    usb/usb/service.cpp and usb/gadget/service_gadget.cpp, whose [main]s hand
    constant tables to a library or register a service; the Java receiver; and
    the build files, init scripts, policies, overlays and other data. *)
From Stdlib Require Export ZArith Lia Sorted SpecFloat.
From stdpp Require Export base tactics list option numbers strings sets.

#[global] Set Default Goal Selector "!".

Declare Scope gs101_scope.
Delimit Scope gs101_scope with gs101.
#[global] Open Scope gs101_scope.
Open Scope Z_scope.

(** ** Machine integers

    [int] is 32 bits wide; [long], [size_t], [int64_t] and [uint64_t] are 64
    bits wide on the only target of this tree (arm64). *)
Definition wrapU (w : Z) (z : Z) : Z := z mod 2 ^ w.
Definition wrapS (w : Z) (z : Z) : Z :=
  let u := z mod 2 ^ w in if u <? 2 ^ (w - 1) then u else u - 2 ^ w.

Lemma wrapU_small w z : 0 <= z < 2 ^ w -> wrapU w z = z.
Proof. intros H. unfold wrapU. by apply Z.mod_small. Qed.

Lemma wrapU_bounds w z : 0 <= w -> 0 <= wrapU w z < 2 ^ w.
Proof. intros H. unfold wrapU. apply Z.mod_pos_bound. lia. Qed.

Lemma wrapS_small w z : 0 < w -> 0 <= z < 2 ^ (w - 1) -> wrapS w z = z.
Proof.
  intros Hw Hz. unfold wrapS.
  assert (2 ^ w = 2 * 2 ^ (w - 1)) as Hp.
  { rewrite <- Z.pow_succ_r by lia. f_equal. lia. }
  rewrite Z.mod_small by lia.
  destruct (Z.ltb_spec z (2 ^ (w - 1))); lia.
Qed.

Lemma wrapS_bounds w z : 0 < w -> - 2 ^ (w - 1) <= wrapS w z < 2 ^ (w - 1).
Proof.
  intros Hw. unfold wrapS.
  assert (2 ^ w = 2 * 2 ^ (w - 1)) as Hp.
  { rewrite <- Z.pow_succ_r by lia. f_equal. lia. }
  pose proof (Z.mod_pos_bound z (2 ^ w) ltac:(lia)).
  destruct (Z.ltb_spec (z mod 2 ^ w) (2 ^ (w - 1))); lia.
Qed.

(** ** Floats

    [float] is the binary32 of IEEE 754, here in the standard library's
    executable specification. *)
Definition float32 : Type := spec_float.
Definition fmul32 (x y : float32) : float32 := SFmul 24 128 x y.
Definition float_10 : float32 := S754_finite false 10485760 (-20).
(** Conversion to a 32-bit [int]: towards zero; [None] where it is undefined. *)
Definition int32_of_float (x : float32) : option Z :=
  match x with
  | S754_zero _ => Some 0
  | S754_finite neg m e =>
      let a := if 0 <=? e then Z.pos m * 2 ^ e else Z.pos m / 2 ^ (- e) in
      let v := if neg then - a else a in
      if (- 2 ^ 31 <=? v) && (v <? 2 ^ 31) then Some v else None
  | S754_infinity _ | S754_nan => None
  end.
(** [(int)(x * 10)] *)
Definition tenths (x : float32) : option Z := int32_of_float (fmul32 x float_10).

(** ** Tactics of the development *)

(** Split conjunctions in hypotheses and goals, and close what is immediate. *)
Ltac crush :=
  repeat (simplify_eq/=; match goal with
    | H : _ /\ _ |- _ => destruct H
    | H : exists _, _ |- _ => destruct H
    | |- _ /\ _ => split
    end); try done.

(** Case analysis on the innermost scrutinee of a [match] or [if]. *)
Ltac innermost x :=
  match x with
  | context [match ?y with _ => _ end] => innermost y
  | context [if ?y then _ else _] => innermost y
  | _ => destruct x eqn:?
  end.
Ltac split_match :=
  match goal with
  | |- context [match ?x with _ => _ end] => innermost x
  end.

(** Evaluate the [bool_decide]s whose propositions are decided by [done]. *)
Ltac decide_closed :=
  repeat match goal with
  | |- context [bool_decide ?P] =>
      first [rewrite (bool_decide_true P) by done | rewrite (bool_decide_false P) by done]
  end.

(** ** Lists *)

(** The number of elements equal to [x]: [std::count]. *)
Definition count_eq {A} `{!EqDecision A} (x : A) (l : list A) : nat :=
  length (filter (fun y => y = x) l).

Lemma count_eq_le {A} `{!EqDecision A} (x : A) l : (count_eq x l <= length l)%nat.
Proof. unfold count_eq. apply length_filter. Qed.

Lemma count_eq_nil {A} `{!EqDecision A} (x : A) : count_eq x [] = 0%nat.
Proof. done. Qed.

Lemma count_eq_app {A} `{!EqDecision A} (x : A) l k :
  count_eq x (l ++ k) = (count_eq x l + count_eq x k)%nat.
Proof. unfold count_eq. by rewrite filter_app, length_app. Qed.
