(* ===== verification/CString.v ===== *)
(** * C and C++ strings

    The parts of [<cstring>], [<string>], [<cstdlib>] and [<regex>] the sources
    use, on byte strings, with their specifications.  A C string is a [string]
    without the NUL byte; a buffer is a [string] that may hold NUL bytes. *)
From Stdlib Require Export Ascii.
From stdpp Require Export pretty.
From S2P Require Import Prelude.

Definition NUL : ascii := "000"%char.
Definition LF : ascii := "010"%char.
Definition CR : ascii := "013"%char.

(** Paths are built as [dir + "/" + name]. *)
Notation "d // n" := (d +:+ "/" +:+ n) (at level 60, right associativity) : gs101_scope.

Fixpoint strlen (s : string) : nat :=
  match s with EmptyString => 0%nat | String _ s => S (strlen s) end.
Fixpoint stake (n : nat) (s : string) : string :=
  match n, s with S n, String c s => String c (stake n s) | _, _ => "" end.
Fixpoint sdrop (n : nat) (s : string) : string :=
  match n, s with S n, String _ s => sdrop n s | _, _ => s end.
Fixpoint sall (p : ascii -> bool) (s : string) : bool :=
  match s with EmptyString => true | String c s => p c && sall p s end.

Definition streq (s t : string) : bool := bool_decide (s = t).

(** [!strncmp(s, p, n)]: equal up to [n] characters or the end of both. *)
Fixpoint strncmp_eq (s p : string) (n : nat) : bool :=
  match n, s, p with
  | O, _, _ => true
  | S _, EmptyString, EmptyString => true
  | S n, String c s, String d p => Ascii.eqb c d && strncmp_eq s p n
  | _, _, _ => false
  end.

(** [!strncmp(s, p, strlen(p))] *)
Definition starts_with (p s : string) : bool := strncmp_eq s p (strlen p).

(** [s.find(p)], [None] for [npos]; also [strstr(s, p)]. *)
Fixpoint find_sub (p s : string) : option nat :=
  if starts_with p s then Some 0%nat
  else match s with
       | EmptyString => None
       | String _ s => S <$> find_sub p s
       end.

(** [s.find_first_of(c, pos)] for a single character *)
Fixpoint find_char (c : ascii) (s : string) : option nat :=
  match s with
  | EmptyString => None
  | String d s => if Ascii.eqb d c then Some 0%nat else S <$> find_char c s
  end.
Definition find_first_of (c : ascii) (pos : nat) (s : string) : option nat :=
  (fun i => (pos + i)%nat) <$> find_char c (sdrop pos s).

(** [s.substr(pos, n)] with [pos <= s.size()] *)
Definition substr (pos n : nat) (s : string) : string := stake n (sdrop pos s).

(** [strtok(s, d)], first call, for a single delimiter; [None] for [NULL] *)
Fixpoint skip_char (c : ascii) (s : string) : string :=
  match s with
  | String d s' => if Ascii.eqb d c then skip_char c s' else s
  | EmptyString => ""
  end.
Fixpoint until_char (c : ascii) (s : string) : string :=
  match s with
  | String d s' => if Ascii.eqb d c then "" else String d (until_char c s')
  | EmptyString => ""
  end.
Definition strtok (c : ascii) (s : string) : option string :=
  match skip_char c s with
  | EmptyString => None
  | t => Some (until_char c t)
  end.

(** ** Numbers *)

(** [isspace] in the C locale *)
Definition isspace (c : ascii) : bool :=
  let n := N_of_ascii c in ((n =? 32) || ((9 <=? n) && (n <=? 13)))%N.
Fixpoint skip_space (s : string) : string :=
  match s with
  | String c s' => if isspace c then skip_space s' else s
  | EmptyString => ""
  end.

(** The value of a digit in base [b]. *)
Definition digit (b : Z) (c : ascii) : option Z :=
  let n := Z.of_N (N_of_ascii c) in
  let v := if (48 <=? n) && (n <=? 57) then n - 48
           else if (97 <=? n) && (n <=? 122) then n - 87
           else if (65 <=? n) && (n <=? 90) then n - 55
           else b in
  if v <? b then Some v else None.

(** The longest run of digits at the head of [s], accumulated into [acc]. *)
Fixpoint digits (b acc : Z) (s : string) : Z :=
  match s with
  | EmptyString => acc
  | String c s => match digit b c with Some v => digits b (acc * b + v) s | None => acc end
  end.

Definition strip_sign (s : string) : bool * string :=
  match s with
  | String "-" t => (true, t)
  | String "+" t => (false, t)
  | _ => (false, s)
  end.

(** [strtol] in base 10 without its range: blanks, an optional sign, and at
    least one digit. *)
Definition parse_dec (s : string) : option Z :=
  let '(neg, t) := strip_sign (skip_space s) in
  match t with
  | String c _ =>
      match digit 10 c with
      | Some _ => let v := digits 10 0 t in Some (if (neg : bool) then - v else v)
      | None => None
      end
  | EmptyString => None
  end.

(** [std::stoi]; [None] where it throws [invalid_argument] or [out_of_range]. *)
Definition stoi (s : string) : option Z :=
  match parse_dec s with
  | Some v => if (- 2 ^ 31 <=? v) && (v <? 2 ^ 31) then Some v else None
  | None => None
  end.

(** [sscanf(s, "<lit>%u", &n) == 1]: the conversion goes through [strtoumax]
    and is stored in an [unsigned int]. *)
Definition sscanf_u (lit s : string) : option Z :=
  if starts_with lit s then
    (fun v => if v <? 0 then wrapU 32 (wrapU 64 (- Z.min (- v) (2 ^ 64 - 1)))
              else wrapU 32 (Z.min v (2 ^ 64 - 1))) <$>
      parse_dec (sdrop (strlen lit) s)
  else None.

(** [%x], and [%04x] *)
Definition hex_char (v : Z) : ascii :=
  ascii_of_N (Z.to_N (if v <? 10 then 48 + v else 87 + v)).
Fixpoint hex_go (fuel : nat) (v : Z) (acc : string) : string :=
  match fuel with
  | O => acc
  | S fuel =>
      let acc := String (hex_char (v mod 16)) acc in
      if v / 16 =? 0 then acc else hex_go fuel (v / 16) acc
  end.
(** Sixteen digits are enough for a 64-bit value. *)
Definition print_hex (v : Z) : string := hex_go 16 v "".
Fixpoint zeros (n : nat) : string := match n with O => "" | S n => String "0" (zeros n) end.
Definition print_hex_pad (n : nat) (v : Z) : string :=
  let s := print_hex v in zeros (n - strlen s) +:+ s.

(** ** NUL-terminated strings inside a buffer *)

Definition at_ (s : string) (i : nat) : option ascii :=
  match sdrop i s with String c _ => Some c | EmptyString => None end.

(** The C string that starts at [s], and what is left after its NUL; [None]
    when the buffer ends before a NUL. *)
Fixpoint cstr (s : string) : option (string * string) :=
  match s with
  | EmptyString => None
  | String c s =>
      if Ascii.eqb c NUL then Some ("", s)
      else (fun p => (String c p.1, p.2)) <$> cstr s
  end.

(** ** Regular expressions

    The patterns of the sources use literals, [.], [.*], [[0-9]] and groups
    whose matches nobody reads. *)
Inductive ratom := RLit (c : ascii) | RAny | RAnyStar | RDigit.

Fixpoint parse_regex (s : string) : list ratom :=
  match s with
  | EmptyString => []
  | String "[" (String "0" (String "-" (String "9" (String "]" s)))) => RDigit :: parse_regex s
  | String "." (String "*" s) => RAnyStar :: parse_regex s
  | String "." s => RAny :: parse_regex s
  | String "(" s => parse_regex s
  | String ")" s => parse_regex s
  | String c s => RLit c :: parse_regex s
  end.

(** ECMAScript's [.] matches all but line terminators. *)
Definition is_any (c : ascii) : bool := negb (Ascii.eqb c LF) && negb (Ascii.eqb c CR).

(** Match at the head of [s]; up to its end when [full]. *)
Fixpoint rmatch (full : bool) (r : list ratom) (s : string) {struct r} : bool :=
  match r with
  | [] => if full then streq s "" else true
  | RAnyStar :: r =>
      (fix go s := rmatch full r s ||
         match s with String c s => is_any c && go s | EmptyString => false end) s
  | a :: r =>
      match s with
      | EmptyString => false
      | String c s =>
          match a with
          | RLit d => Ascii.eqb c d
          | RDigit => bool_decide (is_Some (digit 10 c))
          | _ => is_any c
          end && rmatch full r s
      end
  end.

(** [std::regex_match] and [std::regex_search] *)
Definition regex_match (s pat : string) : bool := rmatch true (parse_regex pat) s.
Fixpoint rsearch (r : list ratom) (s : string) : bool :=
  rmatch false r s || match s with String _ s => rsearch r s | EmptyString => false end.
Definition regex_search (s pat : string) : bool := rsearch (parse_regex pat) s.

(** ** Specifications *)

Lemma app_nil_s s : s +:+ "" = s.
Proof. induction s as [|c s IH]; [done|]. unfold String.append. fold String.append. by rewrite IH. Qed.
Lemma app_cons_s c s t : String c s +:+ t = String c (s +:+ t).
Proof. done. Qed.
Lemma app_assoc_s s t u : (s +:+ t) +:+ u = s +:+ t +:+ u.
Proof. induction s as [|c s IH]; [done|]. by rewrite !app_cons_s, IH. Qed.
Lemma strlen_app s t : strlen (s +:+ t) = (strlen s + strlen t)%nat.
Proof. induction s as [|c s IH]; [done|]. rewrite app_cons_s. simpl. by rewrite IH. Qed.
Lemma sdrop_app s t : sdrop (strlen s) (s +:+ t) = t.
Proof. induction s as [|c s IH]; [done|]. rewrite app_cons_s. done. Qed.
Lemma stake_app s t : stake (strlen s) (s +:+ t) = s.
Proof. induction s as [|c s IH]; [by destruct t|]. rewrite app_cons_s. simpl. by rewrite IH. Qed.
Lemma stake_sdrop n s : stake n s +:+ sdrop n s = s.
Proof.
  revert s. induction n as [|n IH]; intros [|c s]; try done. simpl.
  by rewrite app_cons_s, IH.
Qed.
Lemma stake_all s n : (strlen s <= n)%nat -> stake n s = s.
Proof.
  revert n. induction s as [|c s IH]; intros [|n] H; simpl in *; try done; [lia|].
  rewrite IH; [done|lia].
Qed.
Lemma sdrop_0 s : sdrop 0 s = s.
Proof. by destruct s. Qed.
Lemma sall_app p s t : sall p (s +:+ t) = sall p s && sall p t.
Proof. induction s as [|c s IH]; [done|]. rewrite app_cons_s. simpl. by rewrite IH, andb_assoc. Qed.

Lemma streq_true s t : streq s t = true <-> s = t.
Proof. apply bool_decide_eq_true. Qed.
Lemma streq_false s t : streq s t = false <-> s <> t.
Proof. apply bool_decide_eq_false. Qed.
Lemma streq_refl s : streq s s = true.
Proof. by apply streq_true. Qed.

Lemma starts_with_spec p s : starts_with p s = true <-> exists t, s = p +:+ t.
Proof.
  unfold starts_with. revert s. induction p as [|c p IH]; intros s; simpl.
  - split; [intros _; by exists s | by destruct s].
  - destruct s as [|d s]; simpl.
    { split; [done|]. by intros [t Ht]. }
    rewrite andb_true_iff, Ascii.eqb_eq, IH. split.
    + intros [-> [t ->]]. by exists t.
    + intros [t [= -> ->]]. split; [done|]. by exists t.
Qed.

Lemma starts_with_app p t : starts_with p (p +:+ t) = true.
Proof. apply starts_with_spec. by exists t. Qed.

(** Comparing more characters than the shorter argument has is equality. *)
Lemma strncmp_eq_long s p n :
  (strlen p < n)%nat -> strncmp_eq s p n = true <-> s = p.
Proof.
  revert s p. induction n as [|n IH]; intros s p H; [lia|].
  destruct s as [|c s], p as [|d p]; simpl in *; try (by split; [intros|inversion 1]); try done.
  rewrite andb_true_iff, Ascii.eqb_eq, IH by lia. split; [by intros [-> ->]|by intros [= -> ->]].
Qed.

Lemma find_sub_Some p s i :
  find_sub p s = Some i -> exists u v, s = u +:+ p +:+ v /\ strlen u = i.
Proof.
  revert i. induction s as [|c s IH]; intros i; simpl.
  - destruct (starts_with p "") eqn:E; [|done]. intros [= <-].
    apply starts_with_spec in E as [t E]. by exists "", t.
  - destruct (starts_with p (String c s)) eqn:E.
    + intros [= <-]. apply starts_with_spec in E as [t ->]. by exists "", t.
    + destruct (find_sub p s) as [j|]; [|done]. intros [= <-].
      destruct (IH j) as (u & v & -> & <-); [done|]. by exists (String c u), v.
Qed.

Lemma find_sub_app p u v : is_Some (find_sub p (u +:+ p +:+ v)).
Proof.
  induction u as [|c u IH].
  - assert (starts_with p (p +:+ v) = true) as E by apply starts_with_app.
    change ("" +:+ p +:+ v) with (p +:+ v). destruct (p +:+ v); simpl; rewrite E; by eexists.
  - rewrite app_cons_s. simpl. destruct (starts_with p _); [by eexists|].
    destruct IH as [i ->]. by eexists.
Qed.

Lemma find_sub_cons p c s :
  find_sub p (String c s) =
  if starts_with p (String c s) then Some 0%nat else S <$> find_sub p s.
Proof. done. Qed.

Lemma starts_with_char c d s : starts_with (String c "") (String d s) = Ascii.eqb d c.
Proof. unfold starts_with. simpl. by destruct (Ascii.eqb d c), s. Qed.

(** The first occurrence of a single character. *)
Lemma find_sub_char c u v :
  sall (fun d => negb (Ascii.eqb d c)) u = true ->
  find_sub (String c "") (u +:+ String c v) = Some (strlen u).
Proof.
  induction u as [|d u IH]; intros H.
  - change ("" +:+ String c v) with (String c v).
    by rewrite find_sub_cons, starts_with_char, Ascii.eqb_refl.
  - apply andb_true_iff in H as [H1 H2]. apply negb_true_iff in H1.
    by rewrite app_cons_s, find_sub_cons, starts_with_char, H1, IH.
Qed.

Lemma cstr_app s t :
  sall (fun d => negb (Ascii.eqb d NUL)) s = true ->
  cstr (s +:+ String NUL t) = Some (s, t).
Proof.
  induction s as [|c s IH]; [done|]. rewrite app_cons_s. simpl.
  intros [H1 H2]%andb_true_iff. apply negb_true_iff in H1. rewrite H1.
  by rewrite IH.
Qed.

Lemma cstr_Some s u t :
  cstr s = Some (u, t) ->
  s = u +:+ String NUL t /\ sall (fun d => negb (Ascii.eqb d NUL)) u = true.
Proof.
  revert u t. induction s as [|c s IH]; intros u t; simpl; [done|].
  destruct (Ascii.eqb c NUL) eqn:E.
  - intros [= <- <-]. apply Ascii.eqb_eq in E as ->. done.
  - destruct (cstr s) as [[u' t']|] eqn:Es; simpl; [|done]. intros [= <- <-].
    destruct (IH u' t') as [-> H]; [done|]. simpl. by rewrite E, H, app_cons_s.
Qed.
