(* ===== verification/Effects.v ===== *)
(** * Effectful computations

    The daemons are sequential C++ code that talks to the outside (the kernel
    through sysfs, other processes through binder, libraries that are not part
    of this tree).  Every such interaction is a request [q] whose answer has
    type [R q].  A computation runs in a world (the outside, and the state
    [self] the modelled code owns), and ends in [Done] with a value, the new
    world and the trace of its interactions, or in [Crash] when the C++ code
    aborts, throws past [main] or has undefined behaviour.

    The outside answers through an [Oracle]: theorems hold for every oracle,
    witnesses instantiate it. *)
From S2P Require Import Prelude.

(** What ends a process abnormally. *)
Inductive fault :=
| OutOfBounds        (* vector or buffer index outside its bounds *)
| BadUnionAccess     (* AIDL union read through the wrong tag *)
| NullDereference    (* a null object is used *)
| UncaughtException  (* an exception nobody catches *)
| Aborted            (* abort() *)
| BadConversion      (* a float outside the range of the int it is converted to *)
| OutOfFuel.         (* the model's fuel ran out: not a behaviour of the code *)

#[export] Instance fault_eq_dec : EqDecision fault.
Proof. solve_decision. Defined.

Section defs.
Context {Q : Type}.

Inductive event (R : Q -> Type) := Ev (q : Q) (r : R q).

Class Oracle (R : Q -> Type) (K : Type) := ask : forall q : Q, K -> R q * K.

Record world (K S : Type) := World { kernel : K; self : S }.

Inductive outcome (R : Q -> Type) (K S A : Type) :=
| Done (a : A) (w : world K S) (t : list (event R))
| Crash (f : fault) (t : list (event R)).

Definition comp (R : Q -> Type) (K S A : Type) : Type :=
world K S -> outcome R K S A.
End defs.

Arguments Ev {Q R} q r.
Arguments World {K S} kernel self.
Arguments kernel {K S} w.
Arguments self {K S} w.
Arguments Done {Q R K S A} a w t.
Arguments Crash {Q R K S A} f t.

Section ops.
Context {Q : Type} {R : Q -> Type} {K : Type} `{!Oracle R K} {S : Type}.
Implicit Types w : world K S.

#[global] Instance comp_ret : MRet (comp R K S) := fun A a w => Done a w [].

#[global] Instance comp_bind : MBind (comp R K S) := fun A B f m w =>
match m w with
| Done a w1 t1 =>
    match f a w1 with
    | Done b w2 t2 => Done b w2 (t1 ++ t2)
    | Crash x t2 => Crash x (t1 ++ t2)
    end
| Crash x t1 => Crash x t1
end.

(** Interact with the outside. *)
Definition call (q : Q) : comp R K S (R q) := fun w =>
let '(r, k) := ask q (kernel w) in Done r (World k (self w)) [Ev q r].

(** Read and update the state the code owns. *)
Definition gets {A} (f : S -> A) : comp R K S A := fun w => Done (f (self w)) w [].
Definition modify (f : S -> S) : comp R K S unit := fun w =>
Done tt (World (kernel w) (f (self w))) [].

Definition crash {A} (x : fault) : comp R K S A := fun _ => Crash x [].

(** The value of a partial operation, which crashes where it has none. *)
Definition expect {A} (x : fault) (o : option A) : comp R K S A :=
match o with Some a => mret a | None => crash x end.

Definition when (b : bool) (m : comp R K S unit) : comp R K S unit :=
if b then m else mret tt.

(** [for (auto x : l) f(x);] *)
Fixpoint for_each {A} (l : list A) (f : A -> comp R K S unit) : comp R K S unit :=
match l with
| [] => mret tt
| x :: l => f x ;; for_each l f
end.

(** [for (auto x : l) if (f(x)) break;] *)
Fixpoint for_until {A} (l : list A) (f : A -> comp R K S bool) : comp R K S unit :=
match l with
| [] => mret tt
| x :: l => b ← f x; if (b : bool) then mret tt else for_until l f
end.
End ops.

Definition trace_of {Q} {R : Q -> Type} {K S A} (o : outcome R K S A) : list (event R) :=
  match o with Done _ _ t => t | Crash _ t => t end.

(** ** Equality of computations, and the monad laws *)
Section laws.
Context {Q : Type} {R : Q -> Type} {K : Type} `{!Oracle R K} {S : Type}.

#[global] Instance comp_equiv A : Equiv (comp R K S A) := fun m1 m2 => forall w, m1 w = m2 w.
#[global] Instance comp_equivalence A : Equivalence (≡@{comp R K S A}).
Proof.
split.
- by intros m w.
- intros m1 m2 H w. by rewrite (H w).
- intros m1 m2 m3 H1 H2 w. by rewrite (H1 w).
Qed.

#[global] Instance comp_bind_proper A B :
Proper (pointwise_relation _ (≡) ==> (≡) ==> (≡))
  (mbind (M:=comp R K S) (A:=A) (B:=B)).
Proof.
intros f g Hfg m1 m2 Hm w. unfold mbind, comp_bind. rewrite (Hm w).
destruct (m2 w) as [a w1 t1|]; [|done]. by rewrite (Hfg a w1).
Qed.

Lemma bind_ret_l {A B} (a : A) (f : A -> comp R K S B) : mret a ≫= f ≡ f a.
Proof. intros w. unfold mbind, comp_bind, mret, comp_ret. by destruct (f a w). Qed.

Lemma bind_ret_r {A} (m : comp R K S A) : m ≫= mret ≡ m.
Proof.
intros w. unfold mbind, comp_bind, mret, comp_ret.
destruct (m w); [|done]. by rewrite app_nil_r.
Qed.

Lemma bind_assoc {A B C} (m : comp R K S A) (f : A -> comp R K S B) (g : B -> comp R K S C) :
(m ≫= f) ≫= g ≡ m ≫= (fun a => f a ≫= g).
Proof.
intros w. unfold mbind, comp_bind.
destruct (m w) as [a w1 t1|]; [|done]. destruct (f a w1) as [b w2 t2|]; [|done].
destruct (g b w2); by rewrite <- app_assoc.
Qed.
End laws.

(** ** Weakest preconditions

    [wp m Φ Ψ w]: run in [w], the computation either ends with a value, a
    world and a trace satisfying [Φ], or crashes with a fault and a trace
    satisfying [Ψ]. *)
Section wp.
Context {Q : Type} {R : Q -> Type} {K : Type} `{!Oracle R K} {S : Type}.
Implicit Types w : world K S.

Definition wp {A} (m : comp R K S A) (Φ : A -> world K S -> list (event R) -> Prop)
  (Ψ : fault -> list (event R) -> Prop) (w : world K S) : Prop :=
match m w with Done a w' t => Φ a w' t | Crash x t => Ψ x t end.

Lemma wp_ret {A} (a : A) Φ Ψ w : Φ a w [] -> wp (mret a) Φ Ψ w.
Proof. done. Qed.

Lemma wp_bind {A B} (m : comp R K S A) (f : A -> comp R K S B) Φ Ψ w :
wp m (fun a w1 t1 =>
        wp (f a) (fun b w2 t2 => Φ b w2 (t1 ++ t2)) (fun x t2 => Ψ x (t1 ++ t2)) w1) Ψ w ->
wp (m ≫= f) Φ Ψ w.
Proof.
unfold wp, mbind, comp_bind. destruct (m w) as [a w1 t1|]; [|done].
by destruct (f a w1).
Qed.

Lemma wp_call q Φ Ψ w :
(forall r k, ask q (kernel w) = (r, k) -> Φ r (World k (self w)) [Ev q r]) ->
wp (call q) Φ Ψ w.
Proof. intros H. unfold wp, call. destruct (ask q (kernel w)) as [r k] eqn:E. by apply H. Qed.

Lemma wp_gets {A} (f : S -> A) Φ Ψ w : Φ (f (self w)) w [] -> wp (gets f) Φ Ψ w.
Proof. done. Qed.

Lemma wp_modify f Φ Ψ w :
Φ tt (World (kernel w) (f (self w))) [] -> wp (modify f) Φ Ψ w.
Proof. done. Qed.

Lemma wp_crash {A} x Φ Ψ w : Ψ x [] -> wp (crash (A:=A) x) Φ Ψ w.
Proof. done. Qed.

Lemma wp_mono {A} (m : comp R K S A) (Φ Φ' : A -> world K S -> list (event R) -> Prop)
  (Ψ Ψ' : fault -> list (event R) -> Prop) w :
wp m Φ Ψ w -> (forall a w' t, Φ a w' t -> Φ' a w' t) -> (forall x t, Ψ x t -> Ψ' x t) ->
wp m Φ' Ψ' w.
Proof. unfold wp. intros H H1 H2. destruct (m w); auto. Qed.

Lemma wp_and {A} (m : comp R K S A) Φ1 Φ2 Ψ1 Ψ2 w :
wp m Φ1 Ψ1 w -> wp m Φ2 Ψ2 w ->
wp m (fun a w' t => Φ1 a w' t /\ Φ2 a w' t) (fun x t => Ψ1 x t /\ Ψ2 x t) w.
Proof. unfold wp. destruct (m w); auto. Qed.

Lemma wp_done {A} (m : comp R K S A) Φ Ψ w a w' t :
wp m Φ Ψ w -> m w = Done a w' t -> Φ a w' t.
Proof. intros H E. unfold wp in H. by rewrite E in H. Qed.

#[global] Instance wp_proper A :
Proper ((≡) ==> (=) ==> (=) ==> (=) ==> iff) (wp (A:=A)).
Proof. intros m1 m2 H Φ ? <- Ψ ? <- w ? <-. unfold wp. by rewrite (H w). Qed.
End wp.

(** ** State inside a larger state

A component's state inside the state of the process that holds it. *)
Class Lens (S T : Type) := { lget : S -> T; lset : T -> S -> S }.
Class LensLaws S T `{!Lens S T} : Prop := {
  lget_lset t s : lget (lset t s) = t;
  lset_lget s : lset (lget s) s = s;
  lset_lset t t' s : lset t (lset t' s) = lset t s;
}.
#[export] Instance lens_id T : Lens T T := {| lget s := s; lset t _ := t |}.
#[export] Instance lens_id_laws T : LensLaws T T.
Proof. by split. Qed.

Section lens.
Context {Q : Type} {R : Q -> Type} {K : Type} `{!Oracle R K} {S T : Type} `{!Lens S T}.

Definition mget {A} (f : T -> A) : comp R K S A := gets (fun s => f (lget s)).
Definition mmod (f : T -> T) : comp R K S unit := modify (fun s => lset (f (lget s)) s).

Lemma wp_mget {A} (f : T -> A) Φ Ψ (w : world K S) :
Φ (f (lget (self w))) w [] -> wp (mget f) Φ Ψ w.
Proof. done. Qed.
Lemma wp_mmod (f : T -> T) Φ Ψ (w : world K S) :
Φ tt (World (kernel w) (lset (f (lget (self w))) (self w))) [] -> wp (mmod f) Φ Ψ w.
Proof. done. Qed.
End lens.

(** ** Properties closed under sequencing

    [Compositional P]: [P] holds of the pure computations and is kept by
    sequencing, so that it holds of a program as soon as it holds of the
    requests and updates the program makes. *)
Class Compositional {Q} {R : Q -> Type} {K S} (P : forall A, comp R K S A -> Prop) : Prop := {
  comp_closed_ret A (a : A) : P A (mret a);
  comp_closed_bind A B (m : comp R K S A) (f : A -> comp R K S B) :
    P A m -> (forall a, P B (f a)) -> P B (m ≫= f);
  comp_closed_gets A (f : S -> A) : P A (gets f);
  comp_closed_crash A x : P A (crash x);
}.

Section compositional.
Context {Q : Type} {R : Q -> Type} {K : Type} `{!Oracle R K} {S : Type}.
Context (P : forall A, comp R K S A -> Prop) `{!Compositional P}.

Lemma comp_closed_expect A x (o : option A) : P A (expect x o).
Proof. destruct o; [apply comp_closed_ret | apply comp_closed_crash]. Qed.

Lemma comp_closed_when b m : P unit m -> P unit (when b m).
Proof. intros H. destruct b; [done | apply comp_closed_ret]. Qed.

Lemma comp_closed_for_each A (l : list A) (f : A -> comp R K S unit) :
(forall x, P unit (f x)) -> P unit (for_each l f).
Proof.
intros H. induction l as [|x l IH]; simpl; [apply comp_closed_ret|].
by apply comp_closed_bind.
Qed.

Lemma comp_closed_for_until A (l : list A) (f : A -> comp R K S bool) :
(forall x, P bool (f x)) -> P unit (for_until l f).
Proof.
intros H. induction l as [|x l IH]; simpl; [apply comp_closed_ret|].
apply comp_closed_bind; [done|]. intros []; [apply comp_closed_ret | done].
Qed.
End compositional.

(** [emits P m]: every interaction of [m] satisfies [P], whether or not [m] crashes. *)
Definition emits {Q} {R : Q -> Type} {K S} (P : event R -> Prop) A (m : comp R K S A) : Prop :=
  forall w, Forall P (trace_of (m w)).

(** [frames G m]: from start to end [m] changes the state only as [G] allows. *)
Definition frames {Q} {R : Q -> Type} {K S} (G : S -> S -> Prop) A (m : comp R K S A) : Prop :=
  forall w a w' t, m w = Done a w' t -> G (self w) (self w').

Section instances.
Context {Q : Type} {R : Q -> Type} {K : Type} `{!Oracle R K} {S : Type}.

#[global] Instance emits_compositional (P : event R -> Prop) :
Compositional (K:=K) (S:=S) (emits P).
Proof.
split; try (intros; intros w; constructor).
intros A B m f Hm Hf w. unfold mbind, comp_bind. specialize (Hm w).
destruct (m w) as [a w1 t1|]; simpl in *; [|done].
specialize (Hf a w1). destruct (f a w1); simpl in *; by apply Forall_app.
Qed.

Lemma emits_call (P : event R -> Prop) q :
(forall r, P (Ev q r)) -> emits (K:=K) (S:=S) P _ (call q).
Proof. intros H w. unfold call. destruct (ask q _). by constructor. Qed.

Lemma emits_modify (P : event R -> Prop) f : emits (K:=K) (S:=S) P _ (modify f).
Proof. intros w. constructor. Qed.

Lemma emits_mono (P P' : event R -> Prop) A (m : comp R K S A) :
(forall e, P e -> P' e) -> emits P A m -> emits P' A m.
Proof. intros H Hm w. eapply Forall_impl; [apply Hm | apply H]. Qed.

#[global] Instance frames_compositional (G : S -> S -> Prop) `{!PreOrder G} :
Compositional (K:=K) (R:=R) (frames G).
Proof.
split.
- intros A a w b w' t [= _ <- _]. reflexivity.
- intros A B m f Hm Hf w b w' t. unfold mbind, comp_bind.
  destruct (m w) as [a w1 t1|] eqn:E1; [|done].
  destruct (f a w1) as [b2 w2 t2|] eqn:E2; [|done].
  intros [= -> -> _]. etrans; [by eapply Hm | by eapply Hf].
- intros A f w b w' t [= _ <- _]. reflexivity.
- by intros A x w b w' t ?.
Qed.

Lemma frames_call (G : S -> S -> Prop) `{!Reflexive G} q : frames (K:=K) G _ (call (R:=R) q).
Proof. intros w a w' t. unfold call. destruct (ask q _). intros [= _ <- _]. reflexivity. Qed.

Lemma frames_modify (G : S -> S -> Prop) f :
(forall s, G s (f s)) -> frames (R:=R) (K:=K) G _ (modify f).
Proof. intros H w a w' t [= _ <- _]. apply H. Qed.

Lemma frames_mono (G G' : S -> S -> Prop) A (m : comp R K S A) :
(forall s s', G s s' -> G' s s') -> frames G A m -> frames G' A m.
Proof. intros H Hm w a w' t E. by eapply H, Hm. Qed.
End instances.

(** A relation on a component's state, lifted to the whole state. *)
Definition on_lens {S T} `{!Lens S T} (G : T -> T -> Prop) : S -> S -> Prop :=
  fun s s' => G (lget s) (lget s').
#[export] Instance on_lens_preorder {S T} `{!Lens S T} (G : T -> T -> Prop) `{!PreOrder G} :
  PreOrder (on_lens (S:=S) G).
Proof. split; [intros s; unfold on_lens; reflexivity|]. intros x y z. unfold on_lens. apply transitivity. Qed.

Section lens_facts.
Context {Q : Type} {R : Q -> Type} {K : Type} `{!Oracle R K} {S T : Type} `{!Lens S T}.

Lemma comp_closed_mget (P : forall A, comp R K S A -> Prop) `{!Compositional P} A (f : T -> A) :
P A (mget f).
Proof. apply comp_closed_gets. Qed.
Lemma emits_mmod (P : event R -> Prop) (f : T -> T) : emits (K:=K) (S:=S) P _ (mmod f).
Proof. apply emits_modify. Qed.
Lemma frames_mmod (G : T -> T -> Prop) (f : T -> T) `{!LensLaws S T} :
(forall m, G m (f m)) -> frames (R:=R) (K:=K) (on_lens (S:=S) G) _ (mmod f).
Proof. intros H. apply frames_modify. intros s. unfold on_lens. by rewrite lget_lset. Qed.
End lens_facts.

(** The two preorders used with [frames]: a part of the state is left alone,
    and an invariant is kept. *)
Definition keeps {S T} (f : S -> T) : S -> S -> Prop := fun s s' => f s' = f s.
Definition preserves {S} (I : S -> Prop) : S -> S -> Prop := fun s s' => I s -> I s'.

#[export] Instance keeps_preorder {S T} (f : S -> T) : PreOrder (keeps f).
Proof. split; [done|]. unfold keeps. intros x y z H1 H2. congruence. Qed.
#[export] Instance preserves_preorder {S} (I : S -> Prop) : PreOrder (preserves I).
Proof. split; [by intros s ?|]. intros x y z H1 H2 H. auto. Qed.

(** Lemmas about named computations go into [comp]; [walk] proves a
    compositional property of a program by following its structure. *)
Create HintDb comp discriminated.
#[export] Hint Constants Opaque : comp.
#[export] Hint Variables Opaque : comp.

Ltac walk_step :=
  match goal with
  | |- forall _, _ => intro
  | |- ?P _ (mret _) => apply (comp_closed_ret (P:=P))
  | |- ?P _ (mbind _ _) => apply (comp_closed_bind (P:=P))
  | |- ?P _ (gets _) => apply (comp_closed_gets (P:=P))
  | |- ?P _ (mget _) => apply (comp_closed_mget P)
  | |- ?P _ (crash _) => apply (comp_closed_crash (P:=P))
  | |- ?P _ (expect _ _) => apply (comp_closed_expect P)
  | |- ?P _ (when _ _) => apply (comp_closed_when P)
  | |- ?P _ (for_each _ _) => apply (comp_closed_for_each P)
  | |- ?P _ (for_until _ _) => apply (comp_closed_for_until P)
  | |- @emits ?Q ?R ?K ?S ?P _ (call ?q) => apply (emits_call (Q:=Q) (R:=R) (K:=K) (S:=S) P q)
  | |- emits _ _ (modify _) => apply emits_modify
  | |- emits _ _ (mmod _) => apply emits_mmod
  | |- frames (on_lens _) _ (mmod _) => apply frames_mmod
  | |- @frames ?Q ?R ?K ?S ?G _ (call ?q) => apply (frames_call (Q:=Q) (R:=R) (K:=K) (S:=S) G q)
  | |- frames _ _ (modify _) => apply frames_modify
  | |- _ (match ?x with _ => _ end) => innermost x
  | |- _ => solve [auto 2 with comp nocore]
  end.
Ltac walk := repeat walk_step.

(** Symbolic execution of a [wp] goal. *)
Ltac wp_step :=
  match goal with
  | |- wp (mbind _ _) _ _ _ => apply wp_bind
  | |- wp (mret _) _ _ _ => apply wp_ret
  | |- @wp ?Q ?R ?K ?S _ (call ?q) _ _ _ =>
      apply (wp_call (Q:=Q) (R:=R) (K:=K) (S:=S) q); let H := fresh "Hask" in intros ? ? H
  | |- wp (gets _) _ _ _ => apply wp_gets
  | |- wp (modify _) _ _ _ => apply wp_modify
  | |- wp (mget _) _ _ _ => apply wp_mget
  | |- wp (mmod _) _ _ _ => apply wp_mmod
  | |- wp (crash _) _ _ _ => apply wp_crash
  | |- wp (when ?b _) _ _ _ => destruct b eqn:?; unfold when
  | |- wp (expect _ ?o) _ _ _ => destruct o eqn:?; unfold expect
  | |- wp (match ?x with _ => _ end) _ _ _ => innermost x
  end; simpl; try (progress rewrite ?lget_lset; simpl).
Ltac wp_run := repeat wp_step.

(** ** Partial correctness and frames *)
Section wlp.
Context {Q : Type} {R : Q -> Type} {K : Type} `{!Oracle R K} {S : Type}.
Implicit Types w : world K S.

(** No claim about crashes or the trace. *)
Definition wlp {A} (m : comp R K S A) (Φ : A -> world K S -> Prop) (w : world K S) : Prop :=
wp m (fun a w' _ => Φ a w') (fun _ _ => True) w.

Lemma wlp_mono {A} (m : comp R K S A) (Φ Φ' : A -> world K S -> Prop) w :
wlp m Φ w -> (forall a w', Φ a w' -> Φ' a w') -> wlp m Φ' w.
Proof. intros H HΦ. eapply wp_mono; [exact H| |done]. intros a w' t. apply HΦ. Qed.

Lemma frames_wlp G A (m : comp R K S A) :
frames G A m <-> forall w, wlp m (fun _ w' => G (self w) (self w')) w.
Proof.
split.
- intros H w. unfold wlp, wp. destruct (m w) eqn:E; [by eapply H|done].
- intros H w a w' t E. specialize (H w). unfold wlp, wp in H. by rewrite E in H.
Qed.

(** Use a specification, or a frame property, of a part of a program. *)
Lemma wp_use {A} (m : comp R K S A) (Φ0 : A -> world K S -> Prop)
  (Φ : A -> world K S -> list (event R) -> Prop) Ψ w :
wlp m Φ0 w -> (forall a w' t, Φ0 a w' -> Φ a w' t) -> (forall x t, Ψ x t) -> wp m Φ Ψ w.
Proof. intros H HΦ HΨ. eapply wp_mono; [exact H| |]; intros; [by apply HΦ|apply HΨ]. Qed.

Lemma wp_frame G A (m : comp R K S A) (Φ : A -> world K S -> list (event R) -> Prop) Ψ w :
frames G A m -> (forall a k s t, G (self w) s -> Φ a (World k s) t) -> (forall x t, Ψ x t) ->
wp m Φ Ψ w.
Proof.
intros H HΦ HΨ. apply frames_wlp with (w:=w) in H. eapply wp_use; [exact H| |done].
intros a [k s] t. apply HΦ.
Qed.

(** A computation that leaves the whole state alone. *)
Lemma wp_keep A (m : comp R K S A) (Φ : A -> world K S -> list (event R) -> Prop) Ψ w :
frames (keeps id) A m -> (forall a k t, Φ a (World k (self w)) t) -> (forall x t, Ψ x t) ->
wp m Φ Ψ w.
Proof.
intros H HΦ HΨ. unfold wp. destruct (m w) as [a [k s] t|] eqn:E; [|done].
apply H in E. unfold keeps in E. simpl in E. subst s. apply HΦ.
Qed.

Lemma frames_keeps_compose {T U} (f : S -> T) (g : T -> U) A (m : comp R K S A) :
frames (keeps f) A m -> frames (keeps (fun s => g (f s))) A m.
Proof. apply frames_mono. unfold keeps. by intros s s' ->. Qed.

Lemma frames_keeps_id {T} (f : S -> T) A (m : comp R K S A) :
frames (keeps id) A m -> frames (keeps f) A m.
Proof. apply frames_mono. unfold keeps. by intros s s' [= ->]. Qed.

(** A specification together with what the computation emits. *)
Lemma wp_emits P A (m : comp R K S A) (Φ : A -> world K S -> list (event R) -> Prop) Ψ w :
emits P A m -> wp m Φ Ψ w ->
wp m (fun a w' t => Forall P t /\ Φ a w' t) (fun x t => Forall P t /\ Ψ x t) w.
Proof. intros H. specialize (H w). unfold wp. by destruct (m w). Qed.
End wlp.
