(* ===== verification/Aidl.v ===== *)
(** * The AIDL data of the USB services

    [android.hardware.usb] is generated from interface files outside this
    tree.  Of its types only what the sources name appears here: the
    enumerators they use, the fields they touch and the three members of the
    [PortRole] union.  Numeric values and defaults are not stated: where the
    code depends on one it is a parameter ([Platform.v]). *)
From S2P Require Import Prelude.

Module Status.
Inductive t := SUCCESS | ERROR | NOT_SUPPORTED | UNRECOGNIZED_ROLE.
#[export] Instance eq_dec : EqDecision t.
Proof. solve_decision. Defined.
(** [b ? Status::SUCCESS : Status::ERROR] *)
Definition of_bool (b : bool) : t := if b then SUCCESS else ERROR.
End Status.
Export (hints) Status.

Module PortPowerRole.
Inductive t := NONE | SOURCE | SINK.
#[export] Instance eq_dec : EqDecision t.
Proof. solve_decision. Defined.
End PortPowerRole.
Export (hints) PortPowerRole.

Module PortDataRole.
Inductive t := NONE | HOST | DEVICE.
#[export] Instance eq_dec : EqDecision t.
Proof. solve_decision. Defined.
End PortDataRole.
Export (hints) PortDataRole.

Module PortMode.
Inductive t := NONE | UFP | DFP | DRP | AUDIO_ACCESSORY | DEBUG_ACCESSORY.
#[export] Instance eq_dec : EqDecision t.
Proof. solve_decision. Defined.
End PortMode.
Export (hints) PortMode.

Module ContaminantProtectionMode.
Inductive t := FORCE_DISABLE.
End ContaminantProtectionMode.

Module ContaminantProtectionStatus.
Inductive t := NONE | FORCE_DISABLE.
End ContaminantProtectionStatus.

Module ContaminantDetectionStatus.
Inductive t := NOT_SUPPORTED | DISABLED | NOT_DETECTED | DETECTED.
End ContaminantDetectionStatus.

Module UsbDataStatus.
Inductive t := ENABLED | DISABLED_DOCK | DISABLED_FORCE.
#[export] Instance eq_dec : EqDecision t.
Proof. solve_decision. Defined.
End UsbDataStatus.
Export (hints) UsbDataStatus.

Module PowerBrickStatus.
Inductive t := UNKNOWN | CONNECTED | NOT_CONNECTED.
End PowerBrickStatus.

Module ComplianceWarning.
Inductive t :=
| OTHER | DEBUG_ACCESSORY | BC_1_2 | MISSING_RP | INPUT_POWER_LIMITED
| MISSING_DATA_LINES | ENUMERATION_FAIL | FLAKY_CONNECTION.
#[export] Instance eq_dec : EqDecision t.
Proof. solve_decision. Defined.
End ComplianceWarning.
Export (hints) ComplianceWarning.

(** The tagged union [PortRole]. *)
Module PortRole.
Inductive t :=
| powerRole (r : PortPowerRole.t)
| dataRole (r : PortDataRole.t)
| mode (r : PortMode.t).
Inductive Tag := TpowerRole | TdataRole | Tmode.
#[export] Instance eq_dec : EqDecision t.
Proof. solve_decision. Defined.
#[export] Instance Tag_eq_dec : EqDecision Tag.
Proof. solve_decision. Defined.

Definition getTag (r : t) : Tag :=
match r with powerRole _ => TpowerRole | dataRole _ => TdataRole | mode _ => Tmode end.
(** [get<tag>()] aborts on another tag: [None]. *)
Definition get_powerRole (r : t) : option PortPowerRole.t :=
match r with powerRole x => Some x | _ => None end.
Definition get_dataRole (r : t) : option PortDataRole.t :=
match r with dataRole x => Some x | _ => None end.
Definition get_mode (r : t) : option PortMode.t :=
match r with mode x => Some x | _ => None end.
End PortRole.
Export (hints) PortRole.

(** The fields of [PortStatus] the sources read or write. *)
Record PortStatus := mkPortStatus {
  portName : string;
  currentDataRole : PortDataRole.t;
  currentPowerRole : PortPowerRole.t;
  currentMode : PortMode.t;
  canChangeMode : bool;
  canChangeDataRole : bool;
  canChangePowerRole : bool;
  supportedModes : list PortMode.t;
  supportedContaminantProtectionModes : list ContaminantProtectionMode.t;
  supportsEnableContaminantPresenceProtection : bool;
  contaminantProtectionStatus : ContaminantProtectionStatus.t;
  supportsEnableContaminantPresenceDetection : bool;
  contaminantDetectionStatus : ContaminantDetectionStatus.t;
  usbDataStatus : list UsbDataStatus.t;
  powerTransferLimited : bool;
  powerBrickStatus : PowerBrickStatus.t;
  supportsComplianceWarnings : bool;
  complianceWarnings : list ComplianceWarning.t;
}.

Definition set_portName (v : string) (s : PortStatus) : PortStatus :=
  mkPortStatus
    v s.(currentDataRole) s.(currentPowerRole) s.(currentMode) s.(canChangeMode)
      s.(canChangeDataRole) s.(canChangePowerRole) s.(supportedModes)
      s.(supportedContaminantProtectionModes)
      s.(supportsEnableContaminantPresenceProtection) s.(contaminantProtectionStatus)
      s.(supportsEnableContaminantPresenceDetection) s.(contaminantDetectionStatus)
      s.(usbDataStatus) s.(powerTransferLimited) s.(powerBrickStatus)
      s.(supportsComplianceWarnings) s.(complianceWarnings).
Definition set_currentDataRole (v : PortDataRole.t) (s : PortStatus) : PortStatus :=
  mkPortStatus
    s.(portName) v s.(currentPowerRole) s.(currentMode) s.(canChangeMode)
      s.(canChangeDataRole) s.(canChangePowerRole) s.(supportedModes)
      s.(supportedContaminantProtectionModes)
      s.(supportsEnableContaminantPresenceProtection) s.(contaminantProtectionStatus)
      s.(supportsEnableContaminantPresenceDetection) s.(contaminantDetectionStatus)
      s.(usbDataStatus) s.(powerTransferLimited) s.(powerBrickStatus)
      s.(supportsComplianceWarnings) s.(complianceWarnings).
Definition set_currentPowerRole (v : PortPowerRole.t) (s : PortStatus) : PortStatus :=
  mkPortStatus
    s.(portName) s.(currentDataRole) v s.(currentMode) s.(canChangeMode)
      s.(canChangeDataRole) s.(canChangePowerRole) s.(supportedModes)
      s.(supportedContaminantProtectionModes)
      s.(supportsEnableContaminantPresenceProtection) s.(contaminantProtectionStatus)
      s.(supportsEnableContaminantPresenceDetection) s.(contaminantDetectionStatus)
      s.(usbDataStatus) s.(powerTransferLimited) s.(powerBrickStatus)
      s.(supportsComplianceWarnings) s.(complianceWarnings).
Definition set_currentMode (v : PortMode.t) (s : PortStatus) : PortStatus :=
  mkPortStatus
    s.(portName) s.(currentDataRole) s.(currentPowerRole) v s.(canChangeMode)
      s.(canChangeDataRole) s.(canChangePowerRole) s.(supportedModes)
      s.(supportedContaminantProtectionModes)
      s.(supportsEnableContaminantPresenceProtection) s.(contaminantProtectionStatus)
      s.(supportsEnableContaminantPresenceDetection) s.(contaminantDetectionStatus)
      s.(usbDataStatus) s.(powerTransferLimited) s.(powerBrickStatus)
      s.(supportsComplianceWarnings) s.(complianceWarnings).
Definition set_canChangeMode (v : bool) (s : PortStatus) : PortStatus :=
  mkPortStatus
    s.(portName) s.(currentDataRole) s.(currentPowerRole) s.(currentMode) v
      s.(canChangeDataRole) s.(canChangePowerRole) s.(supportedModes)
      s.(supportedContaminantProtectionModes)
      s.(supportsEnableContaminantPresenceProtection) s.(contaminantProtectionStatus)
      s.(supportsEnableContaminantPresenceDetection) s.(contaminantDetectionStatus)
      s.(usbDataStatus) s.(powerTransferLimited) s.(powerBrickStatus)
      s.(supportsComplianceWarnings) s.(complianceWarnings).
Definition set_canChangeDataRole (v : bool) (s : PortStatus) : PortStatus :=
  mkPortStatus
    s.(portName) s.(currentDataRole) s.(currentPowerRole) s.(currentMode) s.(canChangeMode)
      v s.(canChangePowerRole) s.(supportedModes) s.(supportedContaminantProtectionModes)
      s.(supportsEnableContaminantPresenceProtection) s.(contaminantProtectionStatus)
      s.(supportsEnableContaminantPresenceDetection) s.(contaminantDetectionStatus)
      s.(usbDataStatus) s.(powerTransferLimited) s.(powerBrickStatus)
      s.(supportsComplianceWarnings) s.(complianceWarnings).
Definition set_canChangePowerRole (v : bool) (s : PortStatus) : PortStatus :=
  mkPortStatus
    s.(portName) s.(currentDataRole) s.(currentPowerRole) s.(currentMode) s.(canChangeMode)
      s.(canChangeDataRole) v s.(supportedModes) s.(supportedContaminantProtectionModes)
      s.(supportsEnableContaminantPresenceProtection) s.(contaminantProtectionStatus)
      s.(supportsEnableContaminantPresenceDetection) s.(contaminantDetectionStatus)
      s.(usbDataStatus) s.(powerTransferLimited) s.(powerBrickStatus)
      s.(supportsComplianceWarnings) s.(complianceWarnings).
Definition set_supportedModes (v : list PortMode.t) (s : PortStatus) : PortStatus :=
  mkPortStatus
    s.(portName) s.(currentDataRole) s.(currentPowerRole) s.(currentMode) s.(canChangeMode)
      s.(canChangeDataRole) s.(canChangePowerRole) v
      s.(supportedContaminantProtectionModes)
      s.(supportsEnableContaminantPresenceProtection) s.(contaminantProtectionStatus)
      s.(supportsEnableContaminantPresenceDetection) s.(contaminantDetectionStatus)
      s.(usbDataStatus) s.(powerTransferLimited) s.(powerBrickStatus)
      s.(supportsComplianceWarnings) s.(complianceWarnings).
Definition set_supportedContaminantProtectionModes (v : list ContaminantProtectionMode.t) (s : PortStatus) : PortStatus :=
  mkPortStatus
    s.(portName) s.(currentDataRole) s.(currentPowerRole) s.(currentMode) s.(canChangeMode)
      s.(canChangeDataRole) s.(canChangePowerRole) s.(supportedModes) v
      s.(supportsEnableContaminantPresenceProtection) s.(contaminantProtectionStatus)
      s.(supportsEnableContaminantPresenceDetection) s.(contaminantDetectionStatus)
      s.(usbDataStatus) s.(powerTransferLimited) s.(powerBrickStatus)
      s.(supportsComplianceWarnings) s.(complianceWarnings).
Definition set_supportsEnableContaminantPresenceProtection (v : bool) (s : PortStatus) : PortStatus :=
  mkPortStatus
    s.(portName) s.(currentDataRole) s.(currentPowerRole) s.(currentMode) s.(canChangeMode)
      s.(canChangeDataRole) s.(canChangePowerRole) s.(supportedModes)
      s.(supportedContaminantProtectionModes) v s.(contaminantProtectionStatus)
      s.(supportsEnableContaminantPresenceDetection) s.(contaminantDetectionStatus)
      s.(usbDataStatus) s.(powerTransferLimited) s.(powerBrickStatus)
      s.(supportsComplianceWarnings) s.(complianceWarnings).
Definition set_contaminantProtectionStatus (v : ContaminantProtectionStatus.t) (s : PortStatus) : PortStatus :=
  mkPortStatus
    s.(portName) s.(currentDataRole) s.(currentPowerRole) s.(currentMode) s.(canChangeMode)
      s.(canChangeDataRole) s.(canChangePowerRole) s.(supportedModes)
      s.(supportedContaminantProtectionModes)
      s.(supportsEnableContaminantPresenceProtection) v
      s.(supportsEnableContaminantPresenceDetection) s.(contaminantDetectionStatus)
      s.(usbDataStatus) s.(powerTransferLimited) s.(powerBrickStatus)
      s.(supportsComplianceWarnings) s.(complianceWarnings).
Definition set_supportsEnableContaminantPresenceDetection (v : bool) (s : PortStatus) : PortStatus :=
  mkPortStatus
    s.(portName) s.(currentDataRole) s.(currentPowerRole) s.(currentMode) s.(canChangeMode)
      s.(canChangeDataRole) s.(canChangePowerRole) s.(supportedModes)
      s.(supportedContaminantProtectionModes)
      s.(supportsEnableContaminantPresenceProtection) s.(contaminantProtectionStatus) v
      s.(contaminantDetectionStatus) s.(usbDataStatus) s.(powerTransferLimited)
      s.(powerBrickStatus) s.(supportsComplianceWarnings) s.(complianceWarnings).
Definition set_contaminantDetectionStatus (v : ContaminantDetectionStatus.t) (s : PortStatus) : PortStatus :=
  mkPortStatus
    s.(portName) s.(currentDataRole) s.(currentPowerRole) s.(currentMode) s.(canChangeMode)
      s.(canChangeDataRole) s.(canChangePowerRole) s.(supportedModes)
      s.(supportedContaminantProtectionModes)
      s.(supportsEnableContaminantPresenceProtection) s.(contaminantProtectionStatus)
      s.(supportsEnableContaminantPresenceDetection) v s.(usbDataStatus)
      s.(powerTransferLimited) s.(powerBrickStatus) s.(supportsComplianceWarnings)
      s.(complianceWarnings).
Definition set_usbDataStatus (v : list UsbDataStatus.t) (s : PortStatus) : PortStatus :=
  mkPortStatus
    s.(portName) s.(currentDataRole) s.(currentPowerRole) s.(currentMode) s.(canChangeMode)
      s.(canChangeDataRole) s.(canChangePowerRole) s.(supportedModes)
      s.(supportedContaminantProtectionModes)
      s.(supportsEnableContaminantPresenceProtection) s.(contaminantProtectionStatus)
      s.(supportsEnableContaminantPresenceDetection) s.(contaminantDetectionStatus) v
      s.(powerTransferLimited) s.(powerBrickStatus) s.(supportsComplianceWarnings)
      s.(complianceWarnings).
Definition set_powerTransferLimited (v : bool) (s : PortStatus) : PortStatus :=
  mkPortStatus
    s.(portName) s.(currentDataRole) s.(currentPowerRole) s.(currentMode) s.(canChangeMode)
      s.(canChangeDataRole) s.(canChangePowerRole) s.(supportedModes)
      s.(supportedContaminantProtectionModes)
      s.(supportsEnableContaminantPresenceProtection) s.(contaminantProtectionStatus)
      s.(supportsEnableContaminantPresenceDetection) s.(contaminantDetectionStatus)
      s.(usbDataStatus) v s.(powerBrickStatus) s.(supportsComplianceWarnings)
      s.(complianceWarnings).
Definition set_powerBrickStatus (v : PowerBrickStatus.t) (s : PortStatus) : PortStatus :=
  mkPortStatus
    s.(portName) s.(currentDataRole) s.(currentPowerRole) s.(currentMode) s.(canChangeMode)
      s.(canChangeDataRole) s.(canChangePowerRole) s.(supportedModes)
      s.(supportedContaminantProtectionModes)
      s.(supportsEnableContaminantPresenceProtection) s.(contaminantProtectionStatus)
      s.(supportsEnableContaminantPresenceDetection) s.(contaminantDetectionStatus)
      s.(usbDataStatus) s.(powerTransferLimited) v s.(supportsComplianceWarnings)
      s.(complianceWarnings).
Definition set_supportsComplianceWarnings (v : bool) (s : PortStatus) : PortStatus :=
  mkPortStatus
    s.(portName) s.(currentDataRole) s.(currentPowerRole) s.(currentMode) s.(canChangeMode)
      s.(canChangeDataRole) s.(canChangePowerRole) s.(supportedModes)
      s.(supportedContaminantProtectionModes)
      s.(supportsEnableContaminantPresenceProtection) s.(contaminantProtectionStatus)
      s.(supportsEnableContaminantPresenceDetection) s.(contaminantDetectionStatus)
      s.(usbDataStatus) s.(powerTransferLimited) s.(powerBrickStatus) v
      s.(complianceWarnings).
Definition set_complianceWarnings (v : list ComplianceWarning.t) (s : PortStatus) : PortStatus :=
  mkPortStatus
    s.(portName) s.(currentDataRole) s.(currentPowerRole) s.(currentMode) s.(canChangeMode)
      s.(canChangeDataRole) s.(canChangePowerRole) s.(supportedModes)
      s.(supportedContaminantProtectionModes)
      s.(supportsEnableContaminantPresenceProtection) s.(contaminantProtectionStatus)
      s.(supportsEnableContaminantPresenceDetection) s.(contaminantDetectionStatus)
      s.(usbDataStatus) s.(powerTransferLimited) s.(powerBrickStatus)
      s.(supportsComplianceWarnings) v.


(** The calls the service makes on the registered [IUsbCallback]. *)
Inductive usb_callback :=
| notifyPortStatusChange (s : list PortStatus) (r : Status.t)
| notifyRoleSwitchStatus (port : string) (role : PortRole.t) (r : Status.t) (id : Z)
| notifyEnableUsbDataStatus (port : string) (enable : bool) (r : Status.t) (id : Z)
| notifyEnableUsbDataWhileDockedStatus (port : string) (r : Status.t) (id : Z)
| notifyResetUsbPortStatus (port : string) (r : Status.t) (id : Z)
| notifyLimitPowerTransferStatus (port : string) (limit : bool) (r : Status.t) (id : Z)
| notifyContaminantEnabledStatus (port : string) (enable : bool) (r : Status.t) (id : Z)
| notifyQueryPortStatus (port : string) (r : Status.t) (id : Z).

(** [android.hardware.usb.gadget] *)
Module GadgetStatus.
Inductive t :=
| SUCCESS | ERROR | FUNCTIONS_APPLIED | FUNCTIONS_NOT_APPLIED | CONFIGURATION_NOT_SUPPORTED.
#[export] Instance eq_dec : EqDecision t.
Proof. solve_decision. Defined.
End GadgetStatus.
Export (hints) GadgetStatus.

Module UsbSpeed.
Inductive t := UNKNOWN | LOWSPEED | FULLSPEED | HIGHSPEED | SUPERSPEED | SUPERSPEED_10Gb.
#[export] Instance eq_dec : EqDecision t.
Proof. solve_decision. Defined.
End UsbSpeed.
Export (hints) UsbSpeed.

(** The enumerators of [GadgetFunction] the sources use, a bit mask. *)
Module GadgetFunction.
Inductive t := ADB | ACCESSORY | MTP | MIDI | PTP | RNDIS | AUDIO_SOURCE | UVC | NCM.
#[export] Instance eq_dec : EqDecision t.
Proof. solve_decision. Defined.
End GadgetFunction.
Export (hints) GadgetFunction.

(** The calls the service makes on an [IUsbGadgetCallback]. *)
Inductive gadget_callback :=
| getCurrentUsbFunctionsCb (functions : Z) (s : GadgetStatus.t) (id : Z)
| getUsbSpeedCb (speed : UsbSpeed.t) (id : Z)
| resetCb (s : GadgetStatus.t) (id : Z)
| setCurrentUsbFunctionsCb (functions : Z) (s : GadgetStatus.t) (id : Z).

(** [ndk::ScopedAStatus] *)
Inductive binder_status := BinderOk | ServiceSpecificError (code : Z) (message : string).
#[export] Instance binder_status_eq_dec : EqDecision binder_status.
Proof. solve_decision. Defined.
