(* ===== verification/Platform.v ===== *)
(** * What lies outside the sources

    Two kinds of things: the interactions with the outside ([request], answered
    by an oracle), and the pure functions and constants of libraries that are
    not part of this tree (the class [Platform]).  Nothing is assumed about
    either here; the theorems that rely on documented behaviour say so. *)
From S2P Require Import Prelude CString Effects Aidl.
Open Scope Z_scope.

(** The mutexes of the USB HAL process. *)
Inductive mutex := mLock | mRoleSwitchLock | mPartnerLock.
#[export] Instance mutex_eq_dec : EqDecision mutex.
Proof. solve_decision. Defined.

(** A directory entry: [d_type] and [d_name]. *)
Inductive d_type := DT_DIR | DT_LNK | DT_OTHER.
#[export] Instance d_type_eq_dec : EqDecision d_type.
Proof. solve_decision. Defined.
Record dirent := Dirent { ep_type : d_type; ep_name : string }.

(** The arguments of [BuildVendorUsbDataSessionEvent]. *)
Record session_event := SessionEvent {
  ev_is_host : bool;
  ev_now : Z;
  ev_session_start : Z;
  ev_states : list string;
  ev_timestamps : list Z;
}.

(** The fields of [VendorUsbPortOverheat]. *)
Record overheat_info := OverheatInfo {
  plug_temperature_deci_c : Z;
  max_temperature_deci_c : Z;
  time_to_overheat_secs : Z;
  time_to_hysteresis_secs : Z;
  time_to_inactive_secs : Z;
}.

(** How [pthread_cond_timedwait] comes back: whether it returned [ETIMEDOUT],
    and whether [mPartnerUp] was set by the uevent thread while the mutex was
    released. *)
Record wait_result := WaitResult { wr_timedout : bool; wr_partner_up : bool }.

Inductive request :=
(* android-base/file.h *)
| ReadFileToString (path : string)
| WriteStringToFile (content path : string)
(* dirent.h: opendir, all of readdir, closedir *)
| Opendir (path : string)
(* fcntl.h, unistd.h *)
| Open (path : string)
| Close (fd : Z)
| Lseek (fd : Z)                    (* to the start *)
| ReadFd (fd : Z) (max : nat)
| Usleep (us : Z)
(* stdio.h *)
| FopenW (path : string)
| Fputs (content path : string)
| Fclose (path : string)
(* epoll, timerfd, uevent *)
| EpollCreate
| EpollAdd (fd : Z)
| EpollDel (fd : Z)
| UeventOpenSocket
| UeventRecv (fd : Z)
| TimerfdCreate
| TimerfdSettime (fd sec : Z)
| TimerfdRead (fd : Z)
(* clocks *)
| BootClockNow
| ClockMonotonic
(* properties *)
| GetProperty (key default : string)
(* pthread *)
| MutexLock (m : mutex)
| MutexUnlock (m : mutex)
| MutexTrylock (m : mutex)
| CondSignal
| CondTimedwait (sec nsec : Z)
| ThreadCreate
| ThreadKill
| ThreadJoin
| SignalInstall
| CondSetup (step : string)       (* pthread_condattr_*, pthread_cond_init *)
(* libpixelusb, libpixelstats *)
| GetMaxOverheatTemperature
| GetStatsService
| ReportUsbPortOverheat (i : overheat_info)
| ReportUsbDataSessionEvent (e : session_event)
(* binder *)
| Callback (who : Z) (c : usb_callback)
(* the gadget service: libpixelusb, libcutils, unistd.h *)
| Access (path : string)
| ResetGadget
| MonitorRunning
| MonitorReset
| MonitorRegister
| MonitorStart
| MonitorWaitForPullUp (timeout : Z)
| GetVendorFunctions
| GetBoolProperty (key : string) (default : bool)
| SetVidPid (vid pid : string)
| AddGenericAndroidFunctions (functions i : Z)
| AddAdb (i : Z)
| LinkFunction (name : string) (i : Z)
| GadgetCallback (who : Z) (c : gadget_callback).

Definition answer (q : request) : Type :=
  match q with
  | ReadFileToString _ => option string       (* None: it returned false *)
  | WriteStringToFile _ _ => bool
  | Opendir _ => option (list dirent)         (* None: NULL *)
  | Open _ => Z                               (* -1 on failure *)
  | ReadFd _ _ => string                      (* the bytes read *)
  | FopenW _ => bool                          (* not NULL *)
  | Fputs _ _ => bool                         (* not EOF: the text is in the buffer *)
  | Fclose _ => bool                          (* not EOF: the buffer was written *)
  | EpollCreate | UeventOpenSocket | TimerfdCreate => Z
  | EpollAdd _ | TimerfdSettime _ _ => bool   (* 0 *)
  | UeventRecv _ => string                    (* the bytes received; empty when n <= 0 *)
  | BootClockNow => Z                         (* nanoseconds *)
  | ClockMonotonic => Z * Z
  | GetProperty _ _ => string
  | MutexTrylock _ => bool                    (* 0: acquired *)
  | CondTimedwait _ _ => wait_result
  | ThreadCreate | ThreadKill | CondSetup _ => bool (* 0 *)
  | GetMaxOverheatTemperature => float32      (* degrees *)
  | GetStatsService => bool                   (* not NULL *)
  | Callback _ _ => bool                      (* isOk() *)
  | Access _ => bool                          (* 0 *)
  | ResetGadget | SetVidPid _ _ => GadgetStatus.t
  | MonitorRunning | MonitorWaitForPullUp _ | GetBoolProperty _ _ => bool
  | GetVendorFunctions => string
  | AddGenericAndroidFunctions _ _ => GadgetStatus.t * bool * Z (* and what it leaves in ffsEnabled and i *)
  | AddAdb _ => GadgetStatus.t * Z            (* and what it leaves in i *)
  | LinkFunction _ _ => bool                  (* non-zero: it failed *)
  | GadgetCallback _ _ => bool                (* isOk() *)
  | _ => unit
  end.

Abbreviation trace := (list (event answer)).

(** Pure functions, flags and constants of the libraries. *)
Class Platform := {
  (* android-base/strings.h *)
  Trim : string -> string;
  Tokenize : string -> string -> list string;
  (* pixelusb/UsbGadgetCommon.h *)
  PULLUP_PATH : string;
  (* aconfig flags *)
  enable_report_usb_data_compliance_warning : bool;
  enable_usb_data_compliance_warning : bool;
  enable_input_power_limited_warning : bool;
  (* generated AIDL code: enumerator values and field defaults *)
  ComplianceWarning_value : ComplianceWarning.t -> Z;
  default_PortStatus : PortStatus;
  (* the iteration order of std::unordered_map<string, bool> *)
  unordered_map_order : list (string * bool) -> list (string * bool);
}.

(** The hypotheses on them the theorems use, each where it is needed. *)

(** Enumerators of one enum have distinct values. *)
Definition warning_values_distinct {PLAT : Platform} : Prop := Inj (=) (=) ComplianceWarning_value.

(** Array fields of a fresh parcelable are empty. *)
Definition fresh_arrays_empty {PLAT : Platform} : Prop :=
  supportedModes default_PortStatus = [] /\ usbDataStatus default_PortStatus = [] /\
  complianceWarnings default_PortStatus = [].

(** Iterating a hash map visits each entry once. *)
Definition unordered_map_visits_all {PLAT : Platform} : Prop :=
  forall l, unordered_map_order l ≡ₚ l.

(** [Trim] removes the blanks at both ends. *)
Definition no_outer_space (s : string) : Prop :=
  (forall c t, s = String c t -> isspace c = false) /\
  (forall c t, s = t +:+ String c "" -> isspace c = false).
Definition Trim_removes_blanks {PLAT : Platform} : Prop :=
  forall pre s post, sall isspace pre = true -> sall isspace post = true ->
    no_outer_space s -> Trim (pre +:+ s +:+ post) = s.

(** ** Reading traces *)

(** Writes to files, in order: content, path, and whether they succeeded; for
    stdio, whether [fputs] accepted the text ([fclose] hands it to the kernel,
    and the sources never look at its result). *)
Definition write_of (e : event answer) : option (string * string * bool) :=
  match e with
  | Ev q r =>
      match q return answer q -> option (string * string * bool) with
      | WriteStringToFile c p => fun ok => Some (c, p, ok)
      | Fputs c p => fun ok => Some (c, p, ok)
      | _ => fun _ => None
      end r
  end.
Definition writes (t : trace) : list (string * string * bool) := omap write_of t.

(** Callbacks delivered, in order: the receiver and the call. *)
Definition callback_of (e : event answer) : option (Z * usb_callback) :=
  match e with
  | Ev q _ => match q with Callback who c => Some (who, c) | _ => None end
  end.
Definition callbacks (t : trace) : list (Z * usb_callback) := omap callback_of t.

(** Mutex operations that took effect, and waiting for the worker thread to
    end, in order.  A timed wait gives its mutex up and takes it back. *)
Inductive lock_op := Acq (m : mutex) | Rel (m : mutex) | Join.
#[export] Instance lock_op_eq_dec : EqDecision lock_op.
Proof. solve_decision. Defined.
Definition lock_of (e : event answer) : list lock_op :=
  match e with
  | Ev q r =>
      match q return answer q -> list lock_op with
      | MutexLock m => fun _ => [Acq m]
      | MutexUnlock m => fun _ => [Rel m]
      | MutexTrylock m => fun ok : bool => if ok then [Acq m] else []
      | CondTimedwait _ _ => fun _ => [Rel mPartnerLock; Acq mPartnerLock]
      | ThreadJoin => fun _ => [Join]
      | _ => fun _ => []
      end r
  end.
Definition locks (t : trace) : list lock_op := t ≫= lock_of.

(** Session events uploaded. *)
Definition upload_of (e : event answer) : option session_event :=
  match e with
  | Ev q _ => match q with ReportUsbDataSessionEvent x => Some x | _ => None end
  end.
Definition uploads (t : trace) : list session_event := omap upload_of t.

(** Answers to the requests for the stats service. *)
Definition stats_of (e : event answer) : option bool :=
  match e with
  | Ev q r =>
      match q return answer q -> option bool with
      | GetStatsService => fun b => Some b
      | _ => fun _ => None
      end r
  end.
Definition stats_available (t : trace) : bool := existsb id (omap stats_of t).

(** Timers armed, in seconds. *)
Definition timer_of (e : event answer) : option Z :=
  match e with
  | Ev q _ => match q with TimerfdSettime _ sec => Some sec | _ => None end
  end.
Definition timers (t : trace) : list Z := omap timer_of t.

(** The answers to the reads of one file. *)
Definition read_of (path : string) (e : event answer) : option (option string) :=
  match e with
  | Ev q r =>
      match q return answer q -> option (option string) with
      | ReadFileToString p => fun x => if bool_decide (p = path) then Some x else None
      | _ => fun _ => None
      end r
  end.
Definition file_reads (path : string) (t : trace) : list (option string) := omap (read_of path) t.

(** Descriptors opened minus descriptors closed. *)
Definition fd_delta (e : event answer) : Z :=
  match e with
  | Ev q r =>
      match q return answer q -> Z with
      | Open _ => fun fd => if fd =? -1 then 0 else 1
      | Close _ => fun _ => -1
      | _ => fun _ => 0
      end r
  end.
Fixpoint fd_balance (t : trace) : Z :=
  match t with [] => 0 | e :: t => fd_delta e + fd_balance t end.

Lemma writes_app t1 t2 : writes (t1 ++ t2) = writes t1 ++ writes t2.
Proof. apply omap_app. Qed.
Lemma callbacks_app t1 t2 : callbacks (t1 ++ t2) = callbacks t1 ++ callbacks t2.
Proof. apply omap_app. Qed.
Lemma locks_app t1 t2 : locks (t1 ++ t2) = locks t1 ++ locks t2.
Proof. apply bind_app. Qed.
Lemma uploads_app t1 t2 : uploads (t1 ++ t2) = uploads t1 ++ uploads t2.
Proof. apply omap_app. Qed.
Lemma timers_app t1 t2 : timers (t1 ++ t2) = timers t1 ++ timers t2.
Proof. apply omap_app. Qed.
Lemma fd_balance_app t1 t2 : fd_balance (t1 ++ t2) = fd_balance t1 + fd_balance t2.
Proof. induction t1 as [|e t1 IH]; simpl; [done|]. rewrite IH. lia. Qed.
Lemma stats_available_app t1 t2 :
  stats_available (t1 ++ t2) = stats_available t1 || stats_available t2.
Proof. unfold stats_available. by rewrite omap_app, existsb_app. Qed.
Lemma file_reads_app p t1 t2 : file_reads p (t1 ++ t2) = file_reads p t1 ++ file_reads p t2.
Proof. apply omap_app. Qed.
Lemma file_reads_cons p e t :
  file_reads p (e :: t) =
  match read_of p e with Some x => x :: file_reads p t | None => file_reads p t end.
Proof. done. Qed.
Lemma writes_cons e t :
  writes (e :: t) = match write_of e with Some x => x :: writes t | None => writes t end.
Proof. done. Qed.
Lemma callbacks_cons e t :
  callbacks (e :: t) = match callback_of e with Some x => x :: callbacks t | None => callbacks t end.
Proof. done. Qed.
Lemma locks_cons e t : locks (e :: t) = lock_of e ++ locks t.
Proof. done. Qed.
Lemma uploads_cons e t :
  uploads (e :: t) = match upload_of e with Some x => x :: uploads t | None => uploads t end.
Proof. done. Qed.
Lemma timers_cons e t :
  timers (e :: t) = match timer_of e with Some x => x :: timers t | None => timers t end.
Proof. done. Qed.
Lemma fd_balance_cons e t : fd_balance (e :: t) = fd_delta e + fd_balance t.
Proof. done. Qed.
Lemma stats_available_cons e t :
  stats_available (e :: t) =
  match stats_of e with Some x => x || stats_available t | None => stats_available t end.
Proof. unfold stats_available. simpl. by destruct (stats_of e). Qed.

Create Rewrite HintDb trace.
#[export] Hint Rewrite writes_app callbacks_app locks_app uploads_app timers_app
  fd_balance_app stats_available_app file_reads_app file_reads_cons writes_cons callbacks_cons locks_cons uploads_cons
  timers_cons fd_balance_cons stats_available_cons : trace.

(** Read off what a concrete trace contains. *)
Ltac read_trace :=
  autorewrite with trace in *;
  cbn [read_of file_reads write_of callback_of lock_of upload_of timer_of stats_of fd_delta writes callbacks locks
       uploads timers omap list_omap fd_balance stats_available existsb app orb id] in *.

(** Event classes, for [emits]. *)
Definition no_write (e : event answer) : Prop := write_of e = None.
Definition no_callback (e : event answer) : Prop := callback_of e = None.
Definition no_lock (e : event answer) : Prop := lock_of e = [].

Lemma omap_none {A B} (f : A -> option B) l : Forall (fun x => f x = None) l -> omap f l = [].
Proof. induction 1 as [|x l H _ IH]; [done|]. simpl. by rewrite H. Qed.

Lemma emits_writes {K S A} (m : comp answer K S A) w :
  emits no_write A m -> writes (trace_of (m w)) = [].
Proof. intros H. apply omap_none, H. Qed.
Lemma emits_callbacks {K S A} (m : comp answer K S A) w :
  emits no_callback A m -> callbacks (trace_of (m w)) = [].
Proof. intros H. apply omap_none, H. Qed.
Lemma emits_locks {K S A} (m : comp answer K S A) w :
  emits no_lock A m -> locks (trace_of (m w)) = [].
Proof.
  intros H. specialize (H w). induction H as [|e t He _ IH]; [done|].
  rewrite locks_cons, He. done.
Qed.

(** The programs of the USB HAL over a state [S]. *)
Abbreviation prog K S := (comp answer K S).
