(* ===== verification/Uevent.v ===== *)
(** * Scanning a uevent message

    [uevent_event] (usb/usb/Usb.cpp) and [UsbDataSessionMonitor::handleUevent]
    walk a netlink message with the same pointer loop: the message is a
    sequence of NUL-terminated strings in a buffer of [UEVENT_MSG_LEN + 2]
    bytes to which the code appends two NULs. *)
From S2P Require Import Prelude CString Effects.

Definition UEVENT_MSG_LEN : nat := 2048.

(** [msg[n] = '\0'; msg[n + 1] = '\0';] *)
Definition uevent_buffer (msg : string) : string := msg +:+ String NUL (String NUL "").

Section scan.
Context {Q : Type} {R : Q -> Type} {K S : Type}.

(** [while ( *cp ) { body; while ( *cp++ ) {} }] from the position where
  [buf] is left; [body] tells whether it breaks out of the loop.  Reading
  past the buffer is [OutOfBounds]. *)
Fixpoint uevent_scan (fuel : nat) (buf : string) (body : string -> comp R K S bool) :
  comp R K S unit :=
match fuel with
| O => crash OutOfFuel
| Datatypes.S fuel =>
    match buf with
    | EmptyString => crash OutOfBounds
    | String c _ =>
        if Ascii.eqb c NUL then mret tt
        else
          p ← expect OutOfBounds (cstr buf);
          stop ← body p.1;
          if (stop : bool) then mret tt else uevent_scan fuel p.2 body
    end
end.

(** One iteration consumes a byte: the message length is enough fuel. *)
Definition uevent_loop (msg : string) (body : string -> comp R K S bool) : comp R K S unit :=
let buf := uevent_buffer msg in uevent_scan (Datatypes.S (strlen buf)) buf body.
End scan.

(** ** What the loop visits *)

(** The strings of a message: its NUL-free segments. *)
Fixpoint split_nul (s : string) : list string :=
  match s with
  | EmptyString => [""]
  | String c s =>
      if Ascii.eqb c NUL then "" :: split_nul s
      else match split_nul s with
           | [] => [String c ""]
           | x :: l => String c x :: l
           end
  end.
Fixpoint until_empty (l : list string) : list string :=
  match l with
  | [] => []
  | x :: l => if streq x "" then [] else x :: until_empty l
  end.
(** The loop stops at the first empty one. *)
Definition uevent_strings (msg : string) : list string := until_empty (split_nul msg).

Lemma split_nul_app u v :
  sall (fun d => negb (Ascii.eqb d NUL)) u = true ->
  split_nul (u +:+ String NUL v) = u :: split_nul v.
Proof.
  induction u as [|c u IH]; [done|]. rewrite app_cons_s. simpl.
  intros [H1 H2]%andb_true_iff. apply negb_true_iff in H1. by rewrite H1, IH.
Qed.

Lemma split_nul_free u :
  sall (fun d => negb (Ascii.eqb d NUL)) u = true -> split_nul u = [u].
Proof.
  induction u as [|c u IH]; [done|]. simpl.
  intros [H1 H2]%andb_true_iff. apply negb_true_iff in H1. by rewrite H1, IH.
Qed.

(** A buffer that ends in a NUL holds a C string at every position before it. *)
Lemma cstr_buffer s t :
  exists u v, cstr (s +:+ String NUL t) = Some (u, v) /\
    ((s = u /\ v = t) \/ exists v', s = u +:+ String NUL v' /\ v = v' +:+ String NUL t).
Proof.
  induction s as [|c s IH].
  - exists "", t. split; [done|by left].
  - rewrite app_cons_s. simpl. destruct (Ascii.eqb c NUL) eqn:E.
    + exists "", (s +:+ String NUL t). split; [done|]. right. exists s.
      apply Ascii.eqb_eq in E as ->. done.
    + destruct IH as (u & v & -> & H). exists (String c u), v. split; [done|].
      destruct H as [[-> ->]|(v' & -> & ->)]; [by left|right]. by exists v'.
Qed.

Section equivalence.
Context {Q : Type} {R : Q -> Type} {K S : Type}.
Implicit Types body : string -> comp R K S bool.

Lemma uevent_scan_correct fuel body msg :
(strlen msg < fuel)%nat ->
uevent_scan fuel (uevent_buffer msg) body ≡ for_until (uevent_strings msg) body.
Proof.
revert msg. induction fuel as [|fuel IH]; intros msg Hf; [lia|]. simpl.
destruct msg as [|c msg]; [done|]. unfold uevent_buffer in *. rewrite app_cons_s.
destruct (Ascii.eqb c NUL) eqn:E.
{ apply Ascii.eqb_eq in E as ->. done. }
destruct (cstr_buffer (String c msg) (String NUL "")) as (u & v & Hc & Hv).
rewrite app_cons_s in Hc. rewrite Hc. cbn [expect]. rewrite bind_ret_l. cbn [fst snd].
destruct (cstr_Some _ _ _ Hc) as [_ Hu].
assert (exists d u', u = String d u') as (d & u' & ->).
{ destruct u as [|d u']; [|by eauto].
  destruct Hv as [[Hv _]|(v' & Hv & _)]; [done|]. injection Hv as -> _.
  by rewrite Ascii.eqb_refl in E. }
destruct Hv as [[Hm ->]|(v' & Hm & ->)].
- unfold uevent_strings. rewrite Hm, split_nul_free by done. cbn.
  apply comp_bind_proper; [|done]. intros []; [done|]. simpl in Hf.
  destruct fuel; [lia|done].
- unfold uevent_strings. rewrite Hm, split_nul_app by done. cbn.
  apply comp_bind_proper; [|done]. intros []; [done|].
  assert (strlen v' < fuel)%nat as Hl.
  { pose proof (f_equal strlen Hm) as Hl. rewrite strlen_app in Hl. simpl in *. lia. }
  apply (IH v' Hl).
Qed.

(** C25: The pointer loop over a uevent buffer never reads outside it, always
  terminates, and runs its body once per string of the message, in order,
  up to the first empty string or the first body that breaks. *)
Theorem uevent_loop_visits_strings msg body :
uevent_loop msg body ≡ for_until (uevent_strings msg) body.
Proof.
apply uevent_scan_correct. unfold uevent_buffer. rewrite strlen_app. simpl. lia.
Qed.
End equivalence.

(** A compositional property of the body is one of the loop. *)
Lemma comp_closed_uevent_loop {Q} {R : Q -> Type} {K S}
    (P : forall A, comp R K S A -> Prop) `{!Compositional P} msg (body : string -> comp R K S bool) :
  (forall x, P bool (body x)) -> P unit (uevent_loop msg body).
Proof.
  intros H. unfold uevent_loop. cbv zeta. generalize (Datatypes.S (strlen (uevent_buffer msg))).
  intros fuel. generalize (uevent_buffer msg). induction fuel as [|fuel IH]; intros buf; simpl.
  - apply (comp_closed_crash (P:=P)).
  - walk. all: auto.
Qed.
