(* ===== verification/I2cPath.v ===== *)
(** * Locating the type-C controller on the i2c bus

    [getI2cBusNumber] and [getI2cClientPath] are the same code in
    usb/usb/Usb.cpp and usb/gadget/UsbGadget.cpp: two members of the class
    cache what a scan of sysfs found.  They are modelled once, over any state
    with a lens to the two members. *)
From S2P Require Import Prelude CString Effects Platform.
Open Scope Z_scope.

Definition kHsi2cPath : string := "/sys/devices/platform/10d50000.hsi2c".
Definition kMax77759TcpcDevName : string := "i2c-max77759tcpc".
Definition kMax77759TcpcClientId : Z := 0x25.

(** The members [mI2cBusNumber] and [mI2cClientPath]. *)
Record i2c_cache := mkI2cCache { mI2cBusNumber : Z; mI2cClientPath : string }.
Definition set_mI2cBusNumber (v : Z) (c : i2c_cache) : i2c_cache := mkI2cCache v (mI2cClientPath c).
Definition set_mI2cClientPath (v : string) (c : i2c_cache) : i2c_cache := mkI2cCache (mI2cBusNumber c) v.
(** Their initialisers. *)
Definition fresh_i2c_cache : i2c_cache := mkI2cCache (-1) "".

(** The loop over [readdir]: the first directory named [i2c-<number>]. *)
Fixpoint find_bus (l : list dirent) : option Z :=
  match l with
  | [] => None
  | e :: l =>
      if bool_decide (ep_type e = DT_DIR) then
        match sscanf_u "i2c-" (ep_name e) with Some n => Some n | None => find_bus l end
      else find_bus l
  end.

(** The two [snprintf]s; [PATH_MAX] is far beyond their length. *)
Definition i2cClientPathLabeled (bus : Z) : string :=
  kHsi2cPath // ("i2c-" +:+ pretty bus) // kMax77759TcpcDevName.
Definition i2cClientPathUnLabeled (bus : Z) : string :=
  kHsi2cPath // ("i2c-" +:+ pretty bus) // (pretty bus +:+ "-" +:+ print_hex_pad 4 kMax77759TcpcClientId).

Section i2c.
Context {K : Type} `{!Oracle answer K} {S : Type} `{!Lens S i2c_cache}.
Abbreviation M := (prog K S).

Definition getI2cBusNumber : M Z :=
n ← mget mI2cBusNumber;
if 0 <=? n then mret n
else
  dp ← call (Opendir kHsi2cPath);
  match dp with
  | Some entries =>
      match find_bus entries with
      | Some busNumber => mmod (set_mI2cBusNumber (wrapS 32 busNumber))
      | None => mret tt
      end
  | None => mret tt
  end;;
  mget mI2cBusNumber.

Definition getI2cClientPath : M string :=
p ← mget mI2cClientPath;
if negb (streq p "") then mret p
else
  n ← getI2cBusNumber;
  if n <? 0 then mret ""
  else
    bus ← mget mI2cBusNumber;
    dp ← call (Opendir (i2cClientPathLabeled bus));
    match dp with
    | Some _ => mmod (set_mI2cClientPath (i2cClientPathLabeled bus));; mget mI2cClientPath
    | None =>
        dp ← call (Opendir (i2cClientPathUnLabeled bus));
        match dp with
        | Some _ => mmod (set_mI2cClientPath (i2cClientPathUnLabeled bus));; mget mI2cClientPath
        | None => mret ""
        end
    end.
End i2c.

(** ** Facts *)

Section facts.
Context {K : Type} `{!Oracle answer K} {S : Type} `{!Lens S i2c_cache} `{!LensLaws S i2c_cache}.
Implicit Types w : world K S.

(** Events that only look for directories. *)
Definition only_opendir (e : event answer) : Prop :=
match e with Ev q _ => match q with Opendir _ => True | _ => False end end.

Lemma getI2cBusNumber_emits : emits only_opendir Z (getI2cBusNumber (K:=K) (S:=S)).
Proof. unfold getI2cBusNumber. by walk. Qed.
#[local] Hint Resolve getI2cBusNumber_emits : comp.

Lemma getI2cClientPath_emits : emits only_opendir string (getI2cClientPath (K:=K) (S:=S)).
Proof. unfold getI2cClientPath. by walk. Qed.

(** Both change nothing but the cache. *)
Lemma i2c_frames {T} (f : S -> T) :
(forall c s, f (lset c s) = f s) ->
frames (keeps f) string (getI2cClientPath (K:=K) (S:=S)).
Proof.
intros H. assert (frames (keeps f) Z (getI2cBusNumber (K:=K) (S:=S))) as Hbus.
{ unfold getI2cBusNumber. walk. all: apply frames_modify; intros s; apply H. }
unfold getI2cClientPath. walk. all: try done.
all: apply frames_modify; intros s; apply H.
Qed.

(** What [getI2cClientPath] leaves in the cache. *)
Lemma getI2cClientPath_cache w :
wp (getI2cClientPath (K:=K) (S:=S)) (fun r w' _ => r <> "" -> mI2cClientPath (lget (self w')) = r)
  (fun _ _ => False) w.
Proof.
unfold getI2cClientPath, getI2cBusNumber. wp_run.
all: try done. all: by rewrite ?lget_lset.
Qed.
End facts.

Section correct.
Context {K : Type} `{!Oracle answer K} {S : Type} `{!Lens S i2c_cache} `{!LensLaws S i2c_cache}.
Implicit Types w : world K S.

(** C37: [getI2cClientPath] never fails and only looks for directories.  A
  non-empty result is the cached path or one of the two names of the
  controller under the bus found, and it is final: asking again in the state
  it leaves answers the same without touching the outside.  An empty result
  leaves no path in the cache, so that the next call looks again. *)
Theorem getI2cClientPath_correct w :
wp getI2cClientPath (fun r w' tr =>
  let c := lget (self w) in let c' := lget (self w') in
  Forall only_opendir tr /\
  (r <> "" ->
     (r = mI2cClientPath c \/
      (0 <= mI2cBusNumber c' /\
       (r = i2cClientPathLabeled (mI2cBusNumber c') \/
        r = i2cClientPathUnLabeled (mI2cBusNumber c')))) /\
     forall k, getI2cClientPath (World k (self w')) = Done r (World k (self w')) []) /\
  (r = "" -> mI2cClientPath c = "" /\ mI2cClientPath c' = ""))
  (fun _ _ => False) w.
Proof.
eapply wp_mono; [eapply (wp_emits only_opendir _ _ _ (fun _ _ => False)); [apply getI2cClientPath_emits|]| |].
2:{ intros r w' tr [H1 H2]. split; [exact H1|exact H2]. }
2:{ by intros x t [_ H]. }
unfold getI2cClientPath, getI2cBusNumber. wp_run.
all: repeat match goal with
  | H : negb _ = true |- _ => apply negb_true_iff in H
  | H : negb _ = false |- _ => apply negb_false_iff in H
  | H : streq _ _ = true |- _ => apply streq_true in H
  | H : streq _ _ = false |- _ => apply streq_false in H
  | H : (_ <? _) = false |- _ => apply Z.ltb_ge in H
  end.
all: split; intros Hr; try done.
all: try (split; [by auto|]; intros k9; unfold mbind, comp_bind, mget, gets; simpl;
          rewrite ?lget_lset; simpl; by rewrite ?(proj2 (streq_false _ _) Heqb)).
Qed.
End correct.
