(* ===== verification/Sim.v ===== *)
(** * A concrete outside, for witnesses

    A small executable kernel and concrete library functions.  It is one
    possible environment: the theorems quantify over all of them, and the
    witnesses run in this one. *)
From stdpp Require Import gmap.
From S2P Require Import Prelude CString Effects Aidl Platform.
Open Scope Z_scope.

Record sim := Sim {
  files : gmap string string;        (* readable files and their contents *)
  readonly : list string;            (* files whose writes fail *)
  dirs : gmap string (list dirent);
  clock : Z;                         (* what BootClockNow answers *)
  fds : gmap string Z;               (* the descriptor an open path gets *)
  reads : list string;               (* what successive ReadFds deliver *)
  uevents : list string;             (* what successive UeventRecvs deliver *)
  waits : list wait_result;          (* how successive timed waits end *)
  busy : list mutex;                 (* mutexes somebody else holds *)
  threads_ok : bool;
}.

Definition sim_write (c p : string) (k : sim) : bool * sim :=
  match files k !! p with
  | Some _ =>
      if bool_decide (p ∈ readonly k) then (false, k)
      else (true, Sim (<[p := c]> (files k)) (readonly k) (dirs k) (clock k) (fds k) (reads k)
                    (uevents k) (waits k) (busy k) (threads_ok k))
  | None => (false, k)
  end.

Definition pop {A} (d : A) (l : list A) : A * list A :=
  match l with [] => (d, []) | x :: l => (x, l) end.

#[export] Instance sim_oracle : Oracle answer sim := fun q k =>
  match q return answer q * sim with
  | ReadFileToString p => (files k !! p, k)
  | WriteStringToFile c p => sim_write c p k
  | Opendir p => (dirs k !! p, k)
  | Open p => (match fds k !! p with Some fd => fd | None => -1 end, k)
  | ReadFd _ _ =>
      let '(x, l) := pop "" (reads k) in
      (x, Sim (files k) (readonly k) (dirs k) (clock k) (fds k) l (uevents k) (waits k)
            (busy k) (threads_ok k))
  | FopenW p => (bool_decide (is_Some (files k !! p)), k)
  | Fputs c p => sim_write c p k
  | EpollCreate => (3, k)
  | UeventOpenSocket => (4, k)
  | TimerfdCreate => (5, k)
  | EpollAdd _ => (true, k)
  | TimerfdSettime _ _ => (true, k)
  | UeventRecv _ =>
      let '(x, l) := pop "" (uevents k) in
      (x, Sim (files k) (readonly k) (dirs k) (clock k) (fds k) (reads k) l (waits k)
            (busy k) (threads_ok k))
  | BootClockNow => (clock k, k)
  | ClockMonotonic => ((Z.quot (clock k) 1000000000, Z.rem (clock k) 1000000000), k)
  | GetProperty _ d => (d, k)
  | MutexTrylock m => (bool_decide (m ∉ busy k), k)
  | CondTimedwait _ _ =>
      let '(x, l) := pop (WaitResult true false) (waits k) in
      (x, Sim (files k) (readonly k) (dirs k) (clock k) (fds k) (reads k) (uevents k) l
            (busy k) (threads_ok k))
  | ThreadCreate => (threads_ok k, k)
  | ThreadKill => (true, k)
  | CondSetup _ => (true, k)
  | GetMaxOverheatTemperature => (S754_finite false 10485760 (-18), k) (* 40 degrees *)
  | Fclose _ => (true, k)
  | GetStatsService => (true, k)
  | Callback _ _ => (true, k)
  | Access _ => (true, k)
  | ResetGadget | SetVidPid _ _ => (GadgetStatus.SUCCESS, k)
  | MonitorRunning | MonitorWaitForPullUp _ => (true, k)
  | GetBoolProperty _ d => (d, k)
  | GetVendorFunctions => ("user", k)
  | AddGenericAndroidFunctions _ i => ((GadgetStatus.SUCCESS, false, i + 1), k)
  | AddAdb i => ((GadgetStatus.SUCCESS, i + 1), k)
  | LinkFunction _ _ => (false, k)
  | GadgetCallback _ _ => (true, k)
  | _ => (tt, k)
  end.

Definition sim0 : sim := Sim ∅ [] ∅ 0 ∅ [] [] [] [] true.
Definition sim_files (l : list (string * string)) : sim :=
  Sim (list_to_map l) [] ∅ 0 ∅ [] [] [] [] true.

(** An outside that always gives the same answers. *)
Definition quiet_answer (q : request) : answer q :=
  match q return answer q with
  | ReadFileToString _ => None
  | WriteStringToFile _ _ => false
  | Opendir _ => None
  | Open _ => -1
  | ReadFd _ _ => ""
  | FopenW _ => false
  | Fputs _ _ => false
  | EpollCreate | UeventOpenSocket | TimerfdCreate => -1
  | EpollAdd _ => false
  | TimerfdSettime _ _ => false
  | UeventRecv _ => ""
  | BootClockNow => 0
  | ClockMonotonic => (0, 0)
  | GetProperty _ d => d
  | MutexTrylock _ => false
  | CondTimedwait _ _ => WaitResult true false
  | ThreadCreate | ThreadKill | CondSetup _ => false
  | GetMaxOverheatTemperature => S754_zero false
  | Fclose _ => false
  | GetStatsService => false
  | Callback _ _ => false
  | Access _ => false
  | ResetGadget | SetVidPid _ _ => GadgetStatus.ERROR
  | MonitorRunning | MonitorWaitForPullUp _ => false
  | GetBoolProperty _ d => d
  | GetVendorFunctions => ""
  | AddGenericAndroidFunctions _ i => (GadgetStatus.ERROR, false, i)
  | AddAdb i => (GadgetStatus.ERROR, i)
  | LinkFunction _ _ => true
  | GadgetCallback _ _ => false
  | _ => tt
  end.
Definition fixed_oracle (h : forall q, answer q) : Oracle answer unit := fun q k => (h q, k).

(** ** Library functions as documented *)

(** [Trim]: without the blanks at both ends. *)
Fixpoint rtrim (s : string) : string :=
  match s with
  | EmptyString => ""
  | String c s =>
      match rtrim s with
      | EmptyString => if isspace c then "" else String c ""
      | t => String c t
      end
  end.
Definition trim (s : string) : string := rtrim (skip_space s).

(** [Tokenize]: the non-empty pieces between delimiters. *)
Fixpoint char_in (c : ascii) (s : string) : bool :=
  match s with String d s => Ascii.eqb c d || char_in c s | EmptyString => false end.
Fixpoint tokens (s delims : string) : list string :=
  match s with
  | EmptyString => [""]
  | String c s =>
      if char_in c delims then "" :: tokens s delims
      else match tokens s delims with [] => [String c ""] | x :: l => String c x :: l end
  end.
Definition tokenize (s delims : string) : list string :=
  filter (fun x => x <> "") (tokens s delims).

Definition warning_value (w : ComplianceWarning.t) : Z :=
  match w with
  | ComplianceWarning.OTHER => 1
  | ComplianceWarning.DEBUG_ACCESSORY => 2
  | ComplianceWarning.BC_1_2 => 3
  | ComplianceWarning.MISSING_RP => 4
  | ComplianceWarning.INPUT_POWER_LIMITED => 5
  | ComplianceWarning.MISSING_DATA_LINES => 6
  | ComplianceWarning.ENUMERATION_FAIL => 7
  | ComplianceWarning.FLAKY_CONNECTION => 8
  end.

Definition sim_PortStatus : PortStatus :=
  mkPortStatus "" PortDataRole.NONE PortPowerRole.NONE PortMode.NONE false false false [] [] false
    ContaminantProtectionStatus.NONE false ContaminantDetectionStatus.NOT_SUPPORTED [] false
    PowerBrickStatus.UNKNOWN false [].

#[export] Instance sim_platform : Platform := {|
  Trim := trim;
  Tokenize := tokenize;
  PULLUP_PATH := "/config/usb_gadget/g1/UDC";
  enable_report_usb_data_compliance_warning := true;
  enable_usb_data_compliance_warning := true;
  enable_input_power_limited_warning := true;
  ComplianceWarning_value := warning_value;
  default_PortStatus := sim_PortStatus;
  unordered_map_order l := l;
|}.

Lemma sim_warning_values_distinct : warning_values_distinct.
Proof. intros [] []; simpl; intros; first [done | lia]. Qed.

Lemma sim_fresh_arrays_empty : fresh_arrays_empty.
Proof. by repeat split. Qed.

Lemma sim_unordered_map_visits_all : unordered_map_visits_all.
Proof. by intros l. Qed.
