(* ===== verification/DataSession.v ===== *)
(** * UsbDataSessionMonitor (usb/usb/UsbDataSessionMonitor.cpp)

    The monitor thread of the USB HAL: it watches the sysfs state of the udc
    device and of two host ports, the data role and uevents, uploads metrics at
    the end of a data session and derives compliance warnings. *)
From S2P Require Import Prelude CString Effects Aidl Platform Uevent.
Open Scope Z_scope.

Definition USB_STATE_MAX_LEN : nat := 20.
Definition DATA_ROLE_MAX_LEN : nat := 10.
Definition WARNING_SURFACE_DELAY_SEC : Z := 5.
Definition ENUM_FAIL_DEFAULT_COUNT_THRESHOLD : Z := 3.
Definition DEVICE_FLAKY_CONNECTION_CONFIGURED_COUNT_THRESHOLD : Z := 5.

Definition kUdcConfigfsPath : string := "/config/usb_gadget/g1/UDC".
Definition kNotAttachedState : string := "not attached" +:+ String LF "".
Definition kAttachedState : string := "attached" +:+ String LF "".
Definition kPoweredState : string := "powered" +:+ String LF "".
Definition kDefaultState : string := "default" +:+ String LF "".
Definition kAddressedState : string := "addressed" +:+ String LF "".
Definition kConfiguredState : string := "configured" +:+ String LF "".
Definition kSuspendedState : string := "suspended" +:+ String LF "".
Definition kValidStates : list string :=
  [kNotAttachedState; kAttachedState; kPoweredState; kDefaultState; kAddressedState;
   kConfiguredState; kSuspendedState].

(** File descriptors are integers; a [unique_fd] that owns nothing is -1. *)
Record usbDeviceState := mkUsbDeviceState {
  fd : Z;
  filePath : string;
  ueventRegex : string;
  states : list string;
  timestamps : list Z;
}.

Definition set_fd (v : Z) (s : usbDeviceState) : usbDeviceState :=
  mkUsbDeviceState
    v s.(filePath) s.(ueventRegex) s.(states) s.(timestamps).
Definition set_filePath (v : string) (s : usbDeviceState) : usbDeviceState :=
  mkUsbDeviceState
    s.(fd) v s.(ueventRegex) s.(states) s.(timestamps).
Definition set_ueventRegex (v : string) (s : usbDeviceState) : usbDeviceState :=
  mkUsbDeviceState
    s.(fd) s.(filePath) v s.(states) s.(timestamps).
Definition set_states (v : list string) (s : usbDeviceState) : usbDeviceState :=
  mkUsbDeviceState
    s.(fd) s.(filePath) s.(ueventRegex) v s.(timestamps).
Definition set_timestamps (v : list Z) (s : usbDeviceState) : usbDeviceState :=
  mkUsbDeviceState
    s.(fd) s.(filePath) s.(ueventRegex) s.(states) v.

Record UsbDataSessionMonitor := mkUsbDataSessionMonitor {
  mEpollFd : Z;
  mUeventFd : Z;
  mTimerFd : Z;
  mDataRoleFd : Z;
  mDeviceState : usbDeviceState;
  mHost1State : usbDeviceState;
  mHost2State : usbDeviceState;
  mWarningSet : list ComplianceWarning.t;
  mDataRole : PortDataRole.t;
  mDataSessionStart : Z;
  mUdcBind : bool;
}.

Definition set_mEpollFd (v : Z) (s : UsbDataSessionMonitor) : UsbDataSessionMonitor :=
  mkUsbDataSessionMonitor
    v s.(mUeventFd) s.(mTimerFd) s.(mDataRoleFd) s.(mDeviceState) s.(mHost1State)
      s.(mHost2State) s.(mWarningSet) s.(mDataRole) s.(mDataSessionStart) s.(mUdcBind).
Definition set_mUeventFd (v : Z) (s : UsbDataSessionMonitor) : UsbDataSessionMonitor :=
  mkUsbDataSessionMonitor
    s.(mEpollFd) v s.(mTimerFd) s.(mDataRoleFd) s.(mDeviceState) s.(mHost1State)
      s.(mHost2State) s.(mWarningSet) s.(mDataRole) s.(mDataSessionStart) s.(mUdcBind).
Definition set_mTimerFd (v : Z) (s : UsbDataSessionMonitor) : UsbDataSessionMonitor :=
  mkUsbDataSessionMonitor
    s.(mEpollFd) s.(mUeventFd) v s.(mDataRoleFd) s.(mDeviceState) s.(mHost1State)
      s.(mHost2State) s.(mWarningSet) s.(mDataRole) s.(mDataSessionStart) s.(mUdcBind).
Definition set_mDataRoleFd (v : Z) (s : UsbDataSessionMonitor) : UsbDataSessionMonitor :=
  mkUsbDataSessionMonitor
    s.(mEpollFd) s.(mUeventFd) s.(mTimerFd) v s.(mDeviceState) s.(mHost1State)
      s.(mHost2State) s.(mWarningSet) s.(mDataRole) s.(mDataSessionStart) s.(mUdcBind).
Definition set_mDeviceState (v : usbDeviceState) (s : UsbDataSessionMonitor) : UsbDataSessionMonitor :=
  mkUsbDataSessionMonitor
    s.(mEpollFd) s.(mUeventFd) s.(mTimerFd) s.(mDataRoleFd) v s.(mHost1State)
      s.(mHost2State) s.(mWarningSet) s.(mDataRole) s.(mDataSessionStart) s.(mUdcBind).
Definition set_mHost1State (v : usbDeviceState) (s : UsbDataSessionMonitor) : UsbDataSessionMonitor :=
  mkUsbDataSessionMonitor
    s.(mEpollFd) s.(mUeventFd) s.(mTimerFd) s.(mDataRoleFd) s.(mDeviceState) v
      s.(mHost2State) s.(mWarningSet) s.(mDataRole) s.(mDataSessionStart) s.(mUdcBind).
Definition set_mHost2State (v : usbDeviceState) (s : UsbDataSessionMonitor) : UsbDataSessionMonitor :=
  mkUsbDataSessionMonitor
    s.(mEpollFd) s.(mUeventFd) s.(mTimerFd) s.(mDataRoleFd) s.(mDeviceState)
      s.(mHost1State) v s.(mWarningSet) s.(mDataRole) s.(mDataSessionStart) s.(mUdcBind).
Definition set_mWarningSet (v : list ComplianceWarning.t) (s : UsbDataSessionMonitor) : UsbDataSessionMonitor :=
  mkUsbDataSessionMonitor
    s.(mEpollFd) s.(mUeventFd) s.(mTimerFd) s.(mDataRoleFd) s.(mDeviceState)
      s.(mHost1State) s.(mHost2State) v s.(mDataRole) s.(mDataSessionStart) s.(mUdcBind).
Definition set_mDataRole (v : PortDataRole.t) (s : UsbDataSessionMonitor) : UsbDataSessionMonitor :=
  mkUsbDataSessionMonitor
    s.(mEpollFd) s.(mUeventFd) s.(mTimerFd) s.(mDataRoleFd) s.(mDeviceState)
      s.(mHost1State) s.(mHost2State) s.(mWarningSet) v s.(mDataSessionStart) s.(mUdcBind).
Definition set_mDataSessionStart (v : Z) (s : UsbDataSessionMonitor) : UsbDataSessionMonitor :=
  mkUsbDataSessionMonitor
    s.(mEpollFd) s.(mUeventFd) s.(mTimerFd) s.(mDataRoleFd) s.(mDeviceState)
      s.(mHost1State) s.(mHost2State) s.(mWarningSet) s.(mDataRole) v s.(mUdcBind).
Definition set_mUdcBind (v : bool) (s : UsbDataSessionMonitor) : UsbDataSessionMonitor :=
  mkUsbDataSessionMonitor
    s.(mEpollFd) s.(mUeventFd) s.(mTimerFd) s.(mDataRoleFd) s.(mDeviceState)
      s.(mHost1State) s.(mHost2State) s.(mWarningSet) s.(mDataRole) s.(mDataSessionStart) v.

(** A [struct usbDeviceState *] points to one of the three members. *)
Inductive device_ref := Device | Host1 | Host2.
#[export] Instance device_ref_eq_dec : EqDecision device_ref.
Proof. solve_decision. Defined.

Definition get_state (d : device_ref) : UsbDataSessionMonitor -> usbDeviceState :=
  match d with Device => mDeviceState | Host1 => mHost1State | Host2 => mHost2State end.
Definition set_state (d : device_ref) : usbDeviceState -> UsbDataSessionMonitor -> UsbDataSessionMonitor :=
  match d with
  | Device => set_mDeviceState | Host1 => set_mHost1State | Host2 => set_mHost2State
  end.
Definition update_state d (f : usbDeviceState -> usbDeviceState) (m : UsbDataSessionMonitor) :=
  set_state d (f (get_state d m)) m.

(** A [unique_fd &] is the fd of one of them, or [mDataRoleFd]. *)
Inductive fd_ref := DataRoleFd | StateFd (d : device_ref).
Definition get_fd (r : fd_ref) (m : UsbDataSessionMonitor) : Z :=
  match r with DataRoleFd => mDataRoleFd m | StateFd d => fd (get_state d m) end.
Definition set_fd_at (r : fd_ref) (v : Z) (m : UsbDataSessionMonitor) : UsbDataSessionMonitor :=
  match r with DataRoleFd => set_mDataRoleFd v m | StateFd d => update_state d (set_fd v) m end.

(** [std::set<ComplianceWarning>]: its elements in the order of their values. *)
Section warning_set.
Context {PLAT : Platform}.

Fixpoint set_insert (x : ComplianceWarning.t) (l : list ComplianceWarning.t) :=
match l with
| [] => [x]
| y :: l' =>
    if ComplianceWarning_value x <? ComplianceWarning_value y then x :: l
    else if ComplianceWarning_value x =? ComplianceWarning_value y then l
    else y :: set_insert x l'
end.
End warning_set.

(** A read buffer of [n] zeroed bytes after [read] stored [data] into it. *)
Fixpoint nuls (n : nat) : string := match n with O => "" | S n => String NUL (nuls n) end.
Definition read_buffer (n : nat) (data : string) : string :=
  stake n (data +:+ nuls n).

Section monitor.
Context {PLAT : Platform} {K : Type} `{!Oracle answer K} {S : Type}
`{!Lens S UsbDataSessionMonitor}.
Abbreviation M := (prog K S).

(** [mUpdatePortStatusCb]: set by the constructor and never changed. *)
Variable mUpdatePortStatusCb : option (M unit).

(** [boot_clock::now()], in nanoseconds *)
Definition now : M Z := call BootClockNow.

(** [fileFd = std::move(fd)]: the old descriptor, if any, is closed. *)
Definition move_fd (r : fd_ref) (v : Z) : M unit :=
old ← mget (get_fd r);
when (negb (old =? -1)) (call (Close old));;
mmod (set_fd_at r v).

Definition addEpollFile (filePath : string) (fileFd : fd_ref) : M Z :=
fd ← call (Open filePath);
if fd =? -1 then mret (-1)
else
  ok ← call (EpollAdd fd);
  if (ok : bool) then move_fd fileFd fd;; mret 0
  else call (Close fd);; mret (-1).

(** [fileFd.release()] gives up the descriptor without closing it. *)
Definition removeEpollFile (filePath : string) (fileFd : fd_ref) : M unit :=
fd ← mget (get_fd fileFd);
call (EpollDel fd);;
mmod (set_fd_at fileFd (-1)).

Definition reportUsbDataSessionMetrics : M unit :=
let build is_host d : M session_event :=
  t ← now; start ← mget mDataSessionStart; s ← mget (get_state d);
  mret (SessionEvent is_host t start (states s) (timestamps s)) in
let upload (events : list session_event) : M unit :=
  stats_client ← call GetStatsService;
  when stats_client (for_each events (fun e => call (ReportUsbDataSessionEvent e))) in
role ← mget mDataRole;
match role with
| PortDataRole.DEVICE => event ← build false Device; upload [event]
| PortDataRole.HOST =>
    let host d : M (list session_event) :=
      n ← mget (fun m => length (states (get_state d m)));
      if (1 <? n)%nat then event ← build true d; mret [event] else mret [] in
    e1 ← host Host1; e2 ← host Host2;
    match e1 ++ e2 with
    | [] => event ← build true Host1; upload [event]
    | events => upload events
    end
| PortDataRole.NONE => mret tt
end.

Definition getComplianceWarnings (role : PortDataRole.t) : M (list ComplianceWarning.t) :=
if negb enable_report_usb_data_compliance_warning then mret []
else
  mine ← mget mDataRole;
  if bool_decide (role <> mine) || bool_decide (role = PortDataRole.NONE) then mret []
  else mget mWarningSet.

Definition notifyComplianceWarning : M unit :=
if negb enable_report_usb_data_compliance_warning then mret tt
else match mUpdatePortStatusCb with Some cb => cb | None => mret tt end.

(** [std::chrono::duration_cast<std::chrono::seconds>], stored in an [int] *)
Definition elapsed_sec (t start : Z) : Z := wrapS 32 (Z.quot (t - start) 1000000000).
(** [std::count] and [size], stored in an [int] *)
Definition int_count (x : string) (l : list string) : Z := wrapS 32 (Z.of_nat (count_eq x l)).
Definition int_size (l : list string) : Z := wrapS 32 (Z.of_nat (length l)).
Definition front_is (x : string) (l : list string) : bool :=
match l with y :: _ => streq y x | [] => false end.

(** The [newWarningSet] that [evaluateComplianceWarning] builds. *)
Definition newWarningSet (m : UsbDataSessionMonitor) (t : Z) : list ComplianceWarning.t :=
if WARNING_SURFACE_DELAY_SEC <=? elapsed_sec t (mDataSessionStart m) then
  if bool_decide (mDataRole m = PortDataRole.DEVICE) && mUdcBind m then
    let configuredCount := int_count kConfiguredState (states (mDeviceState m)) in
    let defaultCount := int_count kDefaultState (states (mDeviceState m)) in
    let s := if (configuredCount =? 0) && (ENUM_FAIL_DEFAULT_COUNT_THRESHOLD <? defaultCount)
             then set_insert ComplianceWarning.ENUMERATION_FAIL [] else [] in
    if DEVICE_FLAKY_CONNECTION_CONFIGURED_COUNT_THRESHOLD <? configuredCount
    then set_insert ComplianceWarning.FLAKY_CONNECTION s else s
  else if bool_decide (mDataRole m = PortDataRole.HOST) then
    let h1 := states (mHost1State m) in
    let h2 := states (mHost2State m) in
    let s := if (int_count kConfiguredState h1 =? 0) && (int_count kConfiguredState h2 =? 0) &&
                ((ENUM_FAIL_DEFAULT_COUNT_THRESHOLD <? int_count kDefaultState h1) ||
                 (ENUM_FAIL_DEFAULT_COUNT_THRESHOLD <? int_count kDefaultState h2))
             then set_insert ComplianceWarning.ENUMERATION_FAIL [] else [] in
    if (int_size h1 =? 1) && front_is kNotAttachedState h1 &&
       (int_size h2 =? 1) && front_is kNotAttachedState h2
    then set_insert ComplianceWarning.MISSING_DATA_LINES s else s
  else []
else [].

Definition evaluateComplianceWarning : M unit :=
t ← now;
new ← mget (fun m => newWarningSet m t);
old ← mget mWarningSet;
when (bool_decide (new <> old)) (
  mmod (set_mWarningSet new);;
  notifyComplianceWarning).

Definition clearDeviceStateEvents (d : device_ref) : M unit :=
mmod (update_state d (set_states []));;
mmod (update_state d (set_timestamps [])).

(** The buffer is not NUL-terminated when [read] fills it: using it as a C
  string then runs past its end. *)
Definition handleDeviceStateEvent (d : device_ref) : M unit :=
fd ← mget (get_fd (StateFd d));
call (Lseek fd);;
data ← call (ReadFd fd USB_STATE_MAX_LEN);
p ← expect OutOfBounds (cstr (read_buffer USB_STATE_MAX_LEN data));
let state := p.1 in
if bool_decide (state ∈ kValidStates) then
  mmod (update_state d (fun s => set_states (states s ++ [state]) s));;
  t ← now;
  mmod (update_state d (fun s => set_timestamps (timestamps s ++ [t]) s));;
  evaluateComplianceWarning
else mret tt.

Definition setupNewSession : M unit :=
mmod (set_mWarningSet []);;
t ← now;
mmod (set_mDataSessionStart t);;
role ← mget mDataRole;
match role with
| PortDataRole.DEVICE => clearDeviceStateEvents Device
| PortDataRole.HOST => clearDeviceStateEvents Host1;; clearDeviceStateEvents Host2
| PortDataRole.NONE => mret tt
end;;
when (bool_decide (role <> PortDataRole.NONE)) (
  timer ← mget mTimerFd;
  ret ← call (TimerfdSettime timer WARNING_SURFACE_DELAY_SEC);
  mret tt).

Definition parse_data_role (role : string) : PortDataRole.t :=
if streq role "host" then PortDataRole.HOST
else if streq role "device" then PortDataRole.DEVICE
else PortDataRole.NONE.

Definition handleDataRoleEvent : M unit :=
fd ← mget mDataRoleFd;
call (Lseek fd);;
data ← call (ReadFd fd DATA_ROLE_MAX_LEN);
p ← expect OutOfBounds (cstr (read_buffer DATA_ROLE_MAX_LEN data));
let newDataRole := parse_data_role p.1 in
role ← mget mDataRole;
when (bool_decide (newDataRole <> role)) (
  bind ← mget mUdcBind;
  when (bool_decide (role = PortDataRole.HOST) ||
        (bool_decide (role = PortDataRole.DEVICE) && bind)) reportUsbDataSessionMetrics;;
  mmod (set_mDataRole newDataRole);;
  setupNewSession).

Definition updateUdcBindStatus (devname : string) : M unit :=
r ← call (ReadFileToString ("/sys" +:+ devname +:+ "/function"));
match r with
| None => mret tt
| Some function =>
    let newUdcBind := negb (streq function "") in
    bind ← mget mUdcBind;
    if Bool.eqb newUdcBind bind then mret tt
    else
      role ← mget mDataRole;
      when (bool_decide (role = PortDataRole.DEVICE)) (
        if bind && negb newUdcBind then
          reportUsbDataSessionMetrics;; evaluateComplianceWarning
        else when (negb bind && newUdcBind) setupNewSession);;
      mmod (set_mUdcBind newUdcBind)
end.

(** The body of the loop over a uevent's strings; it never breaks. *)
Definition handleUevent_string (cp : string) : M bool :=
for_each [Host1; Host2] (fun d =>
  regex ← mget (fun m => ueventRegex (get_state d m));
  path ← mget (fun m => filePath (get_state d m));
  when (regex_search cp regex) (
    if starts_with "bind@" cp then r ← addEpollFile path (StateFd d); mret tt
    else when (starts_with "unbind@" cp) (removeEpollFile path (StateFd d))));;
regex ← mget (fun m => ueventRegex (mDeviceState m));
when (regex_search cp regex) (
  when (starts_with "change@" cp) (
    let devname := sdrop (strlen "change@") cp in
    call (Usleep 50000);;
    updateUdcBindStatus devname));;
mret false.

Definition handleUevent : M unit :=
fd ← mget mUeventFd;
msg ← call (UeventRecv fd);
let n := strlen msg in
if (n <=? 0)%nat then mret tt
else if (UEVENT_MSG_LEN <=? n)%nat then mret tt
else uevent_loop msg handleUevent_string.

Definition handleTimerEvent : M unit :=
fd ← mget mTimerFd;
call (TimerfdRead fd);;
evaluateComplianceWarning.

(** The body of [monitorThread]'s loop over the ready descriptors. *)
Definition dispatch (ready : Z) : M unit :=
m ← mget id;
if ready =? mUeventFd m then handleUevent
else if ready =? mTimerFd m then handleTimerEvent
else if ready =? mDataRoleFd m then handleDataRoleEvent
else if ready =? fd (mDeviceState m) then handleDeviceStateEvent Device
else if ready =? fd (mHost1State m) then handleDeviceStateEvent Host1
else when (ready =? fd (mHost2State m)) (handleDeviceStateEvent Host2).

(** What [epoll_wait] came back with, wakeup after wakeup; the thread ends on
  a failure and otherwise waits again. *)
Inductive wakeup := Ready (fds : list Z) | Interrupted | Failed.

Fixpoint monitorThread (ws : list wakeup) : M unit :=
match ws with
| [] => mret tt
| Ready fds :: ws => for_each fds dispatch;; monitorThread ws
| Interrupted :: ws => monitorThread ws
| Failed :: _ => mret tt
end.

(** The constructor.  [mDataRole] has no initialiser: its first value,
  [garbage], is whatever the memory holds. *)
Definition fresh_state : usbDeviceState := mkUsbDeviceState (-1) "" "" [] [].
Definition fresh_monitor (garbage : PortDataRole.t) : UsbDataSessionMonitor :=
mkUsbDataSessionMonitor (-1) (-1) (-1) (-1) fresh_state fresh_state fresh_state [] garbage 0
  false.

Definition UsbDataSessionMonitor_new (garbage : PortDataRole.t)
  (deviceUeventRegex deviceStatePath host1UeventRegex host1StatePath host2UeventRegex
   host2StatePath dataRolePath : string) : M unit :=
let abort_if (b : bool) : M unit := when b (crash Aborted) in
mmod (fun _ => fresh_monitor garbage);;
epollFd ← call EpollCreate; abort_if (epollFd =? -1);;
ueventFd ← call UeventOpenSocket; abort_if (ueventFd =? -1);;
ok ← call (EpollAdd ueventFd); abort_if (negb ok);;
timerFd ← call TimerfdCreate; abort_if (timerFd =? -1);;
ok ← call (EpollAdd timerFd); abort_if (negb ok);;
r ← addEpollFile dataRolePath DataRoleFd; abort_if (negb (r =? 0));;
mmod (update_state Device (fun s => set_ueventRegex deviceUeventRegex (set_filePath deviceStatePath s)));;
_ ← addEpollFile deviceStatePath (StateFd Device);
mmod (update_state Host1 (fun s => set_ueventRegex host1UeventRegex (set_filePath host1StatePath s)));;
_ ← addEpollFile host1StatePath (StateFd Host1);
mmod (update_state Host2 (fun s => set_ueventRegex host2UeventRegex (set_filePath host2StatePath s)));;
_ ← addEpollFile host2StatePath (StateFd Host2);
mmod (set_mEpollFd epollFd);; mmod (set_mUeventFd ueventFd);; mmod (set_mTimerFd timerFd);;
udc ← call (ReadFileToString kUdcConfigfsPath);
mmod (set_mUdcBind (match udc with Some u => negb (streq u "") | None => false end));;
ok ← call ThreadCreate; abort_if (negb ok).
End monitor.
