(* ===== verification/DataSessionFacts.v ===== *)
(** * What UsbDataSessionMonitor guarantees

    The monitor is verified against an arbitrary [mUpdatePortStatusCb] that
    leaves the monitor's own state alone ([quiet_callback]); [UsbFacts.v]
    discharges that for the callback the HAL registers. *)
From S2P Require Import Prelude CString Effects Aidl Platform Uevent DataSession Sim.
Open Scope Z_scope.

(** The contract between the monitor and the callback it is given. *)
Definition quiet_callback {K S} `{!Oracle answer K} `{!Lens S UsbDataSessionMonitor}
    (cb : option (prog K S unit)) : Prop :=
  match cb with Some c => frames (keeps lget) unit c | None => True end.
Existing Class quiet_callback.

(** Abstract specification: when a warning is warranted, in terms of what the
    current session has seen. *)
Definition seen (x : string) (d : device_ref) (m : UsbDataSessionMonitor) : nat :=
  count_eq x (states (get_state d m)).
Definition warranted (m : UsbDataSessionMonitor) (t : Z) (x : ComplianceWarning.t) : Prop :=
  5 <= elapsed_sec t (mDataSessionStart m) /\
  match x with
  | ComplianceWarning.ENUMERATION_FAIL =>
      (mDataRole m = PortDataRole.DEVICE /\ mUdcBind m = true /\
       seen kConfiguredState Device m = 0%nat /\ (3 < seen kDefaultState Device m)%nat) \/
      (mDataRole m = PortDataRole.HOST /\
       seen kConfiguredState Host1 m = 0%nat /\ seen kConfiguredState Host2 m = 0%nat /\
       ((3 < seen kDefaultState Host1 m)%nat \/ (3 < seen kDefaultState Host2 m)%nat))
  | ComplianceWarning.FLAKY_CONNECTION =>
      mDataRole m = PortDataRole.DEVICE /\ mUdcBind m = true /\
      (5 < seen kConfiguredState Device m)%nat
  | ComplianceWarning.MISSING_DATA_LINES =>
      mDataRole m = PortDataRole.HOST /\
      states (mHost1State m) = [kNotAttachedState] /\
      states (mHost2State m) = [kNotAttachedState]
  | _ => False
  end.

(** No state vector holds more entries than an [int] counts. *)
Definition sizes_fit (m : UsbDataSessionMonitor) : Prop :=
  forall d, Z.of_nat (length (states (get_state d m))) < 2 ^ 31.

Section sets.
Context {PLAT : Platform}.

Lemma elem_of_set_insert (Hinj : warning_values_distinct) x y l :
y ∈ set_insert x l <-> y = x \/ y ∈ l.
Proof.
induction l as [|z l IH]; simpl; [set_solver|].
destruct (Z.ltb_spec (ComplianceWarning_value x) (ComplianceWarning_value z)); [set_solver|].
destruct (Z.eqb_spec (ComplianceWarning_value x) (ComplianceWarning_value z)) as [E|E].
- apply Hinj in E as ->. set_solver.
- set_solver.
Qed.

Lemma elem_of_insert_if (Hinj : warning_values_distinct) (b : bool) x y l :
y ∈ (if b then set_insert x l else l) <-> (b = true /\ y = x) \/ y ∈ l.
Proof. destruct b; [rewrite elem_of_set_insert by done|]; naive_solver. Qed.

Lemma set_insert_Forall (P : ComplianceWarning.t -> Prop) x l :
P x -> Forall P l -> Forall P (set_insert x l).
Proof.
intros Hx. induction 1 as [|y l Hy Hl IH]; simpl; [by constructor|].
repeat case_match; by repeat constructor.
Qed.
End sets.

Section counts.
Context (x : string) (l : list string).

Lemma int_count_small : Z.of_nat (length l) < 2 ^ 31 -> int_count x l = Z.of_nat (count_eq x l).
Proof.
intros H. pose proof (count_eq_le x l). apply wrapS_small; [lia|].
change (32 - 1) with 31. lia.
Qed.
Lemma int_size_small : Z.of_nat (length l) < 2 ^ 31 -> int_size l = Z.of_nat (length l).
Proof. intros H. apply wrapS_small; [lia|]. change (32 - 1) with 31. lia. Qed.
End counts.

Lemma single_front x l :
  Z.of_nat (length l) < 2 ^ 31 -> (int_size l =? 1) && front_is x l = true <-> l = [x].
Proof.
  intros H. rewrite int_size_small by done. rewrite andb_true_iff, Z.eqb_eq.
  destruct l as [|y [|z l]]; simpl; [naive_solver| |].
  - rewrite streq_true. naive_solver.
  - split; [lia|done].
Qed.

(** [newWarningSet] computes exactly the warranted warnings. *)
Lemma newWarningSet_spec {PLAT : Platform} (Hinj : warning_values_distinct) m t x :
  sizes_fit m -> x ∈ newWarningSet m t <-> warranted m t x.
Proof.
  intros Hfit. unfold newWarningSet, warranted, WARNING_SURFACE_DELAY_SEC, seen,
    ENUM_FAIL_DEFAULT_COUNT_THRESHOLD, DEVICE_FLAKY_CONNECTION_CONFIGURED_COUNT_THRESHOLD.
  pose proof (Hfit Device) as HD. pose proof (Hfit Host1) as H1. pose proof (Hfit Host2) as H2.
  simpl in HD, H1, H2. simpl get_state.
  pose proof (single_front kNotAttachedState _ H1) as F1.
  pose proof (single_front kNotAttachedState _ H2) as F2.
  rewrite andb_true_iff, Z.eqb_eq in F1, F2.
  destruct (Z.leb_spec 5 (elapsed_sec t (mDataSessionStart m))) as [He|He];
    [|split; [by intros ?%elem_of_nil|lia]].
  cbv zeta. rewrite !int_count_small by done.
  destruct (mDataRole m), (mUdcBind m); decide_closed; cbn [andb];
    rewrite ?elem_of_insert_if, ?elem_of_nil by done;
    rewrite <- ?(andb_assoc (_ =? 1)), <- ?andb_assoc, ?andb_true_iff, ?orb_true_iff;
    rewrite ?Z.eqb_eq, ?Z.ltb_lt;
    clear Hinj Hfit HD H1 H2; destruct x; intuition (first [discriminate | lia]).
Qed.

(** ** The monitor's invariant *)

(** The warnings a data role can carry. *)
Definition allowed (r : PortDataRole.t) (x : ComplianceWarning.t) : Prop :=
  match r, x with
  | PortDataRole.DEVICE, (ComplianceWarning.ENUMERATION_FAIL | ComplianceWarning.FLAKY_CONNECTION)
  | PortDataRole.HOST, (ComplianceWarning.ENUMERATION_FAIL | ComplianceWarning.MISSING_DATA_LINES)
    => True
  | _, _ => False
  end.

(** The devices whose states a session of a data role records. *)
Definition serves (r : PortDataRole.t) (d : device_ref) : bool :=
  match r, d with
  | PortDataRole.DEVICE, Device | PortDataRole.HOST, (Host1 | Host2) => true
  | _, _ => false
  end.

Record monitor_inv {PLAT : Platform} (m : UsbDataSessionMonitor) : Prop := {
  (* only states the kernel can report are recorded, each with its time *)
  inv_valid d : Forall (fun x => x ∈ kValidStates) (states (get_state d m));
  inv_times d : length (timestamps (get_state d m)) = length (states (get_state d m));
  (* the published warnings are a set, and make sense for the data role *)
  inv_allowed : Forall (allowed (mDataRole m)) (mWarningSet m);
  inv_sorted : StronglySorted
    (fun x y => ComplianceWarning_value x < ComplianceWarning_value y) (mWarningSet m);
}.

Lemma get_update_state d d' f m :
  get_state d (update_state d' f m) =
  if bool_decide (d = d') then f (get_state d m) else get_state d m.
Proof. by destruct d, d'. Qed.

Section invariant_pure.
Context {PLAT : Platform}.
Abbreviation sorted := (StronglySorted
(fun x y => ComplianceWarning_value x < ComplianceWarning_value y)).

Lemma set_insert_sorted x l : sorted l -> sorted (set_insert x l).
Proof.
induction 1 as [|y l Hl IH Hy]; simpl; [by repeat constructor|].
destruct (Z.ltb_spec (ComplianceWarning_value x) (ComplianceWarning_value y)).
{ constructor; [by constructor|]. constructor; [done|].
  eapply Forall_impl; [exact Hy|]. intros z Hz. simpl in *. lia. }
destruct (Z.eqb_spec (ComplianceWarning_value x) (ComplianceWarning_value y)).
{ by constructor. }
constructor; [done|]. apply set_insert_Forall; [lia|done].
Qed.

Lemma set_insert_if_sorted (b : bool) x l : sorted l -> sorted (if b then set_insert x l else l).
Proof. destruct b; [apply set_insert_sorted|done]. Qed.

Lemma set_insert_if_Forall (P : ComplianceWarning.t -> Prop) (b : bool) x l :
P x -> Forall P l -> Forall P (if b then set_insert x l else l).
Proof. destruct b; [apply set_insert_Forall|done]. Qed.

Lemma newWarningSet_sorted m t : sorted (newWarningSet m t).
Proof.
unfold newWarningSet. cbv zeta.
destruct (_ <=? _); [|constructor].
destruct (mDataRole m), (mUdcBind m); decide_closed; cbn [andb];
  repeat apply set_insert_if_sorted; constructor.
Qed.

Lemma newWarningSet_allowed m t : Forall (allowed (mDataRole m)) (newWarningSet m t).
Proof.
unfold newWarningSet. cbv zeta. destruct (_ <=? _); [|constructor].
destruct (mDataRole m), (mUdcBind m); decide_closed; cbn [andb];
  repeat apply set_insert_if_Forall; repeat constructor.
Qed.

(** Replacing the warnings by a fresh evaluation keeps the invariant. *)
Lemma inv_set_warnings m t :
monitor_inv m -> monitor_inv (set_mWarningSet (newWarningSet m t) m).
Proof.
intros [H1 H2 _ _]. split.
- intros d. specialize (H1 d). by destruct d.
- intros d. specialize (H2 d). by destruct d.
- exact (newWarningSet_allowed m t).
- exact (newWarningSet_sorted m t).
Qed.

(** A change of the state vectors, with the warnings and the role as they were. *)
Lemma inv_update_state d f m :
monitor_inv m ->
Forall (fun x => x ∈ kValidStates) (states (f (get_state d m))) ->
length (timestamps (f (get_state d m))) = length (states (f (get_state d m))) ->
monitor_inv (update_state d f m).
Proof.
intros [H1 H2 H3 H4] Hf1 Hf2. split.
- intros d'. rewrite get_update_state. case_bool_decide; [by subst|done].
- intros d'. rewrite get_update_state. case_bool_decide; [by subst|done].
- by destruct d.
- by destruct d.
Qed.

(** Changes outside the recorded data. *)
Lemma inv_same m m' :
(forall d, states (get_state d m') = states (get_state d m)) ->
(forall d, timestamps (get_state d m') = timestamps (get_state d m)) ->
mDataRole m' = mDataRole m -> mWarningSet m' = mWarningSet m ->
monitor_inv m -> monitor_inv m'.
Proof.
intros E1 E2 E3 E4 [H1 H2 H3 H4].
split; intros; rewrite ?E1, ?E2, ?E3, ?E4; [apply H1|apply H2|exact H3|exact H4].
Qed.

Lemma inv_set_fd_at r v m : monitor_inv m -> monitor_inv (set_fd_at r v m).
Proof. apply inv_same; destruct r as [|[]]; done || by intros []. Qed.
End invariant_pure.

Section handlers.
Context {PLAT : Platform} {K : Type} `{!Oracle answer K} {S : Type}
`{!Lens S UsbDataSessionMonitor} `{!LensLaws S UsbDataSessionMonitor}.
Variable cb : option (prog K S unit).
Hypothesis Hcb : quiet_callback cb.
Implicit Types w : world K S.

Lemma report_keeps : frames (keeps id) unit (reportUsbDataSessionMetrics (K:=K) (S:=S)).
Proof. unfold reportUsbDataSessionMetrics, now. walk. Qed.

Lemma notify_quiet : frames (keeps lget) unit (notifyComplianceWarning cb).
Proof.
unfold notifyComplianceWarning. destruct (negb _); [walk|].
unfold quiet_callback in Hcb. destruct cb; [done|walk].
Qed.

(** [t] is a time the clock can show. *)
Definition clock_shows (t : Z) : Prop := exists k : K, (ask (R:=answer) BootClockNow k).1 = t.

(** Evaluating replaces the warnings by those of the time read from the clock. *)
Lemma evaluate_state w :
wlp (evaluateComplianceWarning cb) (fun _ w' =>
  exists t, clock_shows t /\ lget (self w') =
    set_mWarningSet (newWarningSet (lget (self w)) t) (lget (self w))) w.
Proof.
unfold evaluateComplianceWarning, now, wlp. wp_run.
- eapply wp_frame; [apply notify_quiet| |done]. intros _ k' s t Hs. unfold keeps in Hs.
  simpl in *. rewrite lget_lset in Hs. exists r. split; [|done].
  exists (kernel w). by rewrite Hask.
- exists r. split; [exists (kernel w); by rewrite Hask|]. apply bool_decide_eq_false, dec_stable in Heqb. rewrite Heqb. by destruct (lget _).
Qed.

(** The handlers keep the invariant. *)
Abbreviation keeps_inv := (frames (K:=K) (on_lens (S:=S) (preserves monitor_inv)) unit).

Lemma keeps_inv_intro A (m : prog K S A) :
(forall w, monitor_inv (lget (self w)) -> wlp m (fun _ w' => monitor_inv (lget (self w'))) w) ->
frames (on_lens (S:=S) (preserves monitor_inv)) A m.
Proof.
intros H w a w' t E Hinv. specialize (H w Hinv). unfold wlp, wp in H. by rewrite E in H.
Qed.

Lemma evaluate_inv : keeps_inv (evaluateComplianceWarning cb).
Proof.
apply frames_wlp. intros w. eapply wlp_mono; [apply evaluate_state|].
intros _ w' (t & _ & E) H. rewrite E. by apply inv_set_warnings.
Qed.

Lemma keeps_lget_inv A (m : prog K S A) :
frames (keeps lget) A m -> frames (on_lens (S:=S) (preserves monitor_inv)) A m.
Proof. apply frames_mono. unfold keeps, on_lens, preserves. by intros s s' ->. Qed.

Lemma keeps_id_inv A (m : prog K S A) :
frames (keeps id) A m -> frames (on_lens (S:=S) (preserves monitor_inv)) A m.
Proof. intros H. apply keeps_lget_inv. by apply frames_keeps_id. Qed.

Lemma move_fd_inv r v : keeps_inv (move_fd r v).
Proof.
unfold move_fd. walk. exact (inv_set_fd_at _ _ _).
Qed.

Lemma addEpollFile_inv p r : frames (K:=K) (on_lens (S:=S) (preserves monitor_inv)) Z (addEpollFile p r).
Proof. unfold addEpollFile. walk. all: apply move_fd_inv. Qed.

Lemma removeEpollFile_inv p r : keeps_inv (removeEpollFile p r).
Proof.
unfold removeEpollFile. walk. exact (inv_set_fd_at _ _ _).
Qed.

Lemma handleDeviceStateEvent_inv d : keeps_inv (handleDeviceStateEvent cb d).
Proof.
apply frames_wlp. intros w. unfold wlp, handleDeviceStateEvent, now. wp_run; [|done..].
eapply wp_frame; [apply evaluate_inv| |done]. intros _ k' s t Hs Hinv. apply Hs. simpl.
rewrite ?lget_lset. clear Hs. apply bool_decide_eq_true in Heqb.
destruct Hinv as [H1 H2 H3 H4]. split.
- intros d'. specialize (H1 d'). rewrite !get_update_state. case_bool_decide; simpl; [|done].
  subst d'. apply Forall_app_2; [done|by apply Forall_singleton].
- intros d'. specialize (H2 d'). rewrite !get_update_state. case_bool_decide; simpl; [|done].
  rewrite !length_app. simpl. lia.
- by destruct d.
- by destruct d.
Qed.

(** A new session starts without warnings and without recorded states of the
  devices of its role, whatever the previous role was. *)
Lemma setupNewSession_state w :
wlp setupNewSession (fun _ w' =>
  let m := lget (self w) in let m' := lget (self w') in
  mWarningSet m' = [] /\ mDataRole m' = mDataRole m /\ mUdcBind m' = mUdcBind m /\
  (forall d, get_state d m' =
    if serves (mDataRole m) d
    then set_timestamps [] (set_states [] (get_state d m)) else get_state d m)) w.
Proof.
unfold wlp, setupNewSession, clearDeviceStateEvents, now. wp_run.
all: repeat split; rewrite ?lget_lset; simpl; try done; intros []; simpl;
  rewrite ?lget_lset; done.
Qed.

(** Only the recorded data matters for the invariant of the new session. *)
Lemma setupNewSession_inv w :
(forall d, Forall (fun x => x ∈ kValidStates) (states (get_state d (lget (self w))))) ->
(forall d, length (timestamps (get_state d (lget (self w)))) =
           length (states (get_state d (lget (self w))))) ->
wlp setupNewSession (fun _ w' => monitor_inv (lget (self w'))) w.
Proof.
intros H1 H2. eapply wlp_mono; [apply setupNewSession_state|]. intros _ w' (Hw & Hr & _ & Hs).
split.
- intros d. rewrite Hs. specialize (H1 d).
  destruct (mDataRole (lget (self w))), d; first [done | constructor].
- intros d. rewrite Hs. specialize (H2 d). by destruct (mDataRole (lget (self w))), d.
- rewrite Hw. constructor.
- rewrite Hw. constructor.
Qed.

Lemma handleDataRoleEvent_inv : keeps_inv handleDataRoleEvent.
Proof.
apply keeps_inv_intro. intros w Hinv. unfold wlp, handleDataRoleEvent. wp_run; try done.
all: try (apply wp_keep; [apply report_keeps| |done]; intros ? k' t; wp_run).
all: eapply wp_use; [apply setupNewSession_inv| |done]; simpl; rewrite ?lget_lset; try done.
all: destruct Hinv as [H1 H2 _ _]; intros d.
all: specialize (H1 d); specialize (H2 d); by destruct d.
Qed.

(** Binding changes are published last, so the invariant, which does not
  mention them, survives. *)
Lemma updateUdcBindStatus_inv devname : keeps_inv (updateUdcBindStatus cb devname).
Proof.
apply keeps_inv_intro. intros w Hinv. unfold wlp, updateUdcBindStatus.
assert (forall b m, monitor_inv m -> monitor_inv (set_mUdcBind b m)) as Hset.
{ intros b m. apply inv_same; try done; by intros []. }
wp_run; try done; simpl; rewrite ?lget_lset; try by apply Hset.
- apply wp_keep; [apply report_keeps| |done]. intros ? k' t.
  wp_run. eapply wp_frame; [apply evaluate_inv| |done]. intros ? k1 s2 t' Hs.
  wp_run. apply Hset. by apply Hs.
- destruct Hinv as [H1 H2 _ _]. eapply wp_use; [by apply setupNewSession_inv| |done].
  intros ? w' t Hw. wp_run. by apply Hset.
Qed.

Lemma handleUevent_string_inv cp :
frames (K:=K) (on_lens (S:=S) (preserves monitor_inv)) bool (handleUevent_string cb cp).
Proof.
unfold handleUevent_string. walk.
all: auto using addEpollFile_inv, removeEpollFile_inv, updateUdcBindStatus_inv.
Qed.

Lemma handleUevent_inv : keeps_inv (handleUevent cb).
Proof.
unfold handleUevent. walk. apply comp_closed_uevent_loop; [apply _|].
apply handleUevent_string_inv.
Qed.

Lemma handleTimerEvent_inv : keeps_inv (handleTimerEvent cb).
Proof. unfold handleTimerEvent. walk. apply evaluate_inv. Qed.

Lemma dispatch_inv ready : keeps_inv (dispatch cb ready).
Proof.
unfold dispatch. walk; auto using handleUevent_inv, handleTimerEvent_inv,
  handleDataRoleEvent_inv, handleDeviceStateEvent_inv.
Qed.

(** C. Whatever descriptors become ready, in whatever order, the thread
  keeps the invariant. *)
Lemma monitorThread_inv ws : keeps_inv (monitorThread cb ws).
Proof.
induction ws as [|[fds| |] ws IH]; simpl; walk; auto using dispatch_inv.
Qed.

Lemma fresh_monitor_inv garbage : monitor_inv (fresh_monitor garbage).
Proof. split; [by intros []; constructor|by intros []|constructor|constructor]. Qed.

(** The constructor establishes the invariant whatever [mDataRole] held. *)
Lemma new_inv garbage p1 p2 p3 p4 p5 p6 p7 w :
wlp (UsbDataSessionMonitor_new garbage p1 p2 p3 p4 p5 p6 p7)
  (fun _ w' => monitor_inv (lget (self w'))) w.
Proof.
unfold UsbDataSessionMonitor_new. cbv zeta. unfold wlp. wp_step. wp_step.
eapply wp_frame with (G := on_lens (preserves monitor_inv)); [|intros ? k s t Hs|done].
- walk; try apply addEpollFile_inv.
  all: intros Hinv; try (eapply inv_same; [..|exact Hinv]; done || by intros []).
  all: by apply inv_update_state; [done|apply Hinv..].
- apply Hs. simpl. rewrite lget_lset. apply fresh_monitor_inv.
Qed.
End handlers.
