(* ===== verification/DataSessionProps.v ===== *)
(** * Properties of UsbDataSessionMonitor, with witnesses *)
From S2P Require Import Prelude CString Effects Aidl Platform Uevent DataSession Sim DataSessionFacts.
From stdpp Require Import gmap.
Open Scope Z_scope.

(** The monitor on its own, for the witnesses: the state is the monitor. *)
Abbreviation MM := (prog sim UsbDataSessionMonitor).

Definition dev_path : string := "/sys/devices/platform/11110000.usb/11110000.dwc3/udc/11110000.dwc3/state".

(** A device-mode session that has been configured six times, ten seconds old. *)
Definition flaky_monitor : UsbDataSessionMonitor :=
  mkUsbDataSessionMonitor 3 4 5 6
    (mkUsbDeviceState 7 dev_path "udc" (replicate 6 kConfiguredState) (replicate 6 0))
    fresh_state fresh_state [] PortDataRole.DEVICE 0 true.
Definition sim_10s : sim := Sim ∅ [] ∅ 10000000000 ∅ [] [] [] [] true.

Lemma sizes_fit_flaky : sizes_fit flaky_monitor.
Proof. by intros []. Qed.

Section evaluate.
Context {PLAT : Platform} {K : Type} `{!Oracle answer K} {S : Type}
`{!Lens S UsbDataSessionMonitor} `{!LensLaws S UsbDataSessionMonitor}.
Implicit Types w : world K S.

(** C1: After [evaluateComplianceWarning] the published warnings are exactly
  the ones warranted by the current session at the time read from the
  clock (enough time elapsed, and the thresholds of the data role), the
  rest of the monitor is unchanged, nothing else happens when the set did
  not change, and the registered callback runs when it did (and the
  reporting flag is on). *)
Theorem evaluateComplianceWarning_correct (cb : option (prog K S unit)) w :
quiet_callback cb -> warning_values_distinct -> sizes_fit (lget (self w)) ->
wp (evaluateComplianceWarning cb) (fun _ w' tr =>
  let m := lget (self w) in let m' := lget (self w') in
  exists t tr', tr = Ev BootClockNow t :: tr' /\
    (forall x, x ∈ mWarningSet m' <-> warranted m t x) /\
    set_mWarningSet [] m' = set_mWarningSet [] m /\
    (mWarningSet m' = mWarningSet m -> tr' = []) /\
    (mWarningSet m' <> mWarningSet m -> enable_report_usb_data_compliance_warning = true ->
     forall c, cb = Some c -> exists w1, c w1 = Done tt w' tr')) (fun _ _ => True) w.
Proof.
intros Hcb Hinj Hfit. unfold evaluateComplianceWarning, now. wp_run.
- apply bool_decide_eq_true in Heqb.
  unfold wp. destruct (notifyComplianceWarning cb _) as [[] w' tr'|] eqn:E; [|done].
  pose proof (notify_quiet cb Hcb _ _ _ _ E) as Hk. unfold keeps in Hk. simpl in Hk.
  rewrite lget_lset in Hk. rewrite Hk. simpl. exists r, tr'. split; [done|].
  split; [intros x; by apply newWarningSet_spec|]. split; [done|]. split; [done|].
  intros _ Hflag c ->. unfold notifyComplianceWarning in E. rewrite Hflag in E. simpl in E.
  by eexists.
- apply bool_decide_eq_false, dec_stable in Heqb. exists r, []. split; [done|].
  split; [intros x; rewrite <- Heqb; by apply newWarningSet_spec|]. by repeat split.
Qed.
End evaluate.

Lemma evaluateComplianceWarning_correct_witness :
  sizes_fit flaky_monitor /\
  wp (evaluateComplianceWarning None) (fun _ w' (tr : trace) =>
      let m := flaky_monitor in let m' := self w' in
      exists t tr', tr = Ev BootClockNow t :: tr' /\
        (forall x, x ∈ mWarningSet m' <-> warranted m t x) /\
        set_mWarningSet [] m' = set_mWarningSet [] m /\
        (mWarningSet m' = mWarningSet m -> tr' = []) /\
        (mWarningSet m' <> mWarningSet m -> true = true ->
         forall c : MM unit, None = Some c -> exists w1, c w1 = Done tt w' tr'))
    (fun _ _ => True) (World sim_10s flaky_monitor).
Proof.
  split; [exact sizes_fit_flaky|].
  exact (evaluateComplianceWarning_correct (PLAT:=sim_platform) (K:=sim) None
    (World sim_10s flaky_monitor) I sim_warning_values_distinct sizes_fit_flaky).
Defined.

Section reachable.
Context {PLAT : Platform} {K : Type} `{!Oracle answer K} {S : Type}
`{!Lens S UsbDataSessionMonitor} `{!LensLaws S UsbDataSessionMonitor}.

(** C2: In every state the monitor reaches, from its constructor (with any
  value in the uninitialised [mDataRole]) through any sequence of ready
  descriptors, interruptions and failures of [epoll_wait]: only states the
  kernel can report are recorded, one timestamp each, and the published
  warnings form a set that makes sense for the current data role. *)
Theorem monitor_reachable_inv (cb : option (prog K S unit)) garbage p1 p2 p3 p4 p5 p6 p7 ws
  (w : world K S) :
quiet_callback cb ->
wlp (UsbDataSessionMonitor_new garbage p1 p2 p3 p4 p5 p6 p7 ;; monitorThread cb ws)
  (fun _ w' => monitor_inv (lget (self w'))) w.
Proof.
intros Hcb. apply wp_bind. eapply wp_use; [apply new_inv| |done].
intros [] w1 t1 H1.
pose proof (monitorThread_inv cb Hcb ws) as Hf. rewrite frames_wlp in Hf.
eapply wp_use; [apply Hf| |done]. intros [] w2 t2 H2. by apply H2.
Qed.
End reachable.

(** A boot: the udc node is watched on descriptor 7, the data role on 6; the
    device role comes up, and the device reports two states. *)
Definition sim_boot : sim :=
  Sim (list_to_map [(kUdcConfigfsPath, "11110000.dwc3")]) [] ∅ 0
    (list_to_map [("role", 6); ("udc_state", 7)])
    ["device"; kDefaultState; kConfiguredState; "bogus"] [] [] [] true.
Definition boot : MM unit :=
  UsbDataSessionMonitor_new PortDataRole.NONE "udc" "udc_state" "h1" "h1s" "h2" "h2s" "role" ;;
  monitorThread None [Ready [6]; Interrupted; Ready [7; 7]; Ready [7]].
Definition blank : UsbDataSessionMonitor := fresh_monitor PortDataRole.NONE.

Lemma monitor_reachable_inv_witness :
  (match boot (World sim_boot blank) with
   | Done _ w' _ => states (mDeviceState (self w')) = [kDefaultState; kConfiguredState]
   | Crash _ _ => False
   end) /\
  wlp boot (fun _ w' => monitor_inv (self w')) (World sim_boot blank).
Proof.
  split; [vm_compute; reflexivity|].
  exact (monitor_reachable_inv (PLAT:=sim_platform) (K:=sim) None PortDataRole.NONE "udc" "udc_state"
    "h1" "h1s" "h2" "h2s" "role" [Ready [6]; Interrupted; Ready [7; 7]; Ready [7]]
    (World sim_boot blank) I).
Defined.

Section sessions.
Context {PLAT : Platform} {K : Type} `{!Oracle answer K} {S : Type}
`{!Lens S UsbDataSessionMonitor} `{!LensLaws S UsbDataSessionMonitor}.
Implicit Types w : world K S.

(** What a session of the current role should upload: host flag, start time,
  states and timestamps.  A host session uploads each port that went
  beyond its first state, or the first port when none did. *)
Definition session_data (is_host : bool) (m : UsbDataSessionMonitor) (d : device_ref) :=
(is_host, mDataSessionStart m, states (get_state d m), timestamps (get_state d m)).
Definition session_uploads (m : UsbDataSessionMonitor) :=
match mDataRole m with
| PortDataRole.DEVICE => [session_data false m Device]
| PortDataRole.HOST =>
    match filter (fun d => (1 < length (states (get_state d m)))%nat) [Host1; Host2] with
    | [] => [session_data true m Host1]
    | l => session_data true m <$> l
    end
| PortDataRole.NONE => []
end.
Definition event_data (e : session_event) :=
(ev_is_host e, ev_session_start e, ev_states e, ev_timestamps e).

Lemma upload_all (l : list session_event) (Φ : unit -> world K S -> trace -> Prop) Ψ w :
(forall k t, uploads t = l -> timers t = [] -> stats_available t = false ->
  Φ tt (World k (self w)) t) ->
wp (for_each l (fun e => call (ReportUsbDataSessionEvent e))) Φ Ψ w.
Proof.
revert Φ Ψ w. induction l as [|e l IH]; intros Φ Ψ w H; simpl.
- wp_run. destruct w. by apply H.
- wp_run. apply IH. intros k' t Ht1 Ht2 Ht3.
  by apply H; read_trace; rewrite ?Ht1, ?Ht2, ?Ht3.
Qed.

(** The trace of a report: its uploads follow the availability of the service. *)
Lemma report_trace w :
wp reportUsbDataSessionMetrics (fun _ w' tr =>
  self w' = self w /\ timers tr = [] /\
  event_data <$> uploads tr =
    if stats_available tr then session_uploads (lget (self w)) else []) (fun _ _ => False) w.
Proof.
unfold reportUsbDataSessionMetrics, now, session_uploads. wp_run.
all: try (apply upload_all; intros k9 t9 Ht9 Ht9' Ht9'').
all: repeat match goal with H : (_ <? _)%nat = true |- _ => apply Nat.ltb_lt in H
            | H : (_ <? _)%nat = false |- _ => apply Nat.ltb_ge in H end.
all: rewrite ?filter_cons, ?filter_nil; cbn [get_state] in *.
all: repeat first [rewrite decide_True by lia | rewrite decide_False by lia].
all: read_trace; rewrite ?Ht9; by repeat split.
Qed.

(** C26: [reportUsbDataSessionMetrics] never fails, changes no state and
  uploads, when the stats service is there, exactly the data of the
  session: one event in device mode, in host mode one per port with more
  than one recorded state and never none, nothing without a data role.
  Without the service nothing is uploaded. *)
Theorem report_uploads_session w :
wp reportUsbDataSessionMetrics (fun _ w' tr =>
  self w' = self w /\ timers tr = [] /\
  event_data <$> uploads tr =
    if stats_available tr then session_uploads (lget (self w)) else []) (fun _ _ => False) w.
Proof. apply report_trace. Qed.

(** The metrics of a session are due when it had host role, or device role
  with a bound gadget. *)
Definition metrics_due (m : UsbDataSessionMonitor) : Prop :=
mDataRole m = PortDataRole.HOST \/ (mDataRole m = PortDataRole.DEVICE /\ mUdcBind m = true).

Lemma metrics_due_bool m :
bool_decide (mDataRole m = PortDataRole.HOST) ||
bool_decide (mDataRole m = PortDataRole.DEVICE) && mUdcBind m = true <-> metrics_due m.
Proof. unfold metrics_due. rewrite orb_true_iff, andb_true_iff, !bool_decide_eq_true. done. Qed.
Lemma metrics_due_bool_false m :
bool_decide (mDataRole m = PortDataRole.HOST) ||
bool_decide (mDataRole m = PortDataRole.DEVICE) && mUdcBind m = false <-> ~ metrics_due m.
Proof. rewrite <- metrics_due_bool. by rewrite not_true_iff_false. Qed.

(** What a change of role from [m] to a monitor with role [r] must do. *)
Definition session_switched (m m' : UsbDataSessionMonitor) (r : PortDataRole.t) (tr : trace) : Prop :=
mDataRole m' = r /\ mWarningSet m' = [] /\
(forall d, states (get_state d m') = if serves r d then [] else states (get_state d m)) /\
(forall d, timestamps (get_state d m') = if serves r d then [] else timestamps (get_state d m)) /\
timers tr = (if bool_decide (r = PortDataRole.NONE) then [] else [WARNING_SURFACE_DELAY_SEC]) /\
(metrics_due m -> stats_available tr = true -> event_data <$> uploads tr = session_uploads m) /\
(~ metrics_due m -> uploads tr = []).

(** What [setupNewSession] does to a monitor [m] whose role is already the new one. *)
Definition new_session (m m' : UsbDataSessionMonitor) (tr : trace) : Prop :=
mDataRole m' = mDataRole m /\ mWarningSet m' = [] /\
(forall d, states (get_state d m') = if serves (mDataRole m) d then [] else states (get_state d m)) /\
(forall d, timestamps (get_state d m') =
   if serves (mDataRole m) d then [] else timestamps (get_state d m)) /\
timers tr = (if bool_decide (mDataRole m = PortDataRole.NONE) then [] else [WARNING_SURFACE_DELAY_SEC]) /\
uploads tr = [] /\ stats_available tr = false.

Lemma setupNewSession_switch w :
wp setupNewSession (fun _ w' tr => new_session (lget (self w)) (lget (self w')) tr)
  (fun _ _ => False) w.
Proof.
unfold setupNewSession, clearDeviceStateEvents, now. wp_run.
all: unfold new_session.
all: match goal with H : mDataRole (lget _) = _ |- _ => rewrite ?H in * end.
all: try (exfalso; revert Heqb; decide_closed; done).
all: repeat split; rewrite ?lget_lset; try done; intros []; simpl; by rewrite ?lget_lset.
Qed.

Lemma session_switched_intro m m' r t1 t2 :
new_session (set_mDataRole r m) m' t2 -> timers t1 = [] ->
(metrics_due m -> event_data <$> uploads t1 =
   if stats_available t1 then session_uploads m else []) ->
(~ metrics_due m -> uploads t1 = []) ->
session_switched m m' r (t1 ++ t2).
Proof.
intros (H1 & H2 & H3 & H4 & H5 & H6 & H7) Ht Hdue Hnot. unfold session_switched.
autorewrite with trace. rewrite Ht, H6, H7, app_nil_r, orb_false_r. simpl in *.
split_and!; try done.
- intros d. rewrite H3. by destruct d.
- intros d. rewrite H4. by destruct d.
- intros Hd E. specialize (Hdue Hd). by rewrite E in Hdue.
Qed.

(** C11: [handleDataRoleEvent] reads the role node; when the role it shows is
  the current one nothing happens, and otherwise the old session's metrics
  are uploaded if they are due, and a new session starts: new role, no
  warnings, empty recordings for the devices of the role (the others
  untouched), and the warning timer armed for five seconds unless there is
  no role.  It fails only when the node fills the ten-byte buffer. *)
Theorem handleDataRoleEvent_correct w :
wp handleDataRoleEvent (fun _ w' tr =>
  let m := lget (self w) in let m' := lget (self w') in
  exists data tr', tr = Ev (Lseek (mDataRoleFd m)) tt :: Ev (ReadFd (mDataRoleFd m) DATA_ROLE_MAX_LEN) data :: tr' /\
    exists role rest, cstr (read_buffer DATA_ROLE_MAX_LEN data) = Some (role, rest) /\
      let r := parse_data_role role in
      (r = mDataRole m -> m' = m /\ tr' = []) /\
      (r <> mDataRole m -> session_switched m m' r tr'))
  (fun f tr => f = OutOfBounds /\ exists data,
     tr = [Ev (Lseek (mDataRoleFd (lget (self w)))) tt; Ev (ReadFd (mDataRoleFd (lget (self w))) DATA_ROLE_MAX_LEN) data] /\
     cstr (read_buffer DATA_ROLE_MAX_LEN data) = None) w.
Proof.
unfold handleDataRoleEvent. do 4 wp_step. destruct r. wp_run.
- apply bool_decide_eq_true in Heqb. apply metrics_due_bool in Heqb0.
  eapply wp_mono; [apply report_trace| |done]. intros [] w1 t1 (Hs1 & Ht1 & Hu1). simpl in Hs1, Hu1.
  wp_run. eapply wp_mono; [apply setupNewSession_switch| |done]. simpl. rewrite Hs1, ?lget_lset.
  intros [] w2 t2 Hnew. exists r. eexists. split; [done|]. destruct p as [role rest].
  exists role, rest. split; [done|]. split; [by intros ?%Heqb|]. intros _.
  by apply session_switched_intro.
- apply bool_decide_eq_true in Heqb. apply metrics_due_bool_false in Heqb0.
  eapply wp_mono; [apply setupNewSession_switch| |done]. simpl. rewrite ?lget_lset.
  intros [] w2 t2 Hnew. exists r. eexists. split; [done|]. destruct p as [role rest].
  exists role, rest. split; [done|]. split; [by intros ?%Heqb|]. intros _.
  by apply (session_switched_intro _ _ _ []).
- apply bool_decide_eq_false, dec_stable in Heqb. exists r. eexists. split; [done|].
  destruct p as [role rest]. exists role, rest. split; [done|]. by split.
- split; [done|]. by exists r.
Qed.
End sessions.

Lemma handleDataRoleEvent_correct_witness :
  (* from a flaky device session to host role *)
  (match handleDataRoleEvent (World (Sim ∅ [] ∅ 7 ∅ ["host"] [] [] [] true) flaky_monitor) with
   | Done _ w' tr => mDataRole (self w') = PortDataRole.HOST /\ length (uploads tr) = 1%nat
   | Crash _ _ => False
   end) /\
  (fun w => wp handleDataRoleEvent (fun _ w' tr =>
      let m := lget (self w) in let m' := lget (self w') in
      exists data tr', tr = Ev (Lseek (mDataRoleFd m)) tt :: Ev (ReadFd (mDataRoleFd m) DATA_ROLE_MAX_LEN) data :: tr' /\
        exists role rest, cstr (read_buffer DATA_ROLE_MAX_LEN data) = Some (role, rest) /\
          let r := parse_data_role role in
          (r = mDataRole m -> m' = m /\ tr' = []) /\
          (r <> mDataRole m -> session_switched m m' r tr'))
      (fun f tr => f = OutOfBounds /\ exists data,
         tr = [Ev (Lseek (mDataRoleFd (lget (self w)))) tt; Ev (ReadFd (mDataRoleFd (lget (self w))) DATA_ROLE_MAX_LEN) data] /\
         cstr (read_buffer DATA_ROLE_MAX_LEN data) = None) w)
    (World (Sim ∅ [] ∅ 7 ∅ ["host"] [] [] [] true) flaky_monitor).
Proof.
  split; [vm_compute; done|].
  exact (handleDataRoleEvent_correct (K:=sim)
    (World (Sim ∅ [] ∅ 7 ∅ ["host"] [] [] [] true) flaky_monitor)).
Defined.

(** ** The state files *)

Definition nul_free (s : string) : Prop := sall (fun d => negb (Ascii.eqb d NUL)) s = true.

Lemma stake_app_ge n s t : (n <= strlen s)%nat -> stake n (s +:+ t) = stake n s.
Proof.
  revert s. induction n as [|n IH]; intros [|c s] H; try done; [simpl in H; lia|].
  rewrite app_cons_s. simpl in *. rewrite IH by lia. done.
Qed.
Lemma stake_app_lt n s t :
  (strlen s <= n)%nat -> stake n (s +:+ t) = s +:+ stake (n - strlen s) t.
Proof.
  revert s. induction n as [|n IH]; intros [|c s] H; try done; [simpl in H; lia|].
  rewrite app_cons_s. simpl in *. rewrite IH by lia. by rewrite app_cons_s.
Qed.
Lemma stake_nuls n m : (n <= m)%nat -> stake n (nuls m) = nuls n.
Proof.
  revert m. induction n as [|n IH]; intros [|m] H; simpl; try done; try lia.
  rewrite IH; [done|lia].
Qed.
Lemma nul_free_stake n s : nul_free s -> nul_free (stake n s).
Proof.
  unfold nul_free. revert s. induction n as [|n IH]; intros [|c s]; simpl; try done.
  intros [-> H]%andb_true_iff. simpl. by apply IH.
Qed.
Lemma cstr_nul_free s : nul_free s -> cstr s = None.
Proof.
  unfold nul_free. induction s as [|c s IH]; [done|]. simpl.
  intros [H1 H2]%andb_true_iff. apply negb_true_iff in H1. by rewrite H1, IH.
Qed.

(** Reading [data] into a zeroed buffer of [n] bytes yields the C string
    [data] when a byte is left for its NUL, and no C string otherwise. *)
Lemma cstr_read_buffer n data :
  nul_free data ->
  (if (strlen data <? n)%nat then exists rest, cstr (read_buffer n data) = Some (data, rest)
   else cstr (read_buffer n data) = None).
Proof.
  intros H. unfold read_buffer. destruct (Nat.ltb_spec (strlen data) n) as [Hl|Hl].
  - rewrite stake_app_lt by lia. rewrite stake_nuls by lia.
    destruct (n - strlen data)%nat as [|j] eqn:E; [lia|]. simpl. rewrite cstr_app by done. by eexists.
  - rewrite stake_app_ge by done. by apply cstr_nul_free, nul_free_stake.
Qed.

Section device_state.
Context {PLAT : Platform} {K : Type} `{!Oracle answer K} {S : Type}
`{!Lens S UsbDataSessionMonitor} `{!LensLaws S UsbDataSessionMonitor}.
Implicit Types w : world K S.

(** C14: [handleDeviceStateEvent] on every branch.  A node whose text fills
  the 20-byte buffer makes the code read past it.  A text that is not one
  of the seven states changes nothing.  A valid state always fits, and is
  appended to that device's states with one timestamp; the other devices
  keep theirs, and so does the data role. *)
Theorem handleDeviceStateEvent_correct (cb : option (prog K S unit)) d w data k :
quiet_callback cb ->
(let fd := fd (get_state d (lget (self w))) in
 ask (ReadFd fd USB_STATE_MAX_LEN) (ask (Lseek fd) (kernel w)).2 = (data, k)) ->
nul_free data ->
((USB_STATE_MAX_LEN <= strlen data)%nat ->
   exists tr, handleDeviceStateEvent cb d w = Crash OutOfBounds tr) /\
((strlen data < USB_STATE_MAX_LEN)%nat -> data ∉ kValidStates ->
   exists tr, handleDeviceStateEvent cb d w = Done tt (World k (self w)) tr) /\
(data ∈ kValidStates ->
   (strlen data < USB_STATE_MAX_LEN)%nat /\
   wlp (handleDeviceStateEvent cb d) (fun _ w' => exists t, forall d',
     let s := get_state d' (lget (self w)) in let s' := get_state d' (lget (self w')) in
     states s' = states s ++ (if bool_decide (d' = d) then [data] else []) /\
     timestamps s' = timestamps s ++ (if bool_decide (d' = d) then [t] else []) /\
     mDataRole (lget (self w')) = mDataRole (lget (self w))) w).
Proof.
intros Hcb Hask Hnul.
pose proof (cstr_read_buffer USB_STATE_MAX_LEN data Hnul) as Hbuf.
split_and!.
- intros Hl. destruct (Nat.ltb_spec (strlen data) USB_STATE_MAX_LEN); [lia|].
  unfold handleDeviceStateEvent, mbind, comp_bind, mget, gets, call. simpl.
  cbv zeta in Hask. destruct (ask (Lseek _) (kernel w)) as [? k0] eqn:El; simpl in El; rewrite ?El in *. simpl in *. rewrite Hask. simpl. rewrite Hbuf. by eexists.
- intros Hl Hv. destruct (Nat.ltb_spec (strlen data) USB_STATE_MAX_LEN); [|lia].
  destruct Hbuf as [rest Hbuf].
  unfold handleDeviceStateEvent, mbind, comp_bind, mget, gets, call. simpl.
  cbv zeta in Hask. destruct (ask (Lseek _) (kernel w)) as [? k0] eqn:El; simpl in El; rewrite ?El in *. simpl in *. rewrite Hask. simpl. rewrite Hbuf. simpl. rewrite bool_decide_false by done. by eexists.
- intros Hv. assert (strlen data < USB_STATE_MAX_LEN)%nat as Hl.
  { repeat (apply elem_of_cons in Hv as [->|Hv]; [unfold USB_STATE_MAX_LEN; simpl; lia|]).
    by apply elem_of_nil in Hv. }
  split; [done|]. destruct (Nat.ltb_spec (strlen data) USB_STATE_MAX_LEN); [|lia].
  destruct Hbuf as [rest Hbuf]. unfold wlp, handleDeviceStateEvent, now.
  do 4 wp_step. simpl in Hask. rewrite Hask0 in Hask. clear Hask0. simpl in Hask. wp_run; [..|done].
  + simpl in Hask0. rewrite Hask in Hask0. injection Hask0 as <- <-. rewrite Hbuf in Heqo. injection Heqo as <-.
    eapply wp_use; [by apply evaluate_state| |done]. intros [] w' t (t0 & _ & Hw').
    rewrite Hw'. simpl. rewrite !lget_lset. eexists. intros d'. simpl.
    destruct d, d'; simpl; by rewrite ?app_nil_r.
  + simpl in Hask0. rewrite Hask in Hask0. injection Hask0 as <- <-. rewrite Hbuf in Heqo. injection Heqo as <-.
    by apply bool_decide_eq_false in Heqb.
Qed.
End device_state.

Lemma handleDeviceStateEvent_correct_witness :
  wlp (handleDeviceStateEvent None Device) (fun _ w' => exists t, forall d',
     let s := get_state d' flaky_monitor in let s' := get_state d' (self w') in
     states s' = states s ++ (if bool_decide (d' = Device) then [kSuspendedState] else []) /\
     timestamps s' = timestamps s ++ (if bool_decide (d' = Device) then [t] else []) /\
     mDataRole (self w') = PortDataRole.DEVICE)
    (World (Sim ∅ [] ∅ 7 ∅ [kSuspendedState] [] [] [] true) flaky_monitor).
Proof.
  refine (proj2 (proj2 (proj2 (handleDeviceStateEvent_correct (PLAT:=sim_platform) None Device
    (World (Sim ∅ [] ∅ 7 ∅ [kSuspendedState] [] [] [] true) flaky_monitor) kSuspendedState
    (Sim ∅ [] ∅ 7 ∅ [] [] [] [] true) I eq_refl eq_refl)) _)).
  vm_compute. repeat constructor.
Defined.

(** ** Gadget soft pulldown *)

(** A device session of an unbound gadget warrants nothing. *)
Lemma unbound_device_no_warning {PLAT : Platform} m t :
  mDataRole m = PortDataRole.DEVICE -> mUdcBind m = false -> newWarningSet m t = [].
Proof.
  intros H1 H2. unfold newWarningSet. rewrite H1, H2. destruct (_ <=? _); [|done].
  by decide_closed.
Qed.

Section pulldown.
Context {PLAT : Platform} {K : Type} `{!Oracle answer K} {S : Type}
`{!Lens S UsbDataSessionMonitor} `{!LensLaws S UsbDataSessionMonitor}.
Implicit Types w : world K S.

(** C36: The comment in [updateUdcBindStatus] says that a soft pulldown
  re-evaluates the compliance warnings "to clear existing warnings if
  any".  It does not: the evaluation runs while [mUdcBind] still holds the
  old value, so the warning of a flaky session (more than five
  configurations) is published, and stays, although the monitor ends in a
  state that warrants no warning at any time. *)
Theorem soft_pulldown_keeps_warnings (cb : option (prog K S unit)) devname w :
quiet_callback cb -> warning_values_distinct -> sizes_fit (lget (self w)) ->
mDataRole (lget (self w)) = PortDataRole.DEVICE -> mUdcBind (lget (self w)) = true ->
(5 < seen kConfiguredState Device (lget (self w)))%nat ->
(forall k, (ask (ReadFileToString ("/sys" +:+ devname +:+ "/function")) k).1 = Some "") ->
(forall t, clock_shows (K:=K) t -> 5 <= elapsed_sec t (mDataSessionStart (lget (self w)))) ->
wlp (updateUdcBindStatus cb devname) (fun _ w' =>
  let m' := lget (self w') in
  mUdcBind m' = false /\ ComplianceWarning.FLAKY_CONNECTION ∈ mWarningSet m' /\
  forall t, newWarningSet m' t = []) w.
Proof.
intros Hcb Hinj Hfit Hrole Hbind Hseen Hfile Hclock.
unfold wlp, updateUdcBindStatus. wp_run.
all: specialize (Hfile (kernel w)); rewrite Hask in Hfile; simpl in Hfile; simplify_eq.
all: rewrite ?Hbind, ?Hrole, ?streq_refl in *; try done.
apply wp_keep; [apply report_keeps| |done]. intros [] k' t'. wp_run.
eapply wp_use; [by apply evaluate_state| |done]. intros [] w1 t1 (t & Ht & Hw1). wp_run.
rewrite Hw1. simpl. split; [done|]. split.
- apply newWarningSet_spec; [done|done|]. split; [by apply Hclock|]. done.
- intros t2. by apply unbound_device_no_warning.
Qed.
End pulldown.

(** The udc function node reads empty; the clock shows ten seconds. *)
Definition pulldown_answer (q : request) : answer q :=
  match q return answer q with
  | ReadFileToString _ => Some ""
  | BootClockNow => 10000000000
  | q => quiet_answer q
  end.
Definition pulldown_oracle : Oracle answer unit := fixed_oracle pulldown_answer.
Definition flaky_world : world unit UsbDataSessionMonitor := World tt flaky_monitor.

Lemma soft_pulldown_keeps_warnings_witness :
  (* the run ends, and the warning is there *)
  (match updateUdcBindStatus (Oracle0:=pulldown_oracle) None "/udc" flaky_world with
   | Done _ w' _ => mWarningSet (self w') = [ComplianceWarning.FLAKY_CONNECTION]
   | Crash _ _ => False
   end) /\
  wlp (updateUdcBindStatus (Oracle0:=pulldown_oracle) None "/udc") (fun _ w' =>
      let m' := self w' in
      mUdcBind m' = false /\ ComplianceWarning.FLAKY_CONNECTION ∈ mWarningSet m' /\
      forall t, newWarningSet m' t = []) flaky_world.
Proof.
  split; [vm_compute; done|].
  refine (soft_pulldown_keeps_warnings (PLAT:=sim_platform) (Oracle0:=pulldown_oracle) None "/udc"
    flaky_world I sim_warning_values_distinct sizes_fit_flaky eq_refl eq_refl _ _ _).
  - vm_compute. lia.
  - done.
  - intros t [k <-]. vm_compute. done.
Defined.

(** ** Descriptors *)
Section descriptors.
Context {K : Type} `{!Oracle answer K} {S : Type}
`{!Lens S UsbDataSessionMonitor} `{!LensLaws S UsbDataSessionMonitor}.
Implicit Types w : world K S.

(** The descriptors the monitor owns through its [unique_fd]s. *)
Definition owns (v : Z) : Z := if v =? -1 then 0 else 1.

Lemma get_set_fd_at r v m : get_fd r (set_fd_at r v m) = v.
Proof. by destruct r as [|[]]. Qed.

(** C38: [addEpollFile] accounts for every descriptor it opens: when it
  returns, what was opened and not closed is exactly what the member it
  fills now owns instead of its old one. *)
Theorem addEpollFile_accounts path r w :
wp (addEpollFile path r) (fun _ w' tr =>
  fd_balance tr = owns (get_fd r (lget (self w'))) - owns (get_fd r (lget (self w))))
  (fun _ _ => False) w.
Proof.
unfold addEpollFile, move_fd, owns. wp_run; read_trace; rewrite ?get_set_fd_at;
  repeat match goal with H : (_ =? _) = ?b |- _ => rewrite H
         | H : negb _ = true |- _ => apply negb_true_iff in H; rewrite H
         | H : negb _ = false |- _ => apply negb_false_iff in H; rewrite H end; lia.
Qed.

(** One unplug and replug of a host controller, as [handleUevent] treats it. *)
Definition replug d : prog K S unit :=
path ← mget (fun m => filePath (get_state d m));
r ← addEpollFile path (StateFd d);
removeEpollFile path (StateFd d).
Fixpoint replugs d (n : nat) : prog K S unit :=
match n with O => mret tt | Datatypes.S n => replug d ;; replugs d n end.

Lemma replug_leaks d w :
get_fd (StateFd d) (lget (self w)) = -1 ->
(forall path k, (ask (Open path) k).1 <> -1) -> (forall v k, (ask (EpollAdd v) k).1 = true) ->
wp (replug d) (fun _ w' tr =>
  fd_balance tr = 1 /\ get_fd (StateFd d) (lget (self w')) = -1) (fun _ _ => False) w.
Proof.
intros H0 Hopen Hadd. unfold replug, addEpollFile, move_fd, removeEpollFile. wp_run.
all: rewrite ?get_set_fd_at; read_trace.
all: specialize (Hopen (filePath (get_state d (lget (self w)))) (kernel w)).
all: rewrite Hask in Hopen; simpl in Hopen, H0.
- by apply Z.eqb_eq in Heqb.
- by rewrite H0 in Heqb0.
- split; [lia|by destruct d].
- specialize (Hadd r k). simpl in Hask0. by rewrite Hask0 in Hadd.
Qed.

(** C39: A host port that comes and goes [n] times leaks [n] descriptors:
  [removeEpollFile] gives the descriptor up with [release()], which does
  not close it, and forgets it. *)
Theorem replugs_leak d n w :
get_fd (StateFd d) (lget (self w)) = -1 ->
(forall path k, (ask (Open path) k).1 <> -1) -> (forall v k, (ask (EpollAdd v) k).1 = true) ->
wp (replugs d n) (fun _ w' tr =>
  fd_balance tr = Z.of_nat n /\ get_fd (StateFd d) (lget (self w')) = -1) (fun _ _ => False) w.
Proof.
intros H0 Hopen Hadd. revert w H0. induction n as [|n IH]; intros w H0; simpl.
- by apply wp_ret.
- apply wp_bind. eapply wp_mono; [by apply replug_leaks| |done]. intros [] w1 t1 [Ht1 H1].
  eapply wp_mono; [by apply IH| |done]. intros [] w2 t2 [Ht2 H2].
  autorewrite with trace. rewrite Ht1, Ht2. split; [lia|done].
Qed.
End descriptors.

(** A kernel where the port's node opens and can be watched. *)
Definition port_answer (q : request) : answer q :=
  match q return answer q with
  | Open _ => 7
  | EpollAdd _ => true
  | q => quiet_answer q
  end.
Definition port_oracle : Oracle answer unit := fixed_oracle port_answer.

Lemma addEpollFile_accounts_witness :
  wp (addEpollFile (Oracle0:=port_oracle) "udc_state" (StateFd Device)) (fun _ w' (tr : trace) =>
    fd_balance tr = owns (fd (mDeviceState (self w'))) - 1) (fun _ _ => False) flaky_world.
Proof.
  exact (addEpollFile_accounts (Oracle0:=port_oracle) "udc_state" (StateFd Device) flaky_world).
Defined.

Lemma replugs_leak_witness :
  wp (replugs (Oracle0:=port_oracle) Host1 100) (fun _ w' (tr : trace) =>
    fd_balance tr = 100 /\ fd (mHost1State (self w')) = -1) (fun _ _ => False) flaky_world.
Proof.
  exact (replugs_leak (Oracle0:=port_oracle) Host1 100 flaky_world eq_refl
    (fun _ _ (H : 7 = -1) => ltac:(discriminate H)) (fun _ _ => eq_refl)).
Defined.
