(* ===== verification/PortQuery.v ===== *)
(** * The USB HAL: state and port status queries

    The state of [struct Usb] (usb/usb/Usb.h) with the globals of
    usb/usb/Usb.cpp, and everything below [queryVersionHelper]: the queries
    that assemble the [PortStatus] of every type-C port.  A
    [std::vector<PortStatus> *] parameter is passed in and handed back. *)
From S2P Require Import Prelude CString Effects Aidl Platform I2cPath DataSession.
Open Scope Z_scope.

Definition kComplianceWarningsPath : string := "device/non_compliant_reasons".
Definition kComplianceWarningBC12 : string := "bc12".
Definition kComplianceWarningDebugAccessory : string := "debug-accessory".
Definition kComplianceWarningMissingRp : string := "missing_rp".
Definition kComplianceWarningOther : string := "other".
Definition kComplianceWarningInputPowerLimited : string := "input_power_limited".
Definition kContaminantDetectionPath : string := "contaminant_detection".
Definition kStatusPath : string := "contaminant_detection_status".
Definition kSinkLimitEnable : string := "usb_limit_sink_enable".
Definition kSourceLimitEnable : string := "usb_limit_source_enable".
Definition kSinkLimitCurrent : string := "usb_limit_sink_current".
Definition kTypecPath : string := "/sys/class/typec".
Definition kPogoUsbActive : string := "/sys/devices/platform/google,pogo/pogo_usb_active".
Definition kPowerSupplyUsbType : string := "/sys/class/power_supply/usb/usb_type".

(** The members of [struct Usb] but its mutexes, condition and overheat sampler,
    and the two globals the service keeps. *)
Record Usb := mkUsb {
  mCallback : option Z;  (* the registered object, if any *)
  mPartnerUp : bool;
  mUsbDataSessionMonitor : UsbDataSessionMonitor;
  mPluggedTemperatureCelsius : float32;
  mUsbDataEnabled : bool;
  usb_i2c : i2c_cache;  (* mI2cBusNumber and mI2cClientPath *)
  enabledPath : string;  (* a global variable *)
  destroyThread : bool;  (* a global variable *)
}.
Definition set_mCallback (v : option Z) (s : Usb) : Usb :=
  mkUsb
    v s.(mPartnerUp) s.(mUsbDataSessionMonitor) s.(mPluggedTemperatureCelsius)
      s.(mUsbDataEnabled) s.(usb_i2c) s.(enabledPath) s.(destroyThread).
Definition set_mPartnerUp (v : bool) (s : Usb) : Usb :=
  mkUsb
    s.(mCallback) v s.(mUsbDataSessionMonitor) s.(mPluggedTemperatureCelsius)
      s.(mUsbDataEnabled) s.(usb_i2c) s.(enabledPath) s.(destroyThread).
Definition set_mUsbDataSessionMonitor (v : UsbDataSessionMonitor) (s : Usb) : Usb :=
  mkUsb
    s.(mCallback) s.(mPartnerUp) v s.(mPluggedTemperatureCelsius) s.(mUsbDataEnabled)
      s.(usb_i2c) s.(enabledPath) s.(destroyThread).
Definition set_mPluggedTemperatureCelsius (v : float32) (s : Usb) : Usb :=
  mkUsb
    s.(mCallback) s.(mPartnerUp) s.(mUsbDataSessionMonitor) v s.(mUsbDataEnabled) s.(usb_i2c)
      s.(enabledPath) s.(destroyThread).
Definition set_mUsbDataEnabled (v : bool) (s : Usb) : Usb :=
  mkUsb
    s.(mCallback) s.(mPartnerUp) s.(mUsbDataSessionMonitor) s.(mPluggedTemperatureCelsius) v
      s.(usb_i2c) s.(enabledPath) s.(destroyThread).
Definition set_usb_i2c (v : i2c_cache) (s : Usb) : Usb :=
  mkUsb
    s.(mCallback) s.(mPartnerUp) s.(mUsbDataSessionMonitor) s.(mPluggedTemperatureCelsius)
      s.(mUsbDataEnabled) v s.(enabledPath) s.(destroyThread).
Definition set_enabledPath (v : string) (s : Usb) : Usb :=
  mkUsb
    s.(mCallback) s.(mPartnerUp) s.(mUsbDataSessionMonitor) s.(mPluggedTemperatureCelsius)
      s.(mUsbDataEnabled) s.(usb_i2c) v s.(destroyThread).
Definition set_destroyThread (v : bool) (s : Usb) : Usb :=
  mkUsb
    s.(mCallback) s.(mPartnerUp) s.(mUsbDataSessionMonitor) s.(mPluggedTemperatureCelsius)
      s.(mUsbDataEnabled) s.(usb_i2c) s.(enabledPath) v.


#[export] Instance Usb_monitor : Lens Usb UsbDataSessionMonitor :=
  {| lget := mUsbDataSessionMonitor; lset := set_mUsbDataSessionMonitor |}.
#[export] Instance Usb_monitor_laws : LensLaws Usb UsbDataSessionMonitor.
Proof. by split; [|intros []|]. Qed.
#[export] Instance Usb_i2c : Lens Usb i2c_cache := {| lget := usb_i2c; lset := set_usb_i2c |}.
#[export] Instance Usb_i2c_laws : LensLaws Usb i2c_cache.
Proof. by split; [|intros []|]. Qed.

(** [s.c_str()] *)
Definition c_str (s : string) : string := until_char NUL s.

(** [s.substr(pos, n)] with [pos <= s.size()] and [n] a [size_t] *)
Definition substr_z (pos : nat) (n : Z) (s : string) : string :=
  stake (Z.to_nat (Z.min n (Z.of_nat (strlen s)))) (sdrop pos s).

Definition extractRole (roleName : string) : string :=
  match find_sub "[" roleName, find_sub "]" roleName with
  | Some first, Some last =>
      substr_z (first + 1) (wrapU 64 (Z.of_nat last - Z.of_nat first - 1)) roleName
  | _, _ => roleName
  end.

Definition appendRoleNodeHelper (portName : string) (tag : PortRole.Tag) : string :=
  let node := "/sys/class/typec/" +:+ portName in
  match tag with
  | PortRole.TdataRole => node +:+ "/data_role"
  | PortRole.TpowerRole => node +:+ "/power_role"
  | PortRole.Tmode => node +:+ "/port_type"
  end.

Definition convertRoletoString (role : PortRole.t) : string :=
  match role with
  | PortRole.powerRole PortPowerRole.SOURCE => "source"
  | PortRole.powerRole PortPowerRole.SINK => "sink"
  | PortRole.dataRole PortDataRole.HOST => "host"
  | PortRole.dataRole PortDataRole.DEVICE => "device"
  | PortRole.mode PortMode.UFP => "sink"
  | PortRole.mode PortMode.DFP => "source"
  | _ => "none"
  end.

(** The end of [getCurrentRoleHelper]: note that "source" and "sink" set the
    power role, and "host" and "device" the mode, whatever was asked. *)
Definition set_role_by_name (roleName : string) (currentRole : PortRole.t) : Status.t * PortRole.t :=
  if streq roleName "source" then (Status.SUCCESS, PortRole.powerRole PortPowerRole.SOURCE)
  else if streq roleName "sink" then (Status.SUCCESS, PortRole.powerRole PortPowerRole.SINK)
  else if streq roleName "host" then
    (Status.SUCCESS,
     match PortRole.getTag currentRole with
     | PortRole.TdataRole => PortRole.dataRole PortDataRole.HOST
     | _ => PortRole.mode PortMode.DFP
     end)
  else if streq roleName "device" then
    (Status.SUCCESS,
     match PortRole.getTag currentRole with
     | PortRole.TdataRole => PortRole.dataRole PortDataRole.DEVICE
     | _ => PortRole.mode PortMode.UFP
     end)
  else if negb (streq roleName "none") then (Status.UNRECOGNIZED_ROLE, currentRole)
  else (Status.SUCCESS, currentRole).

(** ** [std::unordered_map<string, bool>] *)
Fixpoint names_find (k : string) (l : list (string * bool)) : option bool :=
  match l with
  | [] => None
  | (k', v) :: l => if streq k' k then Some v else names_find k l
  end.
(** [names\[k\] = v] *)
Fixpoint names_set (k : string) (v : bool) (l : list (string * bool)) : list (string * bool) :=
  match l with
  | [] => [(k, v)]
  | (k', v') :: l => if streq k' k then (k', v) :: l else (k', v') :: names_set k v l
  end.

(** The loop over [readdir]; [None] where [strtok] would return [NULL]. *)
Fixpoint scan_ports (l : list dirent) (names : list (string * bool)) : option (list (string * bool)) :=
  match l with
  | [] => Some names
  | e :: l =>
      if bool_decide (ep_type e = DT_LNK) then
        match find_sub "-partner" (ep_name e) with
        | None =>
            match names_find (ep_name e) names with
            | None => scan_ports l (names_set (ep_name e) false names)
            | Some _ => scan_ports l names
            end
        | Some _ =>
            match strtok "-" (ep_name e) with
            | Some port => scan_ports l (names_set port true names)
            | None => None
            end
        end
      else scan_ports l names
  end.

(** [v.resize(n)] *)
Definition resize {A} (d : A) (n : nat) (l : list A) : list A :=
  take n l ++ replicate (n - length l) d.

Section query.
Context {PLAT : Platform} {K : Type} `{!Oracle answer K}.
Abbreviation M := (prog K Usb).

(** [( *v)\[i\]] modified by [f] *)
Definition at_index {A} (i : nat) (f : A -> A) (v : list A) : M (list A) :=
x ← expect OutOfBounds (v !! i); mret (<[i := f x]> v).

(** [if (mCallback != NULL) mCallback->...;] the result is only logged *)
Definition notify (c : usb_callback) : M unit :=
cb ← gets mCallback;
match cb with Some who => ok ← call (Callback who c); mret tt | None => mret tt end.

Definition queryMoistureDetectionStatus (cps : list PortStatus) : M (Status.t * list PortStatus) :=
cps ← at_index 0 (fun p => set_supportedContaminantProtectionModes
  (supportedContaminantProtectionModes p ++ [ContaminantProtectionMode.FORCE_DISABLE]) p) cps;
cps ← at_index 0 (set_contaminantProtectionStatus ContaminantProtectionStatus.NONE) cps;
cps ← at_index 0 (set_contaminantDetectionStatus ContaminantDetectionStatus.DISABLED) cps;
cps ← at_index 0 (set_supportsEnableContaminantPresenceDetection true) cps;
cps ← at_index 0 (set_supportsEnableContaminantPresenceProtection false) cps;
i2cPath ← getI2cClientPath;
if streq i2cPath "" then mret (Status.ERROR, cps)
else
  modify (set_enabledPath (i2cPath // kContaminantDetectionPath));;
  path ← gets enabledPath;
  enabled ← call (ReadFileToString path);
  match enabled with
  | None => mret (Status.ERROR, cps)
  | Some enabled =>
      if streq (Trim enabled) "1" then
        status ← call (ReadFileToString (i2cPath // kStatusPath));
        match status with
        | None => mret (Status.ERROR, cps)
        | Some status =>
            if streq (Trim status) "1" then
              cps ← at_index 0 (set_contaminantDetectionStatus ContaminantDetectionStatus.DETECTED) cps;
              cps ← at_index 0 (set_contaminantProtectionStatus ContaminantProtectionStatus.FORCE_DISABLE) cps;
              mret (Status.SUCCESS, cps)
            else
              cps ← at_index 0 (set_contaminantDetectionStatus ContaminantDetectionStatus.NOT_DETECTED) cps;
              mret (Status.SUCCESS, cps)
        end
      else mret (Status.SUCCESS, cps)
  end.

(** The body of the loop over the reasons: the warning pushed, if any. *)
Definition warning_of_reason (reason : string) : option ComplianceWarning.t :=
if starts_with kComplianceWarningDebugAccessory (c_str reason) then Some ComplianceWarning.DEBUG_ACCESSORY
else if starts_with kComplianceWarningBC12 (c_str reason) then Some ComplianceWarning.BC_1_2
else if starts_with kComplianceWarningMissingRp (c_str reason) then Some ComplianceWarning.MISSING_RP
else if starts_with kComplianceWarningOther (c_str reason) ||
        starts_with kComplianceWarningInputPowerLimited (c_str reason) then
  if enable_usb_data_compliance_warning && enable_input_power_limited_warning
  then Some ComplianceWarning.INPUT_POWER_LIMITED
  else Some ComplianceWarning.OTHER
else None.

(** The body of the loop over the ports. *)
Definition queryNonCompliantCharger_port (p : PortStatus) : M PortStatus :=
let p := set_supportsComplianceWarnings true p in
reasons ← call (ReadFileToString (kTypecPath // portName p // kComplianceWarningsPath));
match reasons with
| None => mret p
| Some reasons =>
    let p := set_complianceWarnings
      (complianceWarnings p ++ omap warning_of_reason (Tokenize (c_str reasons) ("[], " +:+ String LF ""))) p in
    if (0 <? length (complianceWarnings p))%nat && bool_decide (currentPowerRole p = PortPowerRole.NONE)
    then mret (set_powerBrickStatus PowerBrickStatus.CONNECTED
              (set_currentDataRole PortDataRole.NONE
              (set_currentPowerRole PortPowerRole.SINK
              (set_currentMode PortMode.UFP p))))
    else mret p
end.

Fixpoint queryNonCompliantChargerStatus (cps : list PortStatus) : M (list PortStatus) :=
match cps with
| [] => mret []
| p :: cps =>
    p ← queryNonCompliantCharger_port p;
    cps ← queryNonCompliantChargerStatus cps;
    mret (p :: cps)
end.

Definition queryPowerTransferStatus (cps : list PortStatus) : M (Status.t * list PortStatus) :=
i2cPath ← getI2cClientPath;
if streq i2cPath "" then mret (Status.ERROR, cps)
else
  enabled ← call (ReadFileToString (i2cPath // kSinkLimitEnable));
  match enabled with
  | None => mret (Status.ERROR, cps)
  | Some enabled =>
      cps ← at_index 0 (set_powerTransferLimited (streq (Trim enabled) "1")) cps;
      mret (Status.SUCCESS, cps)
  end.

(** The accessory, or [None] for [Status::ERROR]. *)
Definition getAccessoryConnected (portName : string) : M (option string) :=
accessory ← call (ReadFileToString ("/sys/class/typec/" +:+ portName +:+ "-partner/accessory_mode"));
mret (Trim <$> accessory).

Definition getCurrentRoleHelper (portName : string) (connected : bool) (currentRole : PortRole.t) :
  M (Status.t * PortRole.t) :=
let '(filename, currentRole) :=
  match PortRole.getTag currentRole with
  | PortRole.TpowerRole =>
      ("/sys/class/typec/" +:+ portName +:+ "/power_role", PortRole.powerRole PortPowerRole.NONE)
  | PortRole.TdataRole =>
      ("/sys/class/typec/" +:+ portName +:+ "/data_role", PortRole.dataRole PortDataRole.NONE)
  | PortRole.Tmode =>
      ("/sys/class/typec/" +:+ portName +:+ "/data_role", PortRole.mode PortMode.NONE)
  end in
if negb connected then mret (Status.SUCCESS, currentRole)
else
  early ←
    (if bool_decide (PortRole.getTag currentRole = PortRole.Tmode) then
       accessory ← getAccessoryConnected portName;
       match accessory with
       | None => mret (Some (Status.ERROR, currentRole))
       | Some accessory =>
           if streq accessory "analog_audio"
           then mret (Some (Status.SUCCESS, PortRole.mode PortMode.AUDIO_ACCESSORY))
           else if streq accessory "debug"
           then mret (Some (Status.SUCCESS, PortRole.mode PortMode.DEBUG_ACCESSORY))
           else mret None
       end
     else mret None);
  match early with
  | Some r => mret r
  | None =>
      roleName ← call (ReadFileToString filename);
      match roleName with
      | None => mret (Status.ERROR, currentRole)
      | Some roleName => mret (set_role_by_name (extractRole (Trim roleName)) currentRole)
      end
  end.

(** The names, or [None] for [Status::ERROR]. *)
Definition getTypeCPortNamesHelper : M (option (list (string * bool))) :=
dp ← call (Opendir kTypecPath);
match dp with
| Some entries => names ← expect OutOfBounds (scan_ports entries []); mret (Some names)
| None => mret None
end.

Definition canSwitchRoleHelper (portName : string) : M bool :=
supportsPD ← call (ReadFileToString
  ("/sys/class/typec/" +:+ portName +:+ "-partner/supports_usb_power_delivery"));
match supportsPD with
| Some supportsPD => mret (streq (Trim supportsPD) "yes")
| None => mret false
end.

(** One role of a port into its status: [false] is the [goto done]. *)
Definition query_role {A} (port : string * bool) (ask_for : PortRole.t) (get : PortRole.t -> option A)
  (set : A -> PortStatus -> PortStatus) (p : PortStatus) : M (bool * PortStatus) :=
'(st, role) ← getCurrentRoleHelper port.1 port.2 ask_for;
if bool_decide (st = Status.SUCCESS) then r ← expect Aborted (get role); mret (true, set r p)
else mret (false, p).

(** The rest of the loop body, once the roles are known. *)
Definition query_data_status (p : PortStatus) : M PortStatus :=
pogoUsbActive ← call (ReadFileToString kPogoUsbActive);
docked ← match pogoUsbActive with
         | Some s => n ← expect UncaughtException (stoi (Trim s)); mret (n =? 1)
         | None => mret false
         end;
let p := if (docked : bool) then set_usbDataStatus (usbDataStatus p ++ [UsbDataStatus.DISABLED_DOCK]) p else p in
enabled ← gets mUsbDataEnabled;
let p := if negb enabled
         then set_usbDataStatus (usbDataStatus p ++ [UsbDataStatus.DISABLED_FORCE]) p else p in
mret (if negb docked && enabled
      then set_usbDataStatus (usbDataStatus p ++ [UsbDataStatus.ENABLED]) p else p).

Definition query_power_brick (connected : bool) (p : PortStatus) : M PortStatus :=
if connected then
  if bool_decide (currentPowerRole p = PortPowerRole.SOURCE)
  then mret (set_powerBrickStatus PowerBrickStatus.NOT_CONNECTED p)
  else
    usbType ← call (ReadFileToString kPowerSupplyUsbType);
    match usbType with
    | Some usbType =>
        match find_sub "[D" (c_str usbType) with
        | Some _ => mret (set_powerBrickStatus PowerBrickStatus.CONNECTED p)
        | None =>
            match find_sub "[U" (c_str usbType) with
            | Some _ => mret (set_powerBrickStatus PowerBrickStatus.UNKNOWN p)
            | None => mret (set_powerBrickStatus PowerBrickStatus.NOT_CONNECTED p)
            end
        end
    | None => mret p
    end
else mret (set_powerBrickStatus PowerBrickStatus.NOT_CONNECTED p).

(** The body of the loop over the ports. *)
Definition fill_port (port : string * bool) (p : PortStatus) : M (bool * PortStatus) :=
let p := set_portName port.1 p in
'(ok, p) ← query_role port (PortRole.powerRole PortPowerRole.NONE) PortRole.get_powerRole set_currentPowerRole p;
if negb ok then mret (false, p) else
'(ok, p) ← query_role port (PortRole.dataRole PortDataRole.NONE) PortRole.get_dataRole set_currentDataRole p;
if negb ok then mret (false, p) else
'(ok, p) ← query_role port (PortRole.mode PortMode.NONE) PortRole.get_mode set_currentMode p;
if negb ok then mret (false, p) else
let p := set_canChangeMode true p in
can ← (if port.2 then canSwitchRoleHelper port.1 else mret false);
let p := set_canChangeDataRole can p in
can ← (if port.2 then canSwitchRoleHelper port.1 else mret false);
let p := set_canChangePowerRole can p in
let p := set_supportedModes (supportedModes p ++ [PortMode.DRP]) p in
p ← query_data_status p;
p ← query_power_brick port.2 p;
mret (true, p).

Fixpoint fill_ports (i : nat) (names : list (string * bool)) (cps : list PortStatus) :
  M (Status.t * list PortStatus) :=
match names with
| [] => mret (Status.SUCCESS, cps)
| port :: names =>
    p ← expect OutOfBounds (cps !! i);
    '(ok, p) ← fill_port port p;
    let cps := <[i := p]> cps in
    if (ok : bool) then fill_ports (S i) names cps else mret (Status.ERROR, cps)
end.

Definition getPortStatusHelper (cps : list PortStatus) : M (Status.t * list PortStatus) :=
names ← getTypeCPortNamesHelper;
match names with
| Some names =>
    fill_ports 0 (unordered_map_order names) (resize default_PortStatus (length names) cps)
| None => mret (Status.ERROR, cps)
end.

Definition queryUsbDataSession (cps : list PortStatus) : M (list PortStatus) :=
p ← expect OutOfBounds (cps !! 0%nat);
warnings ← getComplianceWarnings (currentDataRole p);
at_index 0 (fun p => set_complianceWarnings (complianceWarnings p ++ warnings) p) cps.

Definition queryVersionHelper (cps : list PortStatus) : M (list PortStatus) :=
call (MutexLock mLock);;
'(status, cps) ← getPortStatusHelper cps;
'(_, cps) ← queryMoistureDetectionStatus cps;
'(_, cps) ← queryPowerTransferStatus cps;
cps ← queryNonCompliantChargerStatus cps;
cps ← queryUsbDataSession cps;
notify (notifyPortStatusChange cps status);;
call (MutexUnlock mLock);;
mret cps.

(** The callback given to the monitor. *)
Definition updatePortStatus : M unit := cps ← queryVersionHelper []; mret tt.
End query.
