(* ===== verification/UsbHal.v ===== *)
(** * The USB HAL: the operations of the service

    The methods of [struct Usb], the worker thread that listens for uevents,
    and registration of the callback (usb/usb/Usb.cpp).  Every operation is
    one sequential run: what other threads do meanwhile shows only in the
    answers it gets. *)
From S2P Require Import Prelude CString Effects Aidl Platform Uevent I2cPath DataSession PortQuery.
Open Scope Z_scope.

Definition kDisableContatminantDetection : string := "vendor.usb.contaminantdisable".
Definition kOverheatStatsPath : string := "/sys/devices/platform/google,usbc_port_cooling_dev/".
Definition kOverheatStatsDev : string := "DRIVER=google,usbc_port_cooling_dev".
Definition KPogoMoveDataToUsb : string := "/sys/devices/platform/google,pogo/move_data_to_usb".
Definition kUdcUeventRegex : string := "/devices/platform/11110000.usb/11110000.dwc3/udc/11110000.dwc3".
Definition kUdcStatePath : string :=
  "/sys/devices/platform/11110000.usb/11110000.dwc3/udc/11110000.dwc3/state".
Definition kHost1UeventRegex : string :=
  "/devices/platform/11110000.usb/11110000.dwc3/xhci-hcd-exynos.[0-9].auto/usb2/2-0:1.0".
Definition kHost1StatePath : string := "/sys/bus/usb/devices/usb2/2-0:1.0/usb2-port1/state".
Definition kHost2UeventRegex : string :=
  "/devices/platform/11110000.usb/11110000.dwc3/xhci-hcd-exynos.[0-9].auto/usb3/3-0:1.0".
Definition kHost2StatePath : string := "/sys/bus/usb/devices/usb3/3-0:1.0/usb3-port1/state".
Definition kDataRolePath : string := "/sys/devices/platform/11110000.usb/new_data_role".
Definition PORT_TYPE_TIMEOUT : Z := 8.
Definition kGadgetName : string := "11110000.dwc3".
Definition NEW_UDC_PATH : string := "/sys/devices/platform/11110000.usb/".
Definition ID_PATH : string := NEW_UDC_PATH +:+ "dwc3_exynos_otg_id".
Definition VBUS_PATH : string := NEW_UDC_PATH +:+ "dwc3_exynos_otg_b_sess".
Definition USB_DATA_PATH : string := NEW_UDC_PATH +:+ "usb_data_enabled".
Definition SIGUSR1 : Z := 10.

Section hal.
Context {PLAT : Platform} {K : Type} `{!Oracle answer K}.
Abbreviation M := (prog K Usb).

(** [pthread_mutex_lock; notify; pthread_mutex_unlock] *)
Definition notify_locked (c : usb_callback) : M unit :=
call (MutexLock mLock);; notify c;; call (MutexUnlock mLock).

(** ** Data signaling *)

Definition enableUsbData (in_portName : string) (in_enable : bool) (in_transactionId : Z) : M unit :=
result ←
  (if in_enable then
     was ← gets mUsbDataEnabled;
     if negb was then
       pullup ← call (ReadFileToString PULLUP_PATH);
       r1 ← match pullup with
            | Some pullup =>
                if negb (streq (Trim pullup) kGadgetName)
                then call (WriteStringToFile kGadgetName PULLUP_PATH)
                else mret true
            | None => mret true
            end;
       r2 ← call (WriteStringToFile "1" USB_DATA_PATH);
       mret (r1 && r2)
     else mret true
   else
     pullup ← call (ReadFileToString PULLUP_PATH);
     r1 ← match pullup with
          | Some pullup =>
              if streq (Trim pullup) kGadgetName
              then call (WriteStringToFile "none" PULLUP_PATH)
              else mret true
          | None => mret true
          end;
     r2 ← call (WriteStringToFile "1" ID_PATH);
     r3 ← call (WriteStringToFile "0" VBUS_PATH);
     r4 ← call (WriteStringToFile "0" USB_DATA_PATH);
     mret (r1 && r2 && r3 && r4));
when result (modify (set_mUsbDataEnabled in_enable));;
notify_locked (notifyEnableUsbDataStatus in_portName in_enable (Status.of_bool result) in_transactionId);;
currentPortStatus ← queryVersionHelper [];
mret tt.

(** [open] is retried while it is interrupted; the [unique_fd] is closed on
  return. *)
Definition enableUsbDataWhileDocked (in_portName : string) (in_transactionId : Z) : M unit :=
fd ← call (Open KPogoMoveDataToUsb);
status ← (if negb (fd =? -1) then
            success ← call (WriteStringToFile "1" KPogoMoveDataToUsb);
            mret (Status.of_bool success)
          else mret Status.NOT_SUPPORTED);
notify_locked (notifyEnableUsbDataWhileDockedStatus in_portName status in_transactionId);;
currentPortStatus ← queryVersionHelper [];
when (negb (fd =? -1)) (call (Close fd)).

Definition resetUsbPort (in_portName : string) (in_transactionId : Z) : M unit :=
result ← call (WriteStringToFile "none" PULLUP_PATH);
notify_locked (notifyResetUsbPortStatus in_portName (Status.of_bool result) in_transactionId).

(** ** Role switches *)

Definition switchToDrp (portName : string) : M unit :=
let filename := appendRoleNodeHelper (c_str portName) PortRole.Tmode in
when (negb (streq filename "")) (
  fp ← call (FopenW filename);
  when fp (ret ← call (Fputs "dual" filename); closed ← call (Fclose filename); mret tt)).

(** [wait_again:] the uevent thread may set [mPartnerUp] while the wait has
  released the mutex.  [fuel] bounds the number of waits. *)
Fixpoint wait_again (fuel : nat) : M bool :=
match fuel with
| O => crash OutOfFuel
| S fuel =>
    now ← call ClockMonotonic;
    err ← call (CondTimedwait (now.1 + PORT_TYPE_TIMEOUT) now.2);
    modify (fun s => set_mPartnerUp (mPartnerUp s || wr_partner_up err) s);;
    if wr_timedout err then mret false
    else
      up ← gets mPartnerUp;
      if negb up then wait_again fuel else mret true
end.

Definition switchMode (fuel : nat) (portName : string) (in_role : PortRole.t) : M bool :=
let filename := appendRoleNodeHelper (c_str portName) (PortRole.getTag in_role) in
if streq filename "" then mret false
else
  fp ← call (FopenW filename);
  roleSwitch ←
    (if (fp : bool) then
       call (MutexLock mPartnerLock);;
       modify (set_mPartnerUp false);;
       ret ← call (Fputs (convertRoletoString in_role) filename);
       call (Fclose filename);;
       roleSwitch ← (if (ret : bool) then wait_again fuel else mret false);
       call (MutexUnlock mPartnerLock);;
       mret roleSwitch
     else mret false);
  when (negb roleSwitch) (switchToDrp (c_str portName));;
  mret roleSwitch.

Definition switchRole (fuel : nat) (in_portName : string) (in_role : PortRole.t) (in_transactionId : Z) : M unit :=
let filename := appendRoleNodeHelper (c_str in_portName) (PortRole.getTag in_role) in
if streq filename "" then mret tt
else
  call (MutexLock mRoleSwitchLock);;
  roleSwitch ←
    (if bool_decide (PortRole.getTag in_role = PortRole.Tmode) then switchMode fuel in_portName in_role
     else
       fp ← call (FopenW filename);
       if (fp : bool) then
         ret ← call (Fputs (convertRoletoString in_role) filename);
         call (Fclose filename);;
         if (ret : bool) then
           written ← call (ReadFileToString filename);
           match written with
           | Some written =>
               mret (streq (extractRole (Trim written)) (convertRoletoString in_role))
           | None => mret false
           end
         else mret false
       else mret false);
  notify_locked (notifyRoleSwitchStatus in_portName in_role (Status.of_bool roleSwitch) in_transactionId);;
  call (MutexUnlock mRoleSwitchLock).

(** ** Power, contaminant detection, queries *)

Definition limitPowerTransfer (in_portName : string) (in_limit : bool) (in_transactionId : Z) : M unit :=
call (MutexLock mLock);;
i2cPath ← getI2cClientPath;
ok ← (if negb (streq i2cPath "") then
        let limit := if in_limit then "1" else "0" in
        r1 ← (if in_limit then call (WriteStringToFile "0" (i2cPath // kSinkLimitCurrent)) else mret true);
        r2 ← call (WriteStringToFile limit (i2cPath // kSinkLimitEnable));
        r3 ← call (WriteStringToFile limit (i2cPath // kSourceLimitEnable));
        mret (r1 && r2 && r3)
      else mret false);
when (0 <=? in_transactionId) (
  notify (notifyLimitPowerTransferStatus in_portName in_limit (Status.of_bool ok) in_transactionId));;
call (MutexUnlock mLock);;
currentPortStatus ← queryVersionHelper [];
mret tt.

Definition queryPortStatus (in_transactionId : Z) : M unit :=
currentPortStatus ← queryVersionHelper [];
notify_locked (notifyQueryPortStatus "all" Status.SUCCESS in_transactionId).

Definition enableContaminantPresenceDetection (in_portName : string) (in_enable : bool)
  (in_transactionId : Z) : M unit :=
disable ← call (GetProperty kDisableContatminantDetection "");
success ← (if negb (streq disable "true") then
             path ← gets enabledPath;
             call (WriteStringToFile (if in_enable then "1" else "0") path)
           else mret true);
notify_locked (notifyContaminantEnabledStatus in_portName in_enable (Status.of_bool success) in_transactionId);;
currentPortStatus ← queryVersionHelper [];
mret tt.

(** ** The worker thread *)

(** Reading one of the statistics; [None] where it cannot be read. *)
Definition read_stat (name : string) : M (option Z) :=
contents ← call (ReadFileToString (kOverheatStatsPath +:+ name));
match contents with
| Some contents => n ← expect UncaughtException (stoi (Trim contents)); mret (Some n)
| None => mret None
end.

Definition report_overheat_event : M unit :=
celsius ← gets mPluggedTemperatureCelsius;
plug ← expect BadConversion (tenths celsius);
celsius ← call GetMaxOverheatTemperature;
max ← expect BadConversion (tenths celsius);
trip ← read_stat "trip_time";
match trip with None => mret tt | Some trip =>
hysteresis ← read_stat "hysteresis_time";
match hysteresis with None => mret tt | Some hysteresis =>
cleared ← read_stat "cleared_time";
match cleared with None => mret tt | Some cleared =>
stats_client ← call GetStatsService;
when stats_client (
  call (ReportUsbPortOverheat (OverheatInfo plug max trip hysteresis cleared)))
end end end.

(** The uevents after which the ports are queried again. *)
Definition is_port_uevent (cp : string) : bool :=
starts_with "DEVTYPE=typec_" cp || starts_with "DRIVER=max77759tcpc" cp ||
starts_with "DRIVER=pogo-transport" cp || starts_with "POWER_SUPPLY_NAME=usb" cp.

(** The body of the loop over a uevent's strings: whether it breaks. *)
Definition uevent_string (cp : string) : M bool :=
if regex_match cp "(add)(.*)(-partner)" then
  call (MutexLock mPartnerLock);;
  modify (set_mPartnerUp true);;
  call CondSignal;;
  call (MutexUnlock mPartnerLock);;
  mret false
else if is_port_uevent cp then
  currentPortStatus ← queryVersionHelper [];
  ok ← call (MutexTrylock mRoleSwitchLock);
  when ok (
    for_each currentPortStatus (fun p =>
      dp ← call (Opendir ("/sys/class/typec/" +:+ c_str (portName p) +:+ "-partner"));
      match dp with None => switchToDrp (portName p) | Some _ => mret tt end);;
    call (MutexUnlock mRoleSwitchLock));;
  mret true
else if starts_with kOverheatStatsDev cp then report_overheat_event;; mret false
else mret false.

Definition uevent_event (uevent_fd : Z) : M unit :=
msg ← call (UeventRecv uevent_fd);
let n := strlen msg in
if (n <=? 0)%nat then mret tt
else if (UEVENT_MSG_LEN <=? n)%nat then mret tt
else uevent_loop msg uevent_string.

Definition sighandler (sig : Z) : M unit :=
if sig =? SIGUSR1 then modify (set_destroyThread true) else call SignalInstall.

(** How [epoll_wait] ends: with events, interrupted by a signal, or failing. *)
Inductive worker_wakeup := Events (n : nat) | Signalled (sig : Z) | WaitFailed.

(** [while (!destroyThread)]: whether it was left; when the list of wakeups
  ends first, the thread is still blocked in [epoll_wait]. *)
Fixpoint work_loop (uevent_fd : Z) (ws : list worker_wakeup) : M bool :=
destroy ← gets destroyThread;
if (destroy : bool) then mret true
else match ws with
| [] => mret false
| Events n :: ws => for_each (seq 0 n) (fun _ => uevent_event uevent_fd);; work_loop uevent_fd ws
| Signalled sig :: ws => sighandler sig;; work_loop uevent_fd ws
| WaitFailed :: _ => mret true
end.

Definition work (ws : list worker_wakeup) : M unit :=
uevent_fd ← call UeventOpenSocket;
if uevent_fd <? 0 then mret tt
else
  epoll_fd ← call EpollCreate;
  left ← (if epoll_fd =? -1 then mret true
          else
            ok ← call (EpollAdd uevent_fd);
            if negb ok then mret true else work_loop uevent_fd ws);
  when left (
    call (Close uevent_fd);;
    when (0 <=? epoll_fd) (call (Close epoll_fd))).

(** ** Registration and construction *)

Definition setCallback (in_callback : option Z) : M unit :=
call (MutexLock mLock);;
cb ← gets mCallback;
modify (set_mCallback in_callback);;
match cb, in_callback with
| None, None | Some _, Some _ => mret tt
| Some _, None =>
    ok ← call ThreadKill;
    when ok (call ThreadJoin)
| None, Some _ =>
    modify (set_destroyThread false);;
    call SignalInstall;;
    ok ← call ThreadCreate;
    when (negb ok) (modify (set_mCallback None))
end;;
call (MutexUnlock mLock).

(** Members are initialised in the order of their declaration: the monitor,
  whose constructor starts its thread, comes before [mUsbDataEnabled] and
  the i2c members.  [mPluggedTemperatureCelsius] is never assigned. *)
Definition Usb_new (garbage : PortDataRole.t) : M unit :=
let abort_if (b : bool) : M unit := when b (crash Aborted) in
modify (set_mCallback None);;
modify (set_mPartnerUp false);;
UsbDataSessionMonitor_new garbage kUdcUeventRegex kUdcStatePath kHost1UeventRegex kHost1StatePath
  kHost2UeventRegex kHost2StatePath kDataRolePath;;
modify (set_mUsbDataEnabled true);;
modify (set_usb_i2c fresh_i2c_cache);;
ok ← call (CondSetup "pthread_condattr_init"); abort_if (negb ok);;
ok ← call (CondSetup "pthread_condattr_setclock"); abort_if (negb ok);;
ok ← call (CondSetup "pthread_cond_init"); abort_if (negb ok);;
ok ← call (CondSetup "pthread_condattr_destroy"); abort_if (negb ok).
End hal.
