(* ===== verification/SimUsb.v ===== *)
(** * A concrete USB service and its sysfs, for witnesses *)
From stdpp Require Import gmap.
From S2P Require Import Prelude CString Effects Aidl Platform I2cPath Sim DataSession PortQuery UsbHal.
Open Scope Z_scope.

(** A phone with one type-C port; a charger is connected to it. *)
Definition port0 : string := "port0".
Definition typec_files : list (string * string) :=
  [("/sys/class/typec/port0/power_role", "source [sink]" +:+ String LF "");
   ("/sys/class/typec/port0/data_role", "host [device]" +:+ String LF "");
   ("/sys/class/typec/port0/port_type", "[dual] source sink");
   ("/sys/class/typec/port0-partner/accessory_mode", "none" +:+ String LF "");
   ("/sys/class/typec/port0-partner/supports_usb_power_delivery", "yes" +:+ String LF "");
   ("/sys/class/power_supply/usb/usb_type", "Unknown [DCP] SDP" +:+ String LF "");
   (USB_DATA_PATH, "1"); (ID_PATH, "0"); (VBUS_PATH, "1");
   ("/config/usb_gadget/g1/UDC", kGadgetName +:+ String LF "");
   (i2cClientPathLabeled 5 // kSinkLimitEnable, "0");
   (i2cClientPathLabeled 5 // kSourceLimitEnable, "0");
   (i2cClientPathLabeled 5 // kSinkLimitCurrent, "3000000");
   (i2cClientPathLabeled 5 // kContaminantDetectionPath, "1");
   (i2cClientPathLabeled 5 // kStatusPath, "0")].
Definition typec_dirs : list (string * list dirent) :=
  [(kTypecPath, [Dirent DT_DIR "."; Dirent DT_LNK "port0"; Dirent DT_LNK "port0-partner"]);
   (kHsi2cPath, [Dirent DT_DIR "power"; Dirent DT_DIR "i2c-5"]);
   (i2cClientPathLabeled 5, []);
   ("/sys/class/typec/port0-partner", [])].

Definition phone : sim :=
  Sim (list_to_map typec_files) [] (list_to_map typec_dirs) 0 ∅ [] [] [] [] true.
(** The same with other readonly files, uevents and timed waits. *)
Definition phone_with (ro : list string) (ue : list string) (ws : list wait_result) : sim :=
  Sim (list_to_map typec_files) ro (list_to_map typec_dirs) 0 ∅ [] ue ws [] true.

Definition service (cb : option Z) (data : bool) : Usb :=
  mkUsb cb false (fresh_monitor PortDataRole.DEVICE) (S754_zero false) data fresh_i2c_cache "" false.

(** What a run wrote and notified, for the examples. *)
Definition seen_of {A} (o : outcome answer sim Usb A) :
    list (string * string * bool) * list (Z * usb_callback) :=
  (writes (trace_of o), callbacks (trace_of o)).

(** A run that ends. *)
Definition is_done {A} (o : outcome answer sim Usb A) : bool :=
  match o with Done _ _ _ => true | Crash _ _ => false end.
Lemma is_done_Done {A} (o : outcome answer sim Usb A) :
  is_done o = true -> exists a w, o = Done a w (trace_of o).
Proof. destruct o as [a w t|]; [|done]. intros _. by exists a, w. Qed.

(** The phone as an outside that never changes. *)
Definition frozen (k : sim) : Oracle answer unit := fixed_oracle (fun q => (sim_oracle q k).1).
Definition phone_oracle : Oracle answer unit := frozen phone.
Definition empty_oracle : Oracle answer unit := frozen sim0.

(** The phone's controller is found, and found for good. *)
Lemma getI2cClientPath_correct_witness :
  wp (getI2cClientPath (K:=sim) (S:=i2c_cache)) (fun r w' tr =>
    let c := fresh_i2c_cache in let c' := self w' in
    Forall only_opendir tr /\
    (r <> "" ->
       (r = "" \/
        (0 <= mI2cBusNumber c' /\
         (r = i2cClientPathLabeled (mI2cBusNumber c') \/
          r = i2cClientPathUnLabeled (mI2cBusNumber c')))) /\
       forall k, getI2cClientPath (World k c') = Done r (World k c') []) /\
    (r = "" -> "" = "" /\ mI2cClientPath c' = ""))
    (fun _ _ => False) (World phone fresh_i2c_cache).
Proof. exact (getI2cClientPath_correct (K:=sim) (World phone fresh_i2c_cache)). Defined.
