(* ===== verification/UsbFacts.v ===== *)
(** * The USB HAL: what its parts leave alone

    Frame and trace lemmas of the queries, found by following the structure of
    the programs, and the discharge of what the data session monitor expects
    of its callback. *)
From S2P Require Import Prelude CString Effects Aidl Platform Uevent I2cPath DataSession DataSessionFacts PortQuery UsbHal.
Open Scope Z_scope.

(** The state without its caches. *)
Definition but_caches (s : Usb) : Usb := set_enabledPath "" (set_usb_i2c fresh_i2c_cache s).

(** Interactions that only look. *)
Definition inert (e : event answer) : Prop :=
  match e with Ev q _ => match q with ReadFileToString _ | Opendir _ => True | _ => False end end.

Section facts.
Context {PLAT : Platform} {K : Type} `{!Oracle answer K}.

(** Properties of the computations below [queryVersionHelper] that hold of
  the requests they make: reads, directory listings, and the caches. *)
Section closed.
Context (P : forall A, prog K Usb A -> Prop) `{!Compositional P}.
Hypothesis P_read : forall path, P (option string) (call (ReadFileToString path)).
Hypothesis P_dir : forall path, P (option (list dirent)) (call (Opendir path)).
Hypothesis P_path : forall v, P _ (modify (set_enabledPath v)).
Hypothesis P_i2c : P _ getI2cClientPath.

Lemma closed_at_index {A} i (f : A -> A) v : P _ (at_index i f v).
Proof. unfold at_index. walk. Qed.
Lemma closed_queryMoisture cps : P _ (queryMoistureDetectionStatus cps).
Proof. unfold queryMoistureDetectionStatus. walk. all: auto using closed_at_index. Qed.
Lemma closed_queryPower cps : P _ (queryPowerTransferStatus cps).
Proof. unfold queryPowerTransferStatus. walk. all: auto using closed_at_index. Qed.
Lemma closed_queryNonCompliant cps : P _ (queryNonCompliantChargerStatus cps).
Proof.
induction cps as [|p cps IH]; simpl; [walk|]. unfold queryNonCompliantCharger_port. walk. all: auto.
Qed.
Lemma closed_getCurrentRole name c r : P _ (getCurrentRoleHelper name c r).
Proof. unfold getCurrentRoleHelper, getAccessoryConnected. walk. all: auto. Qed.
Lemma closed_query_role {A} port r (get : _ -> option A) set p : P _ (query_role port r get set p).
Proof. unfold query_role. walk. all: auto using closed_getCurrentRole. Qed.
Lemma closed_fill_port port p : P _ (fill_port port p).
Proof.
unfold fill_port, query_data_status, query_power_brick, canSwitchRoleHelper. walk.
all: auto using closed_query_role.
Qed.
Lemma closed_fill_ports i names cps : P _ (fill_ports i names cps).
Proof.
revert i cps. induction names as [|n names IH]; intros i cps; simpl; walk. all: auto using closed_fill_port.
Qed.
Lemma closed_getPortStatus cps : P _ (getPortStatusHelper cps).
Proof.
unfold getPortStatusHelper, getTypeCPortNamesHelper. walk. all: auto using closed_fill_ports.
Qed.
Lemma closed_queryDataSession cps : P _ (queryUsbDataSession cps).
Proof. unfold queryUsbDataSession, getComplianceWarnings. walk. all: auto using closed_at_index. Qed.
End closed.

(** The queries only read files and list directories, and change only caches. *)
Lemma i2c_inert : emits inert string (getI2cClientPath (K:=K) (S:=Usb)).
Proof. eapply emits_mono; [|apply getI2cClientPath_emits]. by intros [[] r]. Qed.
Lemma i2c_but_caches : frames (keeps but_caches) string (getI2cClientPath (K:=K) (S:=Usb)).
Proof. by apply i2c_frames. Qed.
#[local] Hint Resolve i2c_inert i2c_but_caches : comp.

#[local] Ltac inert_tac := first [by walk | exact i2c_inert].
#[local] Ltac cache_tac := first [by walk | exact i2c_but_caches | by apply frames_modify; intros []].

Lemma getPortStatus_inert cps : emits inert _ (getPortStatusHelper (K:=K) cps).
Proof. apply (closed_getPortStatus (fun A => emits inert A)); intros; inert_tac. Qed.
Lemma getPortStatus_but_caches cps : frames (keeps but_caches) _ (getPortStatusHelper (K:=K) cps).
Proof. apply (closed_getPortStatus (fun A => frames (keeps but_caches) A)); intros; cache_tac. Qed.
Lemma queryMoisture_inert cps : emits inert _ (queryMoistureDetectionStatus (K:=K) cps).
Proof. apply (closed_queryMoisture (fun A => emits inert A)); intros; inert_tac. Qed.
Lemma queryMoisture_but_caches cps : frames (keeps but_caches) _ (queryMoistureDetectionStatus (K:=K) cps).
Proof. apply (closed_queryMoisture (fun A => frames (keeps but_caches) A)); intros; cache_tac. Qed.
Lemma queryPower_inert cps : emits inert _ (queryPowerTransferStatus (K:=K) cps).
Proof. apply (closed_queryPower (fun A => emits inert A)); intros; inert_tac. Qed.
Lemma queryPower_but_caches cps : frames (keeps but_caches) _ (queryPowerTransferStatus (K:=K) cps).
Proof. apply (closed_queryPower (fun A => frames (keeps but_caches) A)); intros; cache_tac. Qed.
Lemma queryNonCompliant_inert cps : emits inert _ (queryNonCompliantChargerStatus (K:=K) cps).
Proof. apply (closed_queryNonCompliant (fun A => emits inert A)); intros; inert_tac. Qed.
Lemma queryNonCompliant_but_caches cps : frames (keeps but_caches) _ (queryNonCompliantChargerStatus (K:=K) cps).
Proof. apply (closed_queryNonCompliant (fun A => frames (keeps but_caches) A)); intros; cache_tac. Qed.
Lemma queryDataSession_inert cps : emits inert _ (queryUsbDataSession (K:=K) cps).
Proof. apply (closed_queryDataSession (fun A => emits inert A)); intros; inert_tac. Qed.
Lemma queryDataSession_but_caches cps : frames (keeps but_caches) _ (queryUsbDataSession (K:=K) cps).
Proof. apply (closed_queryDataSession (fun A => frames (keeps but_caches) A)); intros; cache_tac. Qed.
End facts.

#[export] Hint Resolve getPortStatus_inert queryMoisture_inert queryPower_inert queryNonCompliant_inert
  queryDataSession_inert getPortStatus_but_caches queryMoisture_but_caches queryPower_but_caches
  queryNonCompliant_but_caches queryDataSession_but_caches i2c_inert i2c_but_caches : comp.

Section query.
Context {PLAT : Platform} {K : Type} `{!Oracle answer K}.

(** A query writes no file. *)
Lemma inert_no_write A (m : prog K Usb A) : emits inert A m -> emits no_write A m.
Proof. apply emits_mono. by intros [[] r]. Qed.
Lemma queryVersionHelper_no_write cps : emits no_write _ (queryVersionHelper (K:=K) cps).
Proof.
unfold queryVersionHelper, notify.
walk. all: try done. all: apply inert_no_write; auto with comp.
Qed.
Lemma queryVersionHelper_but_caches cps : frames (keeps but_caches) _ (queryVersionHelper (K:=K) cps).
Proof. unfold queryVersionHelper, notify. by walk. Qed.

(** The service's callback is what the monitor expects. *)
#[export] Instance updatePortStatus_quiet : quiet_callback (Some (updatePortStatus (K:=K))).
Proof.
unfold quiet_callback, updatePortStatus. walk.
apply (frames_mono (keeps but_caches)); [|apply queryVersionHelper_but_caches].
intros s s' H. apply (f_equal mUsbDataSessionMonitor H).
Qed.
End query.
#[export] Hint Resolve queryVersionHelper_no_write queryVersionHelper_but_caches : comp.

(** ** Inert parts inside a specification *)
Section inert.
Context {K : Type} `{!Oracle answer K}.
Implicit Types w : world K Usb.

Lemma inert_callbacks (t : trace) : Forall inert t -> callbacks t = [].
Proof. intros H. apply omap_none. eapply Forall_impl; [exact H|]. by intros [[] r]. Qed.
Lemma inert_writes (t : trace) : Forall inert t -> writes t = [].
Proof. intros H. apply omap_none. eapply Forall_impl; [exact H|]. by intros [[] r]. Qed.

Lemma wp_inert {A} (m : prog K Usb A) (Φ0 : A -> world K Usb -> trace -> Prop) Φ Ψ w :
emits inert A m -> frames (keeps but_caches) A m ->
wp m Φ0 (fun _ _ => False) w ->
(forall a w' t, Φ0 a w' t -> Forall inert t -> but_caches (self w') = but_caches (self w) -> Φ a w' t) ->
wp m Φ Ψ w.
Proof.
intros Hi Hf Hw HΦ. specialize (Hi w). unfold wp in *.
destruct (m w) as [a w' t|] eqn:E; [|done]. apply HΦ; [done..|]. by eapply Hf.
Qed.

(** [but_caches] shows the members the queries use. *)
Lemma but_caches_callback s s' : but_caches s' = but_caches s -> mCallback s' = mCallback s.
Proof. intros H. exact (f_equal mCallback H). Qed.
Lemma but_caches_data s s' : but_caches s' = but_caches s -> mUsbDataEnabled s' = mUsbDataEnabled s.
Proof. intros H. exact (f_equal mUsbDataEnabled H). Qed.
End inert.
