(* ===== verification/Locks.v ===== *)
(** * Lock scripts and their interleavings

    The mutexes of the USB HAL are ordered, [mRoleSwitchLock] before
    [mPartnerLock] before [mLock].  A run of an operation leaves a script of
    the locks it took and gave up, and of its waits for the worker thread;
    [run_locks] checks that a script takes locks in the order, gives them up in
    nested fashion, and waits for the worker with [mLock] alone.  Threads that
    run such scripts, interleaved in any way, get stuck only behind a thread
    that waits for the worker. *)
From stdpp Require Import relations.
From S2P Require Import Prelude Effects Platform.

(** The order in which locks must be taken. *)
Definition rank (m : mutex) : nat :=
  match m with mRoleSwitchLock => 0 | mPartnerLock => 1 | mLock => 2 end.

(** One operation of a script, from the locks held, the last taken first. *)
Definition step_lock (held : list mutex) (o : lock_op) : option (list mutex) :=
  match o with
  | Acq m => if forallb (fun h => rank h <? rank m)%nat held then Some (m :: held) else None
  | Rel m =>
      match held with
      | h :: held => if bool_decide (h = m) then Some held else None
      | [] => None
      end
  | Join => if bool_decide (held = [mLock]) then Some held else None
  end.
Fixpoint run_locks (held : list mutex) (l : list lock_op) : option (list mutex) :=
  match l with
  | [] => Some held
  | o :: l => match step_lock held o with Some held => run_locks held l | None => None end
  end.

(** A whole script: from no locks to no locks. *)
Definition disciplined (l : list lock_op) : Prop := run_locks [] l = Some [].

Lemma run_locks_app held l1 l2 :
  run_locks held (l1 ++ l2) =
  match run_locks held l1 with Some h => run_locks h l2 | None => None end.
Proof.
  revert held. induction l1 as [|o l1 IH]; intros held; simpl; [done|].
  destruct (step_lock held o); [apply IH|done].
Qed.

(** ** Threads *)
Record thread := Thread { held : list mutex; todo : list lock_op }.

Definition finished (ts : list thread) : Prop := Forall (fun t => todo t = []) ts.

(** One step of the system.  Thread 0 is the worker that [Join] waits for. *)
Inductive step : list thread -> list thread -> Prop :=
| step_acq ts i h m l :
    ts !! i = Some (Thread h (Acq m :: l)) ->
    (forall j t, ts !! j = Some t -> m ∉ held t) ->
    step ts (<[i := Thread (m :: h) l]> ts)
| step_rel ts i h m l :
    ts !! i = Some (Thread (m :: h) (Rel m :: l)) ->
    step ts (<[i := Thread h l]> ts)
| step_join ts i h l h0 :
    ts !! i = Some (Thread h (Join :: l)) -> ts !! 0%nat = Some (Thread h0 []) ->
    step ts (<[i := Thread h l]> ts).

Definition start (scripts : list (list lock_op)) : list thread := Thread [] <$> scripts.
Definition stuck (ts : list thread) : Prop := ~ finished ts /\ forall ts', ~ step ts ts'.

(** A thread that can finish its script by the rules. *)
Definition orderly (t : thread) : Prop := run_locks (held t) (todo t) = Some [].
Definition all_orderly (ts : list thread) : Prop := Forall orderly ts.

Lemma orderly_step t o l :
  orderly t -> todo t = o :: l ->
  exists h, step_lock (held t) o = Some h /\ orderly (Thread h l).
Proof.
  unfold orderly. intros H E. rewrite E in H. simpl in H.
  destruct (step_lock (held t) o) as [h|]; [|done]. by exists h.
Qed.

Lemma step_orderly ts ts' : all_orderly ts -> step ts ts' -> all_orderly ts'.
Proof.
  unfold all_orderly. intros H Hs. inversion Hs as [? i h m l Hi|? i h m l Hi|? i h l h0 Hi]; subst.
  all: assert (orderly _) as Ho by (eapply Forall_lookup_1; [exact H|exact Hi]).
  all: destruct (orderly_step _ _ _ Ho eq_refl) as (h' & Hh & Ho').
  all: apply Forall_insert; [done|].
  - simpl in Hh. destruct (forallb _ _); [|done]. by simplify_eq.
  - simpl in Hh. rewrite bool_decide_true in Hh by done. by simplify_eq.
  - simpl in Hh. case_bool_decide; [|done]. by simplify_eq/=.
Qed.

(** Nobody waits for the worker. *)
Definition none_waits (ts : list thread) : Prop :=
  forall i t, ts !! i = Some t -> head (todo t) <> Some Join.

(** Every lock in front of the wanted one ranks below it. *)
Lemma wants_above t m l k :
  orderly t -> todo t = Acq m :: l -> k ∈ held t -> (rank k < rank m)%nat.
Proof.
  intros Ho E Hk. destruct (orderly_step _ _ _ Ho E) as (h & Hh & _). simpl in Hh.
  destruct (forallb _ (held t)) eqn:Hf; [|done]. rewrite forallb_forall in Hf.
  apply Nat.ltb_lt, Hf, list_elem_of_In, Hk.
Qed.

(** A thread that holds a lock is not done. *)
Lemma holder_busy t m : orderly t -> m ∈ held t -> todo t <> [].
Proof. unfold orderly. intros Ho Hm E. rewrite E in Ho. simpl in Ho. simplify_eq. by rewrite Ho in Hm; apply elem_of_nil in Hm. Qed.

(** ** Progress *)

Definition wants (ts : list thread) (m : mutex) : Prop :=
  exists i t l, ts !! i = Some t /\ todo t = Acq m :: l.

(** When nobody can move, whoever wants a lock finds somebody who wants a
    higher one. *)
Lemma blocked_climbs ts m :
  all_orderly ts -> none_waits ts -> (forall ts', ~ step ts ts') -> wants ts m ->
  exists m', wants ts m' /\ (rank m < rank m')%nat.
Proof.
  intros Ho Hnj Hstuck (i & t & l & Hi & Ht).
  destruct (decide (Exists (fun t => m ∈ held t) ts)) as [Hex|Hno].
  - apply Exists_exists in Hex as (u & Hu & Hm). apply list_elem_of_lookup in Hu as [j Hj].
    assert (orderly u) as Hou by (by eapply Forall_lookup_1).
    destruct (todo u) as [|o l'] eqn:Eu; [by destruct (holder_busy u m)|].
    destruct (orderly_step _ _ _ Hou Eu) as (h & Hh & _).
    destruct o as [m'|m'|].
    + exists m'. split; [by exists j, u, l'|]. by eapply wants_above.
    + exfalso. destruct u as [hu du]. simpl in *. subst du.
      destruct hu as [|h0 hu]; [done|]. case_bool_decide; [|done]. subst h0.
      by eapply Hstuck, step_rel.
    + exfalso. apply (Hnj j u Hj). by rewrite Eu.
  - exfalso. destruct t as [ht dt]. simpl in Ht. subst dt.
    eapply Hstuck, (step_acq ts i ht m l); [done|]. intros j u Hj Hm.
    apply Hno, Exists_exists. exists u. split; [by eapply list_elem_of_lookup_2|done].
Qed.

Lemma progress ts : all_orderly ts -> none_waits ts -> ~ stuck ts.
Proof.
  intros Ho Hnj [Hnf Hstuck].
  assert (exists m, wants ts m) as [m Hm].
  { apply not_Forall_Exists in Hnf; [|intros t; destruct (todo t); [by left|by right]].
    apply Exists_exists in Hnf as (t & Ht & Hb). apply list_elem_of_lookup in Ht as [i Hi].
    assert (orderly t) as Hot by (by eapply Forall_lookup_1).
    destruct (todo t) as [|o l] eqn:E; [done|].
    destruct (orderly_step _ _ _ Hot E) as (h & Hh & _).
    destruct o as [m|m|]; [by exists m, i, t, l| |by destruct (Hnj i t Hi); rewrite E].
    exfalso. destruct t as [ht dt]. simpl in *. subst dt. destruct ht as [|h0 ht]; [done|].
    case_bool_decide; [|done]. subst h0. by eapply Hstuck, step_rel. }
  assert (forall n m, wants ts m -> (rank m >= n)%nat -> False) as Hclimb.
  { intros n. remember (3 - n)%nat as d eqn:Hd. revert n Hd.
    induction d as [|d IH]; intros n Hd m' Hw Hr.
    - assert (rank m' <= 2)%nat by (destruct m'; simpl; lia). lia.
    - destruct (blocked_climbs ts m' Ho Hnj Hstuck Hw) as (m2 & Hw2 & Hr2).
      apply (IH (S n)) with (m := m2); [lia|done|lia]. }
  apply (Hclimb 0%nat m); [done|lia].
Qed.

(** What is left to do of a script was in it from the start. *)
Definition from_scripts (scripts : list (list lock_op)) (ts : list thread) : Prop :=
  Forall2 (fun s t => exists before, s = before ++ todo t) scripts ts.

Lemma step_from_scripts scripts ts ts' :
  from_scripts scripts ts -> step ts ts' -> from_scripts scripts ts'.
Proof.
  intros H Hs. inversion Hs as [? i h m l Hi|? i h m l Hi|? i h l h0 Hi]; subst.
  all: destruct (Forall2_lookup_r _ _ _ _ _ H Hi) as (s & Hsi & before & ->); simpl in Hsi.
  all: rewrite <- (list_insert_id scripts i _ Hsi); apply Forall2_insert; [done|].
  all: eexists (before ++ [_]); by rewrite <- app_assoc.
Qed.

(** A state that is stuck has a thread that waits for the worker, holding just
    [mLock], while the worker, thread 0, has not ended. *)
Lemma stuck_waits scripts ts :
  Forall disciplined scripts -> rtc step (start scripts) ts -> stuck ts ->
  exists i s l, scripts !! i = Some s /\ Join ∈ s /\ ts !! i = Some (Thread [mLock] (Join :: l)) /\
    forall h, ts !! 0%nat <> Some (Thread h []).
Proof.
  intros Hs Hr Hstuck.
  assert (all_orderly ts /\ from_scripts scripts ts) as [Ho Hf].
  { assert (all_orderly (start scripts)) as Ho by (unfold all_orderly, start; by apply Forall_fmap).
    assert (from_scripts scripts (start scripts)) as Hf.
    { unfold from_scripts, start. apply Forall2_fmap_r, Forall_Forall2_diag, Forall_true. intros s. by exists []. }
    clear Hs Hstuck. induction Hr as [|x y z Hxy _ IH]; [done|].
    apply IH; [by eapply step_orderly|by eapply step_from_scripts]. }
  destruct (decide (Exists (fun t => head (todo t) = Some Join) ts)) as [Hex|Hno].
  - apply Exists_exists in Hex as (t & Ht & Hj). apply list_elem_of_lookup in Ht as [i Hi].
    destruct t as [h [|o l]]; [done|]. simpl in Hj. injection Hj as ->.
    assert (orderly (Thread h (Join :: l))) as Hot by exact (Forall_lookup_1 _ _ _ _ Ho Hi).
    destruct (orderly_step _ _ _ Hot eq_refl) as (h' & Hh & _). simpl in Hh. case_bool_decide; [|done]. subst h.
    destruct (Forall2_lookup_r _ _ _ _ _ Hf Hi) as (s & Hsi & before & ->).
    exists i, (before ++ Join :: l), l. split; [done|]. split; [apply elem_of_app; right; by left|]. split; [done|].
    intros h0 H0. by eapply (proj2 Hstuck), step_join.
  - exfalso. eapply progress; [exact Ho| |exact Hstuck]. intros i t Hi Hj. apply Hno, Exists_exists.
    exists t. split; [by eapply list_elem_of_lookup_2|done].
Qed.
