(* ===== verification/UsbLocks.v ===== *)
(** * Lock discipline of the USB HAL

    A small logic for the lock scripts of programs, the discipline of every
    operation of the service, the only way in which operations can deadlock,
    and a deadlock of that kind. *)
From stdpp Require Import relations gmap.
From S2P Require Import Prelude CString Effects Aidl Platform Uevent I2cPath Sim DataSession DataSessionFacts PortQuery UsbHal SimUsb UsbFacts Locks.
Open Scope Z_scope.

Section logic.
Context {K : Type} `{!Oracle answer K} {S : Type}.

(** From the locks [h], the script of [m] follows the rules, ends with [post]
  of its result and does not wait for the worker; a crash leaves a lawful
  beginning of a script. *)
Definition locked (h : list mutex) {A} (m : prog K S A) (post : A -> list mutex) : Prop :=
forall w, wp m (fun a _ t => run_locks h (locks t) = Some (post a) /\ Join ∉ locks t)
  (fun _ t => is_Some (run_locks h (locks t))) w.

(** A part that gives up what it takes. *)
Definition balanced (h : list mutex) A (m : prog K S A) : Prop := locked h m (fun _ => h).

Lemma locked_bind h {A B} (h1 : A -> list mutex) (m : prog K S A) (f : A -> prog K S B) post :
locked h m h1 -> (forall a, locked (h1 a) (f a) post) -> locked h (m ≫= f) post.
Proof.
intros Hm Hf w. apply wp_bind. eapply wp_mono; [apply Hm| |done].
intros a w1 t1 [H1 J1]. eapply wp_mono; [apply Hf| |].
- intros b w2 t2 [H2 J2]. rewrite locks_app, run_locks_app, H1. split; [done|].
  by intros [H|H]%elem_of_app.
- intros x t2 H2. by rewrite locks_app, run_locks_app, H1.
Qed.

#[export] Instance balanced_compositional h : Compositional (balanced h).
Proof.
split.
- intros A a w. split; [done|apply not_elem_of_nil].
- intros A B m f Hm Hf. by eapply locked_bind.
- intros A f w. split; [done|apply not_elem_of_nil].
- intros A x w. by eexists.
Qed.

Lemma balanced_no_lock h A (m : prog K S A) : emits no_lock A m -> balanced h A m.
Proof.
intros H w. pose proof (emits_locks m w H) as E. unfold wp.
destruct (m w) as [a w1 t|x t]; simpl in E; rewrite E; [split; [done|apply not_elem_of_nil]|by eexists].
Qed.

Lemma locked_call h q post :
(forall r, run_locks h (lock_of (Ev q r)) = Some (post r)) -> q <> ThreadJoin ->
locked h (call q) post.
Proof.
intros H Hq w. apply wp_call. intros r k _. rewrite locks_cons, app_nil_r. split; [apply H|].
destruct q; try done; simpl; try case_match; try (intros Hj; set_solver).
Qed.

Lemma locked_lock h m h' :
step_lock h (Acq m) = Some h' -> locked h (call (MutexLock m)) (fun _ => h').
Proof. intros H. apply locked_call; [|done]. intros r. simpl in *. by rewrite H. Qed.

Lemma locked_unlock h m : locked (m :: h) (call (MutexUnlock m)) (fun _ => h).
Proof. apply locked_call; [|done]. intros r. simpl. by rewrite bool_decide_true. Qed.

Lemma locked_bind_lock h h' m {B} (f : unit -> prog K S B) post :
step_lock h (Acq m) = Some h' -> locked h' (f tt) post ->
locked h (call (MutexLock m) ≫= f) post.
Proof. intros H Hf. eapply locked_bind; [by apply locked_lock|]. by intros []. Qed.

Lemma locked_bind_unlock h m {B} (f : unit -> prog K S B) post :
locked h (f tt) post -> locked (m :: h) (call (MutexUnlock m) ≫= f) post.
Proof. intros Hf. eapply locked_bind; [apply locked_unlock|]. by intros []. Qed.

Lemma locked_bind_balanced h {A B} (m : prog K S A) (f : A -> prog K S B) post :
balanced h A m -> (forall a, locked h (f a) post) -> locked h (m ≫= f) post.
Proof. intros Hm Hf. by eapply locked_bind. Qed.

Lemma locked_trylock m :
locked [] (call (MutexTrylock m)) (fun ok : bool => if ok then [m] else []).
Proof. exact (locked_call [] (MutexTrylock m) (fun ok : bool => if ok then [m] else []) (fun ok : bool => ltac:(by destruct ok)) ltac:(done)). Qed.

Lemma locked_ret h {A} (a : A) post : post a = h -> locked h (mret a) post.
Proof. intros <- w. split; [done|apply not_elem_of_nil]. Qed.
End logic.

(** Waiting on the condition gives [mPartnerLock] up and takes it back. *)
Lemma balanced_wait {K} `{!Oracle answer K} {S} sec nsec :
  balanced (K:=K) (S:=S) [mPartnerLock; mRoleSwitchLock] _ (call (CondTimedwait sec nsec)).
Proof. by apply locked_call. Qed.

Ltac locks_step :=
  match goal with
  | |- forall _, _ => intro
  | |- locked _ (mbind _ (call (MutexLock _))) _ => apply locked_bind_lock with (1 := eq_refl)
  | |- locked _ (mbind _ (call (MutexUnlock _))) _ => apply locked_bind_unlock
  | |- locked _ (mbind _ _) _ => apply locked_bind_balanced
  | |- locked _ (mret _) _ => by apply locked_ret
  | |- locked _ (call (MutexUnlock _)) _ => apply locked_unlock
  | |- locked _ (match ?x with _ => _ end) _ => innermost x
  | |- balanced _ _ (call (MutexUnlock _)) => fail 1
  | |- balanced _ _ (call (CondTimedwait _ _)) => apply balanced_wait
  | |- balanced _ _ (mbind _ (call (MutexLock _))) => unfold balanced; apply locked_bind_lock with (1 := eq_refl)
  | |- balanced _ _ (call _) => by apply balanced_no_lock; walk
  | |- balanced _ _ (modify _) => by apply balanced_no_lock; walk
  | |- balanced _ _ (mmod _) => by apply balanced_no_lock; walk
  | |- balanced _ _ (match ?x with _ => _ end) => innermost x
  | |- balanced _ _ _ => walk_step
  end.
Ltac locks_walk := repeat locks_step.

Section operations.
Context {PLAT : Platform} {K : Type} `{!Oracle answer K}.

Lemma inert_balanced h A (m : prog K Usb A) : emits inert A m -> balanced h A m.
Proof. intros H. apply balanced_no_lock. eapply emits_mono; [|exact H]. by intros [[] r]. Qed.
#[local] Hint Resolve inert_balanced : comp.

Lemma notify_balanced h c : balanced h _ (notify (K:=K) c).
Proof. unfold notify. locks_walk. Qed.
#[local] Hint Resolve notify_balanced : comp.

Lemma notify_locked_balanced c : balanced [] _ (notify_locked (K:=K) c).
Proof. unfold notify_locked. locks_walk. Qed.

Lemma query_balanced cps : balanced [] _ (queryVersionHelper (K:=K) cps).
Proof. unfold queryVersionHelper. locks_walk. Qed.
#[local] Hint Resolve notify_locked_balanced query_balanced : comp.

Lemma updatePortStatus_balanced : balanced [] _ (updatePortStatus (K:=K)).
Proof. unfold updatePortStatus. locks_walk. Qed.

Lemma enableUsbData_balanced p e i : balanced [] _ (enableUsbData (K:=K) p e i).
Proof. unfold enableUsbData. locks_walk. Qed.
Lemma docked_balanced p i : balanced [] _ (enableUsbDataWhileDocked (K:=K) p i).
Proof. unfold enableUsbDataWhileDocked. locks_walk. Qed.
Lemma resetUsbPort_balanced p i : balanced [] _ (resetUsbPort (K:=K) p i).
Proof. unfold resetUsbPort. locks_walk. Qed.
Lemma queryPortStatus_balanced i : balanced [] _ (queryPortStatus (K:=K) i).
Proof. unfold queryPortStatus. locks_walk. Qed.
Lemma contaminant_balanced p e i : balanced [] _ (enableContaminantPresenceDetection (K:=K) p e i).
Proof. unfold enableContaminantPresenceDetection. locks_walk. Qed.
Lemma limitPowerTransfer_balanced p l i : balanced [] _ (limitPowerTransfer (K:=K) p l i).
Proof. unfold limitPowerTransfer. locks_walk. Qed.

Lemma switchToDrp_balanced h p : balanced h _ (switchToDrp (K:=K) p).
Proof. unfold switchToDrp. locks_walk. Qed.
Lemma wait_again_balanced fuel : balanced [mPartnerLock; mRoleSwitchLock] _ (wait_again (K:=K) fuel).
Proof. induction fuel as [|fuel IH]; simpl; locks_walk. Qed.
#[local] Hint Resolve switchToDrp_balanced wait_again_balanced : comp.
Lemma switchMode_balanced fuel p r : balanced [mRoleSwitchLock] _ (switchMode (K:=K) fuel p r).
Proof. unfold switchMode. locks_walk. Qed.
#[local] Hint Resolve switchMode_balanced : comp.
Lemma switchRole_balanced fuel p r i : balanced [] _ (switchRole (K:=K) fuel p r i).
Proof. unfold switchRole, notify_locked. locks_walk. Qed.

Lemma overheat_balanced : balanced [] _ (report_overheat_event (K:=K)).
Proof. unfold report_overheat_event, read_stat. locks_walk. Qed.
#[local] Hint Resolve overheat_balanced : comp.

Lemma uevent_string_balanced cp : balanced [] _ (uevent_string (K:=K) cp).
Proof.
unfold uevent_string. destruct (regex_match _ _); [locks_walk|].
destruct (is_port_uevent cp); [|locks_walk].
apply (comp_closed_bind (P:=balanced [])); [apply query_balanced|]. intros cps.
eapply locked_bind; [apply locked_trylock|]. intros ok.
apply locked_bind with (fun _ => []); [|intros []; locks_walk].
destruct ok; unfold when; [|locks_walk].
apply locked_bind_balanced; [locks_walk|]. intros []. apply locked_unlock.
Qed.
#[local] Hint Resolve uevent_string_balanced : comp.
Lemma uevent_event_balanced fd : balanced [] _ (uevent_event (K:=K) fd).
Proof. unfold uevent_event. locks_walk. apply comp_closed_uevent_loop; [apply _|]. apply uevent_string_balanced. Qed.

Lemma work_loop_balanced fd ws : balanced [] _ (work_loop (K:=K) fd ws).
Proof.
induction ws as [|[n|sig|] ws IH]; cbn [work_loop]; unfold sighandler; locks_walk. all: apply uevent_event_balanced.
Qed.
#[local] Hint Resolve work_loop_balanced : comp.
Lemma work_balanced ws : balanced [] _ (work (K:=K) ws).
Proof. unfold work. locks_walk. Qed.

(** Registering a callback does not wait; unregistering does, with [mLock] held. *)
Lemma register_balanced who : balanced [] _ (setCallback (K:=K) (Some who)).
Proof. unfold setCallback. locks_walk. Qed.
Lemma unregister_disciplined w :
wp (setCallback (K:=K) None) (fun _ _ t => disciplined (locks t))
  (fun _ t => is_Some (run_locks [] (locks t))) w.
Proof. unfold setCallback. wp_run; by read_trace. Qed.

(** The monitor thread takes locks only inside the service's callback. *)
Lemma evaluate_balanced : balanced [] _ (evaluateComplianceWarning (K:=K) (Some updatePortStatus)).
Proof.
unfold evaluateComplianceWarning, notifyComplianceWarning, now. locks_walk.
apply updatePortStatus_balanced.
Qed.
#[local] Hint Resolve evaluate_balanced : comp.

Lemma no_locks_here h A (m : prog K Usb A) : emits no_lock A m -> balanced h A m.
Proof. apply balanced_no_lock. Qed.
Lemma report_no_lock : emits no_lock _ (reportUsbDataSessionMetrics (K:=K) (S:=Usb)).
Proof. unfold reportUsbDataSessionMetrics, now. by walk. Qed.
Lemma setupNewSession_no_lock : emits no_lock _ (setupNewSession (K:=K) (S:=Usb)).
Proof. unfold setupNewSession, clearDeviceStateEvents, now. by walk. Qed.
Lemma addEpollFile_no_lock p r : emits no_lock _ (addEpollFile (K:=K) (S:=Usb) p r).
Proof. unfold addEpollFile, move_fd. by walk. Qed.
Lemma removeEpollFile_no_lock p r : emits no_lock _ (removeEpollFile (K:=K) (S:=Usb) p r).
Proof. unfold removeEpollFile. by walk. Qed.
#[local] Hint Resolve report_no_lock setupNewSession_no_lock addEpollFile_no_lock removeEpollFile_no_lock : comp.
#[local] Hint Resolve no_locks_here : comp.

Lemma updateUdc_balanced d : balanced [] _ (updateUdcBindStatus (K:=K) (Some updatePortStatus) d).
Proof. unfold updateUdcBindStatus. locks_walk. Qed.
#[local] Hint Resolve updateUdc_balanced : comp.
Lemma monitor_uevent_balanced : balanced [] _ (handleUevent (K:=K) (Some updatePortStatus)).
Proof.
unfold handleUevent. locks_walk. apply comp_closed_uevent_loop; [apply _|].
unfold handleUevent_string. locks_walk.
Qed.
Lemma monitor_timer_balanced : balanced [] _ (handleTimerEvent (K:=K) (Some updatePortStatus)).
Proof. unfold handleTimerEvent. locks_walk. Qed.
Lemma monitor_role_balanced : balanced [] _ (handleDataRoleEvent (K:=K) (S:=Usb)).
Proof. unfold handleDataRoleEvent. locks_walk. Qed.
Lemma monitor_state_balanced d :
balanced [] _ (handleDeviceStateEvent (K:=K) (Some updatePortStatus) d).
Proof. unfold handleDeviceStateEvent, now. locks_walk. Qed.
#[local] Hint Resolve monitor_uevent_balanced monitor_timer_balanced monitor_role_balanced
monitor_state_balanced : comp.
Lemma monitorThread_balanced ws : balanced [] _ (monitorThread (K:=K) (Some updatePortStatus) ws).
Proof. induction ws as [|[fds| |] ws IH]; simpl; unfold dispatch; locks_walk. Qed.
End operations.

(** ** The operations, together *)

(** Everything the threads of the service run: the binder calls, the worker
    thread and each uevent it handles, and the monitor thread. *)
Inductive operation :=
| EnableUsbData (portName : string) (enable : bool) (id : Z)
| EnableUsbDataWhileDocked (portName : string) (id : Z)
| ResetUsbPort (portName : string) (id : Z)
| SwitchRole (fuel : nat) (portName : string) (role : PortRole.t) (id : Z)
| LimitPowerTransfer (portName : string) (limit : bool) (id : Z)
| QueryPortStatus (id : Z)
| EnableContaminantPresenceDetection (portName : string) (enable : bool) (id : Z)
| SetCallback (callback : option Z)
| Uevent (fd : Z)
| Worker (ws : list worker_wakeup)
| Monitor (ws : list wakeup).

Definition perform {PLAT : Platform} {K} `{!Oracle answer K} (o : operation) : prog K Usb unit :=
  match o with
  | EnableUsbData p e i => enableUsbData p e i
  | EnableUsbDataWhileDocked p i => enableUsbDataWhileDocked p i
  | ResetUsbPort p i => resetUsbPort p i
  | SwitchRole fuel p r i => switchRole fuel p r i
  | LimitPowerTransfer p l i => limitPowerTransfer p l i
  | QueryPortStatus i => queryPortStatus i
  | EnableContaminantPresenceDetection p e i => enableContaminantPresenceDetection p e i
  | SetCallback cb => setCallback cb
  | Uevent fd => uevent_event fd
  | Worker ws => work ws
  | Monitor ws => monitorThread (Some updatePortStatus) ws
  end.

Section deadlock.
Context {PLAT : Platform} {K : Type} `{!Oracle answer K}.

Lemma perform_balanced (o : operation) :
o <> SetCallback None -> balanced [] _ (perform (K:=K) o).
Proof.
destruct o as [| | | | | | |[who|]| | |]; intros Ho; try done;
  [apply enableUsbData_balanced | apply docked_balanced | apply resetUsbPort_balanced
  | apply switchRole_balanced | apply limitPowerTransfer_balanced | apply queryPortStatus_balanced
  | apply contaminant_balanced | apply register_balanced | apply uevent_event_balanced
  | apply work_balanced | apply monitorThread_balanced].
Qed.

Lemma perform_disciplined (o : operation) w :
wp (perform (K:=K) o)
  (fun _ _ t => disciplined (locks t) /\ (Join ∈ locks t -> o = SetCallback None))
  (fun _ t => is_Some (run_locks [] (locks t))) w.
Proof.
assert (o = SetCallback None \/ o <> SetCallback None) as [->|Ho]
  by (destruct o as [| | | | | | |[]| | |]; (by left) || by right).
- eapply wp_mono; [apply unregister_disciplined| |done]. by intros.
- eapply wp_mono; [by apply perform_balanced| |done]. by intros a w' t [H J].
Qed.

(** C24: Every operation of the service - the binder calls, the worker thread
  and the handling of each of its uevents, and the monitor thread with its
  callback into the service - takes the locks in the order [mRoleSwitchLock],
  [mPartnerLock], [mLock], releases them in nested fashion, and ends with none
  held; where it crashes instead, it has followed that order up to there.  No
  operation waits for the worker thread to end but the unregistration of the
  callback, and that one waits holding [mLock] and nothing else. *)
Theorem operations_follow_lock_order (o : operation) w :
wp (perform (K:=K) o)
  (fun _ _ t => disciplined (locks t) /\ (Join ∈ locks t -> o = SetCallback None))
  (fun _ t => is_Some (run_locks [] (locks t))) w.
Proof. apply perform_disciplined. Qed.

(** The lock script of one run of an operation. *)
Definition script_of (o : operation) (s : list lock_op) : Prop :=
exists w a w' t, perform (K:=K) o w = Done a w' t /\ s = locks t.

Lemma script_disciplined o s :
script_of o s -> disciplined s /\ (Join ∈ s -> o = SetCallback None).
Proof.
intros (w & a & w' & t & E & ->).
exact (wp_done _ _ _ _ _ _ _ (perform_disciplined o w) E).
Qed.

(** C3: Any number of runs of operations of the service, unregistrations
  included, interleaved in any way the locks allow: the only way for them to
  get stuck is that an unregistration of the callback, holding just [mLock],
  waits for the worker thread, thread 0, and the worker has not ended.  In
  particular the service does not deadlock as long as no callback is
  unregistered. *)
Theorem operations_deadlock_only_unregistering ops scripts ts :
Forall2 script_of ops scripts -> rtc step (start scripts) ts -> stuck ts ->
exists i l, ops !! i = Some (SetCallback None) /\ ts !! i = Some (Thread [mLock] (Join :: l)) /\
  forall h, ts !! 0%nat <> Some (Thread h []).
Proof.
intros Hs Hr Hstuck.
destruct (stuck_waits scripts ts) as (i & s & l & Hi & Hj & Ht & H0); [|done..|].
- apply Forall_lookup_2. intros i s Hi. destruct (Forall2_lookup_r _ _ _ _ _ Hs Hi) as (o & _ & Ho).
  by apply script_disciplined in Ho as [Ho _].
- exists i, l. split; [|done]. destruct (Forall2_lookup_r _ _ _ _ _ Hs Hi) as (o & Hoi & Ho).
  apply script_disciplined in Ho as [_ Ho]. by rewrite (Ho Hj) in Hoi.
Qed.

(** The worker waits for the lock of the thread that waits for the worker. *)
Lemma worker_behind_join_stuck l :
stuck [Thread [] (Acq mLock :: l); Thread [mLock] [Join; Rel mLock]].
Proof.
split.
- intros H. by apply Forall_cons_1 in H as [H _].
- intros ts' Hs. inversion Hs as [? i h m l0 Hi Hfree|? i h m l0 Hi|? i h l0 h0 Hi H0]; subst.
  + destruct i as [|[|i]]; simplify_eq/=. apply (Hfree 1%nat _ eq_refl). by left.
  + by destruct i as [|[|i]]; simplify_eq/=.
  + by destruct i as [|[|i]]; simplify_eq/=.
Qed.
Lemma worker_behind_join_reached l :
rtc step (start [Acq mLock :: l; [Acq mLock; Join; Rel mLock]])
  [Thread [] (Acq mLock :: l); Thread [mLock] [Join; Rel mLock]].
Proof.
apply rtc_once.
apply (step_acq (start [Acq mLock :: l; [Acq mLock; Join; Rel mLock]]) 1 [] mLock); [done|].
intros [|[|j]] t [= <-]; apply not_elem_of_nil.
Qed.

(** C16: Unregistering the callback can deadlock: [setCallback(NULL)] waits
  for the worker thread to end while it holds [mLock], and a worker that is
  about to query the ports waits for [mLock]. *)
Theorem unregister_can_deadlock who fd w1 w1' t1 w2 w2' t2 l :
mCallback (self w1) = Some who -> (forall k, (ask ThreadKill k).1 = true) ->
setCallback (K:=K) None w1 = Done tt w1' t1 ->
uevent_event (K:=K) fd w2 = Done tt w2' t2 -> locks t2 = Acq mLock :: l ->
exists ts, rtc step (start [locks t2; locks t1]) ts /\ stuck ts.
Proof.
intros Hcb Hkill H1 _ ->.
assert (locks t1 = [Acq mLock; Join; Rel mLock]) as ->.
{ revert H1. apply (wp_done _ (fun _ _ t => locks t = _) (fun _ _ => True)).
  unfold setCallback. wp_run; try (by read_trace); try congruence.
  match goal with E : ask ThreadKill ?k = _ |- _ => specialize (Hkill k); simpl in *; by rewrite E in Hkill end. }
eexists. split; [apply worker_behind_join_reached|apply worker_behind_join_stuck].
Qed.
End deadlock.

(** ** Witnesses *)

Definition typec_uevent : string := "change@/devices/port0" +:+ String NUL "DEVTYPE=typec_port".
Definition registered : world sim Usb := World (phone_with [] [typec_uevent] []) (service (Some 1) true).
Definition worker_run := uevent_event (K:=sim) 4 registered.
Definition unregister_run := setCallback (K:=sim) None registered.
Lemma worker_run_done : exists a w, worker_run = Done a w (trace_of worker_run).
Proof. apply is_done_Done. vm_compute. reflexivity. Qed.
Lemma unregister_run_done : exists a w, unregister_run = Done a w (trace_of unregister_run).
Proof. apply is_done_Done. vm_compute. reflexivity. Qed.

Lemma worker_run_script :
  script_of (K:=sim) (Uevent 4) [Acq mLock; Rel mLock; Acq mRoleSwitchLock; Rel mRoleSwitchLock].
Proof.
  destruct worker_run_done as ([] & w & E). exists registered, tt, w, (trace_of worker_run).
  split; [exact E|]. vm_compute. reflexivity.
Qed.
Lemma unregister_run_script : script_of (K:=sim) (SetCallback None) [Acq mLock; Join; Rel mLock].
Proof.
  destruct unregister_run_done as ([] & w & E). exists registered, tt, w, (trace_of unregister_run).
  split; [exact E|]. vm_compute. reflexivity.
Qed.

Lemma operations_deadlock_only_unregistering_witness :
  let ts := [Thread [] [Acq mLock; Rel mLock; Acq mRoleSwitchLock; Rel mRoleSwitchLock];
             Thread [mLock] [Join; Rel mLock]] in
  exists i l, [Uevent 4; SetCallback None] !! i = Some (SetCallback None) /\
    ts !! i = Some (Thread [mLock] (Join :: l)) /\
    forall h, ts !! 0%nat <> Some (Thread h []).
Proof.
  apply (operations_deadlock_only_unregistering (PLAT:=sim_platform) (K:=sim)
    [Uevent 4; SetCallback None]
    [[Acq mLock; Rel mLock; Acq mRoleSwitchLock; Rel mRoleSwitchLock]; [Acq mLock; Join; Rel mLock]]).
  - apply Forall2_cons_2; [exact worker_run_script|].
    apply Forall2_cons_2; [exact unregister_run_script|apply Forall2_nil_2].
  - apply worker_behind_join_reached.
  - apply worker_behind_join_stuck.
Defined.

Lemma unregister_can_deadlock_witness :
  exists ts, rtc step (start [locks (trace_of worker_run); locks (trace_of unregister_run)]) ts /\ stuck ts.
Proof.
  destruct worker_run_done as ([] & w2 & E2), unregister_run_done as ([] & w1 & E1).
  refine (unregister_can_deadlock (PLAT:=sim_platform) (K:=sim) 1 4 registered w1 _ registered w2 _
    [Rel mLock; Acq mRoleSwitchLock; Rel mRoleSwitchLock] eq_refl (fun _ => eq_refl) E1 E2 _).
  vm_compute. reflexivity.
Defined.
