(* ===== verification/PortFacts.v ===== *)
(** * The port status queries: specifications of the parts

    Under a sysfs that shows what the kernel documents ([SaneSysfs]) the
    queries do not fail, and these are their results. *)
From S2P Require Import Prelude CString Effects Aidl Platform I2cPath DataSession PortQuery UsbHal UsbFacts.
Open Scope Z_scope.

(** The role nodes show roles of their own kind, and the pogo node a number. *)
Class SaneSysfs {PLAT : Platform} K `{!Oracle answer K} : Prop := {
  sane_power name k s :
    (ask (ReadFileToString ("/sys/class/typec/" +:+ name +:+ "/power_role")) k).1 = Some s ->
    extractRole (Trim s) ∉ ["host"; "device"];
  sane_data name k s :
    (ask (ReadFileToString ("/sys/class/typec/" +:+ name +:+ "/data_role")) k).1 = Some s ->
    extractRole (Trim s) ∉ ["source"; "sink"];
  sane_pogo k s :
    (ask (ReadFileToString kPogoUsbActive) k).1 = Some s -> is_Some (stoi (Trim s));
}.

(** The role [getCurrentRoleHelper] starts from. *)
Definition no_role (t : PortRole.Tag) : PortRole.t :=
  match t with
  | PortRole.TpowerRole => PortRole.powerRole PortPowerRole.NONE
  | PortRole.TdataRole => PortRole.dataRole PortDataRole.NONE
  | PortRole.Tmode => PortRole.mode PortMode.NONE
  end.

Lemma set_role_by_name_tag n r :
  match PortRole.getTag r with
  | PortRole.TpowerRole => n ∉ ["host"; "device"]
  | _ => n ∉ ["source"; "sink"]
  end ->
  PortRole.getTag (set_role_by_name n r).2 = PortRole.getTag r.
Proof.
  intros H. unfold set_role_by_name.
  repeat match goal with |- context [streq n ?x] =>
    let E := fresh in destruct (streq n x) eqn:E; [apply streq_true in E; subst n|clear E] end;
  destruct r; simpl in *; try done; exfalso; apply H; set_solver.
Qed.

(** The data status of a port. *)
Definition data_status (docked enabled : bool) : list UsbDataStatus.t :=
  (if docked then [UsbDataStatus.DISABLED_DOCK] else []) ++
  (if enabled then [] else [UsbDataStatus.DISABLED_FORCE]) ++
  (if negb docked && enabled then [UsbDataStatus.ENABLED] else []).

(** What the answer of the pogo node, and of a partner's power delivery node, means. *)
Definition says_docked {PLAT : Platform} (r : option string) : bool :=
  match r with Some s => bool_decide (stoi (Trim s) = Some 1) | None => false end.
Definition says_yes {PLAT : Platform} (r : option string) : bool :=
  match r with Some s => streq (Trim s) "yes" | None => false end.
Definition pd_node (name : string) : string :=
  "/sys/class/typec/" +:+ name +:+ "-partner/supports_usb_power_delivery".

(** What a query found out about a port, [t] being the interactions of the
    query about that port: the data status follows the pogo node, which is
    read once, and the flag [enabled]; the two role changes follow the two
    reads of the partner's power delivery node. *)
Definition data_report {PLAT : Platform} (enabled : bool) (t : trace) (before : list UsbDataStatus.t)
    (p : PortStatus) : Prop :=
  exists r, file_reads kPogoUsbActive t = [r] /\
    usbDataStatus p = before ++ data_status (says_docked r) enabled.
Definition change_report {PLAT : Platform} (port : string * bool) (t : trace) (p : PortStatus) : Prop :=
  if port.2 then
    exists r1 r2, file_reads (pd_node port.1) t = [r1; r2] /\
      canChangeDataRole p = says_yes r1 /\ canChangePowerRole p = says_yes r2
  else canChangeDataRole p = false /\ canChangePowerRole p = false.

(** What the report says of a port, whatever its roles are. *)
Definition port_report {PLAT : Platform} (enabled : bool) (port : string * bool) (t : trace)
    (p : PortStatus) : Prop :=
  portName p = port.1 /\ canChangeMode p = true /\ supportedModes p = [PortMode.DRP] /\
  change_report port t p /\ data_report enabled t [] p.

(** The part of a status that is settled once the port is filled in. *)
Definition stable (p : PortStatus) :=
  (portName p, canChangeMode p, canChangeDataRole p, canChangePowerRole p, supportedModes p,
   usbDataStatus p).

Lemma port_report_stable {PLAT : Platform} en port t p p' :
  stable p' = stable p -> port_report en port t p -> port_report en port t p'.
Proof. unfold port_report, change_report, data_report. intros [= -> -> -> -> -> ->]. done. Qed.

(** A computation that reads neither of the two nodes. *)
Definition other_reads (name : string) (e : event answer) : Prop :=
  read_of kPogoUsbActive e = None /\ read_of (pd_node name) e = None.
Lemma other_reads_none name (t : trace) :
  Forall (other_reads name) t -> file_reads kPogoUsbActive t = [] /\ file_reads (pd_node name) t = [].
Proof.
  intros H. split; apply omap_none; eapply Forall_impl; try exact H; by intros e [H1 H2].
Qed.
Lemma read_of_same p r : read_of p (Ev (ReadFileToString p) r) = Some r.
Proof. simpl. by rewrite bool_decide_true. Qed.
Lemma read_of_other p q r : q <> p -> read_of p (Ev (ReadFileToString q) r) = None.
Proof. intros H. simpl. by rewrite bool_decide_false. Qed.
Lemma other_path name p r :
  p <> kPogoUsbActive -> p <> pd_node name -> other_reads name (Ev (ReadFileToString p) r).
Proof. intros H1 H2. by split; apply read_of_other. Qed.

Section specs.
Context {PLAT : Platform} {K : Type} `{!Oracle answer K} `{!SaneSysfs K}.
Implicit Types w : world K Usb.

Lemma getCurrentRole_spec name c r w :
wp (getCurrentRoleHelper name c r) (fun x w' t =>
  self w' = self w /\ PortRole.getTag x.2 = PortRole.getTag r /\
  (c = false -> x = (Status.SUCCESS, no_role (PortRole.getTag r)))) (fun _ _ => False) w.
Proof.
unfold getCurrentRoleHelper, getAccessoryConnected.
destruct r as [r|r|r], c; simpl; wp_run; try done.
all: split_and!; try done.
all: match goal with E : ask (ReadFileToString _) ?k = (Some _, _) |- _ =>
  apply (f_equal fst) in E; simpl in E end.
all: try apply set_role_by_name_tag; simpl; eauto using sane_power, sane_data.
Qed.

(** Reading one role: it is stored, unless the read failed. *)
Lemma query_role_spec {A} port r (get : PortRole.t -> option A) set p a0 w :
(forall x, PortRole.getTag x = PortRole.getTag r -> is_Some (get x)) ->
get (no_role (PortRole.getTag r)) = Some a0 ->
wp (query_role port r get set p) (fun x w' t =>
  self w' = self w /\
  if x.1 then exists a, x.2 = set a p /\ (port.2 = false -> a = a0) else x.2 = p)
  (fun _ _ => False) w.
Proof.
intros Hget H0. unfold query_role. apply wp_bind.
eapply wp_mono; [apply getCurrentRole_spec| |done]. intros [st role] w' t (Hs & Htag & Hc).
wp_run.
- split; [done|]. exists a. split; [done|]. intros Hp. apply Hc in Hp. injection Hp as -> ->. congruence.
- destruct (Hget _ Htag) as [a Ha]. simpl in Ha. congruence.
- done.
Qed.

Lemma query_data_status_spec p w :
wp (query_data_status p) (fun p' w' t => self w' = self w /\ exists r,
  t = [Ev (ReadFileToString kPogoUsbActive) r] /\
  p' = set_usbDataStatus (usbDataStatus p ++ data_status (says_docked r) (mUsbDataEnabled (self w))) p)
  (fun _ _ => False) w.
Proof.
unfold query_data_status, says_docked. wp_run.
all: try (apply (f_equal fst) in Hask; simpl in Hask; apply sane_pogo in Hask as [n Hn]; congruence).
all: split; [done|]; eexists; split; [done|]; simpl.
all: try match goal with H : stoi _ = Some ?z |- _ => rewrite H; destruct (Z.eqb_spec z 1) end.
all: rewrite ?bool_decide_true by congruence; rewrite ?bool_decide_false by congruence.
all: destruct (mUsbDataEnabled (self w)); simpl; try done.
all: destruct p; simpl; by rewrite <- ?app_assoc, ?app_nil_r.
Qed.

Lemma query_power_brick_spec c p w :
wp (query_power_brick c p) (fun p' w' t => self w' = self w /\
  exists b, p' = set_powerBrickStatus b p /\ (c = false -> b = PowerBrickStatus.NOT_CONNECTED))
  (fun _ _ => False) w.
Proof.
unfold query_power_brick. wp_run.
all: split; [done|]; try (eexists; split; [reflexivity|done]).
exists (powerBrickStatus p). split; [by destruct p|done].
Qed.

(** The other parts of a port's status read other nodes. *)
#[local] Ltac other_nodes :=
intros; unfold other_reads; apply other_path; [discriminate|];
unfold pd_node; first [discriminate | let E := fresh in intros E; simplify_eq/=].
Lemma query_role_reads {A} port r (get : PortRole.t -> option A) set p :
emits (K:=K) (other_reads port.1) _ (query_role port r get set p).
Proof. unfold query_role, getCurrentRoleHelper, getAccessoryConnected. walk. all: other_nodes. Qed.
Lemma query_power_brick_reads name c p : emits (K:=K) (other_reads name) _ (query_power_brick c p).
Proof. unfold query_power_brick. walk. all: other_nodes. Qed.

Lemma canSwitchRole_spec (port : string * bool) w :
wp (if port.2 then canSwitchRoleHelper port.1 else mret false) (fun b w' t => self w' = self w /\
  if port.2 then exists r, t = [Ev (ReadFileToString (pd_node port.1)) r] /\ b = says_yes r
  else t = [] /\ b = false) (fun _ _ => False) w.
Proof.
unfold canSwitchRoleHelper. destruct port.2; wp_run; split; try done; by eexists.
Qed.

(** One port: its report, and the roles of a port without a partner. *)
Definition filled (en : bool) (port : string * bool) (t : trace) (p p' : PortStatus) : Prop :=
portName p' = port.1 /\ canChangeMode p' = true /\
supportedModes p' = supportedModes p ++ [PortMode.DRP] /\
change_report port t p' /\ data_report en t (usbDataStatus p) p' /\
(port.2 = false -> currentPowerRole p' = PortPowerRole.NONE /\
   currentDataRole p' = PortDataRole.NONE /\ currentMode p' = PortMode.NONE /\
   powerBrickStatus p' = PowerBrickStatus.NOT_CONNECTED).

Lemma get_powerRole_tag x : PortRole.getTag x = PortRole.TpowerRole -> is_Some (PortRole.get_powerRole x).
Proof. destruct x; simpl; [by eexists|done..]. Qed.
Lemma get_dataRole_tag x : PortRole.getTag x = PortRole.TdataRole -> is_Some (PortRole.get_dataRole x).
Proof. destruct x; simpl; [done|by eexists|done]. Qed.
Lemma get_mode_tag x : PortRole.getTag x = PortRole.Tmode -> is_Some (PortRole.get_mode x).
Proof. destruct x; simpl; [done..|by eexists]. Qed.

#[local] Ltac next_role H :=
apply wp_bind; eapply wp_mono;
  [eapply wp_emits; [apply query_role_reads|apply query_role_spec; [H|reflexivity]]| |by intros ? ? []];
intros [[] ?] [? ?] ?; simpl; intros (?%other_reads_none & -> & ?); [|by wp_run; crush].

Lemma fill_port_spec port p w :
wp (fill_port port p) (fun x w' t => self w' = self w /\
  (x.1 = true -> filled (mUsbDataEnabled (self w)) port t p x.2)) (fun _ _ => False) w.
Proof.
unfold fill_port.
next_role ltac:(exact get_powerRole_tag). next_role ltac:(exact get_dataRole_tag).
next_role ltac:(exact get_mode_tag).
destruct H as [Hp1 Hq1], H1 as [Hp2 Hq2], H3 as [Hp3 Hq3].
destruct H0 as (pw & -> & Hpw), H2 as (dr & -> & Hdr), H4 as (md & -> & Hmd).
apply wp_bind. eapply wp_mono; [apply canSwitchRole_spec| |done]. intros c1 [k1 s1] tc1 [Hs1 Hc1]. simpl.
apply wp_bind. eapply wp_mono; [apply canSwitchRole_spec| |done]. intros c2 [k2 s2] tc2 [Hs2 Hc2]. simpl.
apply wp_bind. eapply wp_mono; [apply query_data_status_spec| |done].
intros p3 w3 tc3 (Hs3 & r & -> & ->). apply wp_bind.
eapply wp_mono; [eapply wp_emits; [apply (query_power_brick_reads port.1)|apply query_power_brick_spec]| |by intros ? ? []].
intros p4 w4 tc4 ([Hp4 Hq4]%other_reads_none & Hs4 & b & -> & Hb).
simpl in Hs1, Hs2, Hs3. subst s2 s1.
wp_run. split; [congruence|]. intros _. unfold filled, change_report, data_report. simpl.
split_and!; try done.
- destruct port.2; [|by destruct Hc1 as [_ ->], Hc2 as [_ ->]].
  destruct Hc1 as (r1 & -> & ->), Hc2 as (r2 & -> & ->). exists r1, r2. split; [|done].
  repeat rewrite ?file_reads_app, ?file_reads_cons. rewrite Hq1, Hq2, Hq3, Hq4.
  rewrite !read_of_same. by rewrite read_of_other.
- exists r. split; [|done].
  repeat rewrite ?file_reads_app, ?file_reads_cons. rewrite Hp1, Hp2, Hp3, Hp4, read_of_same.
  assert (file_reads kPogoUsbActive tc1 = [] /\ file_reads kPogoUsbActive tc2 = []) as [-> ->]; [|done].
  destruct port.2; [|by destruct Hc1 as [-> _], Hc2 as [-> _]].
  by destruct Hc1 as (? & -> & _), Hc2 as (? & -> & _).
- intros Hp. rewrite Hpw, Hdr, Hmd, Hb by done. done.
Qed.

Lemma fill_ports_spec names pre d w :
wp (fill_ports (length pre) names (pre ++ replicate (length names) d)) (fun x w' t =>
  self w' = self w /\ length x.2 = (length pre + length names)%nat /\
  (x.1 = Status.SUCCESS -> exists ps chunks, x.2 = pre ++ ps /\ t = concat chunks /\
     Forall3 (fun port c p' => filled (mUsbDataEnabled (self w)) port c d p') names chunks ps))
  (fun _ _ => False) w.
Proof.
revert pre w. induction names as [|port names IH]; intros pre w; simpl.
- apply wp_ret. simpl. rewrite app_nil_r. split_and!; [done|lia|]. intros _. exists [], [].
  rewrite app_nil_r. by split_and!; [..|constructor].
- rewrite list_lookup_middle by done. apply wp_bind. apply wp_ret.
  apply wp_bind. eapply wp_mono; [apply fill_port_spec| |done].
  intros [[] p] [k1 s1] t1 [Hs Hf]; simpl in *; subst s1.
  + rewrite insert_app_r_alt, Nat.sub_diag by done. simpl.
    replace (S (length pre)) with (length (pre ++ [p])) by (rewrite length_app; simpl; lia).
    replace (pre ++ p :: replicate (length names) d) with ((pre ++ [p]) ++ replicate (length names) d)
      by (by rewrite <- app_assoc).
    eapply wp_mono; [apply IH| |done]. intros [st cps] w2 t2 (Hs2 & Hl & Hps). simpl in *.
    rewrite length_app in Hl. simpl in Hl. split_and!; [done|lia|].
    intros Hst. destruct (Hps Hst) as (ps & cs & -> & -> & Hall). exists (p :: ps), (t1 :: cs).
    rewrite <- app_assoc. split; [done|]. split; [simpl; by rewrite ?app_nil_r|]. constructor; auto.
  + apply wp_ret. simpl. rewrite length_insert, length_app. simpl. rewrite length_replicate.
    split_and!; [done|lia|done].
Qed.
End specs.

(** ** The later queries

On a vector with at least one port they do not fail, and leave the settled
part of every status alone. *)
Section later.
Context {PLAT : Platform} {K : Type} `{!Oracle answer K}.
Implicit Types w : world K Usb.

(** Looking for the i2c client cannot fail. *)
Lemma wp_i2c (Φ : string -> world K Usb -> trace -> Prop) Ψ w :
(forall r w' t, Φ r w' t) -> wp getI2cClientPath Φ Ψ w.
Proof.
intros H. eapply wp_mono; [apply getI2cClientPath_cache| |done]. intros r w' t _. apply H.
Qed.

Definition settled (cps : list PortStatus) (x : Status.t * list PortStatus) : Prop :=
stable <$> x.2 = stable <$> cps.

Lemma queryMoisture_spec p cps w :
wp (queryMoistureDetectionStatus (p :: cps)) (fun x w' t => settled (p :: cps) x) (fun _ _ => False) w.
Proof.
unfold queryMoistureDetectionStatus, at_index. simpl.
repeat first [wp_step | apply wp_i2c; intros].
all: by unfold settled.
Qed.

Lemma queryPower_spec p cps w :
wp (queryPowerTransferStatus (p :: cps)) (fun x w' t => settled (p :: cps) x) (fun _ _ => False) w.
Proof.
unfold queryPowerTransferStatus, at_index. simpl.
repeat first [wp_step | apply wp_i2c; intros].
all: by unfold settled.
Qed.

Lemma queryNonCompliant_port_spec p w :
wp (queryNonCompliantCharger_port p) (fun p' w' t => self w' = self w /\ stable p' = stable p) (fun _ _ => False) w.
Proof. unfold queryNonCompliantCharger_port. wp_run. all: done. Qed.

Lemma queryNonCompliant_spec cps w :
wp (queryNonCompliantChargerStatus cps) (fun x w' t => stable <$> x = stable <$> cps) (fun _ _ => False) w.
Proof.
revert w. induction cps as [|p cps IH]; intros w; simpl; [by apply wp_ret|].
apply wp_bind. eapply wp_mono; [apply queryNonCompliant_port_spec| |done]. intros p' w1 t1 [_ Hp].
apply wp_bind. eapply wp_mono; [apply IH| |done]. intros x w2 t2 Hx.
apply wp_ret. rewrite !fmap_cons. by rewrite Hp, Hx.
Qed.

Lemma queryDataSession_spec p cps w :
wp (queryUsbDataSession (p :: cps)) (fun x w' t => stable <$> x = stable <$> (p :: cps)) (fun _ _ => False) w.
Proof. unfold queryUsbDataSession, getComplianceWarnings, at_index. simpl. wp_run. all: done. Qed.

(** The stable parts determine whether there is a port at all. *)
Lemma stable_cons p cps x : stable <$> x = stable <$> (p :: cps) -> exists p' cps', x = p' :: cps'.
Proof. destruct x as [|p' cps']; [done|]. intros _. by exists p', cps'. Qed.
End later.
