(* ===== verification/PortProps.v ===== *)
(** * Properties of the port status queries *)
From stdpp Require Import gmap.
From S2P Require Import Prelude CString Effects Aidl Platform I2cPath Sim DataSession PortQuery UsbHal SimUsb UsbFacts PortFacts.
Open Scope Z_scope.

(** ** Role names *)

Definition lacks (c : ascii) (s : string) : Prop := sall (fun d => negb (Ascii.eqb d c)) s = true.

Lemma lacks_app c s t : lacks c (s +:+ t) <-> lacks c s /\ lacks c t.
Proof. unfold lacks. by rewrite sall_app, andb_true_iff. Qed.
Lemma lacks_cons c d s : lacks c (String d s) <-> d <> c /\ lacks c s.
Proof.
  unfold lacks. simpl. rewrite andb_true_iff, negb_true_iff.
  split; intros [H1 H2]; split; try done; by apply Ascii.eqb_neq.
Qed.

(** A single character is not found where it does not occur. *)
Lemma find_sub_lacks c s : lacks c s -> find_sub (String c "") s = None.
Proof.
  induction s as [|d s IH]; intros H; [done|]. apply lacks_cons in H as [H1 H2].
  rewrite find_sub_cons, starts_with_char, (proj2 (Ascii.eqb_neq _ _) H1), IH; done.
Qed.

Lemma stake_min_all s n : Z.of_nat (strlen s) <= n -> stake (Z.to_nat (Z.min n (Z.of_nat (strlen s)))) s = s.
Proof. intros H. apply stake_all. rewrite Z.min_r by lia. lia. Qed.

(** C23: [extractRole] gives the role between the brackets of a sysfs role
    node ("source [sink]" is "sink"), leaves a text without both brackets as
    it is, and for a "]" that comes before the "[", where the length passed to
    [substr] wraps around, takes everything after the "[". *)
Theorem extractRole_correct u x v :
  lacks "[" u -> lacks "]" u -> lacks "[" x -> lacks "]" x ->
  Z.of_nat (strlen u + strlen x + strlen v) + 2 < 2 ^ 63 ->
  extractRole (u +:+ "[" +:+ x +:+ "]" +:+ v) = x /\
  extractRole (u +:+ "]" +:+ x +:+ "[" +:+ v) = v /\
  (lacks "[" v \/ lacks "]" v -> extractRole v = v).
Proof.
  intros Hu1 Hu2 Hx1 Hx2 Hlen. split_and!.
  - unfold extractRole. change ("[" +:+ x +:+ "]" +:+ v) with (String "[" (x +:+ "]" +:+ v)).
    rewrite find_sub_char by done.
    replace (u +:+ String "[" (x +:+ "]" +:+ v)) with ((u +:+ "[" +:+ x) +:+ String "]" v)
      by (by rewrite !app_assoc_s).
    rewrite find_sub_char.
    2:{ apply lacks_app. split; [done|]. by apply lacks_cons. }
    rewrite !strlen_app. simpl strlen.
    rewrite wrapU_small by lia. unfold substr_z.
    replace (strlen u + 1)%nat with (strlen (u +:+ "[")) by (by rewrite strlen_app).
    replace ((u +:+ "[" +:+ x) +:+ String "]" v) with ((u +:+ "[") +:+ (x +:+ String "]" v))
      by (by rewrite !app_assoc_s).
    rewrite sdrop_app, !strlen_app. simpl strlen.
    replace (Z.to_nat _) with (strlen x) by lia. apply stake_app.
  - unfold extractRole.
    replace (u +:+ "]" +:+ x +:+ "[" +:+ v) with ((u +:+ "]" +:+ x) +:+ String "[" v)
      by (by rewrite !app_assoc_s).
    rewrite find_sub_char.
    2:{ apply lacks_app. split; [done|]. by apply lacks_cons. }
    replace ((u +:+ "]" +:+ x) +:+ String "[" v) with (u +:+ String "]" (x +:+ String "[" v))
      by (by rewrite !app_assoc_s).
    rewrite find_sub_char by done. rewrite !strlen_app. simpl strlen. unfold substr_z, wrapU.
    replace (u +:+ String "]" (x +:+ String "[" v)) with ((u +:+ "]" +:+ x +:+ "[") +:+ v)
      by (by rewrite !app_assoc_s).
    replace (strlen u + (1 + strlen x) + 1)%nat with (strlen (u +:+ "]" +:+ x +:+ "["))
      by (rewrite !strlen_app; simpl; lia).
    rewrite sdrop_app. apply stake_all. rewrite !strlen_app. simpl strlen.
    replace (Z.of_nat (strlen u) - Z.of_nat (strlen u + (1 + strlen x)) - 1)
      with (- Z.of_nat (strlen x + 2)) by lia.
    rewrite Z.mod_opp_l_nz; rewrite ?Z.mod_small; lia.
  - intros [H|H]; unfold extractRole; rewrite (find_sub_lacks _ _ H); [done|]. by destruct (find_sub "[" v).
Qed.

Lemma extractRole_correct_witness :
  extractRole "source [sink]" = "sink" /\ extractRole "a]b[c" = "c" /\ extractRole "none" = "none".
Proof.
  split; [exact (proj1 (extractRole_correct "source " "sink" "" eq_refl eq_refl eq_refl eq_refl eq_refl))|].
  split; [exact (proj1 (proj2 (extractRole_correct "a" "b" "c" eq_refl eq_refl eq_refl eq_refl eq_refl)))|].
  exact (proj2 (proj2 (extractRole_correct "" "" "none" eq_refl eq_refl eq_refl eq_refl eq_refl)) (or_introl eq_refl)).
Defined.

(** ** The ports under /sys/class/typec *)

(** What a directory entry stands for, by its name: a port, or the partner of
    the port it names first. *)
Definition partner_of (e : dirent) : option string :=
  if bool_decide (ep_type e = DT_LNK) then
    match find_sub "-partner" (ep_name e) with Some _ => strtok "-" (ep_name e) | None => None end
  else None.
Definition port_of (e : dirent) : option string :=
  if bool_decide (ep_type e = DT_LNK) then
    match find_sub "-partner" (ep_name e) with Some _ => None | None => Some (ep_name e) end
  else None.
Definition has_partner (k : string) (l : list dirent) : bool :=
  existsb (fun e => bool_decide (partner_of e = Some k)) l.
Definition has_port (k : string) (l : list dirent) : bool :=
  existsb (fun e => bool_decide (port_of e = Some k)) l.

Lemma names_find_set k k' v l :
  names_find k (names_set k' v l) = if streq k' k then Some v else names_find k l.
Proof.
  induction l as [|[k0 v0] l IH]; simpl; [done|].
  destruct (streq k0 k') eqn:E0.
  - apply streq_true in E0 as ->. simpl. by destruct (streq k' k).
  - simpl. rewrite IH. destruct (streq k0 k) eqn:E1; [|done].
    apply streq_true in E1 as ->. destruct (streq k' k) eqn:E2; [|done].
    apply streq_true in E2 as ->. by rewrite streq_refl in E0.
Qed.

Lemma names_set_keys k v l x : x ∈ (names_set k v l).*1 <-> x = k \/ x ∈ l.*1.
Proof.
  induction l as [|[k0 v0] l IH]; simpl.
  - rewrite list_elem_of_singleton, elem_of_nil. tauto.
  - destruct (streq k0 k) eqn:E; simpl.
    + apply streq_true in E as ->. rewrite elem_of_cons. tauto.
    + rewrite !elem_of_cons, IH. tauto.
Qed.

Lemma names_set_NoDup k v l : NoDup l.*1 -> NoDup (names_set k v l).*1.
Proof.
  induction l as [|[k0 v0] l IH]; simpl; intros H.
  - apply NoDup_singleton.
  - apply NoDup_cons in H as [H1 H2]. destruct (streq k0 k) eqn:E; simpl.
    + by apply NoDup_cons.
    + apply NoDup_cons. split; [|by apply IH]. rewrite names_set_keys. intros [->|?]; [|done].
      by rewrite streq_refl in E.
Qed.

(** A name that contains "-partner" has a first token. *)
Lemma skip_char_all c s : skip_char c s = "" -> sall (fun d => Ascii.eqb d c) s = true.
Proof. induction s as [|d s IH]; simpl; [done|]. by destruct (Ascii.eqb d c). Qed.
Lemma partner_has_token s i : find_sub "-partner" s = Some i -> is_Some (strtok "-" s).
Proof.
  intros (u & v & -> & _)%find_sub_Some. unfold strtok.
  destruct (skip_char "-" _) as [|d t] eqn:E; [|by eexists].
  apply skip_char_all in E. rewrite !sall_app in E. simpl in E. by rewrite andb_false_r in E.
Qed.

Lemma scan_ports_acc l names :
  NoDup names.*1 ->
  exists r, scan_ports l names = Some r /\ NoDup r.*1 /\
    forall k, names_find k r =
      if has_partner k l then Some true
      else match names_find k names with
           | Some b => Some b
           | None => if has_port k l then Some false else None
           end.
Proof.
  revert names. induction l as [|e l IH]; intros names Hnd; simpl.
  { exists names. split_and!; [done..|]. intros k. by destruct (names_find k names). }
  unfold partner_of, port_of. case_bool_decide as Hl; simpl; [|by apply IH].
  destruct (find_sub "-partner" (ep_name e)) as [i|] eqn:Ef.
  - destruct (partner_has_token _ _ Ef) as [port Hp]. rewrite Hp.
    destruct (IH (names_set port true names)) as (r & -> & Hr & Hfind); [by apply names_set_NoDup|].
    exists r. split_and!; [done..|]. intros k. rewrite Hfind, names_find_set. unfold streq.
    destruct (decide (port = k)) as [->|Hk].
    + rewrite !bool_decide_true by done. simpl. by destruct (has_partner k l).
    + rewrite !bool_decide_false by congruence. done.
  - destruct (names_find (ep_name e) names) as [b|] eqn:En.
    + destruct (IH names) as (r & -> & Hr & Hfind); [done|]. exists r. split_and!; [done..|].
      intros k. rewrite Hfind. simpl. destruct (has_partner k l); [done|].
      destruct (names_find k names) eqn:Ek; [done|].
      rewrite bool_decide_false; [done|]. intros [= Hk]. congruence.
    + destruct (IH (names_set (ep_name e) false names)) as (r & -> & Hr & Hfind); [by apply names_set_NoDup|].
      exists r. split_and!; [done..|]. intros k. rewrite Hfind, names_find_set. unfold streq.
      destruct (decide (ep_name e = k)) as [<-|Hk].
      * decide_closed. rewrite En. simpl. by destruct (has_partner _ l).
      * rewrite !bool_decide_false by congruence. done.
Qed.

(** C22: The scan of the type-C class directory always succeeds, lists each
    name once, and maps a name to "connected" exactly when some link is a
    partner of it ("port0-partner" is one of "port0"), and otherwise to "not
    connected" exactly when a link without "-partner" has that name.  Any such
    link counts as a port, a cable or plug of a port included. *)
Theorem scan_ports_correct l :
  exists names, scan_ports l [] = Some names /\ NoDup names.*1 /\
    forall k, names_find k names =
      if has_partner k l then Some true else if has_port k l then Some false else None.
Proof. destruct (scan_ports_acc l []) as (r & H); [apply NoDup_nil_2|]. by exists r. Qed.

(** ** The whole query *)
Section query.
Context {PLAT : Platform} {K : Type} `{!Oracle answer K}.
Implicit Types w : world K Usb.

(** The type-C class directory can be listed and has a port. *)
Definition ports_listed : Prop :=
forall k, exists entries, (ask (Opendir kTypecPath) (k : K)).1 = Some entries /\
  scan_ports entries [] <> Some [].

Lemma resize_nil {A} (d : A) n : resize d n [] = replicate n d.
Proof. unfold resize. rewrite take_nil, Nat.sub_0_r. done. Qed.

Lemma getPortStatus_spec `{!SaneSysfs K} w :
unordered_map_visits_all -> ports_listed ->
wp (getPortStatusHelper []) (fun x w' t => x.2 <> [] /\
  (x.1 = Status.SUCCESS -> exists entries names chunks,
     t = Ev (Opendir kTypecPath) (Some entries) :: concat chunks /\
     scan_ports entries [] = Some names /\
     Forall3 (fun port c p => filled (mUsbDataEnabled (self w)) port c default_PortStatus p)
       (unordered_map_order names) chunks x.2)) (fun _ _ => False) w.
Proof.
intros Hvisit Hports. unfold getPortStatusHelper, getTypeCPortNamesHelper.
do 3 wp_step.
destruct (Hports (kernel w)) as (entries & He & Hne). rewrite Hask in He. simpl in He. subst r.
apply wp_bind. destruct (scan_ports_acc entries []) as (names & Hn & _); [apply NoDup_nil_2|].
rewrite Hn in *. apply wp_ret, wp_ret. simpl. rewrite resize_nil.
rewrite <- (Permutation_length (Hvisit names)).
eapply wp_mono; [apply (fill_ports_spec _ [])| |done].
intros [st cps] w' t (_ & Hl & Hall). simpl in *. split.
- intros ->. symmetry in Hl. apply length_zero_iff_nil in Hl.
  pose proof (Hvisit names) as Hp. rewrite Hl in Hp. apply Permutation_nil in Hp. congruence.
- intros Hst. destruct (Hall Hst) as (ps & cs & -> & -> & H2). by exists entries, names, cs.
Qed.

Lemma filled_report en port t p :
fresh_arrays_empty -> filled en port t default_PortStatus p -> port_report en port t p.
Proof.
intros (H1 & H2 & _) (Hn & Hm & Hs & Hc & Hd & _). rewrite H1 in Hs. rewrite H2 in Hd. done.
Qed.

Lemma Forall3_stable en names chunks cps cps' :
stable <$> cps' = stable <$> cps ->
Forall3 (port_report en) names chunks cps -> Forall3 (port_report en) names chunks cps'.
Proof.
intros Hst H. revert cps' Hst.
induction H as [|port t p names chunks cps Hp _ IH]; intros [|p' cps'] Hst; try done; [constructor|].
rewrite !fmap_cons in Hst. apply (inj2 cons) in Hst as [H1 H2].
constructor; [by eapply port_report_stable|by apply IH].
Qed.

(** C4: On a sane sysfs with a port, a port status query does not fail; it
  writes nothing and changes no state but the cached paths; it notifies the
  registered callback once, with the very vector it returns; and when the
  notified status is SUCCESS that vector has one entry per name of the
  type-C directory, each with its name and dual-role mode, and the rest as
  the reads made for that port tell: the role changes are those the partner's
  power delivery node allows, none without a partner, and the data status is
  DISABLED_DOCK exactly when the pogo node, read once, shows 1,
  DISABLED_FORCE exactly when data was disabled, and ENABLED exactly when
  neither holds. *)
Theorem queryVersionHelper_correct `{!SaneSysfs K} w :
unordered_map_visits_all -> fresh_arrays_empty -> ports_listed ->
wp (queryVersionHelper []) (fun cps w' tr =>
  but_caches (self w') = but_caches (self w) /\ writes tr = [] /\ cps <> [] /\
  exists st,
    callbacks tr = match mCallback (self w) with
                   | Some who => [(who, notifyPortStatusChange cps st)] | None => [] end /\
    (st = Status.SUCCESS -> exists entries names chunks rest,
       tr = Ev (MutexLock mLock) tt :: Ev (Opendir kTypecPath) (Some entries) :: concat chunks ++ rest /\
       scan_ports entries [] = Some names /\
       Forall3 (port_report (mUsbDataEnabled (self w))) (unordered_map_order names) chunks cps))
  (fun _ _ => False) w.
Proof.
intros Hvisit Hfresh Hports. unfold queryVersionHelper.
do 2 wp_step. destruct r.
apply wp_bind. eapply wp_inert; [auto with comp..|by apply getPortStatus_spec|].
intros [st cps1] w1 t1 (Hne & Hrep) Hi1 Hc1. cbn [fst snd] in Hne, Hrep.
destruct cps1 as [|p1 cps1]; [done|].
apply wp_bind. eapply wp_inert; [auto with comp..|apply queryMoisture_spec|].
intros [st2 cps2] w2 t2 Hs2 Hi2 Hc2. unfold settled in Hs2. cbn [snd] in Hs2.
destruct (stable_cons _ _ _ Hs2) as (p2 & cps2' & ->).
apply wp_bind. eapply wp_inert; [auto with comp..|apply queryPower_spec|].
intros [st3 cps3] w3 t3 Hs3 Hi3 Hc3. unfold settled in Hs3. cbn [snd] in Hs3.
destruct (stable_cons _ _ _ Hs3) as (p3 & cps3' & ->).
apply wp_bind. eapply wp_inert; [auto with comp..|apply queryNonCompliant_spec|].
intros cps4 w4 t4 Hs4 Hi4 Hc4. destruct (stable_cons _ _ _ Hs4) as (p4 & cps4' & ->).
apply wp_bind. eapply wp_inert; [auto with comp..|apply queryDataSession_spec|].
intros cps5 w5 t5 Hs5 Hi5 Hc5.
assert (stable <$> cps5 = stable <$> (p1 :: cps1)) as Hst by congruence.
assert (but_caches (self w5) = but_caches (self w)) as Hc by (simpl in *; congruence).
assert (cps5 <> []) as Hne5 by (destruct (stable_cons _ _ _ Hst) as (? & ? & ->); done).
unfold notify. wp_run.
all: rewrite (but_caches_callback _ _ Hc) in *; read_trace.
all: repeat (rewrite ?(inert_callbacks t1), ?(inert_callbacks t2), ?(inert_callbacks t3),
  ?(inert_callbacks t4), ?(inert_callbacks t5), ?(inert_writes t1), ?(inert_writes t2),
  ?(inert_writes t3), ?(inert_writes t4), ?(inert_writes t5) by done).
all: split_and!; [done..|]; exists st.
all: rewrite Heqo; split; [done|]; intros Hst0; destruct (Hrep Hst0) as (es & ns & cs & -> & Hsc & Hall).
all: eexists es, ns, cs, _; split; [by rewrite <- ?app_assoc|]; split; [done|].
all: eapply Forall3_stable; [exact Hst|]; eapply Forall3_impl; [exact Hall|]; intros port t p Hp.
all: by apply filled_report.
Qed.

(** C20: When the type-C class directory cannot be listed, or lists no port, a
  query reads past the end of an empty vector, with [mLock] held: the error
  status of [getPortStatusHelper] is not looked at before the port is. *)
Theorem query_without_ports_crashes cps w :
cps = [] ->
(forall k, let d := (ask (Opendir kTypecPath) (k : K)).1 in
   d = None \/ exists entries, d = Some entries /\ scan_ports entries [] = Some []) ->
unordered_map_visits_all ->
exists tr, queryVersionHelper cps w = Crash OutOfBounds tr /\ locks tr = [Acq mLock].
Proof.
intros -> Hnone Hvisit.
assert (wp (queryVersionHelper []) (fun _ _ _ => False)
  (fun f tr => f = OutOfBounds /\ locks tr = [Acq mLock]) w) as H.
{ unfold queryVersionHelper, getPortStatusHelper, getTypeCPortNamesHelper, queryMoistureDetectionStatus, at_index.
  do 6 wp_step. specialize (Hnone k). simpl in Hask0. rewrite Hask0 in Hnone. simpl in Hnone.
  destruct Hnone as [->|(entries & -> & Hscan)].
  - simpl. wp_run; try done.
  - wp_step. rewrite Hscan. simpl.
    pose proof (Hvisit []) as Hp. apply Permutation_nil_r in Hp.
    wp_run. rewrite Hp. wp_run; done. }
unfold wp in H. destruct (queryVersionHelper [] w) as [|f tr]; [done|]. destruct H as [-> H]. by exists tr.
Qed.
End query.

(** ** Witnesses *)

Lemma app_suffix u t c : u +:+ t = c -> t = sdrop (strlen c - strlen t) c.
Proof.
  intros <-. rewrite strlen_app.
  replace (strlen u + strlen t - strlen t)%nat with (strlen u) by lia. by rewrite sdrop_app.
Qed.

Lemma phone_reads path s :
  (ask (Oracle:=phone_oracle) (ReadFileToString path) tt).1 = Some s -> (path, s) ∈ typec_files.
Proof. exact (elem_of_list_to_map_2 (M:=gmap string) typec_files path s). Qed.

#[local] Ltac each_file H :=
  apply phone_reads in H;
  repeat (apply elem_of_cons in H as [H|H];
    [let Hp := fresh "Hp" in apply pair_equal_spec in H as [Hp ->];
     first [refine (bool_decide_unpack _ _); vm_compute; exact I
           | exfalso; rewrite <- app_assoc_s in Hp; apply app_suffix in Hp; vm_compute in Hp; discriminate Hp]|]);
  by apply elem_of_nil in H.

Lemma phone_sane : SaneSysfs (PLAT:=sim_platform) (Oracle0:=phone_oracle) unit.
Proof.
  split.
  - intros name [] s H. each_file H.
  - intros name [] s H. each_file H.
  - intros [] s H. vm_compute in H. discriminate H.
Qed.

Lemma phone_ports : ports_listed (Oracle0:=phone_oracle).
Proof. intros []. eexists. split; [reflexivity|]. vm_compute. discriminate. Qed.

Lemma queryVersionHelper_correct_witness :
  wp (queryVersionHelper (PLAT:=sim_platform) (Oracle0:=phone_oracle) []) (fun cps w' (tr : trace) =>
    but_caches (self w') = but_caches (service (Some 1) true) /\ writes tr = [] /\ cps <> [] /\
    exists st,
      callbacks tr = [(1, notifyPortStatusChange cps st)] /\
      (st = Status.SUCCESS -> exists entries names chunks rest,
         tr = Ev (MutexLock mLock) tt :: Ev (Opendir kTypecPath) (Some entries) :: concat chunks ++ rest /\
         scan_ports entries [] = Some names /\
         Forall3 (port_report (PLAT:=sim_platform) true) names chunks cps))
    (fun _ _ => False) (World tt (service (Some 1) true)).
Proof.
  exact (queryVersionHelper_correct (PLAT:=sim_platform) (Oracle0:=phone_oracle) (SaneSysfs0:=phone_sane)
    (World tt (service (Some 1) true)) sim_unordered_map_visits_all sim_fresh_arrays_empty phone_ports).
Defined.

(** The status of that query is SUCCESS, and the port charges. *)
Example phone_query :
  match queryVersionHelper (PLAT:=sim_platform) (Oracle0:=phone_oracle) [] (World tt (service (Some 1) true)) with
  | Done [p] _ tr =>
      callbacks tr = [(1, notifyPortStatusChange [p] Status.SUCCESS)] /\ portName p = "port0" /\
      currentPowerRole p = PortPowerRole.SINK /\ usbDataStatus p = [UsbDataStatus.ENABLED] /\
      canChangeDataRole p = true /\ powerBrickStatus p = PowerBrickStatus.CONNECTED
  | _ => False
  end.
Proof. vm_compute. repeat split. Qed.

Lemma query_without_ports_crashes_witness :
  exists tr, queryVersionHelper (PLAT:=sim_platform) (Oracle0:=empty_oracle) []
    (World tt (service (Some 1) true)) = Crash OutOfBounds tr /\ locks tr = [Acq mLock].
Proof.
  exact (query_without_ports_crashes (PLAT:=sim_platform) (Oracle0:=empty_oracle) []
    (World tt (service (Some 1) true)) eq_refl (fun _ => or_introl eq_refl) sim_unordered_map_visits_all).
Defined.
