(* ===== verification/UsbProps.v ===== *)
(** * Properties of the operations of the USB HAL *)
From stdpp Require Import gmap.
From S2P Require Import Prelude CString Effects Aidl Platform I2cPath Sim DataSession DataSessionFacts PortQuery UsbHal SimUsb UsbFacts.
Open Scope Z_scope.

(** The notification of the registered callback, if any. *)
Definition notified (s : Usb) (c : usb_callback) : list (Z * usb_callback) :=
  match mCallback s with Some who => [(who, c)] | None => [] end.
(** A notification that a query makes. *)
Definition is_port_status (c : Z * usb_callback) : Prop :=
  match c.2 with notifyPortStatusChange _ _ => True | _ => False end.

Section parts.
Context {PLAT : Platform} {K : Type} `{!Oracle answer K}.
Implicit Types w : world K Usb.

Definition only_port_status (e : event answer) : Prop :=
match callback_of e with Some c => is_port_status c | None => True end.
Lemma query_only_port_status cps : emits only_port_status _ (queryVersionHelper (K:=K) cps).
Proof.
unfold queryVersionHelper, notify. walk; try done.
all: eapply (emits_mono inert); [|auto with comp]; by intros [[] r].
Qed.
Lemma only_port_status_callbacks t : Forall only_port_status t -> Forall is_port_status (callbacks t).
Proof.
unfold only_port_status. induction 1 as [|e t He _ IH]; [constructor|].
rewrite callbacks_cons. destruct (callback_of e); [by constructor|done].
Qed.

(** A query inside an operation. *)
Lemma wp_query cps (Φ : list PortStatus -> world K Usb -> trace -> Prop) Ψ w :
(forall x k s t, but_caches s = but_caches (self w) -> writes t = [] ->
   Forall is_port_status (callbacks t) -> Φ x (World k s) t) ->
(forall f t, writes t = [] -> Ψ f t) ->
wp (queryVersionHelper cps) Φ Ψ w.
Proof.
intros HΦ HΨ. pose proof (queryVersionHelper_no_write cps w) as Hn.
pose proof (query_only_port_status cps w) as Hp. pose proof (queryVersionHelper_but_caches cps w) as Hf.
unfold wp. destruct (queryVersionHelper cps w) as [x [k s] t|f t]; simpl in *.
- apply HΦ; [exact (Hf x _ _ eq_refl)| by apply omap_none | by apply only_port_status_callbacks].
- by apply HΨ, omap_none.
Qed.

Lemma wp_notify_locked c (Φ : unit -> world K Usb -> trace -> Prop) Ψ w :
(forall u k t, writes t = [] -> callbacks t = notified (self w) c -> (forall p, file_reads p t = []) ->
   Φ u (World k (self w)) t) ->
wp (notify_locked c) Φ Ψ w.
Proof.
intros HΦ. unfold notify_locked, notify. wp_run.
all: apply HΦ; read_trace; try done; unfold notified; by rewrite Heqo.
Qed.
End parts.

(** ** Data signaling *)

(** The writes a request calls for, by the answer of the pullup file. *)
Definition data_plan {PLAT : Platform} (enable was : bool) (pullup : option string) : list (string * string) :=
  let pulled_up := match pullup with Some p => streq (Trim p) kGadgetName | None => enable end in
  if enable then
    if was then []
    else (if pulled_up then [] else [(kGadgetName, PULLUP_PATH)]) ++ [("1", USB_DATA_PATH)]
  else (if pulled_up then [("none", PULLUP_PATH)] else []) ++
       [("1", ID_PATH); ("0", VBUS_PATH); ("0", USB_DATA_PATH)].

Section data.
Context {PLAT : Platform} {K : Type} `{!Oracle answer K}.
Implicit Types w : world K Usb.

(** What a request does: the writes of its plan in order, all of them whatever
  fails; the flag takes the requested value exactly when all succeeded; the
  callback is told, before it is told of the new port status. *)
Definition data_switched (p : string) (e : bool) (i : Z) (s s' : Usb) (tr : trace) : Prop :=
exists pullup cbs,
  (writes tr).*1 = data_plan e (mUsbDataEnabled s) pullup /\
  (e && mUsbDataEnabled s = true \/ exists tr', tr = Ev (ReadFileToString PULLUP_PATH) pullup :: tr') /\
  let ok := forallb snd (writes tr) in
  mUsbDataEnabled s' = (if ok then e else mUsbDataEnabled s) /\
  callbacks tr = notified s (notifyEnableUsbDataStatus p e (Status.of_bool ok) i) ++ cbs /\
  Forall is_port_status cbs.

Lemma enableUsbData_spec p e i w :
wp (enableUsbData p e i) (fun _ w' tr => data_switched p e i (self w) (self w') tr)
  (fun _ tr => exists pullup, (writes tr).*1 = data_plan e (mUsbDataEnabled (self w)) pullup) w.
Proof.
unfold enableUsbData, data_switched. wp_run.
all: apply wp_notify_locked; intros u k9 t9 Hw9 Hc9 _; wp_run.
all: apply wp_query; [intros x k10 s10 t10 Hb Hw10 Hp10; wp_run | intros f t10 Hw10].
all: read_trace; rewrite ?Hw9, ?Hw10, ?Hc9; simpl.
all: try (apply but_caches_data in Hb; simpl in Hb; rewrite Hb).
all: repeat match goal with
  | H : negb _ = true |- _ => apply negb_true_iff in H
  | H : negb _ = false |- _ => apply negb_false_iff in H
  end.
all: try match goal with E : ask (ReadFileToString PULLUP_PATH) _ = (?a, _) |- _ => exists a end.
all: try match goal with |- ex (fun x : option string => _) => exists None end.
all: try exists (callbacks t10).
all: rewrite ?app_nil_r, ?andb_true_r, ?andb_assoc.
all: repeat match goal with H : ?b = ?c |- _ => match c with true => idtac | false => idtac end; rewrite H; clear H end.
all: simpl; try split_and!; try done.
all: try (by left). all: try (right; by eexists).
Qed.

(** C5: [enableUsbData] on every branch: it performs the writes of its plan
  ([data_plan]: by the requested value, the remembered one and what the
  pullup node shows), sets [mUsbDataEnabled] to the requested value exactly
  when every write succeeded, and notifies SUCCESS or ERROR accordingly.  A
  crash, in the port query at the end, comes after the writes. *)
Theorem enableUsbData_correct p e i w :
wp (enableUsbData p e i) (fun _ w' tr => data_switched p e i (self w) (self w') tr)
  (fun _ tr => exists pullup, (writes tr).*1 = data_plan e (mUsbDataEnabled (self w)) pullup) w.
Proof. apply enableUsbData_spec. Qed.

(** C15: After a disable request of which any write failed, [mUsbDataEnabled]
  still says enabled although the writes that succeeded are in effect; the
  next enable request then writes nothing at all and reports SUCCESS. *)
Theorem failed_disable_blocks_enable p i1 i2 w w1 t1 :
mUsbDataEnabled (self w) = true ->
enableUsbData p false i1 w = Done tt w1 t1 -> forallb snd (writes t1) = false ->
wp (enableUsbData p true i2) (fun _ w2 t2 => writes t2 = [] /\ mUsbDataEnabled (self w2) = true /\
    exists cbs, callbacks t2 =
      notified (self w1) (notifyEnableUsbDataStatus p true Status.SUCCESS i2) ++ cbs)
  (fun _ t2 => writes t2 = []) w1.
Proof.
intros H0 E Hfail. pose proof (wp_done _ _ _ _ _ _ _ (enableUsbData_spec p false i1 w) E) as H1.
destruct H1 as (pullup & cbs & _ & _ & H1 & _ & _). rewrite Hfail, H0 in H1. simpl in H1.
eapply wp_mono; [apply enableUsbData_spec| |].
- intros _ w2 t2 (pullup2 & cbs2 & Hw & _ & H2 & Hc & _). rewrite H1 in Hw, H2. simpl in Hw.
  apply fmap_nil_inv in Hw. rewrite Hw in H2, Hc. simpl in *. split_and!; [done..|]. by eexists.
- intros f t2 [pullup2 Hw]. rewrite H1 in Hw. by apply fmap_nil_inv in Hw.
Qed.
End data.

(** On the phone: the vbus node cannot be written, the two others can. *)
Definition disable_run :=
  enableUsbData (K:=sim) port0 false 1 (World (phone_with [VBUS_PATH] [] []) (service (Some 1) true)).
Lemma disable_run_done : exists w, disable_run = Done tt w (trace_of disable_run).
Proof. destruct (is_done_Done disable_run) as ([] & w & E); [vm_compute; reflexivity|]. by exists w. Qed.

Lemma failed_disable_blocks_enable_witness :
  (* data signaling is off after the failed request *)
  (match disable_run with Done _ w _ => files (kernel w) !! USB_DATA_PATH | _ => None end = Some "0") /\
  exists w1, disable_run = Done tt w1 (trace_of disable_run) /\
  wp (enableUsbData port0 true 2) (fun _ w2 t2 => writes t2 = [] /\ mUsbDataEnabled (self w2) = true /\
      exists cbs, callbacks t2 =
        notified (self w1) (notifyEnableUsbDataStatus port0 true Status.SUCCESS 2) ++ cbs)
    (fun _ t2 => writes t2 = []) w1.
Proof.
  split; [vm_compute; reflexivity|].
  destruct disable_run_done as (w1 & E). exists w1. split; [exact E|].
  refine (failed_disable_blocks_enable (PLAT:=sim_platform) (K:=sim) port0 1 2
    (World (phone_with [VBUS_PATH] [] []) (service (Some 1) true)) w1 _ eq_refl E _).
  vm_compute. reflexivity.
Defined.

(** ** Role switches *)
Section roles.
Context {PLAT : Platform} {K : Type} `{!Oracle answer K}.
Implicit Types w : world K Usb.

(** Whether the trace of a data or power role switch shows success: the role
  was written, and the node reads back the role between the brackets. *)
Definition role_confirmed (filename role : string) (tr : trace) : bool :=
match writes tr, file_reads filename tr with
| [(_, _, true)], [Some written] => streq (extractRole (Trim written)) role
| _, _ => false
end.

(** C7: Switching the data or power role: the only file written is the role
  node of the port, at most once and with the name of the role; SUCCESS is
  notified exactly when the write succeeded and the node reads back the
  requested role, ERROR otherwise; nothing else changes, and it never
  fails. *)
Theorem switchRole_correct fuel p r i w :
PortRole.getTag r <> PortRole.Tmode ->
wp (switchRole fuel p r i) (fun _ w' tr =>
  let filename := appendRoleNodeHelper (c_str p) (PortRole.getTag r) in
  self w' = self w /\
  (writes tr = [] \/ exists ok, writes tr = [(convertRoletoString r, filename, ok)]) /\
  callbacks tr = notified (self w)
    (notifyRoleSwitchStatus p r (Status.of_bool (role_confirmed filename (convertRoletoString r) tr)) i))
  (fun _ _ => False) w.
Proof.
intros Hmode. unfold switchRole.
assert (streq (appendRoleNodeHelper (c_str p) (PortRole.getTag r)) "" = false) as ->.
{ apply streq_false. by destruct r. }
wp_run; try (by apply bool_decide_eq_true in Heqb).
all: apply wp_notify_locked; intros u k9 t9 Hw9 Hc9 Hr9; wp_run.
all: unfold role_confirmed; read_trace; rewrite ?Hw9, ?Hc9, ?Hr9; simpl.
all: split; [done|]; split; [eauto|]; rewrite ?app_nil_r; try done.
all: by rewrite ?bool_decide_true by done.
Qed.
End roles.


Lemma switchRole_correct_witness :
  (* the phone's node keeps showing what was written: "host" *)
  (match switchRole (K:=sim) 1 port0 (PortRole.dataRole PortDataRole.HOST) 3
     (World (Sim (list_to_map typec_files) [] ∅ 0 ∅ [] [] [] [] true) (service (Some 1) true)) with
   | Done _ _ tr => callbacks tr =
       [(1, notifyRoleSwitchStatus port0 (PortRole.dataRole PortDataRole.HOST) Status.SUCCESS 3)]
   | Crash _ _ => False
   end) /\
  wp (switchRole (K:=sim) 1 port0 (PortRole.dataRole PortDataRole.HOST) 3) (fun _ w' tr =>
    self w' = service (Some 1) true /\
    (writes tr = [] \/ exists ok, writes tr = [("host", "/sys/class/typec/port0/data_role", ok)]) /\
    callbacks tr = notified (service (Some 1) true)
      (notifyRoleSwitchStatus port0 (PortRole.dataRole PortDataRole.HOST)
        (Status.of_bool (role_confirmed "/sys/class/typec/port0/data_role" "host" tr)) 3))
    (fun _ _ => False) (World phone (service (Some 1) true)).
Proof.
  split; [vm_compute; reflexivity|].
  exact (switchRole_correct (PLAT:=sim_platform) (K:=sim) 1 port0 (PortRole.dataRole PortDataRole.HOST) 3
    (World phone (service (Some 1) true)) ltac:(discriminate)).
Defined.

Section mode.
Context {PLAT : Platform} {K : Type} `{!Oracle answer K}.
Implicit Types w : world K Usb.

(** The clock readings and the timed waits of a run. *)
Definition is_wait (e : event answer) : bool :=
match e with Ev q _ => match q with ClockMonotonic | CondTimedwait _ _ => true | _ => false end end.
Definition wait_log (t : trace) : trace := List.filter is_wait t.
Lemma wait_log_app t1 t2 : wait_log (t1 ++ t2) = wait_log t1 ++ wait_log t2.
Proof. apply List.filter_app. Qed.

(** One wait after the other, each with a fresh clock reading [now] and its
  result: the deadline is [PORT_TYPE_TIMEOUT] seconds from then. *)
Definition wait_trace (l : list ((Z * Z) * wait_result)) : trace :=
l ≫= fun x : (Z * Z) * wait_result => [Ev (R:=answer) ClockMonotonic x.1; Ev (R:=answer) (CondTimedwait (x.1.1 + PORT_TYPE_TIMEOUT) x.1.2) x.2].
Lemma wait_trace_log l : wait_log (wait_trace l) = wait_trace l.
Proof. induction l as [|x l IH]; [done|]. exact (f_equal (fun t => _ :: _ :: t) IH). Qed.
Lemma wait_trace_quiet l : writes (wait_trace l) = [] /\ callbacks (wait_trace l) = [].
Proof. by induction l as [|x l IH]. Qed.

(** A wait that neither timed out nor saw a partner, and one that saw a
  partner before the time was out. *)
Definition unproductive (x : (Z * Z) * wait_result) : bool :=
negb (wr_timedout x.2) && negb (wr_partner_up x.2).
Definition partner_in_time (x : (Z * Z) * wait_result) : bool :=
negb (wr_timedout x.2) && wr_partner_up x.2.
Definition partner_seen (x : (Z * Z) * wait_result) : bool := wr_partner_up x.2.

(** Waits that are unproductive but for the last one. *)
Definition ends_wait (l : list ((Z * Z) * wait_result)) : Prop :=
exists l0 x, l = l0 ++ [x] /\ Forall unproductive l0 /\ ~ unproductive x.

Lemma ends_wait_one x : unproductive x = false -> ends_wait [x].
Proof. intros H. exists [], x. split; [done|]. split; [constructor|]. rewrite H. by intros []. Qed.
Lemma ends_wait_cons x l : unproductive x = true -> ends_wait l -> ends_wait (x :: l).
Proof.
intros H (l0 & y & -> & Hl0 & Hy). exists (x :: l0), y. split; [done|]. split; [|done].
constructor; [by rewrite H|done].
Qed.

Lemma wait_again_spec fuel w :
mPartnerUp (self w) = false ->
wp (wait_again fuel) (fun b w' t => exists l, t = wait_trace l /\ ends_wait l /\ (length l <= fuel)%nat /\
    b = existsb partner_in_time l /\ self w' = set_mPartnerUp (existsb partner_seen l) (self w))
  (fun f t => f = OutOfFuel /\ exists l, t = wait_trace l /\ Forall unproductive l /\ length l = fuel) w.
Proof.
revert w. induction fuel as [|fuel IH]; intros w Hup; simpl.
{ apply wp_crash. split; [done|]. by exists []. }
wp_run; rewrite Hup in *; simpl in *.
- exists [(r, r0)]. split; [done|]. split; [apply ends_wait_one; unfold unproductive; simpl; by rewrite Heqb|].
  split; [simpl; lia|]. unfold partner_in_time, partner_seen. simpl. by rewrite Heqb, !orb_false_r.
- apply negb_true_iff in Heqb0.
  assert (unproductive (r, r0) = true) as Hr by (unfold unproductive; simpl; by rewrite Heqb, Heqb0).
  eapply wp_mono; [apply IH; simpl; exact Heqb0| |].
  + intros b w' t (l & -> & Hl & Hlen & -> & Hs).
    exists ((r, r0) :: l). split; [done|]. split; [by apply ends_wait_cons|].
    split; [simpl; lia|]. simpl. rewrite Hs. unfold partner_in_time at 2, partner_seen at 2. simpl.
    by rewrite Heqb0, andb_false_r.
  + intros f t (-> & l & -> & Hl & Hlen). split; [done|]. exists ((r, r0) :: l). split; [done|].
    split; [|simpl; lia]. constructor; [by rewrite Hr|done].
- apply negb_false_iff in Heqb0. exists [(r, r0)]. split; [done|].
  split; [apply ends_wait_one; unfold unproductive; simpl; by rewrite Heqb0, andb_false_r|].
  split; [simpl; lia|]. unfold partner_in_time, partner_seen. simpl. by rewrite Heqb, Heqb0.
Qed.

Lemma until_char_idem c s : until_char c (until_char c s) = until_char c s.
Proof.
induction s as [|d s IH]; [done|]. simpl. destruct (Ascii.eqb d c) eqn:E; [done|].
simpl. by rewrite E, IH.
Qed.

Lemma role_node_nonempty p t : streq (appendRoleNodeHelper p t) "" = false.
Proof. apply streq_false. by destruct t. Qed.

#[local] Arguments appendRoleNodeHelper : simpl never.
#[local] Arguments convertRoletoString : simpl never.

(** The way back to dual role, from a trace [t]. *)
Definition back_to_dual (filename : string) (t : trace) (back : list (string * string * bool)) : Prop :=
(back = [] /\ Ev (FopenW filename) false ∈ t) \/ exists ok, back = [("dual", filename, ok)].

Lemma switchToDrp_spec p w :
wp (switchToDrp p) (fun _ w' t => self w' = self w /\ wait_log t = [] /\
  back_to_dual (appendRoleNodeHelper (c_str p) PortRole.Tmode) t (writes t)) (fun _ _ => False) w.
Proof.
unfold switchToDrp. cbv zeta. rewrite role_node_nonempty. simpl. wp_run.
- split; [done|]. split; [done|]. right. read_trace. by eexists.
- split; [done|]. split; [done|]. left. split; [by read_trace|]. simpl in *. subst. by left.
Qed.

Lemma back_to_dual_app filename t1 t2 back :
back_to_dual filename t2 back -> back_to_dual filename (t1 ++ t2 ++ []) back.
Proof.
rewrite app_nil_r. intros [[-> H]|H]; [left|by right]. split; [done|]. apply elem_of_app. by right.
Qed.

(** A mode switch with answer [ok], that waited as [l] tells: the node is
  opened, [role] written, and when that succeeded the partner waited for; it
  worked out if a partner was seen in time, else the port goes [back]. *)
Definition mode_switched (filename role : string) (ok : bool) (l : list ((Z * Z) * wait_result))
  (s s' : Usb) (tr : trace) : Prop :=
exists opened written tr' back,
  tr = Ev (FopenW filename) opened :: tr' /\
  wait_log tr = wait_trace l /\ (if opened && written then ends_wait l else l = []) /\
  ok = existsb partner_in_time l /\
  s' = (if opened then set_mPartnerUp (existsb partner_seen l) s else s) /\
  writes tr = (if opened then [(role, filename, written)] else []) ++ back /\
  (if ok then back = [] else back_to_dual filename tr' back).

Lemma switchMode_spec fuel p m w :
wp (switchMode fuel p (PortRole.mode m)) (fun ok w' tr => exists l, (length l <= fuel)%nat /\
  mode_switched (appendRoleNodeHelper (c_str p) PortRole.Tmode) (convertRoletoString (PortRole.mode m))
    ok l (self w) (self w') tr)
  (fun f tr => f = OutOfFuel /\
     exists l, wait_log tr = wait_trace l /\ Forall unproductive l /\ length l = fuel) w.
Proof.
unfold switchMode. cbv zeta. rewrite role_node_nonempty. simpl PortRole.getTag.
set (filename := appendRoleNodeHelper (c_str p) PortRole.Tmode).
set (role := convertRoletoString (PortRole.mode m)).
wp_run.
all: try (eapply wp_mono; [by apply wait_again_spec| |
  intros f t (-> & l & -> & Hl); split; [done|]; exists l; split; [exact (wait_trace_log l)|done]];
  intros ok w1 t1 (l & -> & Hends & Hlen & -> & Hs); destruct (wait_trace_quiet l) as [Hw _]; wp_run).
all: try (eapply wp_mono; [apply switchToDrp_spec| |done]; unfold c_str at 1; rewrite until_char_idem;
  intros u w2 t2 (Hs2 & Hl2 & Hb2); fold filename in Hb2; wp_run).
- exists l. split; [done|]. apply negb_true_iff in Heqb. exists true, true. eexists _, (writes t2).
  split; [reflexivity|]. rewrite Heqb. split_and!; try done.
  + simpl. by rewrite !wait_log_app, Hl2, wait_trace_log, !app_nil_r.
  + by rewrite Hs2.
  + read_trace. rewrite Hw. simpl. by rewrite ?app_nil_r.
  + by apply (back_to_dual_app _ (_ :: _ :: _ :: wait_trace l ++ [_])).
- exists l. split; [done|]. apply negb_false_iff in Heqb. exists true, true. eexists _, [].
  split; [reflexivity|]. rewrite Heqb. split_and!; try done.
  + simpl. by rewrite !wait_log_app, wait_trace_log, !app_nil_r.
  + read_trace. by rewrite Hw.
- exists []. split; [simpl; lia|]. exists true, false. eexists _, (writes t2).
  split; [reflexivity|]. split_and!; try done.
  + simpl. by rewrite !wait_log_app, Hl2.
  + read_trace. by rewrite ?app_nil_r.
  + by apply (back_to_dual_app _ [_; _; _; _]).
- exists []. split; [simpl; lia|]. exists false, false. eexists _, (writes t2).
  split; [reflexivity|]. split_and!; try done.
  + simpl. by rewrite !wait_log_app, Hl2.
  + read_trace. by rewrite ?app_nil_r.
  + by apply (back_to_dual_app _ []).
Qed.

(** C9: A mode switch opens the mode node and writes the mode; when that
  succeeded it waits, every wait with a deadline [PORT_TYPE_TIMEOUT] seconds
  after a clock reading of its own, up to the first wait that times out or
  during which a partner comes up.  It answers [true] exactly when a partner
  came up during one of its own waits, and not too late, and then leaves the
  port in the new mode; otherwise it falls back to writing "dual".  [mPartnerUp]
  afterwards tells whether a partner came up during the waits, whatever it was
  before, and nothing else changes.  It fails only when [fuel] waits have
  neither timed out nor seen a partner. *)
Theorem switchMode_correct fuel p m w :
wp (switchMode fuel p (PortRole.mode m)) (fun ok w' tr => exists l,
  mode_switched (appendRoleNodeHelper (c_str p) PortRole.Tmode) (convertRoletoString (PortRole.mode m))
    ok l (self w) (self w') tr)
  (fun f _ => f = OutOfFuel) w.
Proof.
eapply wp_mono; [apply switchMode_spec| |by intros f tr [-> _]].
intros ok w' tr (l & _ & Hl). by exists l.
Qed.

(** A run of the first that ends is a run of the second. *)
Definition more {A} (m1 m2 : prog K Usb A) : Prop :=
forall w a w' t, m1 w = Done a w' t -> m2 w = Done a w' t.
Lemma more_bind {A B} (m1 m2 : prog K Usb A) (f1 f2 : A -> prog K Usb B) :
more m1 m2 -> (forall a, more (f1 a) (f2 a)) -> more (m1 ≫= f1) (m2 ≫= f2).
Proof.
intros Hm Hf w b w' t. unfold mbind, comp_bind. destruct (m1 w) as [a w1 t1|] eqn:E; [|done].
rewrite (Hm _ _ _ _ E). destruct (f1 a w1) as [b1 w2 t2|] eqn:E2; [|done].
by rewrite (Hf _ _ _ _ _ E2).
Qed.
Lemma more_refl {A} (m : prog K Usb A) : more m m.
Proof. by intros w a w' t. Qed.
#[local] Ltac same_step := apply more_bind; [apply more_refl|intros ?].
Lemma wait_again_more fuel fuel' : (fuel <= fuel')%nat -> more (wait_again fuel) (wait_again fuel').
Proof.
revert fuel'. induction fuel as [|fuel IH]; intros [|fuel'] H; try lia; [by intros ? ? ? ?..|]. simpl.
do 3 same_step. case_match; [apply more_refl|]. same_step. case_match; [|apply more_refl]. apply IH. lia.
Qed.
Lemma switchMode_more fuel fuel' p r :
(fuel <= fuel')%nat -> more (switchMode fuel p r) (switchMode fuel' p r).
Proof.
intros H. unfold switchMode. cbv zeta. rewrite role_node_nonempty. same_step.
apply more_bind; [|intros ?; apply more_refl]. case_match; [|apply more_refl]. do 4 same_step.
apply more_bind; [|intros ?; apply more_refl]. case_match; [by apply wait_again_more|apply more_refl].
Qed.

(** C10: A mode switch ends with the first wait that times out or sees a
  partner: a switch that is allowed [fuel] waits either ends after at most so
  many, the last of them being the only one that timed out or saw a partner,
  and is then the same run with any greater allowance; or each of the [fuel]
  waits was woken up with neither.  Nothing else keeps it from ending; but
  every wakeup starts the time-out anew, so the code itself does not bound
  their number. *)
Theorem switchMode_terminates fuel p m w :
match switchMode fuel p (PortRole.mode m) w with
| Done ok w' tr =>
    (exists l, wait_log tr = wait_trace l /\ (length l <= fuel)%nat /\ (l = [] \/ ends_wait l)) /\
    forall fuel', (fuel <= fuel')%nat -> switchMode fuel' p (PortRole.mode m) w = Done ok w' tr
| Crash f tr => f = OutOfFuel /\
    exists l, wait_log tr = wait_trace l /\ length l = fuel /\ Forall unproductive l
end.
Proof.
pose proof (switchMode_spec fuel p m w) as H. unfold wp in H.
destruct (switchMode fuel p (PortRole.mode m) w) as [ok w' tr|f tr] eqn:E.
- split.
  + destruct H as (l & Hlen & opened & written & tr' & back & _ & Hl & Hends & _). exists l.
    split; [done|]. split; [done|]. destruct (opened && written); auto.
  + intros fuel' Hle. by apply (switchMode_more fuel).
- destruct H as (-> & l & Hl & Hf & Hlen). split; [done|]. by exists l.
Qed.
End mode.

(** A partner that is seen at the third wait. *)
Example mode_run :
  match switchMode (K:=sim) 5 port0 (PortRole.mode PortMode.UFP)
    (World (phone_with [] [] [WaitResult false false; WaitResult false false; WaitResult false true]) (service (Some 1) true)) with
  | Done ok w' tr => ok = true /\ mPartnerUp (self w') = true /\
      writes tr = [("sink", "/sys/class/typec/port0/port_type", true)] /\ length (wait_log tr) = 6%nat
  | Crash _ _ => False
  end.
Proof. vm_compute. repeat split. Qed.

(** A stale report of a partner does not count. *)
Example stale_partner_run :
  match switchMode (K:=sim) 5 port0 (PortRole.mode PortMode.UFP)
    (World (phone_with [] [] [WaitResult false false]) (set_mPartnerUp true (service (Some 1) true))) with
  | Done ok w' tr => ok = false /\ mPartnerUp (self w') = false
  | Crash _ _ => False
  end.
Proof. vm_compute. repeat split. Qed.

(** ** Power *)
Section power.
Context {PLAT : Platform} {K : Type} `{!Oracle answer K}.
Implicit Types w : world K Usb.

(** The writes that limit the power transfer of the controller at [path]. *)
Definition limit_plan (path : string) (limit : bool) : list (string * string) :=
if streq path "" then []
else (if limit then [("0", path // kSinkLimitCurrent)] else []) ++
     [(if limit then "1" else "0", path // kSinkLimitEnable);
      (if limit then "1" else "0", path // kSourceLimitEnable)].

(** C13: [limitPowerTransfer] sets, for the controller it finds, the zero sink
  current when limiting and both limit switches, attempting every write; it
  notifies SUCCESS exactly when the controller was found and every write
  succeeded, and notifies only for a non-negative transaction id. *)
Theorem limitPowerTransfer_correct p l i w :
wp (limitPowerTransfer p l i) (fun _ w' tr => exists path cbs,
  (exists k w1 t1, getI2cClientPath (World k (self w)) = Done path w1 t1) /\
  (writes tr).*1 = limit_plan path l /\
  let ok := negb (streq path "") && forallb snd (writes tr) in
  callbacks tr = (if 0 <=? i
                  then notified (self w) (notifyLimitPowerTransferStatus p l (Status.of_bool ok) i)
                  else []) ++ cbs /\
  Forall is_port_status cbs)
  (fun _ tr => exists path, (writes tr).*1 = limit_plan path l) w.
Proof.
unfold limitPowerTransfer, notify. do 3 wp_step.
assert (wp (getI2cClientPath (S:=Usb)) (fun path w1 t1 => getI2cClientPath (World k (self w)) = Done path w1 t1)
  (fun _ _ => False) (World k (self w))) as Hpath.
{ pose proof (getI2cClientPath_cache (World k (self w))) as H. unfold wp in *.
  by destruct (getI2cClientPath (World k (self w))). }
eapply wp_inert; [apply i2c_inert|apply i2c_but_caches|exact Hpath|].
intros path w1 t1 Hp Hi1 Hb1. pose proof (but_caches_callback _ _ Hb1) as Hcb1.
pose proof (inert_writes _ Hi1) as Hw1. pose proof (inert_callbacks _ Hi1) as Hc1. simpl in Hcb1.
wp_run.
all: try (apply wp_query; [intros x k10 s10 t10 Hb Hw10 Hp10; wp_run | intros f t10 Hw10]).
all: repeat match goal with
  | H : negb (streq _ _) = true |- _ => apply negb_true_iff in H
  | H : negb (streq _ _) = false |- _ => apply negb_false_iff in H
  end.
all: unfold limit_plan, notified; try exists path; try exists (callbacks t10).
all: read_trace; rewrite ?Hw1, ?Hc1, ?Hw10, <- ?Hcb1.
all: repeat match goal with H : ?x = ?y |- context [match ?x with _ => _ end] => rewrite H end.
all: repeat match goal with H : streq ?a ?b = _ |- context [streq ?a ?b] => rewrite H end.
all: simpl; rewrite ?app_nil_r, ?andb_true_r, ?andb_assoc; try split_and!; try done; eauto.
Qed.
End power.

(** ** Registration *)
Section registration.
Context {PLAT : Platform} {K : Type} `{!Oracle answer K}.
Implicit Types w : world K Usb.

(** Worker threads started minus worker threads joined. *)
Definition worker_delta (e : event answer) : Z :=
match e with
| Ev q r =>
    match q return answer q -> Z with
    | ThreadCreate => fun ok : bool => if ok then 1 else 0
    | ThreadJoin => fun _ => -1
    | _ => fun _ => 0
    end r
end.
Fixpoint workers (t : trace) : Z :=
match t with [] => 0 | e :: t => worker_delta e + workers t end.
Lemma workers_app t1 t2 : workers (t1 ++ t2) = workers t1 + workers t2.
Proof. induction t1 as [|e t1 IH]; simpl; [done|]. rewrite IH. lia. Qed.

Definition registered (s : Usb) : Z := if mCallback s then 1 else 0.

Lemma setCallback_workers cb w :
(forall k, (ask ThreadKill (k : K)).1 = true) ->
wp (setCallback cb) (fun _ w' t =>
  workers t = registered (self w') - registered (self w) /\
  (mCallback (self w') = cb \/ (mCallback (self w) = None /\ mCallback (self w') = None)) /\
  (mCallback (self w) = None -> mCallback (self w') <> None -> destroyThread (self w') = false))
  (fun _ _ => False) w.
Proof.
intros Hkill. unfold setCallback, registered. wp_run; try done.
all: try (match goal with E : ask ThreadKill ?k = _ |- _ => specialize (Hkill k); simpl in *; rewrite E in Hkill; done end).
all: repeat match goal with H : mCallback _ = _ |- _ => rewrite H; clear H end.
all: repeat match goal with H : negb _ = true |- _ => apply negb_true_iff in H; simpl in H; subst
     | H : negb _ = false |- _ => apply negb_false_iff in H; simpl in H; subst end.
all: split_and!; try done; auto.
Qed.

(** C21: Through any sequence of registrations and unregistrations there is one
  worker thread exactly while a callback is registered (given that a live
  thread can be signalled): none is lost, none is started twice, and none is
  left behind. *)
Theorem registration_keeps_one_worker l w :
mCallback (self w) = None -> (forall k, (ask ThreadKill (k : K)).1 = true) ->
wp (for_each l setCallback) (fun _ w' t => workers t = registered (self w')) (fun _ _ => False) w.
Proof.
intros H0 Hkill.
assert (forall l w, wp (for_each l setCallback) (fun _ w' t =>
  workers t = registered (self w') - registered (self w)) (fun _ _ => False) w) as Hall.
{ clear w l H0. induction l as [|cb l IH]; intros w; simpl.
  - apply wp_ret. simpl. lia.
  - apply wp_bind. eapply wp_mono; [by apply setCallback_workers| |done]. intros [] w1 t1 [H1 _].
    eapply wp_mono; [apply IH| |done]. intros [] w2 t2 H2. rewrite workers_app. lia. }
eapply wp_mono; [apply Hall| |done]. intros u w' t ->. unfold registered at 2. rewrite H0. lia.
Qed.
End registration.

Lemma registration_keeps_one_worker_witness :
  wp (for_each [Some 1; Some 2; None; None; Some 3] setCallback)
    (fun _ w' t => workers t = registered (self w')) (fun _ _ => False) (World phone (service None true)).
Proof.
  exact (registration_keeps_one_worker [Some 1; Some 2; None; None; Some 3]
    (World phone (service None true)) eq_refl (fun _ => eq_refl)).
Defined.

(** ** Overheating *)
Section overheat.
Context {PLAT : Platform} {K : Type} `{!Oracle answer K}.
Implicit Types w : world K Usb.

Definition overheat_of (e : event answer) : option overheat_info :=
match e with Ev q _ => match q with ReportUsbPortOverheat i => Some i | _ => None end end.
Definition overheats (t : trace) : list overheat_info := omap overheat_of t.

(** What the temperature sampler answered. *)
Definition maximum_of (e : event answer) : option float32 :=
match e with
| Ev q r =>
    match q return answer q -> option float32 with
    | GetMaxOverheatTemperature => fun celsius => Some celsius
    | _ => fun _ => None
    end r
end.
Definition maxima (t : trace) : list float32 := omap maximum_of t.

(** The number a read of a statistics file gives. *)
Definition time_of (r : list (option string)) : option Z :=
match r with [Some s] => stoi (Trim s) | _ => None end.

#[local] Arguments time_of : simpl never.
#[local] Arguments read_stat : simpl never.
#[local] Arguments String.append : simpl never.
Definition stat_read (name : string) (tr : trace) : list (option string) :=
file_reads (kOverheatStatsPath +:+ name) tr.

#[local] Arguments stat_read : simpl never.

Lemma stat_read_app name t1 t2 : stat_read name (t1 ++ t2) = stat_read name t1 ++ stat_read name t2.
Proof. apply omap_app. Qed.

(** Reading one statistic is the only interaction. *)
Lemma read_stat_spec name (Φ : option Z -> world K Usb -> trace -> Prop) (Ψ : fault -> trace -> Prop) w :
(forall (x : option string) k t, t = [Ev (ReadFileToString (kOverheatStatsPath +:+ name)) x] ->
   (is_Some x -> is_Some (time_of [x])) -> Φ (time_of [x]) (World k (self w)) t) ->
(forall s t, t = [Ev (ReadFileToString (kOverheatStatsPath +:+ name)) (Some s)] ->
   stoi (Trim s) = None -> Ψ UncaughtException t) ->
wp (read_stat name) Φ Ψ w.
Proof.
intros HΦ HΨ. unfold read_stat. wp_step. wp_step. destruct r as [s|].
- wp_step. wp_step.
  + wp_step. unfold time_of in HΦ. rewrite <- Heqo. apply (HΦ (Some s)); [done|]. intros _. by rewrite Heqo.
  + wp_step. by eapply HΨ.
- wp_step. by apply (HΦ None); [|intros [? ?]].
Qed.

Lemma stat_read_read n1 n2 (x : option string) t :
stat_read n1 (Ev (ReadFileToString (kOverheatStatsPath +:+ n2)) x :: t) =
(if streq n2 n1 then [x] else []) ++ stat_read n1 t.
Proof.
unfold stat_read. rewrite file_reads_cons. unfold read_of, streq.
destruct (decide (n2 = n1)) as [E|E]; [rewrite (bool_decide_true _ E)|rewrite (bool_decide_false _ E)].
- rewrite bool_decide_true; [reflexivity|]. by rewrite E.
- rewrite bool_decide_false; [reflexivity|]. intros H. apply E. exact (inj (String.append kOverheatStatsPath) _ _ H).
Qed.
Lemma stat_read_service n b t : stat_read n (Ev GetStatsService b :: t) = stat_read n t.
Proof. done. Qed.
Lemma stat_read_report n i u t : stat_read n (Ev (ReportUsbPortOverheat i) u :: t) = stat_read n t.
Proof. done. Qed.
Lemma stat_read_max n m t : stat_read n (Ev GetMaxOverheatTemperature m :: t) = stat_read n t.
Proof. done. Qed.
Lemma stat_read_nil n : stat_read n [] = [].
Proof. done. Qed.

#[local] Ltac read_stats :=
cbn [app]; rewrite ?stat_read_max, ?stat_read_read, ?stat_read_service, ?stat_read_report, ?stat_read_nil;
repeat match goal with |- context [streq ?a ?b] =>
  let v := eval vm_compute in (streq a b) in change (streq a b) with v end; cbn [app].
(** The end of a run, and a statistic that is no number. *)
#[local] Ltac stat_done :=
repeat wp_step; split; [done|]; do 3 eexists; split; [reflexivity|]; split; [reflexivity|];
split; [eassumption|]; read_stats;
repeat match goal with H : time_of _ = _ |- _ => rewrite H; clear H end;
repeat match goal with H : ?b = true |- context [?b] => rewrite H | H : ?b = false |- context [?b] => rewrite H end;
reflexivity.
#[local] Ltac stat_fault name s :=
split; [reflexivity|]; right; split; [done|]; exists name, s; split; [set_solver|]; split; [by read_stats|done].

(** C27: [report_overheat_event] uploads one event exactly when all three
  statistics are readable numbers and the stats service is there: with those
  numbers, and with the temperature of the plug and the maximum the sampler
  answered, both float32 degrees, as tenths of a degree cut to an [int].  It
  changes no state.  It ends abnormally only, nothing uploaded, with undefined
  behaviour when a temperature has no such [int], and with an uncaught
  exception when a statistic that can be read is not a number in range. *)
Theorem report_overheat_event_correct w :
wp report_overheat_event (fun _ w' tr => self w' = self w /\ exists celsius plug max,
  tenths (mPluggedTemperatureCelsius (self w)) = Some plug /\
  maxima tr = [celsius] /\ tenths celsius = Some max /\
  overheats tr =
    match time_of (stat_read "trip_time" tr), time_of (stat_read "hysteresis_time" tr),
          time_of (stat_read "cleared_time" tr) with
    | Some trip, Some hysteresis, Some cleared =>
        if stats_available tr then [OverheatInfo plug max trip hysteresis cleared] else []
    | _, _, _ => []
    end)
  (fun f tr => overheats tr = [] /\
     ((f = BadConversion /\
         (tenths (mPluggedTemperatureCelsius (self w)) = None \/
          exists celsius, maxima tr = [celsius] /\ tenths celsius = None)) \/
      (f = UncaughtException /\
         exists name s, name ∈ ["trip_time"; "hysteresis_time"; "cleared_time"] /\
           stat_read name tr = [Some s] /\ stoi (Trim s) = None))) w.
Proof.
unfold report_overheat_event. do 4 wp_step; [|wp_step; split; [done|]; left; auto].
do 5 wp_step; [|wp_step; split; [done|]; left; split; [done|]; right; by exists r].
wp_step. wp_step. apply read_stat_spec; [intros x1 k1 t1 -> Hx1|intros s t -> Hs; stat_fault "trip_time" s].
destruct (time_of [x1]) as [trip|] eqn:E1; [|stat_done].
wp_step. apply read_stat_spec; [intros x2 k2 t2 -> Hx2|intros s t -> Hs; stat_fault "hysteresis_time" s].
destruct (time_of [x2]) as [hysteresis|] eqn:E2; [|stat_done].
wp_step. apply read_stat_spec; [intros x3 k3 t3 -> Hx3|intros s t -> Hs; stat_fault "cleared_time" s].
destruct (time_of [x3]) as [cleared|] eqn:E3; [|stat_done].
wp_run; stat_done.
Qed.
End overheat.

(** A plug at 21.5 degrees, and a maximum of 40. *)
Example overheat_run :
  let k := sim_files [(kOverheatStatsPath +:+ "trip_time", "12"); (kOverheatStatsPath +:+ "hysteresis_time", " 34");
                      (kOverheatStatsPath +:+ "cleared_time", "56" +:+ String LF "")] in
  let s := set_mPluggedTemperatureCelsius (S754_finite false 11272192 (-19)) (service None true) in
  match report_overheat_event (K:=sim) (World k s) with
  | Done _ _ tr => overheats tr = [OverheatInfo 215 400 12 34 56]
  | Crash _ _ => False
  end.
Proof. vm_compute. reflexivity. Qed.

(** ** The monitor inside the service *)
Section monitor.
Context {PLAT : Platform} {K : Type} `{!Oracle answer K}.
Implicit Types w : world K Usb.

End monitor.
