(* ===== verification/Gadget.v ===== *)
(** * The USB gadget service

    [struct UsbGadget] (usb/gadget/UsbGadget.h, UsbGadget.cpp).  The work on
    configfs is done by a library outside this tree; here is what the service
    asks of it, in which order, and what it does with the answers.
    [setCurrentUsbFunctions] runs under [mLockSetCurrentFunction] throughout. *)
From S2P Require Import Prelude CString Effects Aidl Platform.
From S2P Require I2cPath.
Open Scope Z_scope.

(** Constants and pure functions of the libraries. *)
Class GadgetPlatform := {
  GF : GadgetFunction.t -> Z;
  GF_NONE : Z;
  OS_DESC_PATH : string;
  kUvcEnabled : string;
  kDisconnectWaitUs : Z;
  ParseUint : string -> option Z;      (* into an unsigned int *)
}.

(** The enumerators are distinct bits below the sign. *)
Definition gadget_bits {GP : GadgetPlatform} : Prop :=
  GF_NONE = 0 /\ exists pos : GadgetFunction.t -> Z,
    Inj (=) (=) pos /\ forall f, 0 <= pos f < 63 /\ GF f = 2 ^ pos f.

Definition kAccessoryLimitCurrent : string := "usb_limit_accessory_current".
Definition kAccessoryLimitCurrentEnable : string := "usb_limit_accessory_enable".
Definition kUpdateSdpEnumTimeout : string := "update_sdp_enum_timeout".
Definition kGadgetName : string := "11110000.dwc3".
Definition kProcInterruptsPath : string := "/proc/interrupts".
Definition kProcIrqPath : string := "/proc/irq/".
Definition kSmpAffinityList : string := "/smp_affinity_list".
Definition UDC_PATH : string := "/sys/class/udc/11110000.dwc3/".
Definition SPEED_PATH : string := UDC_PATH +:+ "current_speed".
Definition BIG_CORE : string := "6".
Definition MEDIUM_CORE : string := "4".
Definition CURRENT_USB_TYPE_PATH : string := "/sys/class/power_supply/usb/" +:+ "usb_type".
Definition CURRENT_USB_POWER_OPERATION_MODE_PATH : string :=
  "/sys/class/typec/port0/" +:+ "power_operation_mode".

(** The members but the mutex, and the i2c members. *)
Record UsbGadget := mkUsbGadget {
  mGadgetIrqPath : string;
  mCurrentUsbFunctions : Z;
  mCurrentUsbFunctionsApplied : bool;
  mUsbSpeed : UsbSpeed.t;
  gadget_i2c : I2cPath.i2c_cache;  (* mI2cBusNumber and mI2cClientPath *)
}.
Definition set_mGadgetIrqPath (v : string) (s : UsbGadget) : UsbGadget :=
  mkUsbGadget
    v s.(mCurrentUsbFunctions) s.(mCurrentUsbFunctionsApplied) s.(mUsbSpeed) s.(gadget_i2c).
Definition set_mCurrentUsbFunctions (v : Z) (s : UsbGadget) : UsbGadget :=
  mkUsbGadget
    s.(mGadgetIrqPath) v s.(mCurrentUsbFunctionsApplied) s.(mUsbSpeed) s.(gadget_i2c).
Definition set_mCurrentUsbFunctionsApplied (v : bool) (s : UsbGadget) : UsbGadget :=
  mkUsbGadget
    s.(mGadgetIrqPath) s.(mCurrentUsbFunctions) v s.(mUsbSpeed) s.(gadget_i2c).
Definition set_mUsbSpeed (v : UsbSpeed.t) (s : UsbGadget) : UsbGadget :=
  mkUsbGadget
    s.(mGadgetIrqPath) s.(mCurrentUsbFunctions) s.(mCurrentUsbFunctionsApplied) v
      s.(gadget_i2c).
Definition set_gadget_i2c (v : I2cPath.i2c_cache) (s : UsbGadget) : UsbGadget :=
  mkUsbGadget
    s.(mGadgetIrqPath) s.(mCurrentUsbFunctions) s.(mCurrentUsbFunctionsApplied) s.(mUsbSpeed)
      v.

#[export] Instance gadget_i2c_lens : Lens UsbGadget I2cPath.i2c_cache :=
  {| lget := gadget_i2c; lset := set_gadget_i2c |}.
#[export] Instance gadget_i2c_laws : LensLaws UsbGadget I2cPath.i2c_cache.
Proof. by split; [|intros []|]. Qed.

Section gadget.
Context {PLAT : Platform} {GP : GadgetPlatform} {K : Type} `{!Oracle answer K}.
Abbreviation M := (prog K UsbGadget).

(** The code of the two i2c members is that of the HAL. *)
Definition getI2cBusNumber : M Z := I2cPath.getI2cBusNumber.
Definition getI2cClientPath : M string := I2cPath.getI2cClientPath.

Definition UsbGadget_new : M unit :=
  modify (set_mGadgetIrqPath "");;
  modify (set_gadget_i2c I2cPath.fresh_i2c_cache);;
  ok ← call (Access OS_DESC_PATH);
  when (negb ok) (crash Aborted).

(** ** The interrupt of the controller *)

(** The number of an interrupt line, as text: up to its first colon. *)
Definition irq_name (single_irq : string) : string :=
  match find_char ":" single_irq with
  | Some dwc3_pos => substr 0 dwc3_pos single_irq
  | None => single_irq
  end.

(** [while (true)] from [read_pos]; [None] is out of fuel. *)
Fixpoint find_irq (fuel : nat) (irqs : string) (read_pos : nat) : option (option string) :=
  match fuel with
  | O => None
  | S fuel =>
      match find_first_of LF read_pos irqs with
      | None => Some None
      | Some found_pos =>
          let single_irq := substr read_pos (found_pos - read_pos) irqs in
          match find_sub "dwc3" single_irq with
          | Some _ =>
              match ParseUint (irq_name single_irq) with
              | Some _ => Some (Some (kProcIrqPath +:+ irq_name single_irq +:+ kSmpAffinityList))
              | None => Some None
              end
          | None => find_irq fuel irqs (found_pos + 1)
          end
      end
  end.

Definition getUsbGadgetIrqPath : M GadgetStatus.t :=
  irqs ← call (ReadFileToString kProcInterruptsPath);
  match irqs with
  | None => mret GadgetStatus.ERROR
  | Some irqs =>
      path ← expect OutOfFuel (find_irq (S (strlen irqs)) irqs 0);
      match path with
      | Some path => modify (set_mGadgetIrqPath path);; mret GadgetStatus.SUCCESS
      | None => mret GadgetStatus.ERROR
      end
  end.

(** ** Small operations *)

Definition updateSdpEnumTimeout : M unit :=
  i2cPath ← getI2cClientPath;
  when (negb (streq i2cPath "")) (
    ok ← call (WriteStringToFile "1" (i2cPath // kUpdateSdpEnumTimeout)); mret tt).

Definition currentFunctionsAppliedCallback (functionsApplied : bool) : M unit :=
  modify (set_mCurrentUsbFunctionsApplied functionsApplied);;
  updateSdpEnumTimeout.

(** [if (callback) callback->...;] *)
Definition gadget_notify (callback : option Z) (c : gadget_callback) : M unit :=
  match callback with
  | Some who => ok ← call (GadgetCallback who c); mret tt
  | None => mret tt
  end.

(** The callback is used without a check. *)
Definition getCurrentUsbFunctions (callback : option Z) (in_transactionId : Z) : M binder_status :=
  who ← expect NullDereference callback;
  functions ← gets mCurrentUsbFunctions;
  applied ← gets mCurrentUsbFunctionsApplied;
  ok ← call (GadgetCallback who (getCurrentUsbFunctionsCb functions
    (if (applied : bool) then GadgetStatus.FUNCTIONS_APPLIED else GadgetStatus.FUNCTIONS_NOT_APPLIED)
    in_transactionId));
  mret BinderOk.

Definition speed_of (current_speed : string) : UsbSpeed.t :=
  if streq current_speed "low-speed" then UsbSpeed.LOWSPEED
  else if streq current_speed "full-speed" then UsbSpeed.FULLSPEED
  else if streq current_speed "high-speed" then UsbSpeed.HIGHSPEED
  else if streq current_speed "super-speed" then UsbSpeed.SUPERSPEED
  else if streq current_speed "super-speed-plus" then UsbSpeed.SUPERSPEED_10Gb
  else UsbSpeed.UNKNOWN.

Definition getUsbSpeed (callback : option Z) (in_transactionId : Z) : M binder_status :=
  current_speed ← call (ReadFileToString SPEED_PATH);
  modify (set_mUsbSpeed match current_speed with
                        | Some s => speed_of (Trim s) | None => UsbSpeed.UNKNOWN end);;
  speed ← gets mUsbSpeed;
  gadget_notify callback (getUsbSpeedCb speed in_transactionId);;
  mret BinderOk.

Definition reset (callback : option Z) (in_transactionId : Z) : M binder_status :=
  ok ← call (WriteStringToFile "none" PULLUP_PATH);
  if negb ok then
    gadget_notify callback (resetCb GadgetStatus.ERROR in_transactionId);;
    mret (ServiceSpecificError (-1) "Gadget cannot be pulled down")
  else
    call (Usleep kDisconnectWaitUs);;
    ok ← call (WriteStringToFile kGadgetName PULLUP_PATH);
    if negb ok then
      gadget_notify callback (resetCb GadgetStatus.ERROR in_transactionId);;
      mret (ServiceSpecificError (-1) "Gadget cannot be pulled up")
    else
      gadget_notify callback (resetCb GadgetStatus.SUCCESS in_transactionId);;
      mret BinderOk.

Definition tearDownGadget : M GadgetStatus.t :=
  status ← call ResetGadget;
  if bool_decide (status <> GadgetStatus.SUCCESS) then mret GadgetStatus.ERROR
  else
    running ← call MonitorRunning;
    when running (call MonitorReset);;
    mret GadgetStatus.SUCCESS.

(** ** Vendor and product ids *)

(** The cases of the switch: which combinations of functions there are. *)
Definition combo (l : list GadgetFunction.t) : Z := fold_right (fun f m => Z.lor (GF f) m) 0 l.

Definition plain_vendor (vendorFunctions : string) : bool :=
  streq vendorFunctions "user" || streq vendorFunctions "".

Section vid_pid.
Import GadgetFunction.

Definition validateAndSetVidPid (functions : Z) : M GadgetStatus.t :=
  vendorFunctions ← call GetVendorFunctions;
  let only l := functions =? combo l in
  let set vid pid : M GadgetStatus.t := call (SetVidPid vid pid) in
  let user_only (m : M GadgetStatus.t) : M GadgetStatus.t :=
    if negb (plain_vendor vendorFunctions) then mret GadgetStatus.CONFIGURATION_NOT_SUPPORTED else m in
  let uvc (m : M GadgetStatus.t) : M GadgetStatus.t :=
    user_only (
      enabled ← call (GetBoolProperty kUvcEnabled false);
      if negb enabled then mret GadgetStatus.CONFIGURATION_NOT_SUPPORTED else m) in
  if only [MTP] then user_only (set "0x18d1" "0x4ee1")
  else if only [ADB; MTP] then user_only (set "0x18d1" "0x4ee2")
  else if only [RNDIS] || only [RNDIS; NCM] then user_only (set "0x18d1" "0x4ee3")
  else if only [ADB; RNDIS] || only [ADB; RNDIS; NCM] then
    if streq vendorFunctions "dm" then set "0x04e8" "0x6862"
    else user_only (set "0x18d1" "0x4ee4")
  else if only [PTP] then user_only (set "0x18d1" "0x4ee5")
  else if only [ADB; PTP] then user_only (set "0x18d1" "0x4ee6")
  else if only [ADB] then
    if streq vendorFunctions "dm" then set "0x04e8" "0x6862"
    else if streq vendorFunctions "etr_miu" then set "0x18d1" "0x4ee2"
    else if streq vendorFunctions "uwb_acm" then set "0x18d1" "0x4ee2"
    else user_only (set "0x18d1" "0x4ee7")
  else if only [MIDI] then user_only (set "0x18d1" "0x4ee8")
  else if only [ADB; MIDI] then user_only (set "0x18d1" "0x4ee9")
  else if only [ACCESSORY] then set "0x18d1" "0x2d00"
  else if only [ADB; ACCESSORY] then set "0x18d1" "0x2d01"
  else if only [AUDIO_SOURCE] then set "0x18d1" "0x2d02"
  else if only [ADB; AUDIO_SOURCE] then set "0x18d1" "0x2d03"
  else if only [ACCESSORY; AUDIO_SOURCE] then set "0x18d1" "0x2d04"
  else if only [ADB; ACCESSORY; AUDIO_SOURCE] then set "0x18d1" "0x2d05"
  else if only [NCM] then set "0x18d1" "0x4eeb"
  else if only [ADB; NCM] then
    if streq vendorFunctions "dm" then set "0x04e8" "0x6862"
    else set "0x18d1" "0x4eec"
  else if only [UVC] then uvc (set "0x18d1" "0x4eed")
  else if only [ADB; UVC] then uvc (set "0x18d1" "0x4eee")
  else mret GadgetStatus.CONFIGURATION_NOT_SUPPORTED.
End vid_pid.

(** ** Setting the functions *)

(** [(functions & GadgetFunction::f) != 0] *)
Definition has (functions : Z) (f : GadgetFunction.t) : bool := negb (Z.land functions (GF f) =? 0).

(** A sequence of [if (linkFunction(name, i++)) return Status::ERROR;]: whether
    none failed, and [i]. *)
Fixpoint link_all (names : list string) (i : Z) : M (bool * Z) :=
  match names with
  | [] => mret (true, i)
  | name :: names =>
      failed ← call (LinkFunction name i);
      if (failed : bool) then mret (false, i + 1) else link_all names (i + 1)
  end.

Definition vendor_links (vendorFunctions : string) (functions : Z) : list string :=
  if streq vendorFunctions "dm" then
    if has functions GadgetFunction.RNDIS then ["acm.gs6"; "dm.gs7"] else ["dm.gs7"; "acm.gs6"]
  else if streq vendorFunctions "etr_miu" then ["etr_miu.gs11"]
  else if streq vendorFunctions "uwb_acm" then ["acm.uwb0"]
  else [].

Definition setupFunctions (functions : Z) (callback : option Z) (timeout in_transactionId : Z) :
    M GadgetStatus.t :=
  '(status, ffsEnabled, i) ← call (AddGenericAndroidFunctions functions 0);
  if bool_decide (status <> GadgetStatus.SUCCESS) then mret GadgetStatus.ERROR else
  vendorFunctions ← call GetVendorFunctions;
  '(ok, i) ← link_all (vendor_links vendorFunctions functions) i;
  if negb ok then mret GadgetStatus.ERROR else
  '(status, ffsEnabled, i) ←
    (if has functions GadgetFunction.ADB then
       '(status, i) ← call (AddAdb i); mret (status, true, i)
     else mret (GadgetStatus.SUCCESS, ffsEnabled, i));
  if bool_decide (status <> GadgetStatus.SUCCESS) then mret GadgetStatus.ERROR else
  '(ok, i) ← link_all (if has functions GadgetFunction.NCM then ["ncm.gs9"] else []) i;
  if negb ok then mret GadgetStatus.ERROR else
  if negb ffsEnabled then
    ok ← call (WriteStringToFile kGadgetName PULLUP_PATH);
    if negb ok then mret GadgetStatus.ERROR
    else
      modify (set_mCurrentUsbFunctionsApplied true);;
      gadget_notify callback (setCurrentUsbFunctionsCb functions GadgetStatus.SUCCESS in_transactionId);;
      updateSdpEnumTimeout;;
      mret GadgetStatus.SUCCESS
  else
    call MonitorRegister;;
    call MonitorStart;;
    match callback with
    | Some who =>
        pullup ← call (MonitorWaitForPullUp timeout);
        ok ← call (GadgetCallback who (setCurrentUsbFunctionsCb functions
          (if (pullup : bool) then GadgetStatus.SUCCESS else GadgetStatus.ERROR) in_transactionId));
        mret (if (ok : bool) then GadgetStatus.SUCCESS else GadgetStatus.ERROR)
    | None => mret GadgetStatus.SUCCESS
    end.

(** The end of [setCurrentUsbFunctions] once the functions are set: interrupt
    affinity, and the current limit of accessories. *)
Definition move_irq (functions : Z) : M unit :=
  irq ← gets mGadgetIrqPath;
  when (negb (streq irq "")) (
    ok ← call (WriteStringToFile (if has functions GadgetFunction.NCM then BIG_CORE else MEDIUM_CORE) irq);
    mret tt).

Definition limit_accessory (functions : Z) (i2cPath : string) : M unit :=
  let limitPath := if streq i2cPath "" then "" else i2cPath // kAccessoryLimitCurrent in
  let enablePath := if streq i2cPath "" then "" else i2cPath // kAccessoryLimitCurrentEnable in
  type ← call (ReadFileToString CURRENT_USB_TYPE_PATH);
  mode ← call (ReadFileToString CURRENT_USB_POWER_OPERATION_MODE_PATH);
  let current_usb_type := match type with Some s => Trim s | None => "" end in
  let operation_mode := match mode with Some s => Trim s | None => "" end in
  if has functions GadgetFunction.ACCESSORY &&
     streq current_usb_type "Unknown SDP [CDP] DCP" &&
     (streq operation_mode "default" || streq operation_mode "1.5A") then
    if streq limitPath "" then mret tt
    else
      ok ← call (WriteStringToFile "1300000" limitPath);
      when (ok && negb (streq enablePath "")) (ok ← call (WriteStringToFile "1" enablePath); mret tt)
  else when (negb (streq enablePath "")) (ok ← call (WriteStringToFile "0" enablePath); mret tt).

Definition setCurrentUsbFunctions (functions : Z) (callback : option Z) (timeout in_transactionId : Z) :
    M binder_status :=
  modify (set_mCurrentUsbFunctions functions);;
  modify (set_mCurrentUsbFunctionsApplied false);;
  i2cPath ← getI2cClientPath;
  irq ← gets mGadgetIrqPath;
  (if streq irq "" then st ← getUsbGadgetIrqPath; mret tt else mret tt);;
  let error (status : GadgetStatus.t) : M binder_status :=
    match callback with
    | None => mret (ServiceSpecificError (-1) "Usb Gadget setcurrent functions failed")
    | Some who =>
        ok ← call (GadgetCallback who (setCurrentUsbFunctionsCb functions status in_transactionId));
        mret (ServiceSpecificError (-1) "Error while calling setCurrentUsbFunctionsCb")
    end in
  status ← tearDownGadget;
  if bool_decide (status <> GadgetStatus.SUCCESS) then error status
  else
    call (Usleep kDisconnectWaitUs);;
    if functions =? GF_NONE then
      match callback with
      | None => mret (ServiceSpecificError (-1) "callback == NULL")
      | Some who =>
          ok ← call (GadgetCallback who
            (setCurrentUsbFunctionsCb functions GadgetStatus.SUCCESS in_transactionId));
          mret (ServiceSpecificError (-1) "Error while calling setCurrentUsbFunctionsCb")
      end
    else
      status ← validateAndSetVidPid functions;
      if bool_decide (status <> GadgetStatus.SUCCESS) then error status
      else
        status ← setupFunctions functions callback (wrapU 64 timeout) in_transactionId;
        if bool_decide (status <> GadgetStatus.SUCCESS) then error status
        else
          move_irq functions;;
          limit_accessory functions i2cPath;;
          mret BinderOk.
End gadget.
