(* ===== verification/GadgetProps.v ===== *)
(** * Properties of the USB gadget service *)
From stdpp Require Import gmap.
From S2P Require Import Prelude CString Effects Aidl Platform Sim Gadget.
From S2P Require I2cPath.
Open Scope Z_scope.

(** ** The interrupt of the controller *)

(** The complete lines of a text: the pieces that end in a line feed. *)
Fixpoint lines (s : string) : list string :=
  match s with
  | EmptyString => []
  | String c s =>
      if Ascii.eqb c LF then "" :: lines s
      else match lines s with [] => [] | x :: l => String c x :: l end
  end.

(** The first line of the controller decides. *)
Definition irq_path {GP : GadgetPlatform} (irqs : string) : option string :=
  match List.find (fun l => bool_decide (is_Some (find_sub "dwc3" l))) (lines irqs) with
  | Some l =>
      match ParseUint (irq_name l) with
      | Some _ => Some (kProcIrqPath +:+ irq_name l +:+ kSmpAffinityList)
      | None => None
      end
  | None => None
  end.

Lemma sdrop_sdrop n m s : sdrop n (sdrop m s) = sdrop (m + n) s.
Proof. revert s. induction m as [|m IH]; intros s; [by rewrite sdrop_0|]. destruct s as [|c s]; [by destruct n|]. simpl. apply IH. Qed.
Lemma strlen_sdrop n s : strlen (sdrop n s) = (strlen s - n)%nat.
Proof. revert s. induction n as [|n IH]; intros [|c s]; simpl; auto. Qed.

Lemma lines_first t :
  lines t = match find_char LF t with Some i => stake i t :: lines (sdrop (i + 1) t) | None => [] end.
Proof.
  induction t as [|c t IH]; [done|]. simpl. destruct (Ascii.eqb c LF); simpl.
  - done.
  - rewrite IH. by destruct (find_char LF t).
Qed.
Lemma find_char_bound c t i : find_char c t = Some i -> (i < strlen t)%nat.
Proof.
  revert i. induction t as [|d t IH]; intros i; simpl; [done|]. destruct (Ascii.eqb d c).
  - intros [= <-]. lia.
  - destruct (find_char c t) as [j|]; [|done]. intros [= <-]. specialize (IH j eq_refl). lia.
Qed.

Section irq.
Context {GP : GadgetPlatform}.

Lemma find_irq_spec fuel irqs pos :
  (strlen (sdrop pos irqs) < fuel)%nat ->
  find_irq fuel irqs pos = Some (irq_path (sdrop pos irqs)).
Proof.
  revert pos. induction fuel as [|fuel IH]; intros pos Hf; [lia|]. cbn [find_irq].
  unfold find_first_of, irq_path. rewrite lines_first.
  destruct (find_char LF (sdrop pos irqs)) as [i|] eqn:E; simpl; [|done].
  unfold substr. replace (pos + i - pos)%nat with i by lia.
  destruct (find_sub "dwc3" (stake i (sdrop pos irqs))) as [j|] eqn:Ej.
  - rewrite bool_decide_true by (by eexists). by destruct (ParseUint _).
  - rewrite bool_decide_false by (by intros [? ?]). apply find_char_bound in E.
    rewrite IH.
    + unfold irq_path. rewrite sdrop_sdrop, Nat.add_assoc. done.
    + rewrite <- Nat.add_assoc, <- sdrop_sdrop, strlen_sdrop. lia.
Qed.
End irq.

#[local] Arguments find_irq : simpl never.

Section gadget.
Context {PLAT : Platform} {GP : GadgetPlatform} {K : Type} `{!Oracle answer K}.
Implicit Types w : world K UsbGadget.

Lemma irq_spec w :
  wp getUsbGadgetIrqPath (fun st w' tr => exists r, tr = [Ev (ReadFileToString kProcInterruptsPath) r] /\
    match match r with Some irqs => irq_path irqs | None => None end with
    | Some path => st = GadgetStatus.SUCCESS /\ self w' = set_mGadgetIrqPath path (self w)
    | None => st = GadgetStatus.ERROR /\ self w' = self w
    end) (fun _ _ => False) w.
Proof.
  unfold getUsbGadgetIrqPath. do 2 wp_step. destruct r as [irqs|].
  - rewrite find_irq_spec by (rewrite sdrop_0; lia). rewrite sdrop_0. simpl.
    destruct (irq_path irqs) eqn:E; wp_run; eexists; (split; [done|]); simpl; by rewrite E.
  - wp_run. by exists None.
Qed.

(** C19: The scan of /proc/interrupts always ends, within the text, and finds
    what the lines say: the path is built from the first complete line that
    mentions "dwc3", if the text before its first colon is a number; otherwise
    the answer is ERROR and nothing changes. *)
Theorem getUsbGadgetIrqPath_correct w :
  wp getUsbGadgetIrqPath (fun st w' tr => exists r, tr = [Ev (ReadFileToString kProcInterruptsPath) r] /\
    match match r with Some irqs => irq_path irqs | None => None end with
    | Some path => st = GadgetStatus.SUCCESS /\ self w' = set_mGadgetIrqPath path (self w)
    | None => st = GadgetStatus.ERROR /\ self w' = self w
    end) (fun _ _ => False) w.
Proof. apply irq_spec. Qed.
End gadget.

(** ** Combinations of functions *)
Section combos.
Context {GP : GadgetPlatform}.

Definition all_functions : list GadgetFunction.t :=
  [GadgetFunction.ADB; GadgetFunction.ACCESSORY; GadgetFunction.MTP; GadgetFunction.MIDI;
   GadgetFunction.PTP; GadgetFunction.RNDIS; GadgetFunction.AUDIO_SOURCE; GadgetFunction.UVC;
   GadgetFunction.NCM].
Definition same_functions (l l' : list GadgetFunction.t) : bool :=
  forallb (fun f => Bool.eqb (bool_decide (f ∈ l)) (bool_decide (f ∈ l'))) all_functions.

Lemma same_functions_spec l l' : same_functions l l' = true <-> forall f, f ∈ l <-> f ∈ l'.
Proof.
  unfold same_functions. rewrite forallb_forall. split.
  - intros H f. assert (In f all_functions) as Hf by (destruct f; simpl; tauto).
    apply H, eqb_prop in Hf. rewrite <- (bool_decide_eq_true (f ∈ l)), Hf. apply bool_decide_eq_true.
  - intros H f _. apply eqb_true_iff. by apply bool_decide_ext.
Qed.

Lemma testbit_combo (pos : GadgetFunction.t -> Z) l f :
  Inj (=) (=) pos -> (forall f, 0 <= pos f < 63 /\ GF f = 2 ^ pos f) ->
  Z.testbit (combo l) (pos f) = bool_decide (f ∈ l).
Proof.
  intros Hinj Hpos. induction l as [|g l IH]; cbn [combo fold_right]; [by rewrite Z.bits_0|].
  fold (combo l). rewrite Z.lor_spec, IH, (proj2 (Hpos g)), Z.pow2_bits_eqb by apply Hpos.
  destruct (Z.eqb_spec (pos g) (pos f)) as [E|E].
  - apply Hinj in E as ->. by rewrite (bool_decide_true (f ∈ f :: l)) by left.
  - simpl. apply bool_decide_ext. rewrite elem_of_cons. split; [by right|].
    intros [->|?]; [by destruct E|done].
Qed.

Lemma testbit_combo_any l n : Z.testbit (combo l) n = existsb (fun f => Z.testbit (GF f) n) l.
Proof.
  induction l as [|f l IH]; cbn [combo fold_right existsb]; [by rewrite Z.bits_0|].
  fold (combo l). by rewrite Z.lor_spec, IH.
Qed.

(** Two combinations are the same number when they have the same functions. *)
Lemma combo_eqb l l' : gadget_bits -> (combo l =? combo l') = same_functions l l'.
Proof.
  intros (_ & pos & Hinj & Hpos). apply eq_true_iff_eq. rewrite Z.eqb_eq, same_functions_spec. split.
  - intros Heq f. pose proof (testbit_combo pos l f Hinj Hpos) as H.
    rewrite Heq, (testbit_combo pos l' f Hinj Hpos) in H.
    by rewrite <- (bool_decide_eq_true (f ∈ l)), <- (bool_decide_eq_true (f ∈ l')), H.
  - intros E. apply Z.bits_inj'. intros n _. apply eq_true_iff_eq.
    rewrite !testbit_combo_any, !existsb_exists.
    split; intros (f & Hf & Hb); exists f; (split; [|done]); apply list_elem_of_In, E, list_elem_of_In, Hf.
Qed.
End combos.

(** ** Vendor and product ids *)

(** The combinations the service knows: the functions, whether only the plain
    vendor setting allows them, whether they need the UVC property, and the
    product id; the vendor id is Google's. *)
Record row := Row { row_functions : list GadgetFunction.t; row_plain : bool; row_uvc : bool; row_pid : string }.
Section table.
Import GadgetFunction.
Definition vid_pid_table : list row :=
  [Row [MTP] true false "0x4ee1"; Row [ADB; MTP] true false "0x4ee2";
   Row [RNDIS] true false "0x4ee3"; Row [RNDIS; NCM] true false "0x4ee3";
   Row [ADB; RNDIS] true false "0x4ee4"; Row [ADB; RNDIS; NCM] true false "0x4ee4";
   Row [PTP] true false "0x4ee5"; Row [ADB; PTP] true false "0x4ee6"; Row [ADB] true false "0x4ee7";
   Row [MIDI] true false "0x4ee8"; Row [ADB; MIDI] true false "0x4ee9";
   Row [ACCESSORY] false false "0x2d00"; Row [ADB; ACCESSORY] false false "0x2d01";
   Row [AUDIO_SOURCE] false false "0x2d02"; Row [ADB; AUDIO_SOURCE] false false "0x2d03";
   Row [ACCESSORY; AUDIO_SOURCE] false false "0x2d04";
   Row [ADB; ACCESSORY; AUDIO_SOURCE] false false "0x2d05";
   Row [NCM] false false "0x4eeb"; Row [ADB; NCM] false false "0x4eec";
   Row [UVC] true true "0x4eed"; Row [ADB; UVC] true true "0x4eee"].
(** What special vendor settings do instead. *)
Definition vendor_ids (l : list GadgetFunction.t) (vendor : string) : option (string * string) :=
  if same_functions l [ADB; RNDIS] || same_functions l [ADB; RNDIS; NCM] || same_functions l [ADB] ||
     same_functions l [ADB; NCM]
  then
    if streq vendor "dm" then Some ("0x04e8", "0x6862")
    else if same_functions l [ADB] && (streq vendor "etr_miu" || streq vendor "uwb_acm")
    then Some ("0x18d1", "0x4ee2") else None
  else None.
End table.
Definition row_ids (r : row) (vendor : string) (uvc : bool) : option (string * string) :=
  match vendor_ids (row_functions r) vendor with
  | Some ids => Some ids
  | None =>
      if (row_plain r && negb (plain_vendor vendor)) || (row_uvc r && negb uvc) then None
      else Some ("0x18d1", row_pid r)
  end.

(** The ids set during a run, with the library's answers. *)
Definition ids_of (e : event answer) : option (string * string * GadgetStatus.t) :=
  match e with
  | Ev q r =>
      match q return answer q -> option (string * string * GadgetStatus.t) with
      | SetVidPid vid pid => fun st => Some (vid, pid, st)
      | _ => fun _ => None
      end r
  end.
Definition ids_set (t : trace) : list (string * string * GadgetStatus.t) := omap ids_of t.

(** Whether the UVC property was read and is set. *)
Definition uvc_of (e : event answer) : bool :=
  match e with
  | Ev q r => match q return answer q -> bool with GetBoolProperty _ _ => fun b => b | _ => fun _ => false end r
  end.
Definition uvc_on (t : trace) : bool := existsb uvc_of t.

Section ids.
Context {PLAT : Platform} {GP : GadgetPlatform} {K : Type} `{!Oracle answer K}.
Implicit Types w : world K UsbGadget.

(** What one row of the table calls for. *)
Definition follows_row (r : row) (vendor : string) (st : GadgetStatus.t) (tr : trace) : Prop :=
  match row_ids r vendor (uvc_on tr) with
  | Some (vid, pid) => ids_set tr = [(vid, pid, st)]
  | None => ids_set tr = [] /\ st = GadgetStatus.CONFIGURATION_NOT_SUPPORTED
  end.

Lemma table_rows_distinct r r' :
  r ∈ vid_pid_table -> r' ∈ vid_pid_table -> same_functions (row_functions r) (row_functions r') = true -> r = r'.
Proof.
  intros Hr Hr'. 
  assert (forall r, r ∈ vid_pid_table -> forall r', r' ∈ vid_pid_table ->
    same_functions (row_functions r) (row_functions r') = true -> row_pid r = row_pid r' /\
      row_functions r = row_functions r' /\ row_plain r = row_plain r' /\ row_uvc r = row_uvc r') as H.
  { clear. intros r Hr r' Hr'.
    repeat (apply elem_of_cons in Hr as [->|Hr];
      [repeat (apply elem_of_cons in Hr' as [->|Hr']; [vm_compute; intros; first [done|discriminate]|]);
       by apply elem_of_nil in Hr'|]). by apply elem_of_nil in Hr. }
  intros Hs. destruct (H r Hr r' Hr' Hs) as (H1 & H2 & H3 & H4). destruct r, r'. simpl in *. congruence.
Qed.

Lemma validate_row r w :
  gadget_bits -> r ∈ vid_pid_table ->
  wp (validateAndSetVidPid (combo (row_functions r))) (fun st w' tr => self w' = self w /\
    exists vendor, head tr = Some (Ev GetVendorFunctions vendor) /\ follows_row r vendor st tr)
    (fun _ _ => False) w.
Proof.
  intros bits Hr. unfold validateAndSetVidPid, follows_row, row_ids, vendor_ids.
  repeat (apply elem_of_cons in Hr as [->|Hr]; [cbn [row_functions row_plain row_uvc row_pid]; rewrite !combo_eqb by done;
    repeat match goal with |- context [same_functions ?a ?b] =>
      let v := eval vm_compute in (same_functions a b) in change (same_functions a b) with v end;
    cbn [orb andb negb]; wp_run|]).
  all: try (by apply elem_of_nil in Hr).
  all: match goal with |- _ /\ _ => split; [done|eexists; split; [done|]] | _ => idtac end.
  all: unfold uvc_on; cbn [existsb uvc_of]; rewrite ?orb_false_r.
  all: repeat match goal with H : _ = true |- _ => rewrite ?H; clear H | H : _ = false |- _ => rewrite ?H; clear H end.
  all: by simpl.
Qed.

Lemma validate_other functions w :
  (forall r, r ∈ vid_pid_table -> functions <> combo (row_functions r)) ->
  wp (validateAndSetVidPid functions) (fun st w' tr => self w' = self w /\
    (exists vendor, tr = [Ev GetVendorFunctions vendor]) /\ st = GadgetStatus.CONFIGURATION_NOT_SUPPORTED)
    (fun _ _ => False) w.
Proof.
  intros Hno. unfold validateAndSetVidPid.
  assert (forall l, l ∈ map row_functions vid_pid_table -> (functions =? combo l) = false) as H.
  { intros l (r & -> & Hr)%list_elem_of_fmap. by apply Z.eqb_neq, Hno. }
  rewrite !H by (apply list_elem_of_In; simpl; tauto). wp_run. eauto.
Qed.

(** C8: The ids the gadget gets are those of the table above: a combination
    of functions that is a row has its vendor and product ids set, exactly
    once, unless a vendor setting or the UVC property forbids or replaces them,
    and the answer is the library's; any other combination sets nothing and is
    refused.  The answer is in each case the status, and no state changes. *)
Theorem validateAndSetVidPid_correct functions w :
  gadget_bits ->
  wp (validateAndSetVidPid functions) (fun st w' tr => self w' = self w /\
    exists vendor, head tr = Some (Ev GetVendorFunctions vendor) /\
      ((exists r, r ∈ vid_pid_table /\ functions = combo (row_functions r) /\ follows_row r vendor st tr) \/
       ((forall r, r ∈ vid_pid_table -> functions <> combo (row_functions r)) /\
        ids_set tr = [] /\ st = GadgetStatus.CONFIGURATION_NOT_SUPPORTED)))
    (fun _ _ => False) w.
Proof.
  intros bits. destruct (decide (Exists (fun r => functions = combo (row_functions r)) vid_pid_table)) as [H|H].
  - apply Exists_exists in H as (r & Hr & ->). eapply wp_mono; [by apply validate_row| |done].
    simpl. intros st w' tr (Hself & vendor & Hhd & Hrow). split; [done|]. eauto 10.
  - assert (forall r, r ∈ vid_pid_table -> functions <> combo (row_functions r)) as Hno.
    { intros r Hr E. apply H, Exists_exists. eauto. }
    eapply wp_mono; [by apply validate_other| |done].
    simpl. intros st w' tr (Hself & (vendor & ->) & ->). split; [done|]. exists vendor. eauto.
Qed.
End ids.

(** ** Setting the functions *)

(** What a caller and the host can see of a run: the gadget taken down, the
    ids set, the callbacks, each with the answer. *)
Inductive gstep :=
| WasReset (s : GadgetStatus.t)
| IdsSet (vid pid : string) (s : GadgetStatus.t)
| Told (who : Z) (c : gadget_callback) (ok : bool).
Definition gstep_of (e : event answer) : option gstep :=
  match e with
  | Ev q r =>
      match q return answer q -> option gstep with
      | ResetGadget => fun s => Some (WasReset s)
      | SetVidPid vid pid => fun s => Some (IdsSet vid pid s)
      | GadgetCallback who c => fun ok => Some (Told who c ok)
      | _ => fun _ => None
      end r
  end.
Definition gsteps (t : trace) : list gstep := omap gstep_of t.
Definition silent (e : event answer) : Prop := gstep_of e = None.

Lemma gsteps_app t1 t2 : gsteps (t1 ++ t2) = gsteps t1 ++ gsteps t2.
Proof. apply omap_app. Qed.
Lemma gsteps_cons e t : gsteps (e :: t) = match gstep_of e with Some x => x :: gsteps t | None => gsteps t end.
Proof. done. Qed.
Lemma gsteps_silent t : Forall silent t -> gsteps t = [].
Proof. apply omap_none. Qed.
#[local] Hint Rewrite gsteps_app gsteps_cons : trace.

(** What the operations below leave alone. *)
Definition stable (s : UsbGadget) : Z * UsbSpeed.t := (mCurrentUsbFunctions s, mUsbSpeed s).

Section setting.
Context {PLAT : Platform} {GP : GadgetPlatform} {K : Type} `{!Oracle answer K}.
Implicit Types w : world K UsbGadget.

Lemma wp_silent {A} (m : prog K UsbGadget A) Φ Ψ w :
  emits silent A m -> frames (keeps stable) A m -> wp m (fun _ _ _ => True) (fun _ _ => False) w ->
  (forall a w' t, gsteps t = [] -> stable (self w') = stable (self w) -> Φ a w' t) ->
  wp m Φ Ψ w.
Proof.
  intros Hi Hf Hw HΦ. specialize (Hi w). unfold wp in *.
  destruct (m w) as [a w' t|] eqn:E; [|done]. apply HΦ; [by apply gsteps_silent|by eapply Hf].
Qed.

Lemma link_all_silent names i : emits silent _ (link_all (K:=K) names i).
Proof. revert i. induction names as [|n names IH]; intros i; simpl; walk. all: done. Qed.
Lemma link_all_stable names i : frames (keeps stable) _ (link_all (K:=K) names i).
Proof. revert i. induction names as [|n names IH]; intros i; simpl; walk. all: done. Qed.
Lemma link_all_returns names i w : wp (link_all names i) (fun _ _ _ => True) (fun _ _ => False) w.
Proof.
  revert i w. induction names as [|n names IH]; intros i w; cbn [link_all]; wp_run; [done..|].
  eapply wp_mono; [apply IH|done..].
Qed.

Lemma i2c_silent : emits silent _ (getI2cClientPath (K:=K)).
Proof. eapply emits_mono; [|apply I2cPath.getI2cClientPath_emits]. by intros [[] r]. Qed.
Lemma i2c_stable : frames (keeps stable) _ (getI2cClientPath (K:=K)).
Proof. by apply I2cPath.i2c_frames. Qed.
Lemma i2c_returns w : wp getI2cClientPath (fun _ _ _ => True) (fun _ _ => False) w.
Proof. eapply wp_mono; [apply I2cPath.getI2cClientPath_cache|done..]. Qed.

Lemma timeout_silent : emits silent _ (updateSdpEnumTimeout (K:=K)).
Proof. unfold updateSdpEnumTimeout. walk. all: first [done|apply i2c_silent]. Qed.
Lemma timeout_stable : frames (keeps stable) _ (updateSdpEnumTimeout (K:=K)).
Proof. unfold updateSdpEnumTimeout. walk. all: first [done|apply i2c_stable]. Qed.
Lemma timeout_returns w : wp updateSdpEnumTimeout (fun _ _ _ => True) (fun _ _ => False) w.
Proof.
  unfold updateSdpEnumTimeout. wp_step. eapply wp_mono; [apply i2c_returns| |done].
  intros p w' t _. by wp_run.
Qed.

(** How the callback is told, if there is one. *)
Definition tells (callback : option Z) (functions : Z) (s : GadgetStatus.t) (id : Z) (ok : bool) : list gstep :=
  match callback with
  | Some who => [Told who (setCurrentUsbFunctionsCb functions s id) ok]
  | None => []
  end.

(** A part of a run that tells nobody anything. *)
#[local] Ltac silently Hs Hf Hr :=
  apply wp_silent; [apply Hs|apply Hf|apply Hr|];
  let k := fresh "k" in let s := fresh "s" in let t := fresh "t" in
  let G := fresh "G" in let S := fresh "S" in intros ? [k s] t G S; cbn [self] in *.
(** The end of a run: read the steps off the trace. *)
#[local] Ltac gsteps :=
  autorewrite with trace; repeat match goal with H : gsteps _ = _ |- _ => rewrite H end; cbn [gstep_of app].
#[local] Ltac stable_done := unfold stable in *; simpl in *; congruence.

Lemma setup_spec functions callback timeout id w :
  wp (setupFunctions functions callback timeout id) (fun st w' t =>
    stable (self w') = stable (self w) /\
    ((st = GadgetStatus.SUCCESS /\ exists s ok, gsteps t = tells callback functions s id ok) \/
     (st = GadgetStatus.ERROR /\ (gsteps t = [] \/ exists s, gsteps t = tells callback functions s id false))))
    (fun _ _ => False) w.
Proof.
  unfold setupFunctions, gadget_notify. wp_step. wp_step. destruct r as [[st1 ffs] i1]. wp_step; [wp_run; by auto|].
  do 3 wp_step. silently link_all_silent link_all_stable link_all_returns.
  destruct a as [ok1 i2]. destruct ok1; cbn [negb]; [|wp_run; split; [done|]; right; split; [done|]; left; by gsteps].
  wp_step. eapply wp_mono with (Φ := fun _ w' t' => self w' = s /\ gsteps t' = []) (Ψ := fun _ _ => False); [by wp_run| |done].
  intros [[st3 ffs3] i3] [k3 s3] t3 [E3 G3]. cbn [self] in *. subst s3.
  wp_step; [wp_run; split; [stable_done|]; right; split; [done|]; left; by gsteps|].
  wp_step. silently link_all_silent link_all_stable link_all_returns.
  destruct a as [ok4 i4]. destruct ok4; cbn [negb]; [|wp_run; split; [stable_done|]; right; split; [done|]; left; by gsteps].
  destruct ffs3; cbn [negb].
  - wp_run; (split; [stable_done|]).
    + match goal with |- context [Ev (GadgetCallback _ _) ?b] => destruct b end; [left|right]; (split; [done|]);
        [eexists _, _|right; eexists]; by gsteps.
    + left. split; [done|]. exists GadgetStatus.SUCCESS, true. by gsteps.
  - wp_step. wp_step. wp_step; [wp_run; split; [stable_done|]; right; split; [done|]; left; by gsteps|].
    do 2 wp_step. 
    wp_step. eapply wp_mono with (Φ := fun _ w' t' => stable (self w') = stable s0 /\ exists ok, gsteps t' = tells callback functions GadgetStatus.SUCCESS id ok) (Ψ := fun _ _ => False).
    + wp_run; (split; [done|]); by eexists.
    + intros _ [k5 s5] t5 [S5 [ok5 G5]]. wp_step. silently timeout_silent timeout_stable timeout_returns.
      wp_run. split; [stable_done|]. left. split; [done|]. eexists _, _. gsteps. by rewrite ?app_nil_r.
    + done.
Qed.

Lemma validate_steps functions w :
  wp (validateAndSetVidPid functions) (fun st w' t => self w' = self w /\
    ((gsteps t = [] /\ st = GadgetStatus.CONFIGURATION_NOT_SUPPORTED) \/
     exists vid pid, gsteps t = [IdsSet vid pid st])) (fun _ _ => False) w.
Proof.
  unfold validateAndSetVidPid. generalize (fun l => functions =? combo l) as only. intros only.
  wp_run. all: split; [done|]. all: first [by left|right; eexists _, _; by gsteps].
Qed.

Lemma move_irq_silent functions : emits silent _ (move_irq (K:=K) functions).
Proof. unfold move_irq. by walk. Qed.
Lemma move_irq_stable functions : frames (keeps stable) _ (move_irq (K:=K) functions).
Proof. unfold move_irq. by walk. Qed.
Lemma move_irq_returns functions w : wp (move_irq functions) (fun _ _ _ => True) (fun _ _ => False) w.
Proof. unfold move_irq. by wp_run. Qed.
Lemma limit_silent functions p : emits silent _ (limit_accessory (K:=K) functions p).
Proof. unfold limit_accessory. by walk. Qed.
Lemma limit_stable functions p : frames (keeps stable) _ (limit_accessory (K:=K) functions p).
Proof. unfold limit_accessory. by walk. Qed.
Lemma limit_returns functions p w : wp (limit_accessory functions p) (fun _ _ _ => True) (fun _ _ => False) w.
Proof. unfold limit_accessory. by wp_run. Qed.
Lemma irq_silent : emits silent _ (getUsbGadgetIrqPath (K:=K)).
Proof. unfold getUsbGadgetIrqPath. by walk. Qed.
Lemma irq_stable : frames (keeps stable) _ (getUsbGadgetIrqPath (K:=K)).
Proof. unfold getUsbGadgetIrqPath. by walk. Qed.
Lemma irq_returns w : wp getUsbGadgetIrqPath (fun _ _ _ => True) (fun _ _ => False) w.
Proof. eapply wp_mono; [apply irq_spec|done..]. Qed.

(** The possible courses of a request to set the functions, and their results. *)
Inductive course (functions : Z) (callback : option Z) (id : Z) : list gstep -> binder_status -> Prop :=
| reset_failed s ok msg :
    s <> GadgetStatus.SUCCESS ->
    course functions callback id
      (WasReset s :: tells callback functions GadgetStatus.ERROR id ok) (ServiceSpecificError (-1) msg)
| cleared ok msg :
    functions = GF_NONE ->
    course functions callback id
      (WasReset GadgetStatus.SUCCESS :: tells callback functions GadgetStatus.SUCCESS id ok)
      (ServiceSpecificError (-1) msg)
| refused ok msg :
    functions <> GF_NONE ->
    course functions callback id
      (WasReset GadgetStatus.SUCCESS ::
         tells callback functions GadgetStatus.CONFIGURATION_NOT_SUPPORTED id ok)
      (ServiceSpecificError (-1) msg)
| ids_failed vid pid s ok msg :
    functions <> GF_NONE -> s <> GadgetStatus.SUCCESS ->
    course functions callback id
      (WasReset GadgetStatus.SUCCESS :: IdsSet vid pid s :: tells callback functions s id ok)
      (ServiceSpecificError (-1) msg)
| setup_failed vid pid told ok msg :
    functions <> GF_NONE -> told = [] \/ (exists s, told = tells callback functions s id false) ->
    course functions callback id
      (WasReset GadgetStatus.SUCCESS :: IdsSet vid pid GadgetStatus.SUCCESS ::
         told ++ tells callback functions GadgetStatus.ERROR id ok)
      (ServiceSpecificError (-1) msg)
| applied vid pid s ok :
    functions <> GF_NONE ->
    course functions callback id
      (WasReset GadgetStatus.SUCCESS :: IdsSet vid pid GadgetStatus.SUCCESS ::
         tells callback functions s id ok)
      BinderOk.

Lemma tell_failure callback functions s id msg0 msg1 w :
  wp (match callback with
      | None => mret (ServiceSpecificError (-1) msg0)
      | Some who =>
          ok ← call (GadgetCallback who (setCurrentUsbFunctionsCb functions s id));
          mret (ServiceSpecificError (-1) msg1)
      end) (fun st w' t => self w' = self w /\ (exists msg, st = ServiceSpecificError (-1) msg) /\
              exists ok, gsteps t = tells callback functions s id ok) (fun _ _ => False) w.
Proof. wp_run; (split; [done|]; split; [by eexists|]); [by eexists|by exists true]. Qed.

Lemma teardown_steps w :
  wp tearDownGadget (fun st w' t => self w' = self w /\ exists s, gsteps t = [WasReset s] /\
    st = if bool_decide (s <> GadgetStatus.SUCCESS) then GadgetStatus.ERROR else GadgetStatus.SUCCESS)
    (fun _ _ => False) w.
Proof.
  unfold tearDownGadget. wp_run; (split; [done|]; eexists; split; [by gsteps|]);
    by repeat match goal with H : bool_decide _ = _ |- _ => rewrite H; clear H end.
Qed.

(** C6: A request to set the functions never crashes, records the functions it
    was asked for, and takes one of the courses above: the gadget is always
    taken down first; ids are set only after that, at most once; the callback,
    if there is one, is told the functions and the request's id, once unless
    the call that should report the pull-up itself failed, and then once more
    with ERROR; and the answer is OK only for functions other than NONE whose
    ids were accepted. *)
Theorem setCurrentUsbFunctions_correct functions callback timeout id w :
  wp (setCurrentUsbFunctions functions callback timeout id) (fun st w' tr =>
    mCurrentUsbFunctions (self w') = functions /\ mUsbSpeed (self w') = mUsbSpeed (self w) /\
    course functions callback id (gsteps tr) st) (fun _ _ => False) w.
Proof.
  unfold setCurrentUsbFunctions. do 4 wp_step. wp_step. silently i2c_silent i2c_stable i2c_returns.
  do 3 wp_step.
  eapply wp_mono with (Φ := fun _ w' t' => gsteps t' = [] /\ stable (self w') = stable s) (Ψ := fun _ _ => False); [| |done].
  { wp_step; [|by wp_run]. wp_step. silently irq_silent irq_stable irq_returns. wp_run. split; [by gsteps|done]. }
  intros _ [k1 s1] t1 [G1 S1]. cbn [self] in *.
  wp_step. eapply wp_mono; [apply teardown_steps| |done].
  intros st2 [k2 s2] t2 [E2 (r2 & G2 & ->)]. cbn [self] in *. subst s2.
  destruct (bool_decide (r2 <> GadgetStatus.SUCCESS)) eqn:B2.
  { simpl. eapply wp_mono; [apply tell_failure| |done].
    intros st [k3 s3] t3 [E3 [[msg ->] [ok G3]]]. cbn [self] in *. subst s3.
    split; [stable_done|]. split; [stable_done|]. gsteps. apply reset_failed. by apply bool_decide_eq_true in B2. }
  apply bool_decide_eq_false, dec_stable in B2 as ->. simpl. do 2 wp_step.
  destruct (functions =? GF_NONE) eqn:EN.
  { eapply wp_mono; [apply tell_failure| |done].
    intros st [k3 s3] t3 [E3 [[msg ->] [ok G3]]]. cbn [self] in *. subst s3.
    split; [stable_done|]. split; [stable_done|]. gsteps. apply cleared. lia. }
  apply Z.eqb_neq in EN. wp_step. eapply wp_mono; [apply validate_steps| |done].
  intros st3 [k3 s3] t3 [E3 H3]. cbn [self] in *. subst s3.
  destruct (bool_decide (st3 <> GadgetStatus.SUCCESS)) eqn:B3.
  { eapply wp_mono; [apply tell_failure| |done].
    intros st [k4 s4] t4 [E4 [[msg ->] [ok G4]]]. cbn [self] in *. subst s4.
    split; [stable_done|]. split; [stable_done|]. apply bool_decide_eq_true in B3.
    destruct H3 as [[G3 ->]|(vid & pid & G3)]; gsteps; [by apply refused|by apply ids_failed]. }
  apply bool_decide_eq_false, dec_stable in B3 as ->. 
  destruct H3 as [[_ ?]|(vid & pid & G3)]; [done|].
  wp_step. eapply wp_mono; [apply setup_spec| |done].
  intros st5 [k5 s5] t5 [S5 H5]. cbn [self] in *.
  destruct H5 as [(-> & st & ok & G5)|(-> & H5)].
  - simpl. wp_step. silently move_irq_silent move_irq_stable move_irq_returns.
    wp_step. silently limit_silent limit_stable limit_returns. wp_run.
    split; [stable_done|]. split; [stable_done|]. gsteps. rewrite ?app_nil_r. simpl. by apply applied.
  - simpl. eapply wp_mono; [apply tell_failure| |done].
    intros st [k4 s4] t4 [E4 [[msg ->] [ok G4]]]. cbn [self] in *. subst s4.
    split; [stable_done|]. split; [stable_done|]. gsteps. apply setup_failed; [done|].
    destruct H5 as [->|[s' ->]]; eauto.
Qed.
End setting.

(** ** The current limit of accessories *)
Section accessory.
Context {PLAT : Platform} {GP : GadgetPlatform} {K : Type} `{!Oracle answer K}.
Implicit Types w : world K UsbGadget.

(** When the current is limited: an accessory on a charging port whose type-C
    advertisement allows no more. *)
Definition limits (functions : Z) (type mode : option string) : bool :=
  has functions GadgetFunction.ACCESSORY &&
  match type with Some s => streq (Trim s) "Unknown SDP [CDP] DCP" | None => false end &&
  match mode with Some s => streq (Trim s) "default" || streq (Trim s) "1.5A" | None => false end.

Lemma slash_nonempty p x : streq (p // x) "" = false.
Proof. apply streq_false. by destruct p. Qed.

#[local] Arguments String.append : simpl never.
#[local] Arguments limits : simpl never.
#[local] Arguments has : simpl never.

(** C28: [limit_accessory], the last step of a request, reads the charger type
    and the type-C mode once each, and then votes on the accessory current in
    the controller's directory: 1.3A and, if that was accepted, its enable
    flag when the limit applies; only the cleared flag otherwise; nothing when
    the controller was not found.  It changes no state. *)
Theorem limit_accessory_correct functions p w :
  wp (limit_accessory functions p) (fun _ w' tr => self w' = self w /\ exists type mode (ok ok' : bool),
    file_reads CURRENT_USB_TYPE_PATH tr = [type] /\
    file_reads CURRENT_USB_POWER_OPERATION_MODE_PATH tr = [mode] /\
    writes tr =
      if streq p "" then []
      else if limits functions type mode then
        ("1300000", p // kAccessoryLimitCurrent, ok) ::
        (if ok then [("1", p // kAccessoryLimitCurrentEnable, ok')] else [])
      else [("0", p // kAccessoryLimitCurrentEnable, ok)])
    (fun _ _ => False) w.
Proof.
  unfold limit_accessory. do 2 wp_step. rename r into type. wp_step. wp_step. rename r into mode.
  match goal with |- wp (if ?b then _ else _) _ _ _ => assert (b = limits functions type mode) as -> end.
  { unfold limits. destruct type, mode; by rewrite ?andb_false_r. }
  destruct (streq p "") eqn:Ep; simpl; rewrite ?slash_nonempty; destruct (limits functions type mode) eqn:El; wp_run.
  all: split; [done|]; exists type, mode; rewrite ?El.
  all: match goal with |- context [("1", _, ?ok2)] => exists true, ok2 | |- context [("0", _, ?ok)] => exists ok, ok | _ => exists false, false end.
  all: repeat match goal with H : ?x && _ = _ |- _ => destruct x; simpl in H end.
  all: done.
Qed.
End accessory.

(** ** A concrete library *)

(** Distinct bits for the functions, and a parser of decimal numbers after blanks. *)
Definition sim_bit (f : GadgetFunction.t) : Z :=
  match f with
  | GadgetFunction.ADB => 0 | GadgetFunction.ACCESSORY => 1 | GadgetFunction.MTP => 2
  | GadgetFunction.MIDI => 3 | GadgetFunction.PTP => 4 | GadgetFunction.RNDIS => 5
  | GadgetFunction.AUDIO_SOURCE => 6 | GadgetFunction.UVC => 7 | GadgetFunction.NCM => 10
  end.
#[export] Instance sim_gadget : GadgetPlatform := {|
  GF f := 2 ^ sim_bit f;
  GF_NONE := 0;
  OS_DESC_PATH := "/config/usb_gadget/g1/os_desc/b.1";
  kUvcEnabled := "ro.usb.uvc.enabled";
  kDisconnectWaitUs := 100000;
  ParseUint s := stoi s;
|}.
Lemma sim_gadget_bits : gadget_bits.
Proof.
  split; [done|]. exists sim_bit. split; [by intros [] []|]. intros []; simpl; lia.
Qed.

Definition gadget0 : UsbGadget := mkUsbGadget "" 0 false UsbSpeed.UNKNOWN I2cPath.fresh_i2c_cache.

(** The ids of tethering over USB with the debugger on. *)
Lemma validateAndSetVidPid_correct_witness :
  gadget_bits /\
  wp (validateAndSetVidPid (K:=sim) 1057) (fun st w' tr => self w' = gadget0 /\
    exists vendor, head tr = Some (Ev GetVendorFunctions vendor) /\
      ((exists r, r ∈ vid_pid_table /\ 1057 = combo (row_functions r) /\ follows_row r vendor st tr) \/
       ((forall r, r ∈ vid_pid_table -> 1057 <> combo (row_functions r)) /\
        ids_set tr = [] /\ st = GadgetStatus.CONFIGURATION_NOT_SUPPORTED)))
    (fun _ _ => False) (World sim0 gadget0).
Proof.
  split; [exact sim_gadget_bits|].
  exact (validateAndSetVidPid_correct (K:=sim) 1057 (World sim0 gadget0) sim_gadget_bits).
Defined.

(** What the service does with a NIC function, from /proc/interrupts to the
    affinity of the interrupt. *)
Example ncm_run :
  let k := sim_files [(kProcInterruptsPath, "           CPU0" +:+ String LF "294:  7 dwc3" +:+ String LF "");
                      (PULLUP_PATH, ""); ("/proc/irq/294/smp_affinity_list", "")] in
  let o := setCurrentUsbFunctions (K:=sim) 1024 (Some 1) 0 7 (World k gadget0) in
  gsteps (trace_of o) =
    [WasReset GadgetStatus.SUCCESS; IdsSet "0x18d1" "0x4eeb" GadgetStatus.SUCCESS;
     Told 1 (setCurrentUsbFunctionsCb 1024 GadgetStatus.SUCCESS 7) true] /\
  writes (trace_of o) =
    [(kGadgetName, PULLUP_PATH, true); (BIG_CORE, "/proc/irq/294/smp_affinity_list", true)].
Proof. split; vm_compute; reflexivity. Qed.
