(* ===== verification/Health.v ===== *)
(** * The health service

    health/Health.cpp: the storage lifetimes of the UFS device, the statistics
    of the block device, the battery update, and [main].  The file is compiled
    for the regular system ([__ANDROID_RECOVERY__] is not defined).  Its global
    variables are the state. *)
From S2P Require Import Prelude CString Effects.
Open Scope Z_scope.

(** ** Extracting integers from a stream *)

(** [stream >> n]: an open stream is its text, and whether it has failed.  A
    stream that could not be opened fails every extraction.  The extraction is
    that of the C++ standard: the longest prefix that can be a numeral is
    taken, zero is stored for none and the nearest limit for one out of range,
    both with failure.  Digit grouping, off in the "C" locale the service runs
    in, and the limit a library may put on the length of a numeral are not
    modelled. *)
Record istream := mkStream { text : string; failed : bool }.
Definition stream_of (o : option string) : istream :=
  match o with Some s => mkStream s false | None => mkStream "" true end.

(** What follows the longest run of digits. *)
Fixpoint after_digits (b : Z) (s : string) : string :=
  match s with
  | String c t => match digit b c with Some _ => after_digits b t | None => s end
  | EmptyString => ""
  end.
Definition is_digit (b : Z) (s : string) : bool :=
  match s with String c _ => match digit b c with Some _ => true | None => false end | EmptyString => false end.

(** The base of a numeral and its digits, as [%i] ([basefield] unset) and as
    [%d] do. *)
Definition numeral (auto : bool) (s : string) : Z * string :=
  if auto then
    match s with
    | String "0" (String "x" t) | String "0" (String "X" t) => (16, t)
    | String "0" _ => (8, s)
    | _ => (10, s)
    end
  else (10, s).

(** The new value of the variable, if it is assigned, and the stream after. *)
Definition extract (signed : bool) (w : Z) (auto : bool) (i : istream) : option Z * istream :=
  if failed i then (None, i)
  else
    let s := skip_space (text i) in
    if streq s "" then (None, mkStream "" true)
    else
      let '(neg, t) := strip_sign s in
      let '(b, t) := numeral auto t in
      let rest := after_digits b t in
      if negb (is_digit b t) then (Some 0, mkStream rest true)
      else
        let m := digits b 0 t in
        if signed then
          if (neg : bool) then
            if m <=? 2 ^ (w - 1) then (Some (- m), mkStream rest false)
            else (Some (- 2 ^ (w - 1)), mkStream rest true)
          else
            if m <? 2 ^ (w - 1) then (Some m, mkStream rest false)
            else (Some (2 ^ (w - 1) - 1), mkStream rest true)
        else
          if m <? 2 ^ w then (Some (if (neg : bool) then wrapU w (- m) else m), mkStream rest false)
          else (Some (2 ^ w - 1), mkStream rest true).

(** ** Data *)

(** android.hardware.health *)
Record StorageInfo := mkStorageInfo {
  info_version : string;
  info_eol : Z;
  info_lifetimeA : Z;
  info_lifetimeB : Z;
}.
Record DiskStats := mkDiskStats {
  reads : Z; readMerges : Z; readSectors : Z; readTicks : Z;
  writes : Z; writeMerges : Z; writeSectors : Z; writeTicks : Z;
  ioInFlight : Z; ioTicks : Z; ioInQueue : Z;
}.

(** What the generated AIDL code and libpixelhealth bring. *)
Class HealthPlatform := {
  HealthInfo : Type;
  batteryLevel : HealthInfo -> Z;
  default_StorageInfo : StorageInfo;
  default_DiskStats : DiskStats;
}.

Section requests.
Context {HP : HealthPlatform}.
Inductive request :=
| OpenRead (path : string)                       (* std::ifstream *)
| SystemNow
| WriteStringToFile (content path : string)
| Stat (path : string)
| InitHealthdConfig
| populateTcpmPsyName
| setWirelessNotSupported
| deviceHealth_update (h : HealthInfo)
| logBatteryProperties (h : HealthInfo)
| logShutdownVoltage (h : HealthInfo)
| onlineUpdate (h : HealthInfo)
| battDefender_update (h : HealthInfo)
| ChargerModeMain
| StartLoop.
Definition answer (q : request) : Type :=
  match q with
  | OpenRead _ => option string                   (* None: not open *)
  | SystemNow => Z                                (* microseconds since the epoch *)
  | WriteStringToFile _ _ => bool
  | Stat _ => bool                                (* 0 *)
  | InitHealthdConfig => list string              (* the ignorePowerSupplyNames it leaves *)
  | populateTcpmPsyName => string
  | deviceHealth_update _ | onlineUpdate _ | battDefender_update _ => HealthInfo
  | ChargerModeMain | StartLoop => Z
  | _ => unit
  end.
End requests.

Definition FG_DIR : string := "/sys/class/power_supply/battery".
Definition WLC_DIR : string := "/sys/class/power_supply/wireless".
Definition UFS_DIR : string := "/dev/sys/block/bootdevice".
Definition kUfsHealthEol : string := UFS_DIR +:+ "/health_descriptor/eol_info".
Definition kUfsHealthLifetimeA : string := UFS_DIR +:+ "/health_descriptor/life_time_estimation_a".
Definition kUfsHealthLifetimeB : string := UFS_DIR +:+ "/health_descriptor/life_time_estimation_b".
Definition kUfsVersion : string := UFS_DIR +:+ "/device_descriptor/specification_version".
Definition kDiskStatsFile : string := "/sys/block/sda/stat".
Definition kWlcCapacity : string := WLC_DIR +:+ "/capacity".
Definition kUfsQueryIntervalHours : Z := 24.
(** [duration_cast<hours>] of microseconds *)
Definition hours_of (us : Z) : Z := Z.quot us 3600000000.

(** The global variables. *)
Record Health := mkHealth {
  ufs_version : string;
  eol : Z;                    (* uint16_t, like the next two *)
  lifetimeA : Z;
  lifetimeB : Z;
  ufs_last_query_time : Z;
  needs_wlc_updates : bool;
}.
Definition set_ufs_version (v : string) (s : Health) : Health :=
  mkHealth v s.(eol) s.(lifetimeA) s.(lifetimeB) s.(ufs_last_query_time) s.(needs_wlc_updates).
Definition set_eol (v : Z) (s : Health) : Health :=
  mkHealth s.(ufs_version) v s.(lifetimeA) s.(lifetimeB) s.(ufs_last_query_time) s.(needs_wlc_updates).
Definition set_lifetimeA (v : Z) (s : Health) : Health :=
  mkHealth s.(ufs_version) s.(eol) v s.(lifetimeB) s.(ufs_last_query_time) s.(needs_wlc_updates).
Definition set_lifetimeB (v : Z) (s : Health) : Health :=
  mkHealth s.(ufs_version) s.(eol) s.(lifetimeA) v s.(ufs_last_query_time) s.(needs_wlc_updates).
Definition set_ufs_last_query_time (v : Z) (s : Health) : Health :=
  mkHealth s.(ufs_version) s.(eol) s.(lifetimeA) s.(lifetimeB) v s.(needs_wlc_updates).
Definition set_needs_wlc_updates (v : bool) (s : Health) : Health :=
  mkHealth s.(ufs_version) s.(eol) s.(lifetimeA) s.(lifetimeB) s.(ufs_last_query_time) v.
(** Static initialisation. *)
Definition Health_init : Health := mkHealth "" 0 0 0 0 false.

(** ** Operations *)

Section health.
Context {HP : HealthPlatform} {K : Type} `{!Oracle answer K}.
Abbreviation M := (comp answer K Health).

Definition assert_open (path : string) : M istream :=
  o ← call (OpenRead path); mret (stream_of o).

(** [read_value_from_file<uint<w>_t>(path, &field)], [field] passed in and out *)
Definition read_value_from_file (w : Z) (path : string) (field : Z) : M Z :=
  stream ← assert_open path;
  mret (default field (extract false w true stream).1).

(** [value] is not initialised: [garbage] is what the variable happens to hold. *)
Definition read_ufs_version (garbage : Z) (info : StorageInfo) : M StorageInfo :=
  version ← gets ufs_version;
  when (streq version "") (
    value ← read_value_from_file 64 kUfsVersion garbage;
    modify (set_ufs_version ("ufs " +:+ print_hex value)));;
  version ← gets ufs_version;
  mret (mkStorageInfo version (info_eol info) (info_lifetimeA info) (info_lifetimeB info)).

Definition private_healthd_board_init (ignorePowerSupplyNames : list string) : M (list string) :=
  tcpmPsyName ← call populateTcpmPsyName;
  exists_ ← call (Stat kWlcCapacity);
  modify (set_needs_wlc_updates exists_);;
  needed ← gets needs_wlc_updates;
  when (negb needed) (call setWirelessNotSupported);;
  mret (ignorePowerSupplyNames ++ [tcpmPsyName]).

Definition private_healthd_board_battery_update (health_info : HealthInfo) : M HealthInfo :=
  health_info ← call (deviceHealth_update health_info);
  call (logBatteryProperties health_info);;
  call (logShutdownVoltage health_info);;
  health_info ← call (onlineUpdate health_info);
  health_info ← call (battDefender_update health_info);
  needed ← gets needs_wlc_updates;
  when needed (ok ← call (WriteStringToFile (pretty (batteryLevel health_info)) kWlcCapacity); mret tt);;
  mret health_info.

(** [v.resize(1); &v.at(0)] *)
Definition resize1 {A} (d : A) (v : list A) : A := match v with x :: _ => x | [] => d end.

Definition private_get_storage_info (garbage : Z) (vec_storage_info : list StorageInfo) :
    M (list StorageInfo) :=
  storage_info ← read_ufs_version garbage (resize1 default_StorageInfo vec_storage_info);
  time_now ← call SystemNow;
  last ← gets ufs_last_query_time;
  let hoursElapsed := hours_of (time_now - last) in
  when (kUfsQueryIntervalHours <=? hoursElapsed) (
    modify (set_ufs_last_query_time time_now);;
    v ← gets eol; v ← read_value_from_file 16 kUfsHealthEol v; modify (set_eol v);;
    v ← gets lifetimeA; v ← read_value_from_file 16 kUfsHealthLifetimeA v; modify (set_lifetimeA v);;
    v ← gets lifetimeB; v ← read_value_from_file 16 kUfsHealthLifetimeB v; modify (set_lifetimeB v));;
  e ← gets eol; a ← gets lifetimeA; b ← gets lifetimeB;
  mret [mkStorageInfo (info_version storage_info) e a b].

(** A chain of [>>] into variables of type [int64_t]. *)
Fixpoint extract_all (i : istream) (fields : list Z) : list Z :=
  match fields with
  | [] => []
  | f :: fields => let '(v, i) := extract true 64 false i in default f v :: extract_all i fields
  end.

(** The fields in the order of the chain. *)
Definition fields_of (s : DiskStats) : list Z :=
  [reads s; readMerges s; readSectors s; readTicks s; writes s; writeMerges s; writeSectors s;
   writeTicks s; ioInFlight s; ioTicks s; ioInQueue s].
Definition stats_of_fields (l : list Z) (s : DiskStats) : DiskStats :=
  match l with
  | [a; b; c; d; e; f; g; h; i; j; k] => mkDiskStats a b c d e f g h i j k
  | _ => s
  end.

Definition private_get_disk_stats (vec_stats : list DiskStats) : M (list DiskStats) :=
  let stats := resize1 default_DiskStats vec_stats in
  stream ← assert_open kDiskStatsFile;
  mret [stats_of_fields (extract_all stream (fields_of stats)) stats].

(** ** The interface *)

Inductive binder_status := BinderOk | UnsupportedOperation.

Definition UpdateHealthInfo (health_info : HealthInfo) : M HealthInfo :=
  private_healthd_board_battery_update health_info.

Definition getStorageInfo (garbage : Z) (out : list StorageInfo) : M (binder_status * list StorageInfo) :=
  out ← private_get_storage_info garbage out;
  mret (match out with [] => UnsupportedOperation | _ => BinderOk end, out).

Definition getDiskStats (out : list DiskStats) : M (binder_status * list DiskStats) :=
  out ← private_get_disk_stats out;
  mret (match out with [] => UnsupportedOperation | _ => BinderOk end, out).

Definition main (argv : list string) : M Z :=
  config ← call InitHealthdConfig;
  config ← private_healthd_board_init config;
  match argv with
  | _ :: arg :: _ => if streq arg "--charger" then call ChargerModeMain else call StartLoop
  | _ => call StartLoop
  end.
End health.
