(* ===== verification/HealthProps.v ===== *)
(** * Properties of the health service *)
From stdpp Require Import pretty.
From S2P Require Import Prelude CString Effects Health.
Open Scope Z_scope.

(** ** Numerals in a stream *)

Lemma digit_pretty_char (n : N) : (n < 10)%N -> digit 10 (pretty_N_char n) = Some (Z.of_N n).
Proof.
  intros H. destruct n as [|p]; [done|]. do 4 (destruct p as [p|p|]; [..|done]); lia.
Qed.

Lemma pretty_N_go_0 s : pretty_N_go 0 s = s.
Proof. done. Qed.

Lemma digits_pretty_go (n : N) s : digits 10 0 (pretty_N_go n s) = digits 10 (Z.of_N n) s.
Proof.
  revert s. induction (N.lt_wf_0 n) as [n _ IH]. intros s.
  destruct (decide (n = 0)%N) as [->|Hn]; [done|].
  rewrite pretty_N_go_step by lia. rewrite IH by (apply N.div_lt; lia). simpl.
  pose proof (N.mod_lt n 10 ltac:(lia)). rewrite digit_pretty_char by lia.
  f_equal. rewrite N2Z.inj_div, N2Z.inj_mod. pose proof (Z.div_mod (Z.of_N n) 10). lia.
Qed.
Lemma after_digits_pretty_go (n : N) s : after_digits 10 (pretty_N_go n s) = after_digits 10 s.
Proof.
  revert s. induction (N.lt_wf_0 n) as [n _ IH]. intros s.
  destruct (decide (n = 0)%N) as [->|Hn]; [done|].
  rewrite pretty_N_go_step by lia. rewrite IH by (apply N.div_lt; lia). simpl.
  pose proof (N.mod_lt n 10 ltac:(lia)). by rewrite digit_pretty_char by lia.
Qed.
Lemma is_digit_pretty_go (n : N) s : is_digit 10 s = true -> is_digit 10 (pretty_N_go n s) = true.
Proof.
  revert s. induction (N.lt_wf_0 n) as [n _ IH]. intros s Hs.
  destruct (decide (n = 0)%N) as [->|Hn]; [done|].
  rewrite pretty_N_go_step by lia. apply IH; [apply N.div_lt; lia|]. simpl.
  pose proof (N.mod_lt n 10 ltac:(lia)). by rewrite digit_pretty_char by lia.
Qed.

Lemma pretty_N_go_app (n : N) s t : pretty_N_go n s +:+ t = pretty_N_go n (s +:+ t).
Proof.
  revert s. induction (N.lt_wf_0 n) as [n _ IH]. intros s.
  destruct (decide (n = 0)%N) as [->|Hn]; [done|].
  rewrite pretty_N_go_step, (pretty_N_go_step n (s +:+ t)) by lia. by rewrite IH by (apply N.div_lt; lia).
Qed.

(** A printed number is a numeral, and reading it ends where it ends. *)
Lemma pretty_numeral (n : N) rest :
  is_digit 10 rest = false ->
  digits 10 0 (pretty n +:+ rest) = Z.of_N n /\ after_digits 10 (pretty n +:+ rest) = rest /\
  is_digit 10 (pretty n +:+ rest) = true.
Proof.
  intros Hr.
  assert (forall a, digits 10 a rest = a /\ after_digits 10 rest = rest) as Hrest.
  { intros a. destruct rest as [|c r]; [done|]. simpl in *. by destruct (digit 10 c). }
  unfold pretty, pretty_N. destruct (decide _) as [->|Hn].
  { simpl. destruct (Hrest 0) as [H1 H2]. auto. }
  rewrite pretty_N_go_app, digits_pretty_go, after_digits_pretty_go. simpl.
  destruct (Hrest (Z.of_N n)) as [H1 H2]. split; [done|]. split; [done|].
  rewrite pretty_N_go_step by lia. apply is_digit_pretty_go. simpl.
  pose proof (N.mod_lt n 10 ltac:(lia)). by rewrite digit_pretty_char by lia.
Qed.

(** Something that starts with a digit starts with no blank and no sign. *)
Lemma digit_head s : is_digit 10 s = true -> skip_space s = s /\ strip_sign s = (false, s) /\ s <> "".
Proof.
  destruct s as [|c s]; [done|]. cbn [is_digit skip_space]. intros H.
  assert (isspace c = false /\ c <> "-"%char /\ c <> "+"%char) as (H1 & H2 & H3).
  { split; [|split; intros ->; discriminate H].
    revert H. clear. by destruct c as [[] [] [] [] [] [] [] []]; vm_compute. }
  rewrite H1. split; [done|]. split; [|done]. unfold strip_sign.
  destruct c as [[] [] [] [] [] [] [] []]; first [done|by destruct H2|by destruct H3].
Qed.

Lemma skip_blanks pad s : sall isspace pad = true -> skip_space (pad +:+ s) = skip_space s.
Proof. induction pad as [|c pad IH]; simpl; [done|]. destruct (isspace c); [|done]. apply IH. Qed.

Lemma extract_printed pad (n : N) rest :
  sall isspace pad = true -> Z.of_N n < 2 ^ 63 -> is_digit 10 rest = false ->
  extract true 64 false (mkStream (pad +:+ pretty n +:+ rest) false) = (Some (Z.of_N n), mkStream rest false).
Proof.
  intros Hp Hn Hr. destruct (pretty_numeral n rest Hr) as (H1 & H2 & H3).
  destruct (digit_head _ H3) as (H4 & H5 & H6).
  unfold extract. cbn [failed text]. rewrite skip_blanks, H4, (proj2 (streq_false _ _) H6), H5 by done.
  cbn [numeral]. rewrite H3, H1, H2. cbn [negb]. change (64 - 1) with 63.
  by destruct (Z.ltb_spec (Z.of_N n) (2 ^ 63)); [|lia].
Qed.

(** ** The statistics of the block device *)

(** A row of padded columns, as the kernel prints it. *)
Definition row (cols : list (string * N)) (tail : string) : string :=
  foldr (fun '(pad, n) s => pad +:+ pretty n +:+ s) tail cols.
Definition row_ok (cols : list (string * N)) (tail : string) : Prop :=
  Forall (fun '(pad, n) => sall isspace pad = true /\ Z.of_N n < 2 ^ 63) cols /\
  Forall (fun '(pad, _) => pad <> "") (tl cols) /\ is_digit 10 tail = false.

Lemma row_no_digit cols tail :
  Forall (fun '(pad, n) => sall isspace pad = true /\ Z.of_N n < 2 ^ 63) cols ->
  Forall (fun '(pad, _) => pad <> "") cols -> is_digit 10 tail = false ->
  is_digit 10 (row cols tail) = false.
Proof.
  destruct cols as [|[pad n] cols]; [done|]. intros [[Hb _] _]%Forall_cons [Hne _]%Forall_cons _.
  cbn [row foldr].
  destruct pad as [|c pad]; [done|]. cbn [is_digit sall String.append] in *.
  rewrite app_cons_s. cbn [is_digit]. destruct (digit 10 c) eqn:E; [|done].
  assert (is_digit 10 (String c pad) = true) as Hd by (simpl; by rewrite E).
  destruct (digit_head _ Hd) as [H _]. simpl in H. destruct (isspace c); [|done].
  assert (strlen (skip_space pad) <= strlen pad)%nat as Hl.
  { clear. induction pad as [|c pad IH]; simpl; [done|]. destruct (isspace c); simpl; lia. }
  rewrite H in Hl. simpl in Hl. lia.
Qed.

Lemma extract_row cols tail fields :
  row_ok cols tail -> length fields = length cols ->
  extract_all (mkStream (row cols tail) false) fields = map (fun c => Z.of_N c.2) cols.
Proof.
  revert fields. induction cols as [|[pad n] cols IH]; intros [|f fields] Hok Hl; try done.
  destruct Hok as (H1 & H2 & H3). apply Forall_cons in H1 as [[Hb Hn] H1].
  cbn [extract_all row foldr]. fold (row cols tail).
  rewrite extract_printed; [|done..|by apply row_no_digit]. simpl. f_equal. apply IH; [|by injection Hl].
  split; [done|]. split; [|done]. by destruct cols; [|apply Forall_cons in H2 as [_ H2]].
Qed.

Section stats.
Context {HP : HealthPlatform} {K : Type} `{!Oracle answer K}.
Implicit Types w : world K Health.

#[local] Arguments extract_all : simpl never.
#[local] Arguments extract : simpl never.
#[local] Arguments String.append : simpl never.

(** C18: [getDiskStats] reads the statistics file once and answers OK with one
    element.  A file of eleven or more padded columns below 2^63 is reported
    column by column, in the order of the kernel's documentation; when it
    cannot be opened the element is handed back as it was. *)
Theorem getDiskStats_correct out w :
  wp (getDiskStats out) (fun r w' tr => self w' = self w /\ exists o stats,
    tr = [Ev (OpenRead kDiskStatsFile) o] /\ r = (BinderOk, [stats]) /\
    (o = None -> stats = resize1 default_DiskStats out) /\
    (forall cols tail, o = Some (row cols tail) -> row_ok cols tail -> length cols = 11%nat ->
       fields_of stats = map (fun c => Z.of_N c.2) cols))
    (fun _ _ => False) w.
Proof.
  unfold getDiskStats, private_get_disk_stats, assert_open. do 5 wp_step. wp_run.
  split; [done|]. eexists r, _. split; [done|]. split; [done|]. split.
  - intros ->. by destruct (resize1 default_DiskStats out).
  - intros cols tail -> Hok Hl. cbn [stream_of]. rewrite extract_row by (rewrite ?Hl; done).
    by do 12 (destruct cols as [|? cols]; [try discriminate Hl|]).
Qed.
End stats.

(** ** The storage lifetimes *)

(** The files read by a run, with what they held. *)
Definition open_of {HP : HealthPlatform} (e : event answer) : option (string * option string) :=
  match e with
  | Ev q r =>
      match q return answer q -> option (string * option string) with
      | OpenRead p => fun o => Some (p, o)
      | _ => fun _ => None
      end r
  end.
Definition opened {HP : HealthPlatform} (t : list (event answer)) : list (string * option string) := omap open_of t.

(** The number a file holds for a field that held [old]. *)
Definition number_in (w : Z) (file : option string) (old : Z) : Z :=
  default old (extract false w true (stream_of file)).1.

Section storage.
Context {HP : HealthPlatform} {K : Type} `{!Oracle answer K}.
Implicit Types w : world K Health.

#[local] Arguments extract : simpl never.
#[local] Arguments number_in : simpl never.
#[local] Arguments print_hex : simpl never.
#[local] Arguments String.append : simpl never.
#[local] Arguments hours_of : simpl never.
#[local] Arguments kUfsQueryIntervalHours : simpl never.

(** C17: [getStorageInfo] answers OK with one element, which shows the cached
    values after the call.  The version is read once, the first time, and never
    again; the three lifetimes are read together, and the time noted, exactly
    when at least 24 whole hours have passed since they were read last; a
    lifetime file that cannot be opened leaves the old value. *)
Theorem getStorageInfo_correct garbage out w :
  wp (getStorageInfo garbage out) (fun r w' tr =>
    let s := self w in let s' := self w' in
    r = (BinderOk, [mkStorageInfo (ufs_version s') (eol s') (lifetimeA s') (lifetimeB s')]) /\
    needs_wlc_updates s' = needs_wlc_updates s /\
    exists now version files,
      opened tr = version ++ files /\ Ev SystemNow now ∈ tr /\
      (if streq (ufs_version s) "" then
         exists v, version = [(kUfsVersion, v)] /\
           ufs_version s' = "ufs " +:+ print_hex (number_in 64 v garbage)
       else version = [] /\ ufs_version s' = ufs_version s) /\
      (if kUfsQueryIntervalHours <=? hours_of (now - ufs_last_query_time s) then
         exists e a b, files = [(kUfsHealthEol, e); (kUfsHealthLifetimeA, a); (kUfsHealthLifetimeB, b)] /\
           ufs_last_query_time s' = now /\ eol s' = number_in 16 e (eol s) /\
           lifetimeA s' = number_in 16 a (lifetimeA s) /\ lifetimeB s' = number_in 16 b (lifetimeB s)
       else files = [] /\ ufs_last_query_time s' = ufs_last_query_time s /\ eol s' = eol s /\
         lifetimeA s' = lifetimeA s /\ lifetimeB s' = lifetimeB s))
    (fun _ _ => False) w.
Proof.
  unfold getStorageInfo, private_get_storage_info, read_ufs_version, read_value_from_file, assert_open.
  wp_run.
  all: split; [done|]; split; [done|].
  all: match goal with |- context [Ev SystemNow ?now] => exists now end.
  all: match goal with
    | |- context [Ev (OpenRead kUfsVersion) ?v] => exists [(kUfsVersion, v)]
    | _ => exists [] end.
  all: eexists; split; [reflexivity|]; split; [set_solver|].
  all: repeat match goal with H : _ = true |- _ => rewrite H; clear H | H : _ = false |- _ => rewrite H; clear H end.
  all: split; [try (by eexists); done|].
  all: first [done | eexists _, _, _; by repeat split].
Qed.

(** A client that asks again and again, and what it is told. *)
Fixpoint getStorageInfos (calls : list (Z * list StorageInfo)) :
    comp answer K Health (list (binder_status * list StorageInfo)) :=
  match calls with
  | [] => mret []
  | (garbage, out) :: calls =>
      r ← getStorageInfo garbage out; rs ← getStorageInfos calls; mret (r :: rs)
  end.
Definition reports_version (v : string) (r : binder_status * list StorageInfo) : Prop :=
  r.1 = BinderOk /\ info_version <$> r.2 = [v].

(** The version of a service that has one is reported, stays, and is not read again. *)
Lemma getStorageInfo_version v garbage out w :
  ufs_version (self w) = v -> v <> "" ->
  wp (getStorageInfo garbage out) (fun r w' tr =>
    reports_version v r /\ ufs_version (self w') = v /\ kUfsVersion ∉ (opened tr).*1) (fun _ _ => False) w.
Proof.
  intros E Hv%streq_false.
  unfold getStorageInfo, private_get_storage_info, read_ufs_version, read_value_from_file, assert_open.
  do 4 wp_step. rewrite E, Hv. wp_run. all: (split; [by rewrite E|]; split; [done|]).
  all: cbn [opened omap list_omap open_of app]; by apply (bool_decide_unpack _); vm_compute.
Qed.

Lemma later_versions v calls w :
  ufs_version (self w) = v -> v <> "" ->
  wp (getStorageInfos calls) (fun rs _ tr =>
    length rs = length calls /\ Forall (reports_version v) rs /\ kUfsVersion ∉ (opened tr).*1)
    (fun _ _ => False) w.
Proof.
  revert w. induction calls as [|[g o] calls IH]; intros w E Hv; cbn [getStorageInfos]; wp_step.
  { split; [done|]. split; [constructor|]. apply not_elem_of_nil. }
  eapply wp_mono; [by apply (getStorageInfo_version v)| |done].
  intros r w1 t1 (H1 & E1 & N1). wp_step. eapply wp_mono; [by apply IH| |done].
  intros rs w2 t2 (H2 & F2 & N2). wp_step. split; [simpl; by rewrite H2|]. split; [by constructor|].
  rewrite app_nil_r. unfold opened in *. by rewrite omap_app, fmap_app, not_elem_of_app.
Qed.

(** C30: The version number is a variable without an initialiser: when the file
    cannot be opened the first time the storage information is asked for, the
    version reported is whatever that variable held, printed in hexadecimal,
    and every later call answers OK and reports the same version, without
    looking at the file. *)
Theorem unreadable_version_is_garbage garbage out w calls :
  ufs_version (self w) = "" ->
  wp (getStorageInfo garbage out) (fun r w' tr =>
    (kUfsVersion, None) ∈ opened tr ->
    reports_version ("ufs " +:+ print_hex garbage) r /\
    wp (getStorageInfos calls) (fun rs _ tr =>
      length rs = length calls /\ Forall (reports_version ("ufs " +:+ print_hex garbage)) rs /\
      kUfsVersion ∉ (opened tr).*1) (fun _ _ => False) w') (fun _ _ => False) w.
Proof.
  intros Hv. eapply wp_mono with (Φ := fun r w' tr => (kUfsVersion, None) ∈ opened tr ->
    reports_version ("ufs " +:+ print_hex garbage) r /\
    ufs_version (self w') = "ufs " +:+ print_hex garbage); [| |intros ? ? H; exact H].
  - unfold getStorageInfo, private_get_storage_info, read_ufs_version, read_value_from_file, assert_open.
    do 4 wp_step. rewrite Hv. rewrite streq_refl. wp_run.
    all: match goal with |- (kUfsVersion, None) ∈ (_, ?v) :: _ -> _ => destruct v end;
      [intros Hin; exfalso | done].
    all: cbn [opened omap list_omap open_of app] in Hin.
    all: repeat (apply elem_of_cons in Hin as [[H1 H2]%pair_equal_spec|Hin];
      [first [discriminate H2 | vm_compute in H1; discriminate H1]|]).
    all: by apply elem_of_nil in Hin.
  - intros r w' tr H Hin. destruct (H Hin) as [H1 H2]. split; [done|]. by apply later_versions.
Qed.
End storage.

(** ** The battery update *)

(** Levels as the defender left them, and what was written. *)
Definition defended_of {HP : HealthPlatform} (e : event answer) : option Z :=
  match e with
  | Ev q r => match q return answer q -> option Z with
              | battDefender_update _ => fun h => Some (batteryLevel h) | _ => fun _ => None end r
  end.
Definition defended {HP : HealthPlatform} (t : list (event answer)) : list Z := omap defended_of t.
Definition level_write_of {HP : HealthPlatform} (e : event answer) : option (string * string) :=
  match e with Ev q _ => match q with WriteStringToFile c p => Some (c, p) | _ => None end end.
Definition level_writes {HP : HealthPlatform} (t : list (event answer)) : list (string * string) := omap level_write_of t.
Definition unsupported {HP : HealthPlatform} (e : event answer) : bool :=
  match e with Ev q _ => match q with setWirelessNotSupported => true | _ => false end end.

Section battery.
Context {HP : HealthPlatform} {K : Type} `{!Oracle answer K}.
Implicit Types w : world K Health.
#[local] Arguments kWlcCapacity : simpl never.
#[local] Arguments pretty : simpl never.

Lemma updates_levels hs w :
  wp (for_each hs (fun h => h' ← UpdateHealthInfo h; mret tt)) (fun _ w' tr =>
    needs_wlc_updates (self w') = needs_wlc_updates (self w) /\
    level_writes tr = (if needs_wlc_updates (self w)
                       then map (fun l => (pretty l, kWlcCapacity)) (defended tr) else []) /\
    length (defended tr) = length hs /\ existsb unsupported tr = false) (fun _ _ => False) w.
Proof.
  revert w. induction hs as [|h hs IH]; intros w; cbn [for_each]; wp_step; [by destruct (needs_wlc_updates _)|].
  unfold UpdateHealthInfo, private_healthd_board_battery_update. wp_run.
  all: eapply wp_mono; [apply IH| |intros ? ? H; exact H].
  all: intros [] w' tr (H1 & H2 & H3 & H4); cbn [self kernel] in *.
  all: rewrite Heqb in *; rewrite ?H1, ?H2, ?H3, ?H4; done.
Qed.

(** C29: The battery level reaches the wireless charger's driver on every
    battery update of a device that had its capacity file when the service
    started, as the battery defender left the level; on any other device it is
    never written, and the defender is told once that there is no wireless
    charging. *)
Theorem wireless_level_follows_probe names hs w :
  wp (names' ← private_healthd_board_init names; for_each hs (fun h => h' ← UpdateHealthInfo h; mret tt))
    (fun _ w' tr => exists found : bool, Ev (Stat kWlcCapacity) found ∈ tr /\
       length (defended tr) = length hs /\
       level_writes tr = (if found then map (fun l => (pretty l, kWlcCapacity)) (defended tr) else []) /\
       count_occ bool_dec (map unsupported tr) true = (if found then 0 else 1)%nat)
    (fun _ _ => False) w.
Proof.
  assert (forall t, existsb unsupported t = false -> count_occ bool_dec (map unsupported t) true = 0%nat) as Hc.
  { induction t as [|e t IH]; simpl; [done|]. intros [-> H]%orb_false_iff. by apply IH. }
  unfold private_healthd_board_init. wp_run.
  all: eapply wp_mono; [apply updates_levels| |intros ? ? H; exact H].
  all: intros [] w' tr (H1 & H2 & H3 & H4); cbn [self kernel needs_wlc_updates set_needs_wlc_updates] in *.
  all: match goal with |- context [Ev (Stat kWlcCapacity) ?b] => exists b; destruct b; try done end.
  all: split; [set_solver|]; split; [done|]; split; [done|]; simpl; by rewrite Hc.
Qed.
End battery.

(** ** A concrete device *)
#[export] Instance sim_health : HealthPlatform := {|
  HealthInfo := Z; batteryLevel h := h;
  default_StorageInfo := mkStorageInfo "" 0 0 0; default_DiskStats := mkDiskStats 0 0 0 0 0 0 0 0 0 0 0;
|}.
(** A day after the epoch, with these files and a battery at 80. *)
Definition sim_files (files : string -> option string) : Oracle answer unit := fun q k =>
  (match q return answer q with
   | OpenRead p => files p | SystemNow => 24 * 3600000000 | WriteStringToFile _ _ => true
   | Stat _ => true | InitHealthdConfig => [] | populateTcpmPsyName => "tcpm"
   | deviceHealth_update h | onlineUpdate h | battDefender_update h => h
   | ChargerModeMain | StartLoop => 0 | _ => tt
   end, k).

Lemma unreadable_version_is_garbage_witness :
  let O := sim_files (fun _ => None) in
  ufs_version Health_init = "" /\
  wp (K:=unit) (getStorageInfo 51966 []) (fun r w' tr =>
    (kUfsVersion, None) ∈ opened tr ->
    reports_version ("ufs " +:+ print_hex 51966) r /\
    wp (getStorageInfos [(0, []); (1, [])]) (fun rs _ tr =>
      length rs = 2%nat /\ Forall (reports_version ("ufs " +:+ print_hex 51966)) rs /\
      kUfsVersion ∉ (opened tr).*1) (fun _ _ => False) w') (fun _ _ => False) (World tt Health_init).
Proof.
  intros O. split; [reflexivity|].
  exact (unreadable_version_is_garbage 51966 [] (World tt Health_init) [(0, []); (1, [])] eq_refl).
Defined.

(** The version that a client is told three times. *)
Example version_again :
  let O := sim_files (fun _ => None) in
  match getStorageInfos (K:=unit) [(51966, []); (0, []); (1, [])] (World tt Health_init) with
  | Done rs _ _ => rs = replicate 3 (BinderOk, [mkStorageInfo "ufs cafe" 0 0 0]) | Crash _ _ => False end.
Proof. vm_compute. reflexivity. Qed.
Example version_cafe :
  let O := sim_files (fun _ => None) in
  match getStorageInfo (K:=unit) 51966 [] (World tt Health_init) with
  | Done r _ _ => r = (BinderOk, [mkStorageInfo "ufs cafe" 0 0 0]) | Crash _ _ => False end.
Proof. vm_compute. reflexivity. Qed.
Example ufs_readable :
  let O := sim_files (fun p => if streq p kUfsVersion then Some ("0x0310" +:+ String LF "") else Some ("0x0B" +:+ String LF "")) in
  match getStorageInfo (K:=unit) 51966 [] (World tt Health_init) with
  | Done r _ _ => r = (BinderOk, [mkStorageInfo "ufs 310" 11 11 11]) | Crash _ _ => False end.
Proof. vm_compute. reflexivity. Qed.
