(* ===== verification/FpTest.v ===== *)
(** * The fingerprint test tool

    fingerprint/fpc1540/fp_tool/fp_test.cpp: its parameter check, its commands
    and [main].  What it prints is left out.  The tool keeps no state. *)
From S2P Require Import Prelude CString Effects.
Open Scope Z_scope.

Inductive request :=
| property_set (key value : string)
| property_get (key : string)
| getService
| authenticate (operationId gid : Z)
| cancel.
Definition answer (q : request) : Type :=
  match q with
  | property_set _ _ => Z
  | property_get _ => string
  | getService => bool                    (* not nullptr *)
  | authenticate _ _ | cancel => bool     (* RequestStatus::SYS_OK *)
  end.

Definition STRING_SIZE : nat := 32.
Definition FPS_SRV_PROP : string := "fps_hal".
Definition FPS_SRV_FULL_PROP : string := "init.svc.fps_hal".
Definition OK : Z := 0.
Definition ERROR : Z := 1.
(** What [toolUsage] prints. *)
Definition cmdUsage : list string :=
  ["-------fp_test tool usage--------";
   "fp_test -e: Enable FPS service";
   "fp_test -d: Disable FPS service";
   "fp_test -i: Idle Mode";
   "fp_test -n: Navigation Mode";
   "fp_test -a: Authentication Mode";
   "---------------------------------"].
(** A character constant as an [int]. *)
Definition chr (c : ascii) : Z := Z.of_N (N_of_ascii c).

Section fp.
Context {K : Type} `{!Oracle answer K}.
Abbreviation M := (comp answer K unit).

(** [strcpy] writes the string and its NUL. *)
Definition strcpy (size : nat) (s : string) : M string :=
  if bool_decide (strlen s + 1 <= size)%nat then mret s else crash OutOfBounds.

(** [!strncmp(parameter, opt, sizeof(opt))] *)
Definition is_opt (parameter opt : string) : bool := strncmp_eq parameter opt (strlen opt + 1).

(** [num] and [strArray]: the arguments, as many as there are. *)
Definition checkParameter (strArray : list string) : M Z :=
  match strArray with
  | [_; arg] =>
      if bool_decide (STRING_SIZE < strlen arg)%nat then mret (- ERROR)
      else
        parameter ← strcpy STRING_SIZE arg;
        mret (if is_opt parameter "-a" then chr "a"
              else if is_opt parameter "-n" then chr "n"
              else if is_opt parameter "-i" then chr "n"
              else if is_opt parameter "-e" then chr "e"
              else if is_opt parameter "-d" then chr "d"
              else - ERROR)
  | _ => mret (- ERROR)
  end.

Definition enable_disable_fps (set : bool) : M Z :=
  ret ← call (property_set (if set then "ctl.start" else "ctl.stop") FPS_SRV_PROP);
  mret (if negb (ret =? 0) then - ERROR else ret).

(** The common beginning of the two commands of the service. *)
Definition with_service (m : M bool) : M Z :=
  tempbuf ← call (property_get FPS_SRV_FULL_PROP);
  if starts_with "stopped" tempbuf then mret (- ERROR)
  else
    service ← call getService;
    if negb service then mret (- ERROR)
    else ok ← m; mret (if (ok : bool) then OK else - ERROR).

Definition run_auth_cmd : M Z := with_service (call (authenticate 0 0)).
Definition run_cancel_cmd : M Z := with_service (call cancel).

Definition main (argv : list string) : M Z :=
  input ← checkParameter argv;
  if input =? - ERROR then mret (- ERROR)
  else if input =? chr "e" then enable_disable_fps true
  else if input =? chr "d" then enable_disable_fps false
  else if input =? chr "a" then run_auth_cmd
  else run_cancel_cmd.

(** ** What the tool does *)

Lemma is_opt_eq s o : is_opt s o = streq s o.
Proof.
  unfold is_opt, streq. apply eq_true_iff_eq. rewrite bool_decide_eq_true. apply strncmp_eq_long. lia.
Qed.

(** A command to the service: refused when the service is stopped or missing,
    its result otherwise. *)
Definition session (query_ok : bool -> event answer) (ret : Z) (tr : list (event answer)) : Prop :=
  exists status,
    if starts_with "stopped" status
    then tr = [Ev (property_get FPS_SRV_FULL_PROP) status] /\ ret = -1
    else exists there : bool,
      if there
      then exists ok : bool,
        tr = [Ev (property_get FPS_SRV_FULL_PROP) status; Ev getService there; query_ok ok] /\
        ret = if ok then 0 else -1
      else tr = [Ev (property_get FPS_SRV_FULL_PROP) status; Ev getService there] /\ ret = -1.

Definition controls (key : string) (ret : Z) (tr : list (event answer)) : Prop :=
  exists r, tr = [Ev (property_set key FPS_SRV_PROP) r] /\ ret = if r =? 0 then 0 else -1.

#[local] Arguments starts_with : simpl never.

#[local] Ltac session_done :=
  wp_run; match goal with |- session _ _ (Ev _ ?status :: _) => exists status end;
  repeat match goal with H : ?b = _ |- context [?b] => rewrite H end; try done;
  match goal with |- context [Ev getService ?b] => exists b; destruct b end; try done; by eexists.

Lemma run_auth_cmd_spec w :
  wp run_auth_cmd (fun ret _ tr => session (Ev (authenticate 0 0)) ret tr) (fun _ _ => False) w.
Proof. unfold run_auth_cmd, with_service. session_done. Qed.
Lemma run_cancel_cmd_spec w :
  wp run_cancel_cmd (fun ret _ tr => session (Ev cancel) ret tr) (fun _ _ => False) w.
Proof. unfold run_cancel_cmd, with_service. session_done. Qed.
Lemma enable_disable_spec b w :
  wp (enable_disable_fps b) (fun ret _ tr => controls (if b then "ctl.start" else "ctl.stop") ret tr)
    (fun _ _ => False) w.
Proof.
  unfold enable_disable_fps. wp_run. exists r. split; [done|].
  destruct (Z.eqb_spec r 0) as [->|]; [done|]. by simpl.
Qed.

#[local] Ltac opt_case H :=
  apply streq_true in H; subst; simpl; eapply wp_mono;
  [first [apply run_auth_cmd_spec | apply run_cancel_cmd_spec | apply enable_disable_spec]|by intros|by intros].

(** C34: An option that is one of the five of the tool runs the one command
  the code has for it - start the service, stop it, authenticate, or cancel -
  and returns 0 on success and -1 otherwise; anything else is refused before
  anything is done, returning -1.  The idle and the navigation mode, which the
  usage text lists as two modes, are one: "-i" and "-n" are the same run, that
  only cancels.  An argument of exactly 32 characters passes the length check,
  and copying it writes one byte past the buffer; nothing else goes wrong. *)
Theorem fp_test_correct argv w :
  wp (main argv) (fun ret _ tr =>
    match argv with
    | [_; arg] => strlen arg <> 32%nat /\
        if streq arg "-e" then controls "ctl.start" ret tr
        else if streq arg "-d" then controls "ctl.stop" ret tr
        else if streq arg "-a" then session (Ev (authenticate 0 0)) ret tr
        else if streq arg "-n" || streq arg "-i" then session (Ev cancel) ret tr
        else ret = -1 /\ tr = []
    | _ => ret = -1 /\ tr = []
    end)
    (fun f tr => f = OutOfBounds /\ tr = [] /\ exists prog arg, argv = [prog; arg] /\ strlen arg = 32%nat) w /\
  "fp_test -i: Idle Mode" ∈ cmdUsage /\ "fp_test -n: Navigation Mode" ∈ cmdUsage /\
  forall prog w', main [prog; "-i"] w' = main [prog; "-n"] w'.
Proof.
  split; [|split; [unfold cmdUsage; set_solver|split; [unfold cmdUsage; set_solver|by intros]]].
  unfold main. wp_step.
  destruct argv as [|prog [|arg [|? ?]]]; try (by wp_run). cbn [checkParameter]. unfold strcpy, STRING_SIZE.
  destruct (bool_decide (32 < strlen arg)%nat) eqn:El.
  { wp_step. apply bool_decide_eq_true in El. wp_step. split; [lia|].
    repeat match goal with |- context [streq arg ?o] => destruct (streq arg o) eqn:E;
      [apply streq_true in E; subst arg; simpl in El; lia|clear E] end. done. }
  apply bool_decide_eq_false in El. wp_step. destruct (bool_decide (strlen arg + 1 <= 32)%nat) eqn:Es.
  2:{ wp_step. apply bool_decide_eq_false in Es. split; [done|]. split; [done|]. exists prog, arg. split; [done|lia]. }
  apply bool_decide_eq_true in Es. do 2 wp_step. rewrite !is_opt_eq.
  assert (strlen arg <> 32%nat) as Hl by lia.
  destruct (streq arg "-a") eqn:Ea; [opt_case Ea|]. destruct (streq arg "-n") eqn:En; [opt_case En|].
  destruct (streq arg "-i") eqn:Ei; [opt_case Ei|]. destruct (streq arg "-e") eqn:Ee; [opt_case Ee|].
  destruct (streq arg "-d") eqn:Ed; [opt_case Ed|]. by wp_run.
Qed.
End fp.

(** One option, and the length that is one too many for the buffer. *)
Definition fp_service : Oracle answer unit := fun q k =>
  (match q return answer q with
   | property_set _ _ => 0 | property_get _ => "running" | getService => true
   | authenticate _ _ | cancel => true end, k).
Example enable_run :
  main (Oracle0 := fp_service) ["fp_test"; "-e"] (World tt tt) =
    Done 0 (World tt tt) [Ev (property_set "ctl.start" "fps_hal") 0].
Proof. vm_compute. reflexivity. Qed.
Example overflow_run :
  main (Oracle0 := fp_service) ["fp_test"; "-eeeeeeeeeeeeeeeeeeeeeeeeeeeeeee"] (World tt tt) = Crash OutOfBounds [].
Proof. vm_compute. reflexivity. Qed.
