(* ===== verification/Pkvm.v ===== *)
(** * The pKVM enabler

    pkvm/pkvm_enabler.c: run at boot, it succeeds when the hypervisor's device
    is there, and otherwise asks for pKVM to be enabled and fails, to force a
    reboot. *)
From S2P Require Import Prelude CString Effects.
Open Scope Z_scope.

Definition KVM_DEVICE : string := "/dev/kvm".
Definition MISC_WRITER : string := "/vendor/bin/misc_writer".
Definition ENOENT : Z := 2.
Definition EXIT_SUCCESS : Z := 0.
Definition EXIT_FAILURE : Z := 1.

(** How a process ended, as [waitpid] reports it. *)
Inductive wait_status := Exited (code : Z) | Killed (status : Z).

Inductive request :=
| access (path : string)
| fork
| execve (path : string) (argv : list string)
| waitpid (pid : Z)
| ALOGW (message : string)
| ALOGE (message : string).
Definition answer (q : request) : Type :=
  match q with
  | access _ => Z                  (* 0, or -1 with the reason in errno *)
  | fork => Z
  | execve _ _ => bool             (* false: it returned, because it failed *)
  | waitpid _ => wait_status
  | _ => unit
  end.

(** How the process, or the copy [fork] makes of it, ends. *)
Inductive ending := Exit (code : Z) | Replaced (path : string) (argv : list string).

Section pkvm.
Context {K : Type} `{!Oracle answer K}.
Abbreviation M := (comp answer K unit).

Definition main : M ending :=
  ret ← call (access KVM_DEVICE);
  if ret =? 0 then mret (Exit EXIT_SUCCESS)
  else
    when (negb (ret =? - ENOENT)) (call (ALOGW "Unexpected error from access()"));;
    pid ← call fork;
    if pid =? -1 then call (ALOGE "Could not fork");; mret (Exit EXIT_FAILURE)
    else if pid =? 0 then
      replaced ← call (execve MISC_WRITER [MISC_WRITER; "--set-enable-pkvm"]);
      if (replaced : bool) then mret (Replaced MISC_WRITER [MISC_WRITER; "--set-enable-pkvm"])
      else call (ALOGE "Could not execute");; mret (Exit EXIT_FAILURE)
    else
      wstatus ← call (waitpid pid);
      match wstatus with
      | Exited ret => when (negb (ret =? 0)) (call (ALOGE "exit status"))
      | Killed _ => call (ALOGE "terminated unexpectedly")
      end;;
      mret (Exit EXIT_FAILURE).

(** What the log does not show. *)
Definition visible (e : event answer) : bool :=
  match e with Ev q _ => match q with ALOGW _ | ALOGE _ => false | _ => true end end.

(** [access] answers 0 or -1. *)
Definition access_answers : Prop :=
  forall path (k : K), (ask (access path) k).1 = 0 \/ (ask (access path) k).1 = -1.

(** C35: The enabler succeeds exactly when the device is there, and then does
    nothing else.  Otherwise the process that was started always fails, after
    waiting for the copy it forked, which runs misc_writer with the request to
    enable pKVM or fails too; and the warning of an unexpected error is logged
    in every one of these cases, a missing device included, because the result
    of [access] is compared with an error number it never is. *)
Theorem pkvm_main_correct w :
  access_answers ->
  wp main (fun e _ tr => exists there,
    if there =? 0 then e = Exit EXIT_SUCCESS /\ tr = [Ev (access KVM_DEVICE) there]
    else
      Ev (ALOGW "Unexpected error from access()") tt ∈ tr /\
      exists pid rest, filter visible tr = Ev (access KVM_DEVICE) there :: Ev fork pid :: rest /\
        if pid =? -1 then e = Exit EXIT_FAILURE /\ rest = []
        else if pid =? 0 then
          exists replaced : bool, rest = [Ev (execve MISC_WRITER [MISC_WRITER; "--set-enable-pkvm"]) replaced] /\
            e = if replaced then Replaced MISC_WRITER [MISC_WRITER; "--set-enable-pkvm"] else Exit EXIT_FAILURE
        else exists status, rest = [Ev (waitpid pid) status] /\ e = Exit EXIT_FAILURE)
    (fun _ _ => False) w.
Proof.
  intros Hacc. unfold main. do 2 wp_step. specialize (Hacc KVM_DEVICE (kernel w)). rewrite Hask in Hacc. simpl in Hacc.
  destruct (r =? 0) eqn:Er; [wp_run; exists r; by rewrite Er|].
  destruct Hacc as [-> | ->]; [done|]. wp_run; exists (-1).
  all: split; [match goal with |- Ev (ALOGW _) tt ∈ _ :: Ev _ ?u :: _ => destruct u end; set_solver|].
  all: match goal with |- context [Ev fork ?pid] => exists pid end.
  all: eexists; split; [reflexivity|].
  all: repeat match goal with H : ?b = _ |- context [?b] => rewrite H end; by eauto.
Qed.
End pkvm.

(** A phone without the device, whose copy of the process runs the tool. *)
Definition no_kvm (pid : Z) : Oracle answer unit := fun q k =>
  (match q return answer q with
   | access _ => -1 | fork => pid | execve _ _ => true | waitpid _ => Exited 0 | _ => tt end, k).
Lemma pkvm_main_correct_witness :
  let O := no_kvm 7 in
  access_answers (K:=unit) /\
  wp (K:=unit) main (fun e _ tr => exists there,
    if there =? 0 then e = Exit EXIT_SUCCESS /\ tr = [Ev (access KVM_DEVICE) there]
    else
      Ev (ALOGW "Unexpected error from access()") tt ∈ tr /\
      exists pid rest, filter visible tr = Ev (access KVM_DEVICE) there :: Ev fork pid :: rest /\
        if pid =? -1 then e = Exit EXIT_FAILURE /\ rest = []
        else if pid =? 0 then
          exists replaced : bool, rest = [Ev (execve MISC_WRITER [MISC_WRITER; "--set-enable-pkvm"]) replaced] /\
            e = if replaced then Replaced MISC_WRITER [MISC_WRITER; "--set-enable-pkvm"] else Exit EXIT_FAILURE
        else exists status, rest = [Ev (waitpid pid) status] /\ e = Exit EXIT_FAILURE)
    (fun _ _ => False) (World tt tt).
Proof.
  intros O. assert (access_answers (K:=unit)) as H by (intros path k; right; reflexivity).
  split; [exact H|]. exact (pkvm_main_correct (World tt tt) H).
Defined.
