(* ===== verification/PowerStats.v ===== *)
(** * The power statistics providers

    powerstats/Gs101CommonDataProviders.cpp: which power entities, with which
    states and units, the power statistics service is given.  The providers are
    classes of a library outside this tree; here they are the arguments they
    are constructed with, and the service is the receiver of the requests. *)
From stdpp Require Import gmap pretty.
From S2P Require Import Prelude CString Effects.
Open Scope Z_scope.

(** [GenericStateResidencyDataProvider::StateResidencyConfig]; [None]: the
    field is left to the library's default. *)
Record StateResidencyConfig := mkConfig {
  entryCountSupported : bool;
  entryCountPrefix : string;
  totalTimeSupported : bool;
  totalTimePrefix : option string;
  totalTimeTransform : option (Z -> Z);
  lastEntrySupported : bool;
  lastEntryPrefix : option string;
  lastEntryTransform : option (Z -> Z);
}.
(** The configurations that give all three. *)
Definition timed (count total last : string) (f : option (Z -> Z)) : StateResidencyConfig :=
  mkConfig true count true (Some total) f true (Some last) f.

(** [PowerEntityConfig(generateGenericStateResidencyConfigs(config, headers), name, header)] *)
Record PowerEntityConfig := mkEntity {
  entity_config : StateResidencyConfig;
  entity_headers : list (string * string);
  entity_name : string;
  entity_header : string;
}.

Inductive provider :=
| AocStateResidencyDataProvider (ids states : list (string * string)) (clock : Z)
| DvfsStateResidencyDataProvider (path : string) (ns : Z) (cfgs : list (string * list (string * string)))
| GenericStateResidencyDataProvider (path : string) (cfgs : list PowerEntityConfig)
| DevfreqStateResidencyDataProvider (name path : string)
| UfsStateResidencyDataProvider (path : string)
| PixelStateResidencyDataProvider (entities : list (string * list (Z * string)))
| DisplayMrrStateResidencyDataProvider (name path : string).

Inductive EnergyConsumerType := CPU_CLUSTER | GNSS | MOBILE_RADIO | OTHER.
(** [createMeterConsumer] and [createMeterAndAttrConsumer] *)
Inductive consumer :=
| MeterConsumer (type : EnergyConsumerType) (name : string) (channels : list string)
| MeterAndAttrConsumer (type : EnergyConsumerType) (name : string) (channels : list string)
    (uid_time_in_state : string) (coeffs : gmap string Z).

Inductive request :=
| GetIntProperty (key : string) (default : Z)
| addStateResidencyDataProvider (p : provider)
| addEnergyConsumer (c : consumer)
| setEnergyMeterDataProvider (devices : list string) (by_name : bool)
| startPixelProvider (entities : list (string * list (Z * string))).
Definition answer (q : request) : Type := match q with GetIntProperty _ _ => Z | _ => unit end.

Definition kBootHwSoCRev : string := "ro.boot.hw.soc.rev".
Definition AOC_CLOCK : Z := 4096.
Definition NS_TO_MS : Z := 1000000.
Definition US_TO_MS : Z := 1000.
(** The lambdas on [uint64_t]. *)
Definition acpmNsToMs (a : Z) : Z := a / NS_TO_MS.
Definition usecToMs (a : Z) : Z := a / US_TO_MS.

(** ** The operating points *)

Definition MIF_states : list (string * string) :=
  [("3172MHz", "3172000"); ("2730MHz", "2730000"); ("2535MHz", "2535000");
   ("2288MHz", "2288000"); ("2028MHz", "2028000"); ("1716MHz", "1716000");
   ("1539MHz", "1539000"); ("1352MHz", "1352000"); ("1014MHz", "1014000");
   ("845MHz", "845000"); ("676MHz", "676000"); ("546MHz", "546000"); ("421MHz", "421000");
   ("0MHz", "0")].
Definition CL1_states : list (string * string) :=
  [("2466MHz", "2466000"); ("2393MHz", "2393000"); ("2348MHz", "2348000");
   ("2253MHz", "2253000"); ("2130MHz", "2130000"); ("1999MHz", "1999000");
   ("1836MHz", "1836000"); ("1663MHz", "1663000"); ("1491MHz", "1491000");
   ("1328MHz", "1328000"); ("1197MHz", "1197000"); ("1024MHz", "1024000");
   ("910MHz", "910000"); ("799MHz", "799000"); ("696MHz", "696000"); ("533MHz", "533000");
   ("400MHz", "400000"); ("0MHz", "0")].
Definition CL0_states_B : list (string * string) :=
  [("2196MHz", "2196000"); ("2098MHz", "2098000"); ("2024MHz", "2024000");
   ("1950MHz", "1950000"); ("1803MHz", "1803000"); ("1704MHz", "1704000");
   ("1598MHz", "1598000"); ("1401MHz", "1401000"); ("1328MHz", "1328000");
   ("1197MHz", "1197000"); ("1098MHz", "1098000"); ("930MHz", "930000"); ("738MHz", "738000");
   ("574MHz", "574000"); ("300MHz", "300000"); ("0MHz", "0")].
Definition CL2_states_B : list (string * string) :=
  [("3195MHz", "3195000"); ("3097MHz", "3097000"); ("2950MHz", "2950000");
   ("2850MHz", "2850000"); ("2802MHz", "2802000"); ("2704MHz", "2704000");
   ("2630MHz", "2630000"); ("2507MHz", "2507000"); ("2401MHz", "2401000");
   ("2252MHz", "2252000"); ("2188MHz", "2188000"); ("2048MHz", "2048000");
   ("1826MHz", "1826000"); ("1745MHz", "1745000"); ("1582MHz", "1582000");
   ("1426MHz", "1426000"); ("1277MHz", "1277000"); ("1106MHz", "1106000");
   ("984MHz", "984000"); ("851MHz", "851000"); ("500MHz", "500000"); ("0MHz", "0")].
Definition TPU_states_B : list (string * string) :=
  [("1230MHz", "1230000"); ("1066MHz", "1066000"); ("800MHz", "800000"); ("500MHz", "500000");
   ("226MHz", "226000"); ("RET_SLOW", "6"); ("S_OFF", "5"); ("S_SLOW", "4"); ("DS_FAST", "3");
   ("DS_SLOW", "2"); ("DS_OFF", "1"); ("OFF", "0")].
Definition CL0_states_A : list (string * string) :=
  [("2196MHz", "2196000"); ("2098MHz", "2098000"); ("2024MHz", "2024000");
   ("1950MHz", "1950000"); ("1868MHz", "1868000"); ("1745MHz", "1745000");
   ("1598MHz", "1598000"); ("1459MHz", "1459000"); ("1328MHz", "1328000");
   ("1197MHz", "1197000"); ("1098MHz", "1098000"); ("889MHz", "889000"); ("738MHz", "738000");
   ("574MHz", "574000"); ("300MHz", "300000"); ("0MHz", "0")].
Definition CL2_states_A : list (string * string) :=
  [("3195MHz", "3195000"); ("3097MHz", "3097000"); ("2999MHz", "2999000");
   ("2900MHz", "2900000"); ("2802MHz", "2802000"); ("2704MHz", "2704000");
   ("2630MHz", "2630000"); ("2507MHz", "2507000"); ("2302MHz", "2302000");
   ("2188MHz", "2188000"); ("2048MHz", "2048000"); ("1901MHz", "1901000");
   ("1745MHz", "1745000"); ("1582MHz", "1582000"); ("1426MHz", "1426000");
   ("1237MHz", "1237000"); ("1106MHz", "1106000"); ("984MHz", "984000"); ("848MHz", "848000");
   ("500MHz", "500000"); ("0MHz", "0")].
Definition TPU_states_A : list (string * string) :=
  [("1393MHz", "1393000"); ("1180MHz", "1180000"); ("1049MHz", "1049000");
   ("967MHz", "967000"); ("721MHz", "721000"); ("648MHz", "648000"); ("455MHz", "455000");
   ("250MHz", "250000"); ("RET_SLOW", "6"); ("S_OFF", "5"); ("S_SLOW", "4"); ("DS_FAST", "3");
   ("DS_SLOW", "2"); ("DS_OFF", "1"); ("OFF", "0")].
Definition fvp_configs (socRev : Z) : list (string * list (string * string)) :=
  [("MIF", MIF_states); ("CL1", CL1_states)] ++
  (if 2 <=? socRev then [("CL0", CL0_states_B); ("CL2", CL2_states_B); ("TPU", TPU_states_B)]
   else [("CL0", CL0_states_A); ("CL2", CL2_states_A); ("TPU", TPU_states_A)]).

(** ** Energy coefficients *)

Definition gpu_coeffs_B : list (string * Z) :=
  [("151000", 642); ("202000", 890); ("251000", 1102); ("302000", 1308); ("351000", 1522);
   ("400000", 1772); ("471000", 2105); ("510000", 2292); ("572000", 2528); ("701000", 3127);
   ("762000", 3452); ("848000", 4044)].
Definition gpu_coeffs_A : list (string * Z) :=
  [("151000", 843); ("302000", 1529); ("455000", 2298); ("572000", 2866); ("670000", 3191)].

(** The coefficients of the TPU are written as [double]s, here in hundredths,
    and converted to [int32_t]: towards zero. *)
Definition tpu_literals : list (string * Z) :=
  [("226000", 4925); ("500000", 7380); ("800000", 8699); ("1066000", 10393); ("1230000", 10810)].
Definition int32_of_hundredths (c : Z) : Z := Z.quot c 100.
Definition tpu_coeffs : list (string * Z) := prod_map id int32_of_hundredths <$> tpu_literals.

(** ** Operations *)
Section powerstats.
Context {K : Type} `{!Oracle answer K}.
Abbreviation M := (comp answer K unit).
Definition add (p : provider) : M unit := call (addStateResidencyDataProvider p).
Definition generic (path : string) (cfgs : list PowerEntityConfig) : M unit :=
  add (GenericStateResidencyDataProvider path cfgs).

Definition addAoC : M unit :=
  let prefix := "/sys/devices/platform/19000000.aoc/control/" in
  add (AocStateResidencyDataProvider
    [("AoC-A32", prefix +:+ "a32_"); ("AoC-FF1", prefix +:+ "ff1_");
     ("AoC-HF1", prefix +:+ "hf1_"); ("AoC-HF0", prefix +:+ "hf0_")]
    [("DWN", "off"); ("RET", "retention"); ("WFI", "wfi")] AOC_CLOCK);;
  add (AocStateResidencyDataProvider [("AoC-Voltage", prefix +:+ "voltage_")]
    [("NOM", "nominal"); ("SUD", "super_underdrive"); ("UUD", "ultra_underdrive"); ("UD", "underdrive")]
    AOC_CLOCK);;
  add (AocStateResidencyDataProvider [("AoC", prefix +:+ "monitor_")] [("MON", "mode")] AOC_CLOCK);;
  generic "/sys/devices/platform/19000000.aoc/restart_count"
    [mkEntity (mkConfig true "" false None None false None None) [("RESTART", "")] "AoC-Count" ""].

Definition addDvfsStats : M unit :=
  socRev ← call (GetIntProperty kBootHwSoCRev 0);
  add (DvfsStateResidencyDataProvider "/sys/devices/platform/acpm_stats/fvp_stats" NS_TO_MS
    (fvp_configs socRev)).

Definition addSoC : M unit :=
  let lpmStateConfig :=
    timed "success_count:" "total_time_ns:" "last_entry_time_ns:" (Some acpmNsToMs) in
  let downStateConfig :=
    timed "down_count:" "total_down_time_ns:" "last_down_time_ns:" (Some acpmNsToMs) in
  let reqStateConfig :=
    timed "req_up_count:" "total_req_up_time_ns:" "last_req_up_time_ns:" (Some acpmNsToMs) in
  let powerStateHeaders :=
    [("SICD", "SICD"); ("SLEEP", "SLEEP"); ("SLEEP_SLCMON", "SLEEP_SLCMON"); ("STOP", "STOP")] in
  generic "/sys/devices/platform/acpm_stats/soc_stats"
    [mkEntity lpmStateConfig powerStateHeaders "LPM" "LPM:";
     mkEntity downStateConfig powerStateHeaders "MIF" "MIF:";
     mkEntity reqStateConfig [("AOC", "AOC"); ("GSA", "GSA")] "MIF-REQ" "MIF_REQ:";
     mkEntity downStateConfig powerStateHeaders "SLC" "SLC:";
     mkEntity reqStateConfig [("AOC", "AOC")] "SLC-REQ" "SLC_REQ:"].

Definition setEnergyMeter : M unit :=
  call (setEnergyMeterDataProvider ["s2mpg10-odpm"; "s2mpg11-odpm"] true).

Definition addCPUclusters : M unit :=
  let cpuStateConfig :=
    timed "down_count:" "total_down_time_ns:" "last_down_time_ns:" (Some acpmNsToMs) in
  generic "/sys/devices/platform/acpm_stats/core_stats"
    (map (fun name => mkEntity cpuStateConfig [("DOWN", "")] name name)
       ["CORE00"; "CORE01"; "CORE02"; "CORE03"; "CORE10"; "CORE11"; "CORE20"; "CORE21";
        "CLUSTER0"; "CLUSTER1"; "CLUSTER2"]);;
  call (addEnergyConsumer (MeterConsumer CPU_CLUSTER "CPUCL0" ["S4M_VDD_CPUCL0"]));;
  call (addEnergyConsumer (MeterConsumer CPU_CLUSTER "CPUCL1" ["S3M_VDD_CPUCL1"]));;
  call (addEnergyConsumer (MeterConsumer CPU_CLUSTER "CPUCL2" ["S2M_VDD_CPUCL2"])).

Definition addGPU : M unit :=
  socRev ← call (GetIntProperty kBootHwSoCRev 0);
  call (addEnergyConsumer (MeterAndAttrConsumer OTHER "GPU" ["S2S_VDD_G3D"]
    "/sys/devices/platform/1c500000.mali/uid_time_in_state"
    (list_to_map (if 2 <=? socRev then gpu_coeffs_B else gpu_coeffs_A))));;
  add (DevfreqStateResidencyDataProvider "GPU" "/sys/bus/platform/devices/1c500000.mali").

Definition addMobileRadio : M unit :=
  generic "/sys/devices/platform/cpif/modem/power_stats"
    [mkEntity (timed "count:" "duration_usec:" "last_entry_timestamp_usec:" (Some usecToMs))
       [("SLEEP", "SLEEP:")] "MODEM" ""];;
  call (addEnergyConsumer (MeterConsumer MOBILE_RADIO "MODEM" ["VSYS_PWR_MODEM"; "VSYS_PWR_RFFE"])).

Definition addGNSS : M unit :=
  generic "/dev/bbd_pwrstat"
    [mkEntity (timed "count:" "duration_usec:" "last_entry_timestamp_usec:" (Some usecToMs))
       [("ON", "GPS_ON:"); ("OFF", "GPS_OFF:")] "GPS" ""];;
  call (addEnergyConsumer (MeterConsumer GNSS "GPS" ["L9S_GNSS_CORE"])).

Definition addPCIe : M unit :=
  let pcieStateConfig :=
    timed "Cumulative count:" "Cumulative duration msec:" "Last entry timestamp msec:" None in
  let pcieStateHeaders := [("UP", "Link up:"); ("DOWN", "Link down:")] in
  generic "/sys/devices/platform/11920000.pcie/power_stats"
    [mkEntity pcieStateConfig pcieStateHeaders "PCIe-Modem" "Version: 1"];;
  generic "/sys/devices/platform/14520000.pcie/power_stats"
    [mkEntity pcieStateConfig pcieStateHeaders "PCIe-WiFi" "Version: 1"].

Definition addWifi : M unit :=
  let stateConfig := timed "count:" "duration_usec:" "last_entry_timestamp_usec:" (Some usecToMs) in
  let pcieStateConfig :=
    mkConfig true "count:" true (Some "duration_usec:") (Some usecToMs) false None None in
  generic "/sys/wifi/power_stats"
    [mkEntity stateConfig [("AWAKE", "AWAKE:"); ("ASLEEP", "ASLEEP:")] "WIFI" "WIFI";
     mkEntity pcieStateConfig
       [("L0", "L0:"); ("L1", "L1:"); ("L1_1", "L1_1:"); ("L1_2", "L1_2:"); ("L2", "L2:")]
       "WIFI-PCIE" "WIFI-PCIE"].

Definition addUfs : M unit :=
  add (UfsStateResidencyDataProvider "/sys/bus/platform/devices/14700000.ufs/ufs_stats/").

Definition addPowerDomains : M unit :=
  let cpuStateConfig :=
    timed "on_count:" "total_on_time_ns:" "last_on_time_ns:" (Some acpmNsToMs) in
  generic "/sys/devices/platform/acpm_stats/pd_stats"
    (map (fun name => mkEntity cpuStateConfig [("ON", "")] name (name +:+ ":"))
       ["pd-tpu"; "pd-bo"; "pd-tnr"; "pd-gdc"; "pd-mcsc"; "pd-ipp"; "pd-g3aa"; "pd-dns"; "pd-itp";
        "pd-pdp"; "pd-csis"; "pd-mfc"; "pd-g2d"; "pd-dpu"; "pd-disp"; "pd-hsi0";
        "pd-embedded_g3d"; "pd-g3d"; "pd-eh"]).

Definition addDevfreq : M unit :=
  let devfreq name path := add (DevfreqStateResidencyDataProvider name path) in
  devfreq "INT" "/sys/devices/platform/17000020.devfreq_int/devfreq/17000020.devfreq_int";;
  devfreq "INTCAM" "/sys/devices/platform/17000030.devfreq_intcam/devfreq/17000030.devfreq_intcam";;
  devfreq "DISP" "/sys/devices/platform/17000040.devfreq_disp/devfreq/17000040.devfreq_disp";;
  devfreq "CAM" "/sys/devices/platform/17000050.devfreq_cam/devfreq/17000050.devfreq_cam";;
  devfreq "TNR" "/sys/devices/platform/17000060.devfreq_tnr/devfreq/17000060.devfreq_tnr";;
  devfreq "MFC" "/sys/devices/platform/17000070.devfreq_mfc/devfreq/17000070.devfreq_mfc";;
  devfreq "BO" "/sys/devices/platform/17000080.devfreq_bo/devfreq/17000080.devfreq_bo".

Definition addTPU : M unit :=
  call (addEnergyConsumer (MeterAndAttrConsumer OTHER "TPU" ["S10M_VDD_TPU"]
    "/sys/class/edgetpu/edgetpu-soc/device/tpu_usage" (list_to_map tpu_coeffs))).

Definition addPixelStateResidencyDataProvider : M unit :=
  let entities := [("Bluetooth", [(0, "Idle"); (1, "Active"); (2, "Tx"); (3, "Rx")])] in
  call (startPixelProvider entities);;
  add (PixelStateResidencyDataProvider entities).

Definition addDisplayMrr : M unit :=
  add (DisplayMrrStateResidencyDataProvider "Display" "/sys/class/drm/card0/device/primary-panel/").

Definition addGs101CommonDataProviders : M unit :=
  setEnergyMeter;;
  addPixelStateResidencyDataProvider;;
  addAoC;;
  addDvfsStats;;
  addSoC;;
  addCPUclusters;;
  addGPU;;
  addMobileRadio;;
  addGNSS;;
  addPCIe;;
  addWifi;;
  addUfs;;
  addPowerDomains;;
  addDevfreq;;
  addTPU.

Definition addNFC (path : string) : M unit :=
  generic path
    [mkEntity (timed "Cumulative count:" "Cumulative duration msec:" "Last entry timestamp msec:" None)
       [("IDLE", "Idle mode:"); ("ACTIVE", "Active mode:"); ("ACTIVE-RW", "Active Reader/Writer mode:")]
       "NFC" "NFC subsystem"].
End powerstats.
