(* ===== verification/PowerStatsProps.v ===== *)
(** * Properties of the power statistics providers *)
From stdpp Require Import gmap pretty.
From S2P Require Import Prelude CString Effects PowerStats.
Open Scope Z_scope.

(** ** The operating points *)

(** A state named after a frequency in MHz is found under that frequency in kHz. *)
Definition state_ok (s : string * string) : Prop :=
  match parse_dec s.1 with
  | Some mhz => s.1 = pretty mhz +:+ "MHz" /\ s.2 = pretty (mhz * 1000)
  | None => is_Some (stoi s.2)
  end.
(** The states of one entity: named consistently, in strictly falling order
    down to state 0, so that no two share a name in the kernel's file. *)
Definition states_ok (l : list (string * string)) : Prop :=
  Forall state_ok l /\ length (omap (fun s => stoi s.2) l) = length l /\
  StronglySorted Z.gt (omap (fun s => stoi s.2) l) /\ last (omap (fun s => stoi s.2) l) = Some 0.

#[export] Instance state_ok_dec s : Decision (state_ok s).
Proof. unfold state_ok. destruct (parse_dec s.1); apply _. Defined.
#[export] Instance sorted_gt_dec (l : list Z) : Decision (StronglySorted Z.gt l).
Proof.
  induction l as [|x l [IH|IH]].
  - left. constructor.
  - destruct (decide (Forall (fun y => x > y) l)) as [H|H].
    + left. by constructor.
    + right. by inversion 1.
  - right. by inversion 1.
Defined.
#[export] Instance states_ok_dec l : Decision (states_ok l).
Proof. unfold states_ok. apply _. Defined.

(** The frequencies, in kHz, of an entity's states. *)
Definition frequencies (l : list (string * string)) : list string :=
  omap (fun s => match parse_dec s.1 with Some mhz => if mhz =? 0 then None else Some s.2 | None => None end) l.

(** What a run registers. *)
Definition provider_of (e : event answer) : option provider :=
  match e with Ev q _ => match q with addStateResidencyDataProvider p => Some p | _ => None end end.
Definition consumer_of (e : event answer) : option consumer :=
  match e with Ev q _ => match q with addEnergyConsumer c => Some c | _ => None end end.
Definition rev_of (e : event answer) : option Z :=
  match e with
  | Ev q r => match q return answer q -> option Z with GetIntProperty _ _ => fun v => Some v | _ => fun _ => None end r
  end.
Definition providers (t : list (event answer)) : list provider := omap provider_of t.
Definition consumers (t : list (event answer)) : list consumer := omap consumer_of t.

Lemma providers_app t1 t2 : providers (t1 ++ t2) = providers t1 ++ providers t2.
Proof. apply omap_app. Qed.
Lemma consumers_app t1 t2 : consumers (t1 ++ t2) = consumers t1 ++ consumers t2.
Proof. apply omap_app. Qed.

Section dvfs.
Context {K : Type} `{!Oracle answer K}.
Implicit Types w : world K unit.

Lemma fvp_configs_ok rev :
  Forall (fun c => states_ok c.2) (fvp_configs rev) /\
  (fvp_configs rev).*1 = ["MIF"; "CL1"; "CL0"; "CL2"; "TPU"].
Proof.
  unfold fvp_configs. destruct (2 <=? rev); (split; [|reflexivity]);
    apply (bool_decide_unpack _); vm_compute; exact I.
Qed.

(** C33: On either chip revision the DVFS provider gets the same five entities,
    whose states are consistent: a state named "<n>MHz" is looked up as n*1000
    kHz, and the states fall strictly from the highest to the one called 0, so
    that none is counted twice. *)
Theorem dvfs_tables_correct w :
  wp addDvfsStats (fun _ _ tr => exists cfgs,
    providers tr = [DvfsStateResidencyDataProvider "/sys/devices/platform/acpm_stats/fvp_stats" 1000000 cfgs] /\
    cfgs.*1 = ["MIF"; "CL1"; "CL0"; "CL2"; "TPU"] /\ Forall (fun c => states_ok c.2) cfgs)
    (fun _ _ => False) w.
Proof.
  unfold addDvfsStats, add. wp_run. destruct (fvp_configs_ok r) as [H1 H2]. by eexists.
Qed.

(** The tables of the TPU. *)
Definition tpu_states (t : list (event answer)) : list (string * string) :=
  default [] (snd <$> List.find (fun c => streq c.1 "TPU") (concat (map (fun p => match p with
    | DvfsStateResidencyDataProvider _ _ cfgs => cfgs
    | _ => [] end) (providers t)))).
Definition tpu_consumer (t : list (event answer)) : gmap string Z :=
  default ∅ (head (omap (fun c => match c with
    | MeterAndAttrConsumer _ name _ _ coeffs => if streq name "TPU" then Some coeffs else None
    | _ => None end) (consumers t))).

#[local] Arguments fvp_configs : simpl never.
#[local] Arguments tpu_coeffs : simpl never.
#[local] Arguments list_to_map : simpl never.

Lemma tpu_lookup f c : (list_to_map tpu_coeffs : gmap string Z) !! f = Some c <-> (f, c) ∈ tpu_coeffs.
Proof. symmetry. apply elem_of_list_to_map. apply (bool_decide_unpack _). by vm_compute. Qed.
Lemma tpu_lookup_is_Some f : is_Some ((list_to_map tpu_coeffs : gmap string Z) !! f) <-> f ∈ tpu_coeffs.*1.
Proof.
  rewrite list_elem_of_fmap. split.
  - intros [c Hc%tpu_lookup]. by exists (f, c).
  - intros [[f' c] [-> H%tpu_lookup]]. by exists c.
Qed.
Lemma tpu_truncated f c : (f, c) ∈ tpu_coeffs -> exists h, (f, h) ∈ tpu_literals /\ 100 * c <= h < 100 * c + 100.
Proof.
  unfold tpu_coeffs. intros ([f' h] & [= -> ->] & Hh)%list_elem_of_fmap. exists h. split; [done|].
  assert (0 <= h) by (repeat (apply elem_of_cons in Hh as [[= -> ->]|Hh]; [lia|]); by apply elem_of_nil in Hh).
  unfold int32_of_hundredths. rewrite Z.quot_div_nonneg by lia.
  pose proof (Z.div_mod h 100). pose proof (Z.mod_pos_bound h 100). lia.
Qed.
(** The running frequencies of the TPU, on either revision. *)
Lemma tpu_frequencies rev :
  frequencies (default [] (snd <$> List.find (fun c => streq c.1 "TPU") (fvp_configs rev))) =
  if 2 <=? rev then ["1230000"; "1066000"; "800000"; "500000"; "226000"]
  else ["1393000"; "1180000"; "1049000"; "967000"; "721000"; "648000"; "455000"; "250000"].
Proof. unfold fvp_configs. by destruct (2 <=? rev); vm_compute. Qed.

(** C32: The TPU's energy is attributed by frequency with whole coefficients, the
    fractions of the literals being dropped.  On a B0 or later chip there is a
    coefficient for exactly the running frequencies of the DVFS table; on an
    earlier one for none of them, so that nothing is attributed there. *)
Theorem tpu_coefficients_correct w :
  wp (addDvfsStats;; addTPU) (fun _ _ tr => exists rev,
    rev_of <$> head tr = Some (Some rev) /\
    (forall f c, tpu_consumer tr !! f = Some c -> exists h, (f, h) ∈ tpu_literals /\ 100 * c <= h < 100 * c + 100) /\
    if 2 <=? rev then forall f, is_Some (tpu_consumer tr !! f) <-> f ∈ frequencies (tpu_states tr)
    else forall f, f ∈ frequencies (tpu_states tr) -> tpu_consumer tr !! f = None)
    (fun _ _ => False) w.
Proof.
  unfold addDvfsStats, addTPU, add. wp_run. exists r. split; [done|].
  change (tpu_consumer _) with (list_to_map tpu_coeffs : gmap string Z). split.
  { intros f c H%tpu_lookup. by apply tpu_truncated. }
  unfold tpu_states. cbn [providers omap list_omap provider_of map concat app].
  rewrite app_nil_r, tpu_frequencies.
  destruct (2 <=? r).
  - intros f. rewrite tpu_lookup_is_Some. change (tpu_coeffs.*1) with ["226000"; "500000"; "800000"; "1066000"; "1230000"].
    set_solver.
  - intros f Hf. apply eq_None_not_Some. rewrite tpu_lookup_is_Some. revert f Hf. 
    apply (Forall_forall (fun f => f ∉ tpu_coeffs.*1)). apply (bool_decide_unpack _). by vm_compute.
Qed.
End dvfs.

(** ** The entities *)

(** The names under which a provider's entities are reported.  Those of the UFS
    provider are inside the library. *)
Definition entities_of (p : provider) : list string :=
  match p with
  | AocStateResidencyDataProvider ids _ _ => ids.*1
  | DvfsStateResidencyDataProvider _ _ cfgs => cfgs.*1
  | GenericStateResidencyDataProvider _ cfgs => map entity_name cfgs
  | DevfreqStateResidencyDataProvider name _ | DisplayMrrStateResidencyDataProvider name _ => [name]
  | UfsStateResidencyDataProvider _ => []
  | PixelStateResidencyDataProvider entities => entities.*1
  end.
Definition entities (t : list (event answer)) : list string := providers t ≫= entities_of.
(** The names of the states within one entity. *)
Definition state_names (p : provider) : list (list string) :=
  match p with
  | AocStateResidencyDataProvider _ states _ => [states.*1]
  | DvfsStateResidencyDataProvider _ _ cfgs => map (fun c => c.2.*1) cfgs
  | GenericStateResidencyDataProvider _ cfgs => map (fun c => (entity_headers c).*1) cfgs
  | PixelStateResidencyDataProvider entities => map (fun e => e.2.*2) entities
  | _ => []
  end.

(** The unit of a time field, from the name the kernel gives it. *)
Definition unit_of (prefix : string) : option Z :=
  if bool_decide (is_Some (find_sub "_ns:" prefix)) then Some 1000000
  else if bool_decide (is_Some (find_sub "usec:" prefix)) then Some 1000
  else if bool_decide (is_Some (find_sub "msec:" prefix)) then Some 1 else None.
(** A field that is reported is converted from its unit to milliseconds. *)
Definition in_ms (supported : bool) (prefix : option string) (f : option (Z -> Z)) : Prop :=
  supported = true -> exists p u, prefix = Some p /\ unit_of p = Some u /\
    match f with Some f => forall a, f a = a / u | None => u = 1 end.
Definition config_in_ms (c : StateResidencyConfig) : Prop :=
  in_ms (totalTimeSupported c) (totalTimePrefix c) (totalTimeTransform c) /\
  in_ms (lastEntrySupported c) (lastEntryPrefix c) (lastEntryTransform c).
Definition provider_ok (p : provider) : Prop :=
  Forall NoDup (state_names p) /\
  match p with
  | GenericStateResidencyDataProvider _ cfgs => Forall (fun c => config_in_ms (entity_config c)) cfgs
  | _ => True
  end.

Section entities.
Context {K : Type} `{!Oracle answer K}.
Implicit Types w : world K unit.

(** [m] registers entities of these names, all of them well formed. *)
Definition registers (m : comp answer K unit unit) (names : list string) : Prop :=
  forall w, wp m (fun _ _ tr => entities tr = names /\ Forall provider_ok (providers tr)) (fun _ _ => False) w.

Lemma registers_bind m1 m2 n1 n2 :
  registers m1 n1 -> registers m2 n2 -> registers (m1;; m2) (n1 ++ n2).
Proof.
  intros H1 H2 w. wp_step. eapply wp_mono; [apply H1| |done]. intros [] w1 t1 [E1 F1].
  eapply wp_mono; [apply H2| |done]. intros [] w2 t2 [E2 F2].
  unfold entities in *. rewrite providers_app, bind_app, E1, E2. split; [done|]. by apply Forall_app.
Qed.

Lemma registers_eq m n n' : registers m n -> n = n' -> registers m n'.
Proof. by intros ? <-. Qed.

Lemma in_ms_none : in_ms false None None.
Proof. by intros ?. Qed.
Lemma in_ms_some p f u : unit_of p = Some u -> (forall a, f a = a / u) -> in_ms true (Some p) (Some f).
Proof. intros H1 H2 _. by exists p, u. Qed.
Lemma in_ms_plain p : unit_of p = Some 1 -> in_ms true (Some p) None.
Proof. intros H _. by exists p, 1. Qed.

#[local] Ltac ms := first [apply in_ms_none | by eapply in_ms_some; [vm_compute; reflexivity|intros; reflexivity] | by apply in_ms_plain].
#[local] Ltac ok_provider :=
  split; [apply (bool_decide_unpack _); by vm_compute|]; cbn [map];
  repeat (apply Forall_cons; split; [split; ms|]); first [exact I | apply Forall_nil; exact I].
#[local] Ltac registration := intros w; wp_run; split; [by vm_compute|]; cbn [providers omap list_omap provider_of];
  repeat (apply Forall_cons; split; [ok_provider|]); by apply Forall_nil.

Lemma addAoC_registers : registers addAoC ["AoC-A32"; "AoC-FF1"; "AoC-HF1"; "AoC-HF0"; "AoC-Voltage"; "AoC"; "AoC-Count"].
Proof. unfold addAoC, generic, add. registration. Qed.
Lemma addSoC_registers : registers addSoC ["LPM"; "MIF"; "MIF-REQ"; "SLC"; "SLC-REQ"].
Proof. unfold addSoC, generic, add. registration. Qed.
Lemma addDvfsStats_registers : registers addDvfsStats ["MIF"; "CL1"; "CL0"; "CL2"; "TPU"].
Proof.
  intros w. unfold addDvfsStats, add. wp_run. split.
  - unfold entities. simpl. rewrite app_nil_r. apply fvp_configs_ok.
  - cbn [providers omap list_omap provider_of]. apply Forall_cons; split; [|by apply Forall_nil].
    split; [|exact I]. unfold fvp_configs. destruct (2 <=? r); apply (bool_decide_unpack _); by vm_compute.
Qed.
Lemma addCPUclusters_registers :
  registers addCPUclusters ["CORE00"; "CORE01"; "CORE02"; "CORE03"; "CORE10"; "CORE11"; "CORE20"; "CORE21";
                            "CLUSTER0"; "CLUSTER1"; "CLUSTER2"].
Proof. unfold addCPUclusters, generic, add. registration. Qed.
Lemma addGPU_registers : registers addGPU ["GPU"].
Proof. unfold addGPU, add. registration. Qed.
Lemma addMobileRadio_registers : registers addMobileRadio ["MODEM"].
Proof. unfold addMobileRadio, generic, add. registration. Qed.
Lemma addGNSS_registers : registers addGNSS ["GPS"].
Proof. unfold addGNSS, generic, add. registration. Qed.
Lemma addPCIe_registers : registers addPCIe ["PCIe-Modem"; "PCIe-WiFi"].
Proof. unfold addPCIe, generic, add. registration. Qed.
Lemma addWifi_registers : registers addWifi ["WIFI"; "WIFI-PCIE"].
Proof. unfold addWifi, generic, add. registration. Qed.
Lemma addUfs_registers : registers addUfs [].
Proof. unfold addUfs, add. registration. Qed.
Lemma addPowerDomains_registers :
  registers addPowerDomains
    ["pd-tpu"; "pd-bo"; "pd-tnr"; "pd-gdc"; "pd-mcsc"; "pd-ipp"; "pd-g3aa"; "pd-dns"; "pd-itp"; "pd-pdp";
     "pd-csis"; "pd-mfc"; "pd-g2d"; "pd-dpu"; "pd-disp"; "pd-hsi0"; "pd-embedded_g3d"; "pd-g3d"; "pd-eh"].
Proof. unfold addPowerDomains, generic, add. registration. Qed.
Lemma addDevfreq_registers : registers addDevfreq ["INT"; "INTCAM"; "DISP"; "CAM"; "TNR"; "MFC"; "BO"].
Proof. unfold addDevfreq, add. registration. Qed.
Lemma addTPU_registers : registers addTPU [].
Proof. unfold addTPU. registration. Qed.
Lemma setEnergyMeter_registers : registers setEnergyMeter [].
Proof. unfold setEnergyMeter. registration. Qed.
Lemma addPixel_registers : registers addPixelStateResidencyDataProvider ["Bluetooth"].
Proof. unfold addPixelStateResidencyDataProvider, add. registration. Qed.
Lemma addDisplayMrr_registers : registers addDisplayMrr ["Display"].
Proof. unfold addDisplayMrr, add. registration. Qed.
Lemma addNFC_registers path : registers (addNFC path) ["NFC"].
Proof. unfold addNFC, generic, add. registration. Qed.

Lemma all_register path :
  registers (addGs101CommonDataProviders;; addDisplayMrr;; addNFC path)
    ((["Bluetooth"] ++
      ["AoC-A32"; "AoC-FF1"; "AoC-HF1"; "AoC-HF0"; "AoC-Voltage"; "AoC"; "AoC-Count"] ++
      ["MIF"; "CL1"; "CL0"; "CL2"; "TPU"] ++ ["LPM"; "MIF"; "MIF-REQ"; "SLC"; "SLC-REQ"] ++
      ["CORE00"; "CORE01"; "CORE02"; "CORE03"; "CORE10"; "CORE11"; "CORE20"; "CORE21";
       "CLUSTER0"; "CLUSTER1"; "CLUSTER2"] ++ ["GPU"] ++ ["MODEM"] ++ ["GPS"] ++
      ["PCIe-Modem"; "PCIe-WiFi"] ++ ["WIFI"; "WIFI-PCIE"] ++
      ["pd-tpu"; "pd-bo"; "pd-tnr"; "pd-gdc"; "pd-mcsc"; "pd-ipp"; "pd-g3aa"; "pd-dns"; "pd-itp"; "pd-pdp";
       "pd-csis"; "pd-mfc"; "pd-g2d"; "pd-dpu"; "pd-disp"; "pd-hsi0"; "pd-embedded_g3d"; "pd-g3d"; "pd-eh"] ++
      ["INT"; "INTCAM"; "DISP"; "CAM"; "TNR"; "MFC"; "BO"]) ++ ["Display"] ++ ["NFC"]).
Proof.
  eapply registers_eq; [unfold addGs101CommonDataProviders; repeat (first
    [ apply setEnergyMeter_registers | apply addPixel_registers | apply addAoC_registers
    | apply addDvfsStats_registers | apply addSoC_registers | apply addCPUclusters_registers
    | apply addGPU_registers | apply addMobileRadio_registers | apply addGNSS_registers | apply addPCIe_registers
    | apply addWifi_registers | apply addUfs_registers | apply addPowerDomains_registers
    | apply addDevfreq_registers | apply addTPU_registers | apply addDisplayMrr_registers | apply addNFC_registers
    | eapply registers_bind ])
  | reflexivity].
Qed.

(** C31: A device that registers everything, the display and NFC included, gets
    providers that are all well formed, on either chip revision: no entity has
    two states of one name, and every time that is reported is converted to
    milliseconds from the unit its field is named after.  The entities have
    distinct names, with one exception: MIF is registered by both the DVFS and
    the SoC provider. *)
Theorem entities_registered path w :
  wp (addGs101CommonDataProviders;; addDisplayMrr;; addNFC path) (fun _ _ tr =>
    Forall provider_ok (providers tr) /\
    NoDup (filter (fun name => name <> "MIF") (entities tr)) /\ count_eq "MIF" (entities tr) = 2%nat)
    (fun _ _ => False) w.
Proof.
  eapply wp_mono; [apply (all_register path)| |done]. intros [] w' tr [-> H]. split; [done|].
  split; [apply (bool_decide_unpack _); by vm_compute|]. by vm_compute.
Qed.
End entities.
